(** * FlowDocs plugin: response parsing, error classification and orchestration

    A shallow embedding of the host-side script of the plugin
    ([src/main/main.ts], both revisions kept in the repository, and
    [canvas.ts]) together with the properties its specification states.

    JavaScript strings are sequences of UTF-16 code units; a code unit is a
    binary natural number and a string is a list of them, so every string
    the program can receive is covered.  String literals of the source are
    written [u "..."]. *)

From Stdlib Require Import NArith ZArith Lia Bool List Ascii String DecimalString.
From stdpp Require Import gmap strings.

Local Open Scope N_scope.
Set Warnings "-register-all".

Abbreviation jstring := (list N).

(** The code units of an ASCII literal. *)
Definition u (s : string) : jstring :=
  map N_of_ascii (list_ascii_of_string s).

(** ** Results of computations that may throw *)

Inductive Res (E A : Type) : Type :=
| Ok (a : A)
| Throw (e : E).
Arguments Ok {E A} a.
Arguments Throw {E A} e.

(** * JavaScript string primitives *)

Module JS.

(** [WhiteSpace] and [LineTerminator] of ECMAScript: what [trim] removes
    and what [\s] matches. *)
Definition isLineTerminator (c : N) : bool :=
  (c =? 10) || (c =? 13) || (c =? 0x2028) || (c =? 0x2029).

Definition isWhiteSpace (c : N) : bool :=
  (c =? 9) || (c =? 11) || (c =? 12) || (c =? 32) || (c =? 160)
  || (c =? 0xFEFF) || (c =? 0x1680) || ((0x2000 <=? c) && (c <=? 0x200A))
  || (c =? 0x202F) || (c =? 0x205F) || (c =? 0x3000).

Definition isSpace (c : N) : bool := isWhiteSpace c || isLineTerminator c.

Fixpoint trimStart (s : jstring) : jstring :=
  match s with
  | c :: s' => if isSpace c then trimStart s' else s
  | [] => []
  end.

Definition trimEnd (s : jstring) : jstring := rev (trimStart (rev s)).

Definition trim (s : jstring) : jstring := trimEnd (trimStart s).

(** [s.startsWith(d)] *)
Fixpoint startsWith (d s : jstring) : bool :=
  match d, s with
  | [], _ => true
  | a :: d', b :: s' => (a =? b) && startsWith d' s'
  | _ :: _, [] => false
  end.

(** [s.includes(d)] *)
Fixpoint includes (s d : jstring) : bool :=
  startsWith d s ||
  match s with
  | [] => false
  | _ :: s' => includes s' d
  end.

(** [s.split(d)] for a non-empty separator [d]: [skip] counts the code
    units of a separator still to be passed over, [cur] holds the piece
    being read, last code unit first. *)
Fixpoint split_go (d s : jstring) (skip : nat) (cur : jstring) : list jstring :=
  match s with
  | [] => [rev cur]
  | c :: s' =>
      match skip with
      | S k => split_go d s' k cur
      | O =>
          if startsWith d s
          then rev cur :: split_go d s' (length d - 1) []
          else split_go d s' O (c :: cur)
      end
  end.

Definition split (s d : jstring) : list jstring := split_go d s O [].

(** [pieces.join(d)] *)
Fixpoint join (d : jstring) (l : list jstring) : jstring :=
  match l with
  | [] => []
  | [x] => x
  | x :: l' => x ++ d ++ join d l'
  end.

(** [s.slice(0, n)] for [n >= 0] *)
Definition slice0 (n : nat) (s : jstring) : jstring := take n s.

(** [s.toLowerCase()].  The ASCII and Latin-1 capitals move by 32; U+0130
    becomes [i] followed by U+0307 and the Kelvin sign U+212A becomes [k];
    these are the only code units whose lower case contains an ASCII
    letter.  Every other code unit is left as it is: its lower case holds
    no ASCII code unit, and the program only searches the result for
    ASCII texts. *)
Definition lowerUnit (c : N) : jstring :=
  if (65 <=? c) && (c <=? 90) then [c + 32]
  else if (192 <=? c) && (c <=? 222) && negb (c =? 215) then [c + 32]
  else if c =? 0x130 then [105; 0x307]
  else if c =? 0x212A then [107]
  else [c].

Definition toLowerCase (s : jstring) : jstring := concat (map lowerUnit s).

(** ASCII case folding, used by the [i] flag of regular expressions on
    ASCII pattern characters. *)
Definition foldAscii (c : N) : N :=
  if (65 <=? c) && (c <=? 90) then c + 32 else c.

(** What the model takes from the JavaScript engine instead of computing
    it.  [upperCase c]: the text of [String.fromCharCode(c).toUpperCase()]
    for a code unit [c] above Latin-1 (the upper case mapping of Unicode).
    [inherited name]: the text of [`${({})[name]}`] when [name] names a
    member that a plain object inherits from [Object.prototype]
    ([constructor], [toString], [__proto__], ...), and [None] for every
    other name. *)
Record Engine : Type := {
  upperCase : N -> jstring;
  inherited : jstring -> option jstring
}.

(** [String(n)] for a natural number *)
Definition natToString (n : N) : jstring :=
  u (NilZero.string_of_uint (N.to_uint n)).

End JS.

(** * Regular expressions

    The regular expressions of the source are kept as data and run by a
    backtracking matcher with the priorities of ECMAScript: a sequence
    tries its left part first, an alternative its left branch first, a
    star as many rounds as it can (a round that consumes nothing is
    refused).  The matcher is written in continuation-passing style; the
    continuation receives the code unit before the current position, the
    rest of the input and the text of capture group 1. *)

Module Regex.

Inductive regex : Type :=
| Eps
| Chr (p : N -> bool)
| Seq (r1 r2 : regex)
| Alt (r1 r2 : regex)
| Star (r : regex)
| Bol
| Eol
| Cap (r : regex).

Definition Plus (r : regex) : regex := Seq r (Star r).
Definition Opt (r : regex) : regex := Alt r Eps.

Definition lit1 (c : N) : regex := Chr (N.eqb c).
(** An ASCII character under the [i] flag. *)
Definition lit1i (c : N) : regex :=
  Chr (fun x => JS.foldAscii x =? JS.foldAscii c).

Fixpoint seqs (l : list regex) : regex :=
  match l with
  | [] => Eps
  | [r] => r
  | r :: l' => Seq r (seqs l')
  end.

Definition lit (s : string) : regex := seqs (map lit1 (u s)).
Definition liti (s : string) : regex := seqs (map lit1i (u s)).

(** [\s], [\d] and [[\s\S]] *)
Definition ws : regex := Chr JS.isSpace.
Definition digit : regex := Chr (fun c => (48 <=? c) && (c <=? 57)).
Definition any : regex := Chr (fun _ => true).

Definition cont (R : Type) : Type := option N -> jstring -> option jstring -> option R.

(** [^] and [$]: with the [m] flag they also hold next to a line
    terminator. *)
Definition at_bol (m : bool) (prev : option N) : bool :=
  match prev with
  | None => true
  | Some c => m && JS.isLineTerminator c
  end.

Definition at_eol (m : bool) (s : jstring) : bool :=
  match s with
  | [] => true
  | c :: _ => m && JS.isLineTerminator c
  end.

(** The rounds of a star over [body]; [n] bounds the number of rounds,
    each of which shortens the input. *)
Fixpoint star_loop {R} (body : option N -> jstring -> option jstring -> cont R -> option R)
    (n : nat) (prev : option N) (s : jstring) (cap : option jstring)
    (k : cont R) : option R :=
  match n with
  | O => k prev s cap
  | S n' =>
      match body prev s cap
              (fun prev' s' cap' =>
                 if (length s' <? length s)%nat
                 then star_loop body n' prev' s' cap' k
                 else None) with
      | Some x => Some x
      | None => k prev s cap
      end
  end.

Fixpoint go {R} (m : bool) (r : regex) (prev : option N) (s : jstring)
    (cap : option jstring) (k : cont R) : option R :=
  match r with
  | Eps => k prev s cap
  | Chr p =>
      match s with
      | c :: s' => if p c then k (Some c) s' cap else None
      | [] => None
      end
  | Seq r1 r2 =>
      go m r1 prev s cap (fun prev' s' cap' => go m r2 prev' s' cap' k)
  | Alt r1 r2 =>
      match go m r1 prev s cap k with
      | Some x => Some x
      | None => go m r2 prev s cap k
      end
  | Star r1 => star_loop (go m r1) (S (length s)) prev s cap k
  | Bol => if at_bol m prev then k prev s cap else None
  | Eol => if at_eol m s then k prev s cap else None
  | Cap r1 =>
      go m r1 prev s cap
        (fun prev' s' _ => k prev' s' (Some (take (length s - length s') s)))
  end.

(** One successful match: the text skipped before it, the matched text,
    the rest of the input, the code unit before the rest, and group 1. *)
Record found : Type := Found {
  before : jstring;
  matched : jstring;
  rest : jstring;
  rest_prev : option N;
  group1 : option jstring
}.

Definition match_here (m : bool) (r : regex) (prev : option N) (s : jstring)
  : option found :=
  go m r prev s None
    (fun prev' s' cap =>
       Some (Found [] (take (length s - length s') s) s' prev' cap)).

(** The leftmost match at or after the current position. *)
Fixpoint search (m : bool) (r : regex) (prev : option N) (s : jstring)
  : option found :=
  match match_here m r prev s with
  | Some f => Some f
  | None =>
      match s with
      | [] => None
      | c :: s' =>
          match search m r (Some c) s' with
          | Some f => Some (Found (c :: before f) (matched f) (rest f)
                              (rest_prev f) (group1 f))
          | None => None
          end
      end
  end.

(** [r.test(s)] and [s.match(r)] for a regular expression without the
    [g] flag. *)
Definition test (m : bool) (r : regex) (s : jstring) : bool :=
  match search m r None s with Some _ => true | None => false end.

Definition exec (m : bool) (r : regex) (s : jstring) : option found :=
  search m r None s.

(** [s.replace(r, rep)] without the [g] flag: the first match only. *)
Definition replace1 (m : bool) (r : regex) (rep s : jstring) : jstring :=
  match search m r None s with
  | Some f => before f ++ rep ++ rest f
  | None => s
  end.

(** [s.replace(r, rep)] with the [g] flag.  After an empty match the
    search moves on by one code unit, which is copied to the output. *)
Fixpoint replace_go (m : bool) (r : regex) (rep : jstring) (n : nat)
    (prev : option N) (s : jstring) : jstring :=
  match n with
  | O => s
  | S n' =>
      match search m r prev s with
      | None => s
      | Some f =>
          match matched f, rest f with
          | [], [] => before f ++ rep
          | [], c :: s' =>
              before f ++ rep ++ c :: replace_go m r rep n' (Some c) s'
          | _ :: _, s' =>
              before f ++ rep ++ replace_go m r rep n' (rest_prev f) s'
          end
      end
  end.

Definition replaceAll (m : bool) (r : regex) (rep s : jstring) : jstring :=
  replace_go m r rep (S (length s)) None s.

End Regex.

(** * JSON

    [JSON.parse] is a library function of the host; it is modelled by a
    lexer that reads the text one code unit at a time and a stack parser
    that reads the tokens one at a time, so that it is total.  A number is
    kept as the decimal it was written as. *)

Module JSON.

Record number : Type := Num { n_neg : bool; n_mant : N; n_exp : Z }.

Inductive json : Type :=
| JNull
| JBool (b : bool)
| JNumber (n : number)
| JString (s : jstring)
| JArray (l : list json)
| JObject (l : list (jstring * json)).

(** ** Lexer *)

Inductive token : Type :=
| TLBrace | TRBrace | TLBracket | TRBracket | TColon | TComma
| TStr (s : jstring) | TNum (n : number) | TTrue | TFalse | TNull.

Inductive numphase : Type :=
| NMinus | NZero | NInt | NDot | NFrac | NE | NESign | NExp.

Inductive lstate : Type :=
| LStart
| LString (acc : jstring)
| LEscape (acc : jstring)
| LUnicode (k : nat) (v : N) (acc : jstring)
| LNumber (ph : numphase) (neg : bool) (mant : N) (frac : N) (eneg : bool) (e : N)
| LWord (remaining : jstring) (t : token).

Definition isDigit (c : N) : bool := (48 <=? c) && (c <=? 57).

Definition hexValue (c : N) : option N :=
  if isDigit c then Some (c - 48)
  else if (97 <=? c) && (c <=? 102) then Some (c - 87)
  else if (65 <=? c) && (c <=? 70) then Some (c - 55)
  else None.

Definition mkNumber (neg : bool) (mant frac : N) (eneg : bool) (e : N) : number :=
  Num neg mant ((if eneg then - Z.of_N e else Z.of_N e) - Z.of_N frac)%Z.

Definition numberDone (ph : numphase) : bool :=
  match ph with
  | NZero | NInt | NFrac | NExp => true
  | _ => false
  end.

(** A code unit read between two tokens. *)
Definition lexStart (c : N) (out : list token) : option (lstate * list token) :=
  if (c =? 32) || (c =? 9) || (c =? 10) || (c =? 13) then Some (LStart, out)
  else if c =? 123 then Some (LStart, TLBrace :: out)
  else if c =? 125 then Some (LStart, TRBrace :: out)
  else if c =? 91 then Some (LStart, TLBracket :: out)
  else if c =? 93 then Some (LStart, TRBracket :: out)
  else if c =? 58 then Some (LStart, TColon :: out)
  else if c =? 44 then Some (LStart, TComma :: out)
  else if c =? 34 then Some (LString [], out)
  else if c =? 45 then Some (LNumber NMinus true 0 0 false 0, out)
  else if c =? 48 then Some (LNumber NZero false 0 0 false 0, out)
  else if isDigit c then Some (LNumber NInt false (c - 48) 0 false 0, out)
  else if c =? 116 then Some (LWord (u "rue") TTrue, out)
  else if c =? 102 then Some (LWord (u "alse") TFalse, out)
  else if c =? 110 then Some (LWord (u "ull") TNull, out)
  else None.

Definition isExpMark (c : N) : bool := (c =? 101) || (c =? 69).

Definition lexNumber (ph : numphase) (neg : bool) (mant frac : N) (eneg : bool)
    (e : N) (c : N) (out : list token) : option (lstate * list token) :=
  let finish := lexStart c (TNum (mkNumber neg mant frac eneg e) :: out) in
  match ph with
  | NMinus =>
      if c =? 48 then Some (LNumber NZero neg 0 0 false 0, out)
      else if isDigit c then Some (LNumber NInt neg (c - 48) 0 false 0, out)
      else None
  | NZero =>
      if c =? 46 then Some (LNumber NDot neg mant frac eneg e, out)
      else if isExpMark c then Some (LNumber NE neg mant frac eneg e, out)
      else finish
  | NInt =>
      if isDigit c then Some (LNumber NInt neg (mant * 10 + (c - 48)) frac eneg e, out)
      else if c =? 46 then Some (LNumber NDot neg mant frac eneg e, out)
      else if isExpMark c then Some (LNumber NE neg mant frac eneg e, out)
      else finish
  | NDot =>
      if isDigit c
      then Some (LNumber NFrac neg (mant * 10 + (c - 48)) (frac + 1) eneg e, out)
      else None
  | NFrac =>
      if isDigit c
      then Some (LNumber NFrac neg (mant * 10 + (c - 48)) (frac + 1) eneg e, out)
      else if isExpMark c then Some (LNumber NE neg mant frac eneg e, out)
      else finish
  | NE =>
      if c =? 43 then Some (LNumber NESign neg mant frac false e, out)
      else if c =? 45 then Some (LNumber NESign neg mant frac true e, out)
      else if isDigit c then Some (LNumber NExp neg mant frac eneg (c - 48), out)
      else None
  | NESign =>
      if isDigit c then Some (LNumber NExp neg mant frac eneg (c - 48), out)
      else None
  | NExp =>
      if isDigit c then Some (LNumber NExp neg mant frac eneg (e * 10 + (c - 48)), out)
      else finish
  end.

Definition lexStep (st : lstate) (c : N) (out : list token)
  : option (lstate * list token) :=
  match st with
  | LStart => lexStart c out
  | LString acc =>
      if c =? 34 then Some (LStart, TStr (rev acc) :: out)
      else if c =? 92 then Some (LEscape acc, out)
      else if c <? 32 then None
      else Some (LString (c :: acc), out)
  | LEscape acc =>
      if (c =? 34) || (c =? 92) || (c =? 47) then Some (LString (c :: acc), out)
      else if c =? 98 then Some (LString (8 :: acc), out)
      else if c =? 102 then Some (LString (12 :: acc), out)
      else if c =? 110 then Some (LString (10 :: acc), out)
      else if c =? 114 then Some (LString (13 :: acc), out)
      else if c =? 116 then Some (LString (9 :: acc), out)
      else if c =? 117 then Some (LUnicode 0 0 acc, out)
      else None
  | LUnicode k v acc =>
      match hexValue c with
      | None => None
      | Some h =>
          let v' := v * 16 + h in
          Some (if (k =? 3)%nat then LString (v' :: acc) else LUnicode (S k) v' acc, out)
      end
  | LNumber ph neg mant frac eneg e => lexNumber ph neg mant frac eneg e c out
  | LWord remaining t =>
      match remaining with
      | [] => None
      | c' :: remaining' =>
          if c =? c'
          then Some (match remaining' with
                     | [] => (LStart, t :: out)
                     | _ => (LWord remaining' t, out)
                     end)
          else None
      end
  end.

Fixpoint lexGo (st : lstate) (out : list token) (s : jstring) : option (list token) :=
  match s with
  | c :: s' =>
      match lexStep st c out with
      | Some (st', out') => lexGo st' out' s'
      | None => None
      end
  | [] =>
      match st with
      | LStart => Some (rev out)
      | LNumber ph neg mant frac eneg e =>
          if numberDone ph then Some (rev (TNum (mkNumber neg mant frac eneg e) :: out))
          else None
      | _ => None
      end
  end.

Definition lex (s : jstring) : option (list token) := lexGo LStart [] s.

(** ** Parser *)

Inductive frame : Type :=
| FArr (done : list json)
| FObj (done : list (jstring * json)) (key : jstring).

Inductive pstate : Type :=
| PValue (stk : list frame)
| PArrStart (stk : list frame)
| PObjStart (stk : list frame)
| PObjKey (done : list (jstring * json)) (stk : list frame)
| PColon (done : list (jstring * json)) (key : jstring) (stk : list frame)
| PArrNext (done : list json) (stk : list frame)
| PObjNext (done : list (jstring * json)) (stk : list frame)
| PDone (v : json).

(** A value is complete: it goes to the container on top of the stack. *)
Definition finish (v : json) (stk : list frame) : pstate :=
  match stk with
  | [] => PDone v
  | FArr done :: stk' => PArrNext (v :: done) stk'
  | FObj done key :: stk' => PObjNext ((key, v) :: done) stk'
  end.

Definition valueToken (stk : list frame) (t : token) : option pstate :=
  match t with
  | TStr s => Some (finish (JString s) stk)
  | TNum n => Some (finish (JNumber n) stk)
  | TTrue => Some (finish (JBool true) stk)
  | TFalse => Some (finish (JBool false) stk)
  | TNull => Some (finish JNull stk)
  | TLBracket => Some (PArrStart stk)
  | TLBrace => Some (PObjStart stk)
  | _ => None
  end.

Definition parseStep (st : pstate) (t : token) : option pstate :=
  match st with
  | PValue stk => valueToken stk t
  | PArrStart stk =>
      match t with
      | TRBracket => Some (finish (JArray []) stk)
      | _ => valueToken (FArr [] :: stk) t
      end
  | PObjStart stk =>
      match t with
      | TRBrace => Some (finish (JObject []) stk)
      | TStr k => Some (PColon [] k stk)
      | _ => None
      end
  | PObjKey done stk =>
      match t with
      | TStr k => Some (PColon done k stk)
      | _ => None
      end
  | PColon done k stk =>
      match t with
      | TColon => Some (PValue (FObj done k :: stk))
      | _ => None
      end
  | PArrNext done stk =>
      match t with
      | TComma => Some (PValue (FArr done :: stk))
      | TRBracket => Some (finish (JArray (rev done)) stk)
      | _ => None
      end
  | PObjNext done stk =>
      match t with
      | TComma => Some (PObjKey done stk)
      | TRBrace => Some (finish (JObject (rev done)) stk)
      | _ => None
      end
  | PDone _ => None
  end.

Fixpoint parseGo (st : pstate) (ts : list token) : option json :=
  match ts with
  | t :: ts' =>
      match parseStep st t with
      | Some st' => parseGo st' ts'
      | None => None
      end
  | [] =>
      match st with
      | PDone v => Some v
      | _ => None
      end
  end.

(** [JSON.parse(s)]: [None] stands for the [SyntaxError] it throws. *)
Definition parse (s : jstring) : option json :=
  match lex s with
  | Some ts => parseGo (PValue []) ts
  | None => None
  end.

(** ** Reading parsed values *)

(** The own property [key] of an object built by [JSON.parse]: of two
    members with one name the later one stays. *)
Fixpoint lookup (key : jstring) (l : list (jstring * json)) : option json :=
  match l with
  | [] => None
  | (k, v) :: l' =>
      match lookup key l' with
      | Some v' => Some v'
      | None => if bool_decide (k = key) then Some v else None
      end
  end.

(** A number literal whose value rounds to zero: zero itself, or a value
    of at most 2^-1075, half the least positive double. *)
Definition numberIsZero (n : number) : bool :=
  (n_mant n =? 0) ||
  ((n_exp n <? 0)%Z &&
   (Z.of_N (n_mant n) * 2 ^ 1075 <=? 10 ^ (- n_exp n))%Z).

(** ToBoolean *)
Definition truthy (v : json) : bool :=
  match v with
  | JNull => false
  | JBool b => b
  | JNumber n => negb (numberIsZero n)
  | JString s => negb (bool_decide (s = []))
  | JArray _ | JObject _ => true
  end.

Definition isNumber (v : option json) : bool :=
  match v with Some (JNumber _) => true | _ => false end.

End JSON.

(** * The documentation section parser ([canvas.ts]) *)

Module Canvas.
Import Regex.

Definition hashes : regex := Plus (lit1 35).

(** [/^#+\s*TITLE\s*$/i], where [title] is the part between the two
    [\s*]. *)
Definition header (title : list regex) : regex :=
  seqs ([Bol; hashes; Star ws] ++ title ++ [Star ws; Eol]).

(** [SECTION_HEADERS]: section header patterns, in the order of the
    source (the first match wins).  All carry the [i] flag and none the
    [m] flag; their groups are only tested, never read. *)
Definition SECTION_HEADERS : list (jstring * regex) :=
  [ (u "Purpose", header [liti "Purpose"]);
    (u "Use Cases", header [liti "Use Cases"]);
    (u "Edge Cases & Results",
      header [liti "Edge Cases"; Star ws;
              Opt (seqs [liti "&"; Star ws; liti "Results"])]);
    (u "Platform Constraints",
      header [liti "Platform"; Star ws; liti "Constraints"; Star ws;
              Opt (Alt (liti "(iOS)") (liti "(Android)"))]);
    (u "Data Logic & Edge Cases",
      header [liti "Data"; Star ws; liti "Logic"; Star ws;
              Opt (seqs [liti "&"; Star ws; liti "Edge"; Star ws; liti "Cases"])]);
    (u "Link to Component Library", header [liti "Link to Component Library"]);
    (u "Animations & Interactions",
      header [liti "Animations"; Star ws;
              Opt (seqs [liti "&"; Star ws; liti "Interactions"])]);
    (u "Attachments", header [liti "Attachments"]) ].

Definition nl : jstring := [10].

Definition attachmentsDefault : jstring :=
  u "Design specs: _____________________ (add link)" ++ nl ++ nl ++
  u "Assets: _____________________ (add link)" ++ nl ++ nl ++
  u "Other: _____________________ (add link)".

(** The record [sections] as [parseDocSections] first builds it. *)
Definition defaultSections : gmap jstring jstring :=
  <[u "Purpose" := []]>
  (<[u "Use Cases" := []]>
  (<[u "Edge Cases & Results" := []]>
  (<[u "Platform Constraints" := []]>
  (<[u "Data Logic & Edge Cases" := []]>
  (<[u "Link to Component Library" := u "_____________________ (add link here)"]>
  (<[u "Animations & Interactions" := []]>
  (<[u "Attachments" := attachmentsDefault]> ∅))))))).

(** [SECTION_HEADERS.find((h) => h.pattern.test(trimmed))] *)
Fixpoint findHeader (hs : list (jstring * regex)) (trimmed : jstring)
  : option jstring :=
  match hs with
  | [] => None
  | (key, pattern) :: hs' =>
      if test false pattern trimmed then Some key else findHeader hs' trimmed
  end.

(** [/^#+\s*/gm], [/\s*#+\s*$/gm], [/\n#+\s*/g] and [/\r\n/g] *)
Definition reLineHashes : regex := seqs [Bol; hashes; Star ws].
Definition reTrailingHashes : regex := seqs [Star ws; hashes; Star ws; Eol].
Definition reNewlineHashes : regex := seqs [lit1 10; hashes; Star ws].
Definition reCRLF : regex := Seq (lit1 13) (lit1 10).

(** The text a section holds when its lines are [currentLines]. *)
Definition sectionContent (currentLines : list jstring) : jstring :=
  let content := JS.trim (JS.join nl currentLines) in
  JS.trim (replaceAll true reTrailingHashes []
             (replaceAll true reLineHashes [] content)).

(** The state of the scan: the record, the open section and its lines. *)
Record scan : Type := Scan {
  sections : gmap jstring jstring;
  currentKey : option jstring;
  currentLines : list jstring
}.

Definition flush (st : scan) : gmap jstring jstring :=
  match currentKey st with
  | None => sections st
  | Some key =>
      let content := sectionContent (currentLines st) in
      match content with
      | [] => sections st
      | _ :: _ => <[key := content]> (sections st)
      end
  end.

(** One round of the loop over the lines. *)
Definition scanLine (st : scan) (line : jstring) : scan :=
  match findHeader SECTION_HEADERS (JS.trim line) with
  | Some key => Scan (flush st) (Some key) []
  | None =>
      match currentKey st with
      | Some _ => Scan (sections st) (currentKey st) (currentLines st ++ [line])
      | None => st
      end
  end.

(** The last pass over every value of the record. *)
Definition stripResidual (v : jstring) : jstring :=
  JS.trim (replaceAll false reNewlineHashes nl
             (replaceAll true reLineHashes [] v)).

Definition docLines (fullDoc : jstring) : list jstring :=
  JS.split (replaceAll false reCRLF nl fullDoc) nl.

(** The scan of the lines and the last pass. *)
Definition parseLines (lines : list jstring) : gmap jstring jstring :=
  let st := fold_left scanLine lines (Scan defaultSections None []) in
  stripResidual <$> flush st.

Definition parseDocSections (fullDoc : jstring) : gmap jstring jstring :=
  parseLines (docLines fullDoc).

(** The keys of the record. *)
Definition SECTION_KEYS : list jstring := map fst SECTION_HEADERS.

End Canvas.
(** * Values that are thrown *)

Inductive ErrorKind : Type := PlainError | TypeError | SyntaxError.

(** What a [catch] clause can receive: an [Error] instance with its
    message, another object (with the members the classifier reads), or
    any other value, given by its [String(error)]. *)
Inductive JsError : Type :=
| ErrInstance (kind : ErrorKind) (message : jstring)
| ErrObject (message error reason statusText : option jstring) (status : option N)
| ErrValue (str : jstring).

Definition newError (message : jstring) : JsError := ErrInstance PlainError message.

(** The errors the engine itself raises; their message text is the
    engine's and is never read by the program while the error is caught
    where it arises. *)
Definition syntaxError : JsError := ErrInstance SyntaxError (u "Unexpected token in JSON").
Definition typeError : JsError := ErrInstance TypeError (u "Cannot read properties").

Abbreviation Result := (Res JsError).

Definition bindR {A B} (x : Result A) (f : A -> Result B) : Result B :=
  match x with
  | Ok a => f a
  | Throw e => Throw e
  end.

(** [try { body } catch { handler }] *)
Definition tryCatch {A} (body : Result A) (handler : JsError -> Result A) : Result A :=
  match body with
  | Ok a => Ok a
  | Throw e => handler e
  end.

(** * Parsing the vendor's answers ([main.ts], the same in both revisions) *)

Module Parser.
Import Regex JSON.

(** [JSON.parse(s)], which throws a [SyntaxError] on a malformed text. *)
Definition JSON_parse (s : jstring) : Result json :=
  match parse s with
  | Some v => Ok v
  | None => Throw syntaxError
  end.

(** [v.key] for a parsed value [v]: a [TypeError] on [null], [undefined]
    ([None]) when the member is absent.  Only names that no prototype
    defines are read this way. *)
Definition getProp (v : json) (key : jstring) : Result (option json) :=
  match v with
  | JNull => Throw typeError
  | JObject l => Ok (lookup key l)
  | _ => Ok None
  end.

Definition EDGE_DELIMITER : jstring := u "---EDGE-CASES---".

(** [/\{[\s\S]*\}/] *)
Definition reBraces : regex := seqs [lit1 123; Star any; lit1 125].

(** [edgeSplit[0]]: reading a member of [undefined] would throw. *)
Definition first (l : list jstring) : Result jstring :=
  match l with
  | x :: _ => Ok x
  | [] => Throw typeError
  end.

(** The body of the [try] block that reads the missing screens. *)
Definition readMissingScreens (text : jstring) : Result (list json) :=
  bindR (JSON_parse text) (fun parsed =>
  bindR (getProp parsed (u "missing_screens")) (fun ms =>
  Ok (match ms with
      | Some (JArray l) => l
      | _ => []
      end))).

(** The block [if (edgePart) { ... }]: the missing screens read from the
    trimmed text after the delimiter. *)
Definition missingScreensOf (edgePart : jstring) : Result (list json) :=
  match edgePart with
  | [] => Ok []
  | _ :: _ =>
      match exec false reBraces edgePart with
      | Some jsonMatch =>
          tryCatch (readMissingScreens (matched jsonMatch)) (fun _ => Ok [])
      | None => Ok []
      end
  end.

(** The part of [runScanFlowWithEdgeCases] that follows the vendor's
    answer [text], up to [missingScreens]: the flow text and the missing
    screens. *)
Definition parseEdgeCases (text : jstring) : Result (jstring * list json) :=
  let edgeSplit := JS.split text EDGE_DELIMITER in
  bindR (first edgeSplit) (fun part0 =>
  let flowText := JS.trim part0 in
  let edgePart := JS.trim (nth 1 edgeSplit []) in
  bindR (missingScreensOf edgePart) (fun missingScreens =>
  Ok (flowText, missingScreens))).

(** [/^```(?:json)?\s*/i] and [/\s*```$/i] *)
Definition reFenceOpen : regex :=
  seqs [Bol; lit "```"; Opt (liti "json"); Star ws].
Definition reFenceClose : regex := seqs [Star ws; lit "```"; Eol].

(** The test of [parseVisualScreenSpec] on the parsed value. *)
Definition acceptSpec (parsed : json) : Result bool :=
  bindR (getProp parsed (u "name")) (fun name =>
  bindR (getProp parsed (u "width")) (fun width =>
  bindR (getProp parsed (u "height")) (fun height =>
  Ok (match name with Some v => truthy v | None => false end
      && isNumber width && isNumber height)))).

(** The first lines of [parseVisualScreenSpec]: the text trimmed, then
    without an opening and a closing code fence. *)
Definition stripFences (raw : jstring) : jstring :=
  let cleaned := JS.trim raw in
  replace1 false reFenceClose [] (replace1 false reFenceOpen [] cleaned).

(** [parseVisualScreenSpec]: [None] is the [null] it returns. *)
Definition parseVisualScreenSpec (raw : jstring) : Result (option json) :=
  let cleaned := stripFences raw in
  match exec false reBraces cleaned with
  | None => Ok None
  | Some m =>
      tryCatch
        (bindR (JSON_parse (matched m)) (fun parsed =>
         bindR (acceptSpec parsed) (fun ok =>
         Ok (if ok then Some parsed else None))))
        (fun _ => Ok None)
  end.

(** ** Missing screens as the program types them

    [MissingScreenItem], with the severity as the text the vendor wrote:
    the cast in [runScanFlowWithEdgeCases] checks nothing. *)
Record MissingScreenItem : Type := Item {
  name : jstring;
  reason : jstring;
  components_needed : list jstring;
  severity : jstring;
  reference_screen : jstring
}.

Fixpoint asStrings (l : list json) : option (list jstring) :=
  match l with
  | [] => Some []
  | JString s :: l' => option_map (cons s) (asStrings l')
  | _ => None
  end.

(** The entry [v] read as a [MissingScreenItem], when it has that shape. *)
Definition asItem (v : json) : option MissingScreenItem :=
  match v with
  | JObject l =>
      match lookup (u "name") l, lookup (u "reason") l,
            lookup (u "components_needed") l, lookup (u "severity") l,
            lookup (u "reference_screen") l with
      | Some (JString n), Some (JString r), Some (JArray c),
        Some (JString s), Some (JString ref) =>
          option_map (fun c' => Item n r c' s ref) (asStrings c)
      | _, _, _, _, _ => None
      end
  | _ => None
  end.

Definition iconHigh : jstring := [0xD83D; 0xDD34].
Definition iconMedium : jstring := [0xD83D; 0xDFE1].
Definition iconLow : jstring := [0xD83D; 0xDFE2].
Definition iconFallback : jstring := [0x26AA].

(** [severityIcon[item.severity] ?? fallback] as it stands in a template
    literal.  [severityIcon] is a plain object with the three keys: for
    another name the lookup goes on to [Object.prototype], and a member
    found there is what the template prints; the fallback is taken only
    when nothing is found. *)
Definition severityIcon (e : JS.Engine) (sev : jstring) : jstring :=
  if bool_decide (sev = u "high") then iconHigh
  else if bool_decide (sev = u "medium") then iconMedium
  else if bool_decide (sev = u "low") then iconLow
  else match JS.inherited e sev with
       | Some member => member
       | None => iconFallback
       end.

(** [c.toUpperCase()] for one code unit: computed for the code units of
    ASCII and Latin-1, taken from the engine for the others. *)
Definition upperUnit (e : JS.Engine) (c : N) : jstring :=
  if (97 <=? c) && (c <=? 122) then [c - 32]
  else if (224 <=? c) && (c <=? 254) && negb (c =? 247) then [c - 32]
  else if c =? 223 then [83; 83]
  else if c =? 255 then [0x178]
  else if c =? 181 then [0x39C]
  else if c <? 256 then [c]
  else JS.upperCase e c.

(** [s.charAt(0).toUpperCase() + s.slice(1)] *)
Definition capitalize (e : JS.Engine) (s : jstring) : jstring :=
  match s with
  | [] => []
  | c :: s' => upperUnit e c ++ s'
  end.

Definition plural (n : nat) : jstring := if (n =? 1)%nat then [] else u "s".

Definition itemLines (e : JS.Engine) (i : nat) (item : MissingScreenItem)
  : list jstring :=
  [ [];
    u "### " ++ JS.natToString (N.of_nat (i + 1)) ++ u ". " ++ name item;
    u "**Severity:** " ++ severityIcon e (severity item) ++ u " "
      ++ capitalize e (severity item);
    u "**Reason:** " ++ reason item ]
  ++ match components_needed item with
     | [] => []
     | cs => u "**Components Needed:**" :: map (fun c => u "- " ++ c) cs
     end
  ++ [ u "**Reference Screen:** " ++ reference_screen item; []; u "---" ].

Definition countSeverity (sev : jstring) (l : list MissingScreenItem) : nat :=
  length (filter (fun s => bool_decide (severity s = sev)) l).

Definition formatEdgeCaseMarkdown (e : JS.Engine)
    (missingScreens : list MissingScreenItem) : jstring :=
  let n := length missingScreens in
  let count := JS.natToString (N.of_nat n) in
  let high := countSeverity (u "high") missingScreens in
  let medium := countSeverity (u "medium") missingScreens in
  let low := countSeverity (u "low") missingScreens in
  let show k := JS.natToString (N.of_nat k) ++ u " screen" ++ plural k in
  JS.join [10]
    ([ u "# Edge Cases Analysis"; [];
       u "## Missing Screens Detected: " ++ count; []; u "---" ]
     ++ concat (imap (itemLines e) missingScreens)
     ++ [ []; u "## Summary";
          u "- " ++ iconHigh ++ u " High severity: " ++ show high;
          u "- " ++ iconMedium ++ u " Medium severity: " ++ show medium;
          u "- " ++ iconLow ++ u " Low severity: " ++ show low;
          [];
          u "Total missing screens: " ++ count ]).

End Parser.

(** * The host side: providers, session, events *)

Inductive AIProvider : Type := anthropic | openai | google.

Definition PROVIDER_LABELS (p : AIProvider) : jstring :=
  match p with
  | anthropic => u "Anthropic"
  | openai => u "OpenAI"
  | google => u "Google"
  end.

Definition DEFAULT_MODELS (p : AIProvider) : jstring :=
  match p with
  | anthropic => u "claude-sonnet-4-20250514"
  | openai => u "gpt-4o"
  | google => u "gemini-2.0-flash"
  end.

(** [a || b] on strings: the empty string is falsy. *)
Definition orElse (a b : jstring) : jstring :=
  match a with
  | [] => b
  | _ :: _ => a
  end.

(** [/API error (\d+)/] *)
Definition reApiError : Regex.regex :=
  Regex.Seq (Regex.lit "API error ") (Regex.Cap (Regex.Plus Regex.digit)).

(** The status code captured by [message.match(/API error (\d+)/)]. *)
Definition apiErrorCode (message : jstring) : option jstring :=
  match Regex.exec false reApiError message with
  | Some f => Regex.group1 f
  | None => None
  end.

Definition isTypeError (e : JsError) : bool :=
  match e with
  | ErrInstance TypeError _ => true
  | _ => false
  end.

Definition has (message : jstring) (pattern : string) : bool :=
  JS.includes message (u pattern).

Definition codeIs (code : jstring) (c : string) : bool := bool_decide (code = u c).

(** The last line of both classifiers. *)
Definition genericError (message : jstring) : jstring :=
  if (300 <? length message)%nat
  then u "Error: " ++ JS.slice0 297 message ++ u "..."
  else u "Error: " ++ message.


(** ** The document and what is read from it ([frameExtract.ts]) *)

Inductive SceneNode : Type :=
| Node (node_type node_id node_name : jstring)
       (node_width node_height : JSON.number)
       (node_children : list SceneNode).

Definition node_type (n : SceneNode) : jstring := let 'Node t _ _ _ _ _ := n in t.
Definition node_name (n : SceneNode) : jstring := let 'Node _ _ x _ _ _ := n in x.

Record FrameData : Type := {
  fd_id : jstring;
  fd_name : jstring;
  fd_width : JSON.number;
  fd_height : JSON.number;
  fd_layerStructure : jstring;
  fd_componentNames : list jstring
}.

Definition indentOf (depth : nat) : jstring := concat (repeat (u "  ") depth).

Fixpoint describeNode (node : SceneNode) (depth : nat) : jstring :=
  let 'Node type _ name _ _ children := node in
  let head :=
    indentOf depth ++ u "- " ++ orElse name (u "(unnamed)") ++ u " (" ++ type ++ u ")" in
  match children with
  | [] => head
  | _ :: _ =>
      let childLines :=
        (fix firstChildren (l : list SceneNode) (limit : nat) : list jstring :=
           match l, limit with
           | c :: l', S limit' => describeNode c (S depth) :: firstChildren l' limit'
           | _, _ => []
           end) children 50%nat in
      head ++ [10] ++ JS.join [10] childLines
  end.

(** [out.add(x)] on a [Set] kept in insertion order. *)
Definition setAdd (x : jstring) (out : list jstring) : list jstring :=
  if bool_decide (x ∈ out) then out else out ++ [x].

Fixpoint collectComponentNames (node : SceneNode) (out : list jstring) : list jstring :=
  let 'Node type _ name _ _ children := node in
  let out :=
    if bool_decide (type = u "COMPONENT") || bool_decide (type = u "INSTANCE")
    then setAdd (orElse name (u "Unknown")) out
    else out in
  fold_left (fun acc child => collectComponentNames child acc) children out.

Definition isFrameOrComponent (n : SceneNode) : bool :=
  bool_decide (node_type n = u "FRAME") || bool_decide (node_type n = u "COMPONENT").

(** The record [extractFrameData] makes of one node. *)
Definition frameDataOf (node : SceneNode) : FrameData :=
  let 'Node _ id name width height _ := node in
  {| fd_id := id; fd_name := name; fd_width := width; fd_height := height;
     fd_layerStructure := describeNode node 0;
     fd_componentNames := collectComponentNames node [] |}.

Definition extractFrameData (nodes : list SceneNode) : list FrameData :=
  map frameDataOf (filter (fun n => isFrameOrComponent n = true) nodes).

(** ** Session, requests, notifications *)

(** The three module variables an action overrides for its duration. *)
Record Session : Type := {
  apiKey : jstring;
  projectContext : jstring;
  currentProvider : AIProvider
}.

(** A design-system snapshot: the one [getEmptyDesignSystem] returns, or
    an extracted one, kept as the text [JSON.stringify] gives for it in
    the context block. *)
Inductive DesignSystemData : Type :=
| EmptyDesignSystem
| ExtractedDesignSystem (serialized : jstring).

Record FrameScreenshot : Type := {
  shot_name : jstring;
  shot_width : N;
  shot_height : N;
  shot_base64 : jstring
}.

(** The task-specific part of a request; the prompt text is a function
    of it. *)
Inductive UserMessage : Type :=
| AskScreenDoc (frame : FrameData) (options : option (bool * bool))
| AskFlow (frames : list FrameData)
| AskVisualScreen (item : Parser.MissingScreenItem) (designSummary : bool).

Record AIRequest : Type := {
  rq_provider : AIProvider;
  rq_key : jstring;
  rq_model : jstring;
  rq_context : option (jstring * DesignSystemData);
  rq_images : list FrameScreenshot;
  rq_user : UserMessage;
  rq_index : nat
}.

Inductive DocSection : Type := SecScreens | SecFlow | SecEdgeCases.

(** [MainMessage]: what the host posts to the panel. *)
Inductive MainMessage : Type :=
| MsgSelectionChanged (count : nat)
| MsgProgress (message : jstring) (progress : option (nat * nat))
| MsgScanComplete (section : DocSection) (text message : jstring)
| MsgEdgeCaseResult (missingScreens : list JSON.json) (documentation : jstring)
| MsgScreensCreated (count : nat) (message : jstring)
| MsgError (message : jstring)
| MsgApiKeyValid
| MsgApiKeyError (message : jstring)
| MsgTestResponse (message : jstring).

(** A node made by the document collaborator. *)
Inductive NodeId : Type := NodeRef (n : N).

(** Calls to the document collaborator ([canvas.ts], [visualBuilder.ts],
    the [figma] object). *)
Inductive CanvasOp : Type :=
| OpLoadFonts
| OpCreateDocCards (node : option SceneNode) (content name : jstring)
| OpGroup (node : SceneNode) (cards : list NodeId)
| OpScrollIntoView (created : list NodeId)
| OpCreateFlowDocCards (flowText : jstring)
| OpCreateMissingScreenCards (missingScreens : list JSON.json)
| OpBuildVisualScreen (spec : JSON.json) (referenceScreen : jstring)
| OpSelect (frames : list NodeId)
| OpCreateDocFrame (section : DocSection) (content : jstring).

Inductive Event : Type :=
| EvUI (m : MainMessage)
| EvFetch (seq : nat) (rq : AIRequest)
| EvReply (seq : nat)
| EvSleep (ms : N)
| EvCanvas (op : CanvasOp).

(** What the vendor (or the relay) answers to one request: the text read
    from a 2xx answer, another status with its body, or a failure of the
    call itself. *)
Inductive VendorReply : Type :=
| HttpOk (text : jstring)
| HttpFail (status : N) (errorText : jstring)
| CallFail (e : JsError).

(** The error a provider caller throws on an answer, if any. *)
Definition failureOf (r : VendorReply) : option JsError :=
  match r with
  | HttpOk _ => None
  | HttpFail status errorText =>
      Some (newError (u "API error " ++ JS.natToString status ++ u ": " ++ errorText))
  | CallFail e => Some e
  end.

(** Everything outside the script: the selection on the page, the
    vendor's answer to the n-th request of the run and the moment it
    comes ([arrival], which orders the answers to calls that wait
    together), the document collaborator ([designSystem]:
    [extractDesignSystem]; [screenshots]: [captureScreenshots], which
    swallows its own failures; [canvas]: the nodes made by the n-th
    operation, or its failure; [untyped]: what [formatEdgeCaseMarkdown]
    does on entries that do not have the shape of a [MissingScreenItem],
    a [TypeError] or a text of coerced values) and the JavaScript
    engine. *)
Record World : Type := {
  selection : list SceneNode;
  vendor : nat -> VendorReply;
  arrival : nat -> nat;
  designSystem : list SceneNode -> Result DesignSystemData;
  screenshots : list SceneNode -> list FrameScreenshot;
  canvas : nat -> Result (list NodeId);
  untyped : list JSON.json -> Result jstring;
  engine : JS.Engine
}.

Record State : Type := {
  session : Session;
  cachedDesignSystem : option DesignSystemData;
  cachedFrameData : option (list FrameData);
  cachedScreenshots : list FrameScreenshot;
  cachedNodes : list SceneNode;
  trace : list Event;
  fetches : nat;
  canvasOps : nat
}.

(** ** The monad of actions: environment, state, exceptions *)

Definition M (A : Type) : Type := World -> State -> Result A * State.

Definition ret {A} (a : A) : M A := fun _ st => (Ok a, st).

Definition bind {A B} (m : M A) (f : A -> M B) : M B :=
  fun w st =>
    match m w st with
    | (Ok a, st') => f a w st'
    | (Throw e, st') => (Throw e, st')
    end.

#[global] Instance M_ret : MRet M := @ret.
#[global] Instance M_bind : MBind M := fun A B f m => bind m f.

Definition throw {A} (e : JsError) : M A := fun _ st => (Throw e, st).

Definition liftR {A} (r : Result A) : M A := fun _ st => (r, st).

(** [try { body } catch (e) { handler e } finally { final }] *)
Definition tryCatchFinally {A} (body : M A) (handler : JsError -> M A)
    (final : M unit) : M A :=
  fun w st =>
    let '(r1, st1) := body w st in
    let '(r2, st2) :=
      match r1 with
      | Ok a => (Ok a, st1)
      | Throw e => handler e w st1
      end in
    match final w st2 with
    | (Ok _, st3) => (r2, st3)
    | (Throw e, st3) => (Throw e, st3)
    end.

Definition getWorld : M World := fun w st => (Ok w, st).
Definition getState : M State := fun _ st => (Ok st, st).
Definition getSession : M Session := fun _ st => (Ok (session st), st).

Definition setSession (s : Session) : M unit :=
  fun _ st =>
    (Ok tt, {| session := s;
               cachedDesignSystem := cachedDesignSystem st;
               cachedFrameData := cachedFrameData st;
               cachedScreenshots := cachedScreenshots st;
               cachedNodes := cachedNodes st;
               trace := trace st; fetches := fetches st;
               canvasOps := canvasOps st |}).

(** The assignments to [cachedDesignSystem], [cachedFrameData] and
    [cachedNodes]. *)
Definition setCache (ds : DesignSystemData) (frames : list FrameData)
    (nodes : list SceneNode) : M unit :=
  fun _ st =>
    (Ok tt, {| session := session st;
               cachedDesignSystem := Some ds;
               cachedFrameData := Some frames;
               cachedScreenshots := cachedScreenshots st;
               cachedNodes := nodes;
               trace := trace st; fetches := fetches st;
               canvasOps := canvasOps st |}).

Definition setCachedScreenshots (shots : list FrameScreenshot) : M unit :=
  fun _ st =>
    (Ok tt, {| session := session st;
               cachedDesignSystem := cachedDesignSystem st;
               cachedFrameData := cachedFrameData st;
               cachedScreenshots := shots;
               cachedNodes := cachedNodes st;
               trace := trace st; fetches := fetches st;
               canvasOps := canvasOps st |}).

Definition record (ev : Event) (st : State) : State :=
  {| session := session st;
     cachedDesignSystem := cachedDesignSystem st;
     cachedFrameData := cachedFrameData st;
     cachedScreenshots := cachedScreenshots st;
     cachedNodes := cachedNodes st;
     trace := trace st ++ [ev]; fetches := fetches st;
     canvasOps := canvasOps st |}.

Definition emit (ev : Event) : M unit := fun _ st => (Ok tt, record ev st).

Definition sendToUI (m : MainMessage) : M unit := emit (EvUI m).

(** [getSelectedFramesAndComponents()] *)
Definition getSelectedFramesAndComponents : M (list SceneNode) :=
  fun w st => (Ok (filter (fun n => isFrameOrComponent n = true) (selection w)), st).

(** The call of [fetch]: the request leaves, its number is returned. *)
Definition fetch (rq : AIRequest) : M nat :=
  fun _ st =>
    let n := fetches st in
    (Ok n, {| session := session st;
              cachedDesignSystem := cachedDesignSystem st;
              cachedFrameData := cachedFrameData st;
              cachedScreenshots := cachedScreenshots st;
              cachedNodes := cachedNodes st;
              trace := trace st ++ [EvFetch n rq]; fetches := S n;
              canvasOps := canvasOps st |}).

(** The rest of a provider caller once the answer to request [n] is
    there: a status outside 2xx is thrown as
    [Error(`API error ${status}: ${errorText}`)]. *)
Definition await (n : nat) : M jstring :=
  fun w st =>
    (match vendor w n with
     | HttpOk text => Ok text
     | HttpFail status errorText =>
         Throw (newError (u "API error " ++ JS.natToString status ++ u ": " ++ errorText))
     | CallFail e => Throw e
     end, record (EvReply n) st).

(** [callAI] and [callAIWithImages], awaited at once. *)
Definition callAI (rq : AIRequest) : M jstring := n ← fetch rq; await n.

(** The call among [ns] whose failure comes first, with its error; of
    two failures that come at the same moment, the one of the call made
    first. *)
Fixpoint firstRejected (w : World) (ns : list nat) : option (nat * JsError) :=
  match ns with
  | [] => None
  | n :: ns' =>
      match failureOf (vendor w n), firstRejected w ns' with
      | None, later => later
      | Some e, None => Some (n, e)
      | Some e, Some (m, e') =>
          if (arrival w m <? arrival w n)%nat then Some (m, e') else Some (n, e)
      end
  end.

(** The texts of the calls of [ns] that were answered, in the order of
    the calls. *)
Fixpoint answersOf (w : World) (ns : list nat) : list jstring :=
  match ns with
  | [] => []
  | n :: ns' =>
      match vendor w n with
      | HttpOk text => text :: answersOf w ns'
      | _ => answersOf w ns'
      end
  end.

Definition recordAll (evs : list Event) (st : State) : State :=
  {| session := session st;
     cachedDesignSystem := cachedDesignSystem st;
     cachedFrameData := cachedFrameData st;
     cachedScreenshots := cachedScreenshots st;
     cachedNodes := cachedNodes st;
     trace := trace st ++ evs; fetches := fetches st;
     canvasOps := canvasOps st |}.

(** [Promise.all] over calls that have all been started.  When every
    call is answered: the answers in the order of the calls.  When some
    fail: the wait ends with the failure that comes first, and the
    answers that come after it are not waited for (the answers read by
    then are listed in the order of the calls). *)
Definition awaitAll (ns : list nat) : M (list jstring) :=
  fun w st =>
    match firstRejected w ns with
    | None => (Ok (answersOf w ns), recordAll (map EvReply ns) st)
    | Some (m, e) =>
        (Throw e,
         recordAll
           (map EvReply (filter (fun n => (arrival w n <=? arrival w m)%nat) ns)) st)
    end.

Fixpoint startAll (rqs : list AIRequest) : M (list nat) :=
  match rqs with
  | [] => ret []
  | rq :: rqs' =>
      n ← fetch rq;
      ns ← startAll rqs';
      ret (n :: ns)
  end.

(** [await new Promise((resolve) => setTimeout(resolve, ms))] *)
Definition sleep (ms : N) : M unit := emit (EvSleep ms).

(** One operation of the document collaborator. *)
Definition onCanvas (op : CanvasOp) : M (list NodeId) :=
  fun w st =>
    let n := canvasOps st in
    (canvas w n,
     {| session := session st;
        cachedDesignSystem := cachedDesignSystem st;
        cachedFrameData := cachedFrameData st;
        cachedScreenshots := cachedScreenshots st;
        cachedNodes := cachedNodes st;
        trace := trace st ++ [EvCanvas op]; fetches := fetches st;
        canvasOps := S n |}).

Definition extractDesignSystem (nodes : list SceneNode) : M DesignSystemData :=
  fun w st => (designSystem w nodes, st).

Definition showNat (n : nat) : jstring := JS.natToString (N.of_nat n).

Definition pluralS (n : nat) : jstring := if (n =? 1)%nat then [] else u "s".

Definition MSG_SELECT_FRAME : jstring := u "Please select at least one frame.".
Definition MSG_SET_KEY : jstring := u "Please set and validate your API key first.".

(** [msgModel || DEFAULT_MODELS[currentProvider]] *)
Definition chooseModel (msgModel : option jstring) (p : AIProvider) : jstring :=
  orElse (match msgModel with Some m => m | None => [] end) (DEFAULT_MODELS p).

(** [(msgApiKey || apiKey).trim()] and
    [(msgProjectContext ?? projectContext).trim()] *)
Definition chooseKey (msgApiKey : jstring) (s : Session) : jstring :=
  JS.trim (orElse msgApiKey (apiKey s)).
Definition chooseContext (msgProjectContext : option jstring) (s : Session) : jstring :=
  JS.trim (match msgProjectContext with Some c => c | None => projectContext s end).

(** The second half of [runScanFlowWithEdgeCases]: what is made of the
    vendor's answer. *)
Record FlowResult : Type := {
  flowText : jstring;
  missingScreens : list JSON.json;
  edgeDocumentation : jstring
}.

Definition readFlowAnswer (text : jstring) : M FlowResult :=
  parsed ← liftR (Parser.parseEdgeCases text);
  let '(flow, ms) := parsed in
  match ms with
  | [] => ret {| flowText := flow; missingScreens := ms; edgeDocumentation := flow |}
  | _ :: _ =>
      w ← getWorld;
      doc ← liftR (match mapM Parser.asItem ms with
                    | Some items => Ok (Parser.formatEdgeCaseMarkdown (engine w) items)
                    | None => untyped w ms
                    end);
      ret {| flowText := flow; missingScreens := ms; edgeDocumentation := doc |}
  end.
(** ** The error classifier of the later revision *)

Module Rev2.

Definition MSG_INVALID_KEY (label : jstring) : jstring :=
  label ++ u ": Invalid API key. Please check your key and try again.".
Definition MSG_RATE_LIMIT : jstring :=
  u "Rate limit reached. Please wait a moment and try again.".
Definition MSG_CREDITS (label : jstring) : jstring :=
  u "Insufficient API credits. Please add credits to your " ++ label ++ u " account.".
Definition MSG_REQUEST : jstring := u "Request error. Please check your settings.".
Definition MSG_ISSUES (label : jstring) : jstring :=
  label ++ u " is experiencing issues. Please try again in a few minutes.".
Definition MSG_TIMEOUT : jstring :=
  u "Request timed out. Please check your connection and try again.".
Definition MSG_CONNECTION : jstring :=
  u "Connection error. Please check your internet connection.".
Definition MSG_SELECTION : jstring := u "Please select at least one frame to scan.".
Definition MSG_PARSE : jstring := u "Error parsing AI response. Please try again.".
Definition MSG_WRONG : jstring := u "Something went wrong. Please try again.".

(** The text the classifier works on. *)
Definition errorMessage (error : JsError) : jstring :=
  let message :=
    match error with
    | ErrInstance _ m => orElse m (u "Unknown error")
    | ErrObject m e r st status =>
        let str o := match o with Some s => s | None => [] end in
        orElse (str m) (orElse (str e) (orElse (str r) (orElse (str st)
          (orElse
             match status with
             | Some n => u "Request failed with status " ++ JS.natToString n
             | None => []
             end
             MSG_WRONG))))
    | ErrValue s => orElse s (u "Unknown error")
    end in
  if bool_decide (message = u "[object Object]") then MSG_WRONG else message.

(** The branch for messages of the form [API error NNN]. *)
Definition answerByCode (label : jstring) (message : jstring) : option jstring :=
  if has message "API error" then
    match apiErrorCode message with
    | Some code =>
        if codeIs code "401" then Some (MSG_INVALID_KEY label)
        else if codeIs code "402" then Some (MSG_CREDITS label)
        else if codeIs code "429" then Some MSG_RATE_LIMIT
        else if codeIs code "400" then Some MSG_REQUEST
        else if codeIs code "500" || codeIs code "502" || codeIs code "503"
                || codeIs code "529"
        then Some (MSG_ISSUES label)
        else None
    | None => None
    end
  else None.

(** The tests of the classifier, in its order. *)
Definition keyPattern (message : jstring) : bool :=
  let lower := JS.toLowerCase message in
  has message "401" || has lower "invalid api key" || has lower "incorrect api key".
Definition ratePattern (message : jstring) : bool :=
  has message "429" || has (JS.toLowerCase message) "rate limit".
Definition creditPattern (message : jstring) : bool :=
  let lower := JS.toLowerCase message in
  has message "402" || has lower "insufficient_quota" || has lower "credit"
  || has lower "quota".
Definition requestPattern (message : jstring) : bool := has message "400".
Definition serverPattern (message : jstring) : bool :=
  has message "500" || has message "502" || has message "503"
  || has message "529" || has (JS.toLowerCase message) "overloaded".
Definition timeoutPattern (message : jstring) : bool :=
  let lower := JS.toLowerCase message in
  has lower "timeout" || has lower "timed out".
Definition fetchPattern (typeErr : bool) (message : jstring) : bool :=
  typeErr && (has message "fetch" || has message "Failed to fetch").
Definition connectionPattern (message : jstring) : bool :=
  let lower := JS.toLowerCase message in
  has lower "cors" || has lower "failed to fetch" || has lower "network".
Definition selectionPattern (message : jstring) : bool :=
  let lower := JS.toLowerCase message in
  has lower "no frames selected" || has lower "selection".
Definition parsePattern (message : jstring) : bool :=
  has message "JSON" || has (JS.toLowerCase message) "parse".

Definition classify (label : jstring) (typeErr : bool) (message : jstring) : jstring :=
  if keyPattern message then MSG_INVALID_KEY label
  else if ratePattern message then MSG_RATE_LIMIT
  else if creditPattern message then MSG_CREDITS label
  else if requestPattern message then MSG_REQUEST
  else if serverPattern message then MSG_ISSUES label
  else
    match answerByCode label message with
    | Some answer => answer
    | None =>
        if timeoutPattern message then MSG_TIMEOUT
        else if fetchPattern typeErr message then MSG_CONNECTION
        else if connectionPattern message then MSG_CONNECTION
        else if selectionPattern message then MSG_SELECTION
        else if parsePattern message then MSG_PARSE
        else genericError message
    end.

(** A message some test of the classifier answers to. *)
Definition recognized (typeErr : bool) (message : jstring) : bool :=
  keyPattern message || ratePattern message || creditPattern message
  || requestPattern message || serverPattern message
  || (if answerByCode [] message is Some _ then true else false)
  || timeoutPattern message || fetchPattern typeErr message
  || connectionPattern message || selectionPattern message
  || parsePattern message.

Definition labelOf (provider : option AIProvider) : jstring :=
  match provider with
  | Some p => PROVIDER_LABELS p
  | None => u "API"
  end.

Definition getUserFriendlyError (error : JsError) (provider : option AIProvider)
  : jstring :=
  classify (labelOf provider) (isTypeError error) (errorMessage error).

(** ** The actions of the later revision *)

Definition sendProgress (message : jstring) (progress : option (nat * nat)) : M unit :=
  sendToUI (MsgProgress message progress).

(** [sendError]: the classifier is given [currentProvider]. *)
Definition sendError (e : JsError) : M unit :=
  s ← getSession;
  sendToUI (MsgError (getUserFriendlyError e (Some (currentProvider s)))).

Definition BATCH_SIZE : nat := 5.
Definition BATCH_DELAY_MS : N := 2000.

(** The request [runScanOneScreen] sends; it reads the session. *)
Definition screenRequest (s : Session) (frameData : FrameData)
    (ds : DesignSystemData) (requestIndex : nat) (model : jstring)
    (options : bool * bool) : AIRequest :=
  {| rq_provider := currentProvider s; rq_key := apiKey s; rq_model := model;
     rq_context := Some (projectContext s, ds); rq_images := [];
     rq_user := AskScreenDoc frameData (Some options);
     rq_index := requestIndex |}.

(** The loop of [handleScanScreens] over the batches, from index [i] on.
    [fuel] bounds the number of rounds; the action gives one round per
    frame, and a round advances by [BATCH_SIZE]. *)
Fixpoint scanBatches (fuel : nat) (frameDataList : list FrameData)
    (ds : DesignSystemData) (model : jstring) (options : bool * bool)
    (i : nat) (docs : list (jstring * jstring)) : M (list (jstring * jstring)) :=
  let total := length frameDataList in
  match fuel with
  | O => ret docs
  | S fuel' =>
      if (i <? total)%nat then
        let batch := take BATCH_SIZE (drop i frameDataList) in
        s ← getSession;
        started ← startAll
          (imap (fun j frameData => screenRequest s frameData ds (i + j) model options)
                batch);
        batchResults ← awaitAll started;
        let docs := docs ++ zip (map fd_name batch) batchResults in
        let processed := Nat.min (i + BATCH_SIZE) total in
        sendProgress (u "Processing " ++ showNat processed ++ u "/" ++ showNat total
                      ++ u " frames...") (Some (processed, total));;
        (if (i + BATCH_SIZE <? total)%nat then sleep BATCH_DELAY_MS else ret tt);;
        scanBatches fuel' frameDataList ds model options (i + BATCH_SIZE) docs
      else ret docs
  end.

(** The loop that makes the cards of every documented screen. *)
Fixpoint createCards (docs : list (jstring * jstring)) (nodes : list SceneNode)
    (i : nat) (createdCards : list NodeId) : M (list NodeId) :=
  match docs with
  | [] => ret createdCards
  | (name, content) :: docs' =>
      cards ← onCanvas (OpCreateDocCards (nodes !! i) content name);
      match nodes !! i, cards with
      | Some node, _ :: _ => onCanvas (OpGroup node cards)
      | _, _ => ret []
      end;;
      createCards docs' nodes (S i) (createdCards ++ cards)
  end.

(** [msgOptions?.includePlatformConstraints ?? false] and
    [msgOptions?.includeDataLogic ?? false] *)
Definition optionsOf (msgOptions : option (option bool * option bool)) : bool * bool :=
  match msgOptions with
  | Some (a, b) => (default false a, default false b)
  | None => (false, false)
  end.

Definition handleScanScreens (msgApiKey : jstring) (msgProvider : AIProvider)
    (msgProjectContext : option jstring) (msgModel : option jstring)
    (msgOptions : option (option bool * option bool)) : M unit :=
  prev ← getSession;
  let key := chooseKey msgApiKey prev in
  let ctx := chooseContext msgProjectContext prev in
  nodes ← getSelectedFramesAndComponents;
  match nodes, key with
  | [], _ => sendToUI (MsgError MSG_SELECT_FRAME)
  | _ :: _, [] => sendToUI (MsgError MSG_SET_KEY)
  | _ :: _, _ :: _ =>
      let options := optionsOf msgOptions in
      setSession {| apiKey := key; projectContext := ctx; currentProvider := msgProvider |};;
      tryCatchFinally
        (let frameDataList := extractFrameData nodes in
         ds ← extractDesignSystem nodes;
         let model := chooseModel msgModel msgProvider in
         setCache ds frameDataList nodes;;
         let total := length frameDataList in
         docs ← scanBatches total frameDataList ds model options 0 [];
         sendProgress (u "Creating documentation cards...") None;;
         createdCards ← createCards docs nodes 0 [];
         match createdCards with
         | [] => ret []
         | _ :: _ => onCanvas (OpScrollIntoView createdCards)
         end;;
         sendToUI (MsgScanComplete SecScreens []
                     (u "Created " ++ showNat total ++ u " documentation card"
                      ++ pluralS total)))
        sendError
        (setSession prev)
  end.

Definition flowRequest (s : Session) (frames : list FrameData)
    (ds : DesignSystemData) (model : jstring) : AIRequest :=
  {| rq_provider := currentProvider s; rq_key := apiKey s; rq_model := model;
     rq_context := Some (projectContext s, ds); rq_images := [];
     rq_user := AskFlow frames; rq_index := 0 |}.

Definition runScanFlowWithEdgeCases (frameDataList : list FrameData)
    (ds : DesignSystemData) (model : jstring) : M FlowResult :=
  s ← getSession;
  text ← callAI (flowRequest s frameDataList ds model);
  readFlowAnswer text.

Definition handleScanFlow (msgApiKey : jstring) (msgProvider : AIProvider)
    (msgProjectContext : option jstring) (msgModel : option jstring) : M unit :=
  prev ← getSession;
  let key := chooseKey msgApiKey prev in
  let ctx := chooseContext msgProjectContext prev in
  nodes ← getSelectedFramesAndComponents;
  match nodes, key with
  | [], _ => sendToUI (MsgError MSG_SELECT_FRAME)
  | _ :: _, [] => sendToUI (MsgError MSG_SET_KEY)
  | _ :: _, _ :: _ =>
      setSession {| apiKey := key; projectContext := ctx; currentProvider := msgProvider |};;
      tryCatchFinally
        (sendProgress (u "Analyzing flow...") None;;
         let frameDataList := extractFrameData nodes in
         ds ← extractDesignSystem nodes;
         let model := chooseModel msgModel msgProvider in
         setCache ds frameDataList nodes;;
         flow ← runScanFlowWithEdgeCases frameDataList ds model;
         sendProgress (u "Creating flow documentation on canvas...") None;;
         flowCards ← onCanvas (OpCreateFlowDocCards (flowText flow));
         missingCards ←
           match missingScreens flow with
           | [] => ret []
           | ms =>
               sendProgress (u "Creating missing screen cards on canvas...") None;;
               onCanvas (OpCreateMissingScreenCards ms)
           end;
         let allCards := flowCards ++ missingCards in
         match allCards with
         | [] => ret []
         | _ :: _ => onCanvas (OpScrollIntoView allCards)
         end;;
         let n := length (missingScreens flow) in
         let flowMsg :=
           match missingScreens flow with
           | [] => u "Flow documentation created"
           | _ :: _ => u "Flow documented " ++ [0x2014] ++ u " found " ++ showNat n
                       ++ u " missing screen" ++ pluralS n
           end in
         sendToUI (MsgScanComplete SecFlow (flowText flow) flowMsg))
        sendError
        (setSession prev)
  end.

End Rev2.
(** ** The error classifier of the earlier revision *)

Module Rev1.

Definition MSG_INVALID_KEY : jstring :=
  u "Invalid API key. Please check your key and try again.".
Definition MSG_CREDITS : jstring :=
  u "Insufficient API credits. Please check your account billing.".
Definition MSG_RATE_LIMIT : jstring :=
  u "Rate limit reached. Please wait a moment and try again.".
Definition MSG_OVERLOADED : jstring :=
  u "AI service is overloaded. Please try again in a few seconds.".
Definition MSG_SELECTION : jstring := u "Please select at least one frame to scan.".
Definition MSG_NETWORK : jstring :=
  u "Network error. Please check your internet connection.".
Definition MSG_PARSE : jstring := u "Error parsing AI response. Please try again.".

(** [String(error)] of an object that is not an [Error] is taken to be
    the one [Object.prototype] gives. *)
Definition errorMessage (error : JsError) : jstring :=
  orElse
    match error with
    | ErrInstance _ m => m
    | ErrObject _ _ _ _ _ => u "[object Object]"
    | ErrValue s => s
    end
    (u "Unknown error").

Definition classify (typeErr : bool) (message : jstring) : jstring :=
  let lower := JS.toLowerCase message in
  if has message "401" || has lower "invalid api key" || has lower "incorrect api key"
  then MSG_INVALID_KEY
  else if has message "402" || has lower "credit" || has lower "quota"
  then MSG_CREDITS
  else if has message "429" || has lower "rate limit"
  then MSG_RATE_LIMIT
  else if has message "529" || has message "503" || has lower "overloaded"
  then MSG_OVERLOADED
  else
    let byCode :=
      if has message "API error" then
        match apiErrorCode message with
        | Some code =>
            if codeIs code "401" then Some MSG_INVALID_KEY
            else if codeIs code "402" then Some MSG_CREDITS
            else if codeIs code "429" then Some MSG_RATE_LIMIT
            else if codeIs code "503" || codeIs code "529" then Some MSG_OVERLOADED
            else None
        | None => None
        end
      else None in
    match byCode with
    | Some answer => answer
    | None =>
        if has lower "no frames selected" || has lower "selection"
        then MSG_SELECTION
        else if typeErr && has message "fetch" then MSG_NETWORK
        else if has lower "network" then MSG_NETWORK
        else if has message "JSON" || has message "parse" then MSG_PARSE
        else genericError message
    end.

Definition getUserFriendlyError (error : JsError) : jstring :=
  classify (isTypeError error) (errorMessage error).


(** ** The actions of the earlier revision *)

Definition sendProgress (message : jstring) : M unit :=
  sendToUI (MsgProgress message None).

Definition sendError (e : JsError) : M unit :=
  sendToUI (MsgError (getUserFriendlyError e)).

Definition screenRequest (s : Session) (frameData : FrameData)
    (ds : DesignSystemData) (requestIndex : nat) (model : jstring) : AIRequest :=
  {| rq_provider := currentProvider s; rq_key := apiKey s; rq_model := model;
     rq_context := Some (projectContext s, ds); rq_images := [];
     rq_user := AskScreenDoc frameData None; rq_index := requestIndex |}.

Definition runScanOneScreen (frameData : FrameData) (ds : DesignSystemData)
    (requestIndex : nat) (model : jstring) : M jstring :=
  s ← getSession;
  callAI (screenRequest s frameData ds requestIndex model).

(** The loop of [handleScanScreens] over the frames, one request at a
    time; [rest] holds the frames from index [i] on. *)
Fixpoint scanEach (rest : list FrameData) (ds : DesignSystemData)
    (model : jstring) (total i : nat) (docs : list (jstring * jstring))
  : M (list (jstring * jstring)) :=
  match rest with
  | [] => ret docs
  | frameData :: rest' =>
      sendProgress (u "Analyzing screen " ++ showNat (i + 1) ++ u " of "
                    ++ showNat total ++ u "...");;
      doc ← runScanOneScreen frameData ds i model;
      scanEach rest' ds model total (S i) (docs ++ [(fd_name frameData, doc)])
  end.

Fixpoint createCards (docs : list (jstring * jstring)) (nodes : list SceneNode)
    (i : nat) (createdCards : list NodeId) : M (list NodeId) :=
  match docs with
  | [] => ret createdCards
  | (name, content) :: docs' =>
      cards ← onCanvas (OpCreateDocCards (nodes !! i) content name);
      createCards docs' nodes (S i) (createdCards ++ cards)
  end.

Definition handleScanScreens (msgApiKey : jstring) (msgProvider : AIProvider)
    (msgProjectContext : option jstring) (msgModel : option jstring) : M unit :=
  prev ← getSession;
  let key := chooseKey msgApiKey prev in
  let ctx := chooseContext msgProjectContext prev in
  nodes ← getSelectedFramesAndComponents;
  match nodes, key with
  | [], _ => sendToUI (MsgError MSG_SELECT_FRAME)
  | _ :: _, [] => sendToUI (MsgError MSG_SET_KEY)
  | _ :: _, _ :: _ =>
      setSession {| apiKey := key; projectContext := ctx; currentProvider := msgProvider |};;
      tryCatchFinally
        (let frameDataList := extractFrameData nodes in
         ds ← extractDesignSystem nodes;
         let model := chooseModel msgModel msgProvider in
         setCache ds frameDataList nodes;;
         let total := length frameDataList in
         docs ← scanEach frameDataList ds model total 0 [];
         sendProgress (u "Creating documentation cards...");;
         createdCards ← createCards docs nodes 0 [];
         match createdCards with
         | [] => ret []
         | _ :: _ => onCanvas (OpScrollIntoView createdCards)
         end;;
         sendToUI (MsgScanComplete SecScreens []
                     (u "Created " ++ showNat total ++ u " documentation card"
                      ++ pluralS total)))
        sendError
        (setSession prev)
  end.

Definition flowRequest (s : Session) (frames : list FrameData)
    (ds : DesignSystemData) (model : jstring) : AIRequest :=
  {| rq_provider := currentProvider s; rq_key := apiKey s; rq_model := model;
     rq_context := Some (projectContext s, ds); rq_images := [];
     rq_user := AskFlow frames; rq_index := 0 |}.

Definition runScanFlowWithEdgeCases (frameDataList : list FrameData)
    (ds : DesignSystemData) (model : jstring) : M FlowResult :=
  s ← getSession;
  text ← callAI (flowRequest s frameDataList ds model);
  readFlowAnswer text.

Definition handleScanFlow (msgApiKey : jstring) (msgProvider : AIProvider)
    (msgProjectContext : option jstring) (msgModel : option jstring) : M unit :=
  prev ← getSession;
  let key := chooseKey msgApiKey prev in
  let ctx := chooseContext msgProjectContext prev in
  nodes ← getSelectedFramesAndComponents;
  match nodes, key with
  | [], _ => sendToUI (MsgError MSG_SELECT_FRAME)
  | _ :: _, [] => sendToUI (MsgError MSG_SET_KEY)
  | _ :: _, _ :: _ =>
      setSession {| apiKey := key; projectContext := ctx; currentProvider := msgProvider |};;
      tryCatchFinally
        (sendProgress (u "Analyzing flow...");;
         let frameDataList := extractFrameData nodes in
         ds ← extractDesignSystem nodes;
         let model := chooseModel msgModel msgProvider in
         setCache ds frameDataList nodes;;
         flow ← runScanFlowWithEdgeCases frameDataList ds model;
         sendProgress (u "Creating flow documentation on canvas...");;
         onCanvas (OpCreateFlowDocCards (flowText flow));;
         let n := length (missingScreens flow) in
         let flowMsg :=
           match missingScreens flow with
           | [] => u "Flow documentation created"
           | _ :: _ => u "Flow documentation created " ++ [0x2014] ++ u " found "
                       ++ showNat n ++ u " missing screen" ++ pluralS n
           end in
         sendToUI (MsgScanComplete SecFlow (flowText flow) flowMsg);;
         match missingScreens flow with
         | [] => ret tt
         | ms => sendToUI (MsgEdgeCaseResult ms (edgeDocumentation flow))
         end)
        sendError
        (setSession prev)
  end.

(** The request for one missing screen: with the screenshots when there
    are some ([callAIWithImages]), otherwise in text with the design
    system ([callAI]); [designSummary] tells whether the summary of the
    design system is appended to the prompt. *)
Definition visualRequest (s : Session) (st : State) (model : jstring)
    (item : Parser.MissingScreenItem) (shots : list FrameScreenshot)
    (i : nat) (designSummary : bool) : AIRequest :=
  match shots with
  | _ :: _ =>
      {| rq_provider := currentProvider s; rq_key := apiKey s; rq_model := model;
         rq_context := None; rq_images := shots;
         rq_user := AskVisualScreen item false; rq_index := 0 |}
  | [] =>
      {| rq_provider := currentProvider s; rq_key := apiKey s; rq_model := model;
         rq_context :=
           Some (projectContext s, default EmptyDesignSystem (cachedDesignSystem st));
         rq_images := [];
         rq_user := AskVisualScreen item designSummary; rq_index := i |}
  end.

Definition MSG_SKIP (name : jstring) : jstring :=
  u "Could not parse screen layout for " ++ [34] ++ name ++ [34] ++ u ". Skipping.".

(** One round of the loop of [handleGenerateMissingScreens]: the frames
    made for the item ([[]] when it is skipped). *)
Definition generateOne (model : jstring) (shots : list FrameScreenshot)
    (total i : nat) (item : Parser.MissingScreenItem) : M (list NodeId) :=
  sendProgress (u "Generating screen " ++ showNat (i + 1) ++ u " of "
                ++ showNat total ++ u ": " ++ Parser.name item ++ u "...");;
  s ← getSession;
  st ← getState;
  text ← callAI (visualRequest s st model item shots i true);
  visualSpec ← liftR (Parser.parseVisualScreenSpec text);
  match visualSpec with
  | None =>
      st' ← getState;
      retryText ← callAI (visualRequest s st' model item shots i false);
      retrySpec ← liftR (Parser.parseVisualScreenSpec retryText);
      match retrySpec with
      | None => sendToUI (MsgError (MSG_SKIP (Parser.name item)));; ret []
      | Some spec => onCanvas (OpBuildVisualScreen spec (Parser.reference_screen item))
      end
  | Some spec => onCanvas (OpBuildVisualScreen spec (Parser.reference_screen item))
  end.

Fixpoint generateAll (model : jstring) (shots : list FrameScreenshot)
    (total i : nat) (items : list Parser.MissingScreenItem)
    (createdFrames : list NodeId) : M (list NodeId) :=
  match items with
  | [] => ret createdFrames
  | item :: items' =>
      frames ← generateOne model shots total i item;
      generateAll model shots total (S i) items' (createdFrames ++ frames)
  end.

(** The screenshots of the reference screens: the cached ones, or fresh
    ones of the cached nodes (of the selection when none is cached). *)
Definition referenceScreenshots : M (list FrameScreenshot) :=
  st ← getState;
  match cachedScreenshots st with
  | _ :: _ => ret (cachedScreenshots st)
  | [] =>
      selected ← getSelectedFramesAndComponents;
      let nodesToCapture :=
        match cachedNodes st with
        | _ :: _ => cachedNodes st
        | [] => selected
        end in
      match nodesToCapture with
      | [] => ret []
      | _ :: _ =>
          w ← getWorld;
          let shots := screenshots w nodesToCapture in
          setCachedScreenshots shots;;
          ret shots
      end
  end.

Definition handleGenerateMissingScreens
    (missingScreens : list Parser.MissingScreenItem) (documentation : jstring)
    (msgApiKey : jstring) (msgProvider : AIProvider)
    (msgProjectContext : option jstring) (msgModel : option jstring) : M unit :=
  prev ← getSession;
  let key := chooseKey msgApiKey prev in
  let ctx := chooseContext msgProjectContext prev in
  match key, missingScreens with
  | [], _ | _, [] => ret tt
  | _ :: _, _ :: _ =>
      setSession {| apiKey := key; projectContext := ctx; currentProvider := msgProvider |};;
      tryCatchFinally
        (let model := chooseModel msgModel msgProvider in
         sendProgress (u "Extracting screenshots from reference screens...");;
         shots ← referenceScreenshots;
         onCanvas OpLoadFonts;;
         let total := length missingScreens in
         createdFrames ← generateAll model shots total 0 missingScreens [];
         match createdFrames with
         | [] => ret []
         | _ :: _ =>
             onCanvas (OpSelect createdFrames);;
             onCanvas (OpScrollIntoView createdFrames)
         end;;
         sendProgress (u "Creating edge case documentation on canvas...");;
         w ← getWorld;
         onCanvas (OpCreateDocFrame SecEdgeCases
                     (Parser.formatEdgeCaseMarkdown (engine w) missingScreens));;
         let n := length createdFrames in
         sendToUI (MsgScreensCreated n
                     (u "Done! Created " ++ showNat n ++ u " screen" ++ pluralS n
                      ++ u " and documentation")))
        sendError
        (setSession prev)
  end.

End Rev1.

(** * Reading a trace *)

(** The documentation results handed to the card maker, in order. *)
Fixpoint docCardsOf (evs : list Event) : list (jstring * jstring) :=
  match evs with
  | [] => []
  | EvCanvas (OpCreateDocCards _ content name) :: evs' => (name, content) :: docCardsOf evs'
  | _ :: evs' => docCardsOf evs'
  end.

(** An event that is neither a request, nor an answer, nor a pause. *)
Definition offline (ev : Event) : bool :=
  match ev with
  | EvUI _ | EvCanvas _ => true
  | EvFetch _ _ | EvReply _ | EvSleep _ => false
  end.

Definition isFetch (ev : Event) : bool :=
  match ev with
  | EvFetch _ _ => true
  | _ => false
  end.

Definition isErrorNotice (ev : Event) : bool :=
  match ev with
  | EvUI (MsgError _) => true
  | _ => false
  end.

(** The progress notice after a batch. *)
Definition progressOf (processed total : nat) : Event :=
  EvUI (MsgProgress (u "Processing " ++ showNat processed ++ u "/" ++ showNat total
                     ++ u " frames...") (Some (processed, total))).

(** The progress notice before the request for a missing screen. *)
Definition generatingNotice (total i : nat) (item : Parser.MissingScreenItem) : Event :=
  EvUI (MsgProgress (u "Generating screen " ++ showNat (i + 1) ++ u " of "
                     ++ showNat total ++ u ": " ++ Parser.name item ++ u "...") None).

(** ** The regeneration, as the specification words it

    For each missing screen one request; when its answer does not parse
    into a visual screen spec, the request once more; when that answer
    does not parse either, an error notice and no screen for the item;
    then the next item.  This is what the loop is to do when every
    request is answered and the document collaborator does not fail;
    [n] requests and [c] operations of the collaborator have gone
    before. *)
Definition parsedAnswer (w : World) (n : nat) : option JSON.json :=
  match vendor w n with
  | HttpOk text =>
      match Parser.parseVisualScreenSpec text with
      | Ok (Some spec) => Some spec
      | _ => None
      end
  | _ => None
  end.

Definition madeBy (w : World) (c : nat) : list NodeId :=
  match canvas w c with
  | Ok nodes => nodes
  | Throw _ => []
  end.

Definition skipNotice (item : Parser.MissingScreenItem) : Event :=
  EvUI (MsgError (Rev1.MSG_SKIP (Parser.name item))).

(** The events of the loop and the frames it makes. *)
Fixpoint regenerationLoop (w : World) (s : Session) (st : State) (model : jstring)
    (shots : list FrameScreenshot) (total i n c : nat)
    (items : list Parser.MissingScreenItem) : list Event * list NodeId :=
  match items with
  | [] => ([], [])
  | item :: items' =>
      let first := Rev1.visualRequest s st model item shots i true in
      let retry := Rev1.visualRequest s st model item shots i false in
      let build spec :=
        EvCanvas (OpBuildVisualScreen spec (Parser.reference_screen item)) in
      let asked := [generatingNotice total i item; EvFetch n first; EvReply n] in
      let again := [EvFetch (S n) retry; EvReply (S n)] in
      match parsedAnswer w n with
      | Some spec =>
          let rest := regenerationLoop w s st model shots total (S i) (S n) (S c) items' in
          (asked ++ build spec :: rest.1, madeBy w c ++ rest.2)
      | None =>
          match parsedAnswer w (S n) with
          | Some spec =>
              let rest :=
                regenerationLoop w s st model shots total (S i) (S (S n)) (S c) items' in
              (asked ++ again ++ build spec :: rest.1, madeBy w c ++ rest.2)
          | None =>
              let rest :=
                regenerationLoop w s st model shots total (S i) (S (S n)) c items' in
              (asked ++ again ++ skipNotice item :: rest.1, rest.2)
          end
      end
  end.

(** The events of the whole action, started in [st] with the session
    [s]: the fonts are loaded, the loop runs, the frames made are
    selected and shown, the edge-case document is written and the count
    of the frames is reported. *)
Definition regenerationEvents (w : World) (s : Session) (st : State) (model : jstring)
    (shots : list FrameScreenshot) (items : list Parser.MissingScreenItem)
  : list Event :=
  let loop :=
    regenerationLoop w s st model shots (length items) 0 (fetches st)
      (S (canvasOps st)) items in
  let n := length loop.2 in
  [ EvUI (MsgProgress (u "Extracting screenshots from reference screens...") None);
    EvCanvas OpLoadFonts ]
  ++ loop.1
  ++ match loop.2 with
     | [] => []
     | _ :: _ => [EvCanvas (OpSelect loop.2); EvCanvas (OpScrollIntoView loop.2)]
     end
  ++ [ EvUI (MsgProgress (u "Creating edge case documentation on canvas...") None);
       EvCanvas (OpCreateDocFrame SecEdgeCases
                   (Parser.formatEdgeCaseMarkdown (engine w) items));
       EvUI (MsgScreensCreated n
               (u "Done! Created " ++ showNat n ++ u " screen" ++ pluralS n
                ++ u " and documentation")) ].

(** The code unit before the position reached after reading [run]. *)
Definition lastOf (prev : option N) (run : jstring) : option N :=
  match last run with
  | Some c => Some c
  | None => prev
  end.

Definition isHash (c : N) : bool := c =? 35.

(** * Facts about regular expressions *)

(** [Needs p r]: every match of [r] consumes a code unit that satisfies
    [p]. *)
Inductive Needs (p : N -> bool) : Regex.regex -> Prop :=
| Needs_chr (q : N -> bool) : (forall c, q c = true -> p c = true) -> Needs p (Regex.Chr q)
| Needs_seq_l (r1 r2 : Regex.regex) : Needs p r1 -> Needs p (Regex.Seq r1 r2)
| Needs_seq_r (r1 r2 : Regex.regex) : Needs p r2 -> Needs p (Regex.Seq r1 r2)
| Needs_alt (r1 r2 : Regex.regex) : Needs p r1 -> Needs p r2 -> Needs p (Regex.Alt r1 r2)
| Needs_cap (r : Regex.regex) : Needs p r -> Needs p (Regex.Cap r).

(** The continuation that reads a closing brace. *)
Definition thenClose {R} (k : Regex.cont R) : Regex.cont R :=
  fun prev s cap => Regex.go false (Regex.lit1 125) prev s cap k.

(** * Invariants of the scan of a document *)

(** The record keeps its keys through the scan: only a key of
    [SECTION_HEADERS] is ever written. *)
Definition keysKept (st : Canvas.scan) : Prop :=
  dom (Canvas.sections st) = dom Canvas.defaultSections /\
  forall key, Canvas.currentKey st = Some key -> key ∈ Canvas.SECTION_KEYS.

(** A key whose header no line shows keeps its first value. *)
Definition untouched (key : jstring) (st : Canvas.scan) : Prop :=
  Canvas.sections st !! key = Canvas.defaultSections !! key /\
  Canvas.currentKey st <> Some key.

(** A line that is no section header, and one that is not the header of
    [key]. *)
Definition plainLine (line : jstring) : Prop :=
  Canvas.findHeader Canvas.SECTION_HEADERS (JS.trim line) = None.
Definition notHeaderOf (key line : jstring) : Prop :=
  Canvas.findHeader Canvas.SECTION_HEADERS (JS.trim line) <> Some key.

#[global] Instance plainLine_dec (line : jstring) : Decision (plainLine line).
Proof. unfold plainLine. apply _. Defined.

#[global] Instance notHeaderOf_dec (key line : jstring) : Decision (notHeaderOf key line).
Proof. unfold notHeaderOf. apply _. Defined.

(** A JSON text written with single quotes in place of double quotes. *)
Definition uq (s : string) : jstring :=
  map (fun c => if c =? 39 then 34 else c) (u s).

(** The requests, answers, notices and the pause of a run on seven
    screens, as [n] requests have gone before. *)
Definition sevenScreenEvents (n : nat) (rq : nat -> SceneNode -> AIRequest)
    (n0 n1 n2 n3 n4 n5 n6 : SceneNode) : list Event :=
  [ EvFetch n (rq 0%nat n0); EvFetch (n + 1) (rq 1%nat n1);
    EvFetch (n + 2) (rq 2%nat n2); EvFetch (n + 3) (rq 3%nat n3);
    EvFetch (n + 4) (rq 4%nat n4);
    EvReply n; EvReply (n + 1); EvReply (n + 2); EvReply (n + 3); EvReply (n + 4);
    progressOf 5 7;
    EvSleep 2000;
    EvFetch (n + 5) (rq 5%nat n5); EvFetch (n + 6) (rq 6%nat n6);
    EvReply (n + 5); EvReply (n + 6);
    progressOf 7 7 ].

(** * Sample data *)

Definition sampleNode (k : N) : SceneNode :=
  Node (u "FRAME") (JS.natToString k) (u "Screen " ++ JS.natToString k)
       (JSON.Num false 375 0) (JSON.Num false 812 0) [].

Definition sampleState : State :=
  {| session := {| apiKey := u "sk-ant-sample-key-0001";
                   projectContext := u "banking app";
                   currentProvider := anthropic |};
     cachedDesignSystem := None; cachedFrameData := None;
     cachedScreenshots := []; cachedNodes := [];
     trace := []; fetches := 0; canvasOps := 0 |}.

(** The same with no API key in the session. *)
Definition keylessState : State :=
  {| session := {| apiKey := []; projectContext := []; currentProvider := anthropic |};
     cachedDesignSystem := None; cachedFrameData := None;
     cachedScreenshots := []; cachedNodes := [];
     trace := []; fetches := 0; canvasOps := 0 |}.

(** The members a plain object inherits, in an engine that prints a
    built-in function as [function name() { [native code] }]. *)
Definition objectMembers : list string :=
  [ "constructor"; "hasOwnProperty"; "isPrototypeOf"; "propertyIsEnumerable";
    "toLocaleString"; "toString"; "valueOf"; "__defineGetter__";
    "__defineSetter__"; "__lookupGetter__"; "__lookupSetter__" ]%string.

(** A sample engine: the members above and [__proto__]; the upper case
    of the Greek and Cyrillic small letters, other code units above
    Latin-1 left as they are. *)
Definition sampleEngine : JS.Engine :=
  {| JS.upperCase := fun c =>
       if (0x3B1 <=? c) && (c <=? 0x3C9) then [if c =? 0x3C2 then 0x3A3 else c - 32]
       else if (0x430 <=? c) && (c <=? 0x44F) then [c - 32]
       else if (0x450 <=? c) && (c <=? 0x45F) then [c - 80]
       else [c];
     JS.inherited := fun name =>
       if bool_decide (name = u "__proto__") then Some (u "[object Object]")
       else match List.find (fun m => bool_decide (name = u m)) objectMembers with
            | Some m => Some (u "function " ++ u m ++ u "() { [native code] }")
            | None => None
            end |}.

(** Seven frames selected, a vendor that always answers with a short
    document, answers that come in the order of the calls, a document
    collaborator that makes one node a call. *)
Definition sampleWorld : World :=
  {| selection := map sampleNode [1; 2; 3; 4; 5; 6; 7];
     vendor := fun k => HttpOk (u "## Purpose" ++ [10] ++ u "Screen " ++ showNat k);
     arrival := fun k => k;
     designSystem := fun _ => Ok EmptyDesignSystem;
     screenshots := fun _ => [];
     canvas := fun k => Ok [NodeRef (N.of_nat k)];
     untyped := fun _ => Throw typeError;
     engine := sampleEngine |}.

(** Nothing selected, and a vendor whose answers hold no JSON. *)
Definition emptyWorld : World :=
  {| selection := [];
     vendor := fun _ => HttpOk (u "I cannot produce this layout.");
     arrival := fun k => k;
     designSystem := fun _ => Ok EmptyDesignSystem;
     screenshots := fun _ => [];
     canvas := fun k => Ok [NodeRef (N.of_nat k)];
     untyped := fun _ => Throw typeError;
     engine := sampleEngine |}.

Definition sampleItem : Parser.MissingScreenItem :=
  {| Parser.name := u "Payment failed";
     Parser.reason := u "No error state after a declined card";
     Parser.components_needed := [u "Banner"; u "Button"];
     Parser.severity := u "high";
     Parser.reference_screen := u "Checkout" |}.

(** An answer without the delimiter, and one whose JSON is cut short. *)
Definition noDelimiterAnswer : jstring :=
  u "  ## Flow Overview" ++ [10] ++ u "Sign in, then pay.  ".

Definition truncatedAnswer : jstring :=
  u "## Flow Overview" ++ [10] ++ u "Sign in." ++ [10] ++ u "---EDGE-CASES---"
  ++ [10] ++ uq "{'missing_screens':[{'name':'Payment failed'}".



Definition criticalEntry : JSON.json :=
  JSON.JObject
    [ (u "name", JSON.JString (u "Payment failed"));
      (u "reason", JSON.JString (u "No error state"));
      (u "components_needed", JSON.JArray [JSON.JString (u "Banner")]);
      (u "severity", JSON.JString (u "critical"));
      (u "reference_screen", JSON.JString (u "Checkout")) ].

(** A fenced answer whose [name] is not a string. *)
Definition untypedNameSpec : jstring :=
  u "```json" ++ [10] ++ uq "{'name':true,'width':375,'height':812}" ++ [10] ++ u "```".

Definition goodSpec : jstring :=
  u "```json" ++ [10] ++ uq "{'name':'Payment failed','width':375,'height':812,'children':[]}"
  ++ [10] ++ u "```".

(** A vendor whose first two answers hold no layout and whose later
    answers hold one, and a second missing screen. *)
Definition retryWorld : World :=
  {| selection := [];
     vendor := fun k => if (k <? 2)%nat
                        then HttpOk (u "I cannot produce this layout.")
                        else HttpOk goodSpec;
     arrival := fun k => k;
     designSystem := fun _ => Ok EmptyDesignSystem;
     screenshots := fun _ => [];
     canvas := fun k => Ok [NodeRef (N.of_nat k)];
     untyped := fun _ => Throw typeError;
     engine := sampleEngine |}.

Definition laterItem : Parser.MissingScreenItem :=
  {| Parser.name := u "Empty cart";
     Parser.reason := u "No state for a cart without items";
     Parser.components_needed := [];
     Parser.severity := u "low";
     Parser.reference_screen := u "Cart" |}.

(** A document with two sections, the second empty, and one whose only
    section is a line with a heading marker. *)
Definition twoSectionDoc : jstring :=
  u "intro" ++ [13; 10] ++ u "## Purpose" ++ [10] ++ u "Does X" ++ [10]
  ++ u "## Attachments" ++ [10] ++ u "   ".

Definition markedDoc : jstring :=
  u "## Use Cases" ++ [10] ++ u "###  Primary: sign in".
(** * More ways to read a trace *)

(** The requests sent, the pauses taken and the notices posted, each in
    the order of the trace. *)
Fixpoint requestsOf (evs : list Event) : list AIRequest :=
  match evs with
  | [] => []
  | EvFetch _ rq :: evs' => rq :: requestsOf evs'
  | _ :: evs' => requestsOf evs'
  end.

Fixpoint pausesOf (evs : list Event) : list N :=
  match evs with
  | [] => []
  | EvSleep ms :: evs' => ms :: pausesOf evs'
  | _ :: evs' => pausesOf evs'
  end.

Fixpoint noticesOf (evs : list Event) : list MainMessage :=
  match evs with
  | [] => []
  | EvUI m :: evs' => m :: noticesOf evs'
  | _ :: evs' => noticesOf evs'
  end.

Fixpoint canvasOpsOf (evs : list Event) : list CanvasOp :=
  match evs with
  | [] => []
  | EvCanvas op :: evs' => op :: canvasOpsOf evs'
  | _ :: evs' => canvasOpsOf evs'
  end.

(** The notices that end the busy state of the panel. *)
Definition isFinalNotice (m : MainMessage) : bool :=
  match m with
  | MsgScanComplete _ _ _ | MsgScreensCreated _ _ | MsgError _ | MsgApiKeyError _ => true
  | _ => false
  end.

(** For every pause of a trace, the number of requests sent before it,
    counted from [sent]. *)
Fixpoint pausePoints (sent : nat) (evs : list Event) : list nat :=
  match evs with
  | [] => []
  | EvFetch _ _ :: evs' => pausePoints (S sent) evs'
  | EvSleep _ :: evs' => sent :: pausePoints sent evs'
  | _ :: evs' => pausePoints sent evs'
  end.

(** A step that only adds to the trace, and posts no notice that ends
    the busy state of the panel. *)
Definition quiet {A} (m : M A) : Prop :=
  forall (w : World) (st : State),
  exists tail,
    trace (m w st).2 = trace st ++ tail /\
    Forall (fun x => isFinalNotice x = false) (noticesOf tail).

(** A step that leaves the document alone. *)
Definition offCanvas {A} (m : M A) : Prop :=
  forall (w : World) (st : State),
  exists tail,
    trace (m w st).2 = trace st ++ tail /\ canvasOpsOf tail = [].

(** A step that, when it returns, has posted exactly one such notice, as
    its last notice; and none when it throws. *)
Definition closing {A} (m : M A) : Prop :=
  forall (w : World) (st : State),
  exists tail,
    trace (m w st).2 = trace st ++ tail /\
    match (m w st).1 with
    | Ok _ =>
        exists ms x, noticesOf tail = ms ++ [x] /\
                     Forall (fun x => isFinalNotice x = false) ms /\
                     isFinalNotice x = true
    | Throw _ => Forall (fun x => isFinalNotice x = false) (noticesOf tail)
    end.

(** What a whole action does: it returns, and has posted exactly one
    notice that ends the busy state, as its last notice. *)
Definition settles (m : M unit) : Prop :=
  forall (w : World) (st : State),
    (m w st).1 = Ok tt /\
    exists tail ms x,
      trace (m w st).2 = trace st ++ tail /\
      noticesOf tail = ms ++ [x] /\
      Forall (fun x => isFinalNotice x = false) ms /\
      isFinalNotice x = true.

(** The same when notices that do not end the busy state may still
    follow the closing one. *)
Definition closingOnce {A} (m : M A) : Prop :=
  forall (w : World) (st : State),
  exists tail,
    trace (m w st).2 = trace st ++ tail /\
    match (m w st).1 with
    | Ok _ =>
        exists ms x rest, noticesOf tail = ms ++ x :: rest /\
                          Forall (fun x => isFinalNotice x = false) ms /\
                          isFinalNotice x = true /\
                          Forall (fun x => isFinalNotice x = false) rest
    | Throw _ => Forall (fun x => isFinalNotice x = false) (noticesOf tail)
    end.

Definition settlesOnce (m : M unit) : Prop :=
  forall (w : World) (st : State),
    (m w st).1 = Ok tt /\
    exists tail ms x rest,
      trace (m w st).2 = trace st ++ tail /\
      noticesOf tail = ms ++ x :: rest /\
      Forall (fun x => isFinalNotice x = false) ms /\
      isFinalNotice x = true /\
      Forall (fun x => isFinalNotice x = false) rest.

(** A run whose last notice ends the busy state; closing notices may
    come before it. *)
Definition endsClosed (m : M unit) : Prop :=
  forall (w : World) (st : State),
    (m w st).1 = Ok tt /\
    exists tail ms x,
      trace (m w st).2 = trace st ++ tail /\
      noticesOf tail = ms ++ [x] /\ isFinalNotice x = true.

(** A step that sends at most [k] requests. *)
Definition sendsAtMost {A} (k : nat) (m : M A) : Prop :=
  forall (w : World) (st : State),
  exists tail,
    trace (m w st).2 = trace st ++ tail /\ (length (requestsOf tail) <= k)%nat.

(** A step whose last notice, when it returns, ends the busy state. *)
Definition returnsClosed {A} (m : M A) : Prop :=
  forall (w : World) (st : State),
  exists tail,
    trace (m w st).2 = trace st ++ tail /\
    match (m w st).1 with
    | Ok _ => exists ms x, noticesOf tail = ms ++ [x] /\ isFinalNotice x = true
    | Throw _ => True
    end.





(** A step that only adds events. *)
Definition grows {A} (m : M A) : Prop :=
  forall (w : World) (st : State), exists tail, trace (m w st).2 = trace st ++ tail.

(** A run whose events begin with [pre]. *)
Definition beginsWith {A} (pre : list Event) (m : M A) (w : World) (st : State)
  : Prop :=
  exists rest, trace (m w st).2 = trace st ++ pre ++ rest.
(** * The entry point: key format and message dispatch ([main.ts]) *)

(** [[a-zA-Z0-9_-]] *)
Definition keyChar (c : N) : bool :=
  ((97 <=? c) && (c <=? 122)) || ((65 <=? c) && (c <=? 90))
  || ((48 <=? c) && (c <=? 57)) || (c =? 95) || (c =? 45).

(** [/^sk-ant-[a-zA-Z0-9_-]+/] and [/^sk-[a-zA-Z0-9_-]+/] *)
Definition reAnthropicKey : Regex.regex :=
  Regex.seqs [Regex.Bol; Regex.lit "sk-ant-"; Regex.Plus (Regex.Chr keyChar)].
Definition reOpenAIKey : Regex.regex :=
  Regex.seqs [Regex.Bol; Regex.lit "sk-"; Regex.Plus (Regex.Chr keyChar)].

Definition isValidApiKeyFormat (key : jstring) (prov : AIProvider) : bool :=
  let trimmed := JS.trim key in
  if (length trimmed <? 10)%nat then false
  else
    match prov with
    | anthropic => Regex.test false reAnthropicKey trimmed
    | openai => Regex.test false reOpenAIKey trimmed
    | google => (20 <=? length trimmed)%nat
    end.

(** [UIMessage]: what the panel posts to the host.  [provider] of
    [set-api-key] may be absent; so may [projectContext] and [model]. *)
Inductive UIMessage : Type :=
| TestConnection
| SetApiKey (key : jstring) (provider : option AIProvider)
            (projectContext : option jstring)
| ScanScreens (apiKey : jstring) (provider : AIProvider)
              (projectContext model : option jstring)
              (includePlatformConstraints includeDataLogic : option bool)
| ScanFlow (apiKey : jstring) (provider : AIProvider)
           (projectContext model : option jstring)
| EdgeCaseDocOnly (documentation : jstring)
| GenerateMissingScreens (missingScreens : list Parser.MissingScreenItem)
                         (documentation apiKey : jstring) (provider : AIProvider)
                         (projectContext model : option jstring)
| OtherMessage (type : jstring).

(** What [figma.ui.onmessage] is called with: the message, the message
    inside a [pluginMessage] envelope (which may hold none), or a value
    that is no message. *)
Inductive Payload : Type :=
| Plain (msg : UIMessage)
| Envelope (pluginMessage : option UIMessage)
| NoMessage.

Definition hints (prov : AIProvider) : jstring :=
  match prov with
  | anthropic => u "Anthropic keys start with sk-ant-."
  | openai => u "OpenAI keys start with sk-."
  | google => u "Google AI key seems too short."
  end.

(** [action(...).catch(handler)]: the dispatcher starts the action and
    does not wait for it.  The model follows the action to its end
    before the next message is read: it describes the runs in which no
    other message comes in while an action is under way, and says
    nothing of messages that interleave with one. *)
Definition catchRejection (action : M unit) (handler : JsError -> M unit) : M unit :=
  tryCatchFinally action handler (ret tt).

Definition updateSelectionCount : M unit :=
  nodes ← getSelectedFramesAndComponents;
  sendToUI (MsgSelectionChanged (length nodes)).

(** The [set-api-key] case, the same in both revisions. *)
Definition setApiKey (msgKey : jstring) (msgProvider : option AIProvider)
    (msgProjectContext : option jstring) : M unit :=
  let key := JS.trim msgKey in
  let prov := default anthropic msgProvider in
  match key with
  | [] => sendToUI (MsgApiKeyError (u "Please enter an API key."))
  | _ :: _ =>
      if negb (isValidApiKeyFormat key prov)
      then sendToUI (MsgApiKeyError (u "API key format looks invalid. " ++ hints prov))
      else
        setSession {| apiKey := key; projectContext := JS.trim (default [] msgProjectContext);
                      currentProvider := prov |};;
        sendToUI MsgApiKeyValid
  end.

Definition unwrap (payload : Payload) : option UIMessage :=
  match payload with
  | Plain msg => Some msg
  | Envelope pluginMessage => pluginMessage
  | NoMessage => None
  end.

Module Main1.

Definition handleEdgeCaseDocOnly (documentation : jstring) : M unit :=
  tryCatchFinally
    (onCanvas (OpCreateDocFrame SecEdgeCases documentation);; ret tt)
    Rev1.sendError
    (ret tt).

Definition dispatch (msg : UIMessage) : M unit :=
  match msg with
  | TestConnection => sendToUI (MsgTestResponse (u "Plugin is connected!"))
  | SetApiKey key provider projectContext => setApiKey key provider projectContext
  | ScanScreens apiKey provider projectContext model _ _ =>
      catchRejection
        (Rev1.handleScanScreens apiKey provider (Some (default [] projectContext)) model)
        Rev1.sendError
  | ScanFlow apiKey provider projectContext model =>
      catchRejection
        (Rev1.handleScanFlow apiKey provider (Some (default [] projectContext)) model)
        Rev1.sendError
  | EdgeCaseDocOnly documentation =>
      catchRejection (handleEdgeCaseDocOnly documentation) Rev1.sendError
  | GenerateMissingScreens missingScreens documentation apiKey provider
                           projectContext model =>
      catchRejection
        (Rev1.handleGenerateMissingScreens missingScreens documentation apiKey
           provider (Some (default [] projectContext)) model)
        Rev1.sendError
  | OtherMessage _ => ret tt
  end.

Definition onmessage (payload : Payload) : M unit :=
  match unwrap payload with
  | None => ret tt
  | Some msg => tryCatchFinally (dispatch msg) Rev1.sendError (ret tt)
  end.

End Main1.

Module Main2.

Definition dispatch (msg : UIMessage) : M unit :=
  match msg with
  | TestConnection => sendToUI (MsgTestResponse (u "Plugin is connected!"))
  | SetApiKey key provider projectContext => setApiKey key provider projectContext
  | ScanScreens apiKey provider projectContext model
                includePlatformConstraints includeDataLogic =>
      catchRejection
        (Rev2.handleScanScreens apiKey provider (Some (default [] projectContext)) model
           (Some (includePlatformConstraints, includeDataLogic)))
        Rev2.sendError
  | ScanFlow apiKey provider projectContext model =>
      catchRejection
        (Rev2.handleScanFlow apiKey provider (Some (default [] projectContext)) model)
        Rev2.sendError
  | EdgeCaseDocOnly _ | GenerateMissingScreens _ _ _ _ _ _ | OtherMessage _ => ret tt
  end.

Definition onmessage (payload : Payload) : M unit :=
  match unwrap payload with
  | None => ret tt
  | Some msg => tryCatchFinally (dispatch msg) Rev2.sendError (ret tt)
  end.

End Main2.
(** * The settings kept by the panel ([ui.tsx]) *)

Module Storage.

(** ** [JSON.stringify] of a string

    The text between the quotes is made code point by code point: the
    short escapes for backspace, tab, line feed, form feed, carriage
    return, the quote and the backslash; [\uXXXX] with lower-case digits
    for the other code units below U+0020 and for a surrogate that is not
    part of a pair; everything else as it is. *)

Definition hexDigit (v : N) : N := if v <? 10 then 48 + v else 87 + v.

Definition unicodeEscape (c : N) : jstring :=
  [92; 117; hexDigit ((c / 4096) mod 16); hexDigit ((c / 256) mod 16);
   hexDigit ((c / 16) mod 16); hexDigit (c mod 16)].

Definition isLeadingSurrogate (c : N) : bool := (0xD800 <=? c) && (c <=? 0xDBFF).
Definition isTrailingSurrogate (c : N) : bool := (0xDC00 <=? c) && (c <=? 0xDFFF).

Definition escapeUnit (c : N) : jstring :=
  if c =? 8 then [92; 98]
  else if c =? 9 then [92; 116]
  else if c =? 10 then [92; 110]
  else if c =? 12 then [92; 102]
  else if c =? 13 then [92; 114]
  else if c =? 34 then [92; 34]
  else if c =? 92 then [92; 92]
  else if c <? 32 then unicodeEscape c
  else [c].

Fixpoint quoteUnits (s : jstring) : jstring :=
  match s with
  | [] => []
  | c :: s' =>
      if isLeadingSurrogate c then
        match s' with
        | d :: s'' =>
            if isTrailingSurrogate d then c :: d :: quoteUnits s''
            else unicodeEscape c ++ quoteUnits s'
        | [] => unicodeEscape c
        end
      else if isTrailingSurrogate c then unicodeEscape c ++ quoteUnits s'
      else escapeUnit c ++ quoteUnits s'
  end.

Definition stringify (s : jstring) : jstring := [34] ++ quoteUnits s ++ [34].

(** ** [localStorage]

    The store of the browser: its entries when it can be reached, and
    whether an entry still fits ([setItem] throws when it does not). *)
Inductive LocalStorage : Type :=
| Available (items : gmap jstring jstring)
| Denied.

Definition STORAGE_KEYS_apiKey : jstring := u "flowdoc_api_key".
Definition STORAGE_KEYS_provider : jstring := u "flowdoc_provider".
Definition STORAGE_KEYS_model : jstring := u "flowdoc_model".
Definition STORAGE_KEYS_projectContext : jstring := u "flowdoc_project_context".

(** [loadFromStorage(key, fallback)]: the parsed entry, or [fallback]
    when there is none, when it is no JSON text, or when the store
    cannot be reached. *)
Definition loadFromStorage (key : jstring) (fallback : JSON.json)
    (store : LocalStorage) : JSON.json :=
  match store with
  | Denied => fallback
  | Available items =>
      match items !! key with
      | None => fallback
      | Some v =>
          match JSON.parse v with
          | Some parsed => parsed
          | None => fallback
          end
      end
  end.

(** [saveToStorage(key, value)] for a string [value]; a failure of
    [setItem] is ignored. *)
Definition saveToStorage (fits : jstring -> jstring -> bool) (key value : jstring)
    (store : LocalStorage) : LocalStorage :=
  match store with
  | Denied => Denied
  | Available items =>
      if fits key (stringify value)
      then Available (<[key := stringify value]> items)
      else store
  end.

End Storage.
(** * The panel ([ui.tsx])

    The state of the [App] component after its latest render, the
    handler of the notices of the host ([window.onmessage]) and the
    handlers of the buttons.  A handler gives the next state and the
    messages it posts to the host, in order. *)

Module Panel.

Inductive PendingAction : Type := PendingScanScreens | PendingScanFlow.

Record State : Type := {
  selectedProvider : AIProvider;
  apiKey : jstring;
  selectedModel : jstring;
  projectContext : jstring;
  selectedFrameCount : nat;
  isScanning : bool;
  scanProgress : jstring;
  error : option jstring;
  isConnected : bool;
  edgeCaseResult : option (list JSON.json * jstring);
  successMessage : option jstring;
  pendingAction : option PendingAction
}.

(** What the panel posts: the missing screens go back as the host sent
    them. *)
Inductive Posted : Type :=
| PostSetApiKey (key : jstring) (provider : AIProvider) (projectContext : option jstring)
| PostScanScreens (apiKey : jstring) (provider : AIProvider)
                  (projectContext model : jstring)
| PostScanFlow (apiKey : jstring) (provider : AIProvider)
               (projectContext model : jstring)
| PostGenerateMissingScreens (missingScreens : list JSON.json)
                             (documentation apiKey : jstring) (provider : AIProvider)
                             (projectContext model : jstring).

Definition hasApiKey (s : State) : bool := negb (bool_decide (JS.trim (apiKey s) = [])).
Definition hasFrames (s : State) : bool := (0 <? selectedFrameCount s)%nat.
Definition canAct (s : State) : bool := hasApiKey s && hasFrames s && negb (isScanning s).

(** [validateApiKey]: [projectContext.trim() || undefined] *)
Definition validateApiKey (s : State) : Posted :=
  PostSetApiKey (apiKey s) (selectedProvider s)
    match JS.trim (projectContext s) with
    | [] => None
    | c :: t => Some (c :: t)
    end.

Definition executeScanScreens (s : State) : State * list Posted :=
  ({| selectedProvider := selectedProvider s; apiKey := apiKey s;
      selectedModel := selectedModel s; projectContext := projectContext s;
      selectedFrameCount := selectedFrameCount s;
      isScanning := true; scanProgress := u "Starting..."; error := None;
      isConnected := isConnected s; edgeCaseResult := None; successMessage := None;
      pendingAction := pendingAction s |},
   [PostScanScreens (apiKey s) (selectedProvider s) (projectContext s) (selectedModel s)]).

Definition executeScanFlow (s : State) : State * list Posted :=
  ({| selectedProvider := selectedProvider s; apiKey := apiKey s;
      selectedModel := selectedModel s; projectContext := projectContext s;
      selectedFrameCount := selectedFrameCount s;
      isScanning := true; scanProgress := u "Analyzing flow..."; error := None;
      isConnected := isConnected s; edgeCaseResult := None; successMessage := None;
      pendingAction := pendingAction s |},
   [PostScanFlow (apiKey s) (selectedProvider s) (projectContext s) (selectedModel s)]).

(** [window.onmessage] *)
Definition onmessage (msg : MainMessage) (s : State) : State * list Posted :=
  match msg with
  | MsgSelectionChanged count =>
      ({| selectedProvider := selectedProvider s; apiKey := apiKey s;
          selectedModel := selectedModel s; projectContext := projectContext s;
          selectedFrameCount := count;
          isScanning := isScanning s; scanProgress := scanProgress s; error := error s;
          isConnected := isConnected s; edgeCaseResult := edgeCaseResult s;
          successMessage := successMessage s; pendingAction := pendingAction s |}, [])
  | MsgProgress message _ =>
      ({| selectedProvider := selectedProvider s; apiKey := apiKey s;
          selectedModel := selectedModel s; projectContext := projectContext s;
          selectedFrameCount := selectedFrameCount s;
          isScanning := isScanning s; scanProgress := message; error := None;
          isConnected := isConnected s; edgeCaseResult := edgeCaseResult s;
          successMessage := successMessage s; pendingAction := pendingAction s |}, [])
  | MsgScanComplete _ _ message =>
      ({| selectedProvider := selectedProvider s; apiKey := apiKey s;
          selectedModel := selectedModel s; projectContext := projectContext s;
          selectedFrameCount := selectedFrameCount s;
          isScanning := false; scanProgress := []; error := None;
          isConnected := isConnected s; edgeCaseResult := edgeCaseResult s;
          successMessage := Some message; pendingAction := pendingAction s |}, [])
  | MsgEdgeCaseResult missingScreens documentation =>
      ({| selectedProvider := selectedProvider s; apiKey := apiKey s;
          selectedModel := selectedModel s; projectContext := projectContext s;
          selectedFrameCount := selectedFrameCount s;
          isScanning := isScanning s; scanProgress := scanProgress s; error := error s;
          isConnected := isConnected s;
          edgeCaseResult := Some (missingScreens, documentation);
          successMessage := successMessage s; pendingAction := pendingAction s |}, [])
  | MsgScreensCreated _ message =>
      ({| selectedProvider := selectedProvider s; apiKey := apiKey s;
          selectedModel := selectedModel s; projectContext := projectContext s;
          selectedFrameCount := selectedFrameCount s;
          isScanning := false; scanProgress := []; error := None;
          isConnected := isConnected s; edgeCaseResult := None;
          successMessage := Some message; pendingAction := pendingAction s |}, [])
  | MsgError message =>
      ({| selectedProvider := selectedProvider s; apiKey := apiKey s;
          selectedModel := selectedModel s; projectContext := projectContext s;
          selectedFrameCount := selectedFrameCount s;
          isScanning := false; scanProgress := []; error := Some message;
          isConnected := isConnected s; edgeCaseResult := edgeCaseResult s;
          successMessage := successMessage s; pendingAction := pendingAction s |}, [])
  | MsgApiKeyValid =>
      let connected :=
        {| selectedProvider := selectedProvider s; apiKey := apiKey s;
           selectedModel := selectedModel s; projectContext := projectContext s;
           selectedFrameCount := selectedFrameCount s;
           isScanning := isScanning s; scanProgress := scanProgress s; error := None;
           isConnected := true; edgeCaseResult := edgeCaseResult s;
           successMessage := successMessage s; pendingAction := None |} in
      match pendingAction s with
      | Some PendingScanScreens => executeScanScreens connected
      | Some PendingScanFlow => executeScanFlow connected
      | None => (connected, [])
      end
  | MsgApiKeyError message =>
      ({| selectedProvider := selectedProvider s; apiKey := apiKey s;
          selectedModel := selectedModel s; projectContext := projectContext s;
          selectedFrameCount := selectedFrameCount s;
          isScanning := false; scanProgress := []; error := Some message;
          isConnected := false; edgeCaseResult := edgeCaseResult s;
          successMessage := successMessage s; pendingAction := None |}, [])
  | MsgTestResponse message =>
      ({| selectedProvider := selectedProvider s; apiKey := apiKey s;
          selectedModel := selectedModel s; projectContext := projectContext s;
          selectedFrameCount := selectedFrameCount s;
          isScanning := isScanning s; scanProgress := scanProgress s; error := error s;
          isConnected := isConnected s; edgeCaseResult := edgeCaseResult s;
          successMessage := Some message; pendingAction := pendingAction s |}, [])
  end.

(** The state with a pending action while the key is being checked. *)
Definition validating (pending : PendingAction) (s : State) : State :=
  {| selectedProvider := selectedProvider s; apiKey := apiKey s;
     selectedModel := selectedModel s; projectContext := projectContext s;
     selectedFrameCount := selectedFrameCount s;
     isScanning := true; scanProgress := u "Validating API key..."; error := error s;
     isConnected := isConnected s; edgeCaseResult := edgeCaseResult s;
     successMessage := successMessage s; pendingAction := Some pending |}.

(** The buttons [Create Handoff Doc] and [Scan Flow]. *)
Definition handleScanScreens (s : State) : State * list Posted :=
  if negb (canAct s) then (s, [])
  else if isConnected s then executeScanScreens s
  else (validating PendingScanScreens s, [validateApiKey s]).

Definition handleScanFlow (s : State) : State * list Posted :=
  if negb (canAct s) then (s, [])
  else if isConnected s then executeScanFlow s
  else (validating PendingScanFlow s, [validateApiKey s]).

(** The button [Create Missing Screens]. *)
Definition handleCreateMissingScreens (s : State) : State * list Posted :=
  match edgeCaseResult s with
  | None | Some ([], _) => (s, [])
  | Some (missingScreens, documentation) =>
      ({| selectedProvider := selectedProvider s; apiKey := apiKey s;
          selectedModel := selectedModel s; projectContext := projectContext s;
          selectedFrameCount := selectedFrameCount s;
          isScanning := true; scanProgress := u "Generating screens..."; error := error s;
          isConnected := isConnected s; edgeCaseResult := edgeCaseResult s;
          successMessage := None; pendingAction := pendingAction s |},
       [PostGenerateMissingScreens missingScreens documentation (apiKey s)
          (selectedProvider s) (projectContext s) (selectedModel s)])
  end.

(** The notices of the host handled in order; the messages posted on the
    way are collected. *)
Fixpoint receive (notices : list MainMessage) (s : State) : State * list Posted :=
  match notices with
  | [] => (s, [])
  | m :: notices' =>
      let '(s1, posted1) := onmessage m s in
      let '(s2, posted2) := receive notices' s1 in
      (s2, posted1 ++ posted2)
  end.

End Panel.

(** * The panel and the host together

    What the host receives for a posted message: the fields as the panel
    wrote them.  Missing screens that do not have the shape of a
    [MissingScreenItem] are outside what the model of the host takes. *)
Definition toHost (p : Panel.Posted) : option UIMessage :=
  match p with
  | Panel.PostSetApiKey key provider ctx => Some (SetApiKey key (Some provider) ctx)
  | Panel.PostScanScreens apiKey provider ctx model =>
      Some (ScanScreens apiKey provider (Some ctx) (Some model) None None)
  | Panel.PostScanFlow apiKey provider ctx model =>
      Some (ScanFlow apiKey provider (Some ctx) (Some model))
  | Panel.PostGenerateMissingScreens ms documentation apiKey provider ctx model =>
      match mapM Parser.asItem ms with
      | Some items =>
          Some (GenerateMissingScreens items documentation apiKey provider
                  (Some ctx) (Some model))
      | None => None
      end
  end.

(** The notices the host posts while it handles one message;
    [onmessage] is the handler of either revision. *)
Definition hostNotices (onmessage : Payload -> M unit) (w : World) (host : State)
    (msg : UIMessage) : State * list MainMessage :=
  let after := (onmessage (Plain msg) w host).2 in
  (after, noticesOf (drop (length (trace host)) (trace after))).

(** One exchange: the posted messages are handled by the host one after
    the other, the panel handles the notices of each, and what it posts
    in turn is handled next.  [rounds] bounds the number of messages;
    the messages that were not handled are returned. *)
Fixpoint exchange (onmessage : Payload -> M unit) (rounds : nat) (w : World)
    (posted : list Panel.Posted) (host : State) (panel : Panel.State)
  : State * Panel.State * list Panel.Posted :=
  match posted with
  | [] => (host, panel, [])
  | p :: posted' =>
      match rounds, toHost p with
      | S rounds', Some msg =>
          let '(host1, notices) := hostNotices onmessage w host msg in
          let '(panel1, more) := Panel.receive notices panel in
          exchange onmessage rounds' w (posted' ++ more) host1 panel1
      | _, _ => (host, panel, posted)
      end
  end.

(** A click, then the exchange it starts. *)
Definition click (handler : Panel.State -> Panel.State * list Panel.Posted)
    (onmessage : Payload -> M unit) (w : World) (host : State) (panel : Panel.State)
  : State * Panel.State * list Panel.Posted :=
  let '(panel1, posted) := handler panel in
  exchange onmessage 2 w posted host panel1.

(** A panel that has a key, is not connected, and sees one frame. *)
Definition samplePanel : Panel.State :=
  {| Panel.selectedProvider := anthropic;
     Panel.apiKey := u "sk-ant-0123456789abcdef";
     Panel.selectedModel := u "claude-sonnet-4-20250514";
     Panel.projectContext := [];
     Panel.selectedFrameCount := 1;
     Panel.isScanning := false;
     Panel.scanProgress := [];
     Panel.error := None;
     Panel.isConnected := false;
     Panel.edgeCaseResult := None;
     Panel.successMessage := None;
     Panel.pendingAction := None |}.

(** The same panel after a flow scan that found one missing screen, with
    the key field overwritten by a space. *)
Definition blankKeyPanel : Panel.State :=
  {| Panel.selectedProvider := anthropic;
     Panel.apiKey := u " ";
     Panel.selectedModel := u "claude-sonnet-4-20250514";
     Panel.projectContext := [];
     Panel.selectedFrameCount := 1;
     Panel.isScanning := false;
     Panel.scanProgress := [];
     Panel.error := None;
     Panel.isConnected := false;
     Panel.edgeCaseResult := Some ([criticalEntry], u "Payment failed");
     Panel.successMessage := None;
     Panel.pendingAction := None |}.
(** * The classifiers without their status-code block

    Both classifiers as they read when the block
    [if (message.includes('API error')) { ... }] is taken out: the tests
    before it and after it, in the same order. *)

Definition classifyByPatterns1 (typeErr : bool) (message : jstring) : jstring :=
  let lower := JS.toLowerCase message in
  if has message "401" || has lower "invalid api key" || has lower "incorrect api key"
  then Rev1.MSG_INVALID_KEY
  else if has message "402" || has lower "credit" || has lower "quota"
  then Rev1.MSG_CREDITS
  else if has message "429" || has lower "rate limit"
  then Rev1.MSG_RATE_LIMIT
  else if has message "529" || has message "503" || has lower "overloaded"
  then Rev1.MSG_OVERLOADED
  else if has lower "no frames selected" || has lower "selection"
  then Rev1.MSG_SELECTION
  else if typeErr && has message "fetch" then Rev1.MSG_NETWORK
  else if has lower "network" then Rev1.MSG_NETWORK
  else if has message "JSON" || has message "parse" then Rev1.MSG_PARSE
  else genericError message.

Definition classifyByPatterns2 (label : jstring) (typeErr : bool) (message : jstring)
  : jstring :=
  if Rev2.keyPattern message then Rev2.MSG_INVALID_KEY label
  else if Rev2.ratePattern message then Rev2.MSG_RATE_LIMIT
  else if Rev2.creditPattern message then Rev2.MSG_CREDITS label
  else if Rev2.requestPattern message then Rev2.MSG_REQUEST
  else if Rev2.serverPattern message then Rev2.MSG_ISSUES label
  else if Rev2.timeoutPattern message then Rev2.MSG_TIMEOUT
  else if Rev2.fetchPattern typeErr message then Rev2.MSG_CONNECTION
  else if Rev2.connectionPattern message then Rev2.MSG_CONNECTION
  else if Rev2.selectionPattern message then Rev2.MSG_SELECTION
  else if Rev2.parsePattern message then Rev2.MSG_PARSE
  else genericError message.
(** * The nodes of a tree

    A node and all the nodes below it, the node first. *)
Fixpoint nodesOf (node : SceneNode) : list SceneNode :=
  let 'Node _ _ _ _ _ children := node in
  node :: flat_map nodesOf children.

(** [node.type === 'COMPONENT' || node.type === 'INSTANCE'] and
    [node.name || 'Unknown'] *)
Definition isComponentOrInstance (node : SceneNode) : bool :=
  bool_decide (node_type node = u "COMPONENT") || bool_decide (node_type node = u "INSTANCE").
Definition componentName (node : SceneNode) : jstring :=
  orElse (node_name node) (u "Unknown").

(** The tree without the children after the fiftieth, at every level. *)
Fixpoint firstFifty (node : SceneNode) : SceneNode :=
  let 'Node type id name width height children := node in
  Node type id name width height (take 50 (map firstFifty children)).
(** * The cards of the flow analysis ([canvas.ts])

    [parseFlowSections] and the loop of [createFlowDocCards], and the
    titles [createDocCardsForScreen] makes cards for. *)

Module Flow.
Import Regex.

(** [Points?], [Screens?], ... under the [i] flag *)
Definition plural (word : string) : list regex := [liti word; Opt (lit1i 115)].

(** [FLOW_SECTION_HEADERS], in the order of the source. *)
Definition FLOW_SECTION_HEADERS : list (jstring * regex) :=
  [ (u "Flow Overview", Canvas.header [liti "Flow"; Star ws; liti "Overview"]);
    (u "Entry Points", Canvas.header ([liti "Entry"; Star ws] ++ plural "Point"));
    (u "Key Screens", Canvas.header ([liti "Key"; Star ws] ++ plural "Screen"));
    (u "Decision Points", Canvas.header ([liti "Decision"; Star ws] ++ plural "Point"));
    (u "Edge Cases Identified",
      Canvas.header ([liti "Edge"; Star ws] ++ plural "Case"
                     ++ [Star ws; Opt (liti "Identified")]));
    (u "Recommendations", Canvas.header (plural "Recommendation")) ].

(** The record [sections] as [parseFlowSections] first builds it. *)
Definition defaultSections : gmap jstring jstring :=
  <[u "Flow Overview" := []]>
  (<[u "Entry Points" := []]>
  (<[u "Key Screens" := []]>
  (<[u "Decision Points" := []]>
  (<[u "Edge Cases Identified" := []]>
  (<[u "Recommendations" := []]> ∅))))).

(** [/\*\*/g] *)
Definition reBold : regex := lit "**".

(** The text a section holds when its lines are [currentLines]. *)
Definition sectionContent (currentLines : list jstring) : jstring :=
  let content := JS.trim (JS.join Canvas.nl currentLines) in
  JS.trim (replaceAll false reBold []
             (replaceAll true Canvas.reLineHashes [] content)).

Definition flush (st : Canvas.scan) : gmap jstring jstring :=
  match Canvas.currentKey st with
  | None => Canvas.sections st
  | Some key =>
      let content := sectionContent (Canvas.currentLines st) in
      match content with
      | [] => Canvas.sections st
      | _ :: _ => <[key := content]> (Canvas.sections st)
      end
  end.

(** One round of the loop over the lines. *)
Definition scanLine (st : Canvas.scan) (line : jstring) : Canvas.scan :=
  match Canvas.findHeader FLOW_SECTION_HEADERS (JS.trim line) with
  | Some key => Canvas.Scan (flush st) (Some key) []
  | None =>
      match Canvas.currentKey st with
      | Some _ =>
          Canvas.Scan (Canvas.sections st) (Canvas.currentKey st)
            (Canvas.currentLines st ++ [line])
      | None => st
      end
  end.

(** The last pass over every value of the record. *)
Definition stripResidual (v : jstring) : jstring :=
  JS.trim (replaceAll false Canvas.reNewlineHashes Canvas.nl
             (replaceAll false reBold []
                (replaceAll true Canvas.reLineHashes [] v))).

Definition parseLines (lines : list jstring) : gmap jstring jstring :=
  let st := fold_left scanLine lines (Canvas.Scan defaultSections None []) in
  stripResidual <$> flush st.

Definition parseFlowSections (fullDoc : jstring) : gmap jstring jstring :=
  parseLines (Canvas.docLines fullDoc).

(** The titles [createFlowDocCards] goes through. *)
Definition titles : list jstring :=
  [ u "Flow Overview"; u "Entry Points"; u "Key Screens"; u "Decision Points";
    u "Edge Cases Identified"; u "Recommendations" ].

(** The calls of [createSectionCard] in [createFlowDocCards], as title
    and content, in order: a title whose content is empty is passed
    over. *)
Definition flowCards (documentation : jstring) : list (jstring * jstring) :=
  let sections := parseFlowSections documentation in
  omap (fun title =>
          match default [] (sections !! title) with
          | [] => None
          | c :: content => Some (title, c :: content)
          end) titles.

End Flow.

(** The calls of [createSectionCard] in [createDocCardsForScreen], as
    title and content, in order. *)
Definition screenCards (documentation : jstring) : list (jstring * jstring) :=
  let sections := Canvas.parseDocSections documentation in
  let optional (title : jstring) : list jstring :=
    match sections !! title with
    | Some v => match JS.trim v with [] => [] | _ :: _ => [title] end
    | None => []
    end in
  let titles :=
    [u "Purpose"; u "Use Cases"; u "Edge Cases & Results"]
    ++ optional (u "Platform Constraints")
    ++ optional (u "Data Logic & Edge Cases")
    ++ [u "Link to Component Library"; u "Animations & Interactions"; u "Attachments"] in
  map (fun title => (title, default [] (sections !! title))) titles.

(** A text without [**]. *)
Definition noBold (s : jstring) : Prop := JS.includes s (u "**") = false.

(** A key whose header no line shows keeps its first value in the scan of
    the flow sections. *)
Definition untouchedFlow (key : jstring) (st : Canvas.scan) : Prop :=
  Canvas.sections st !! key = Flow.defaultSections !! key /\
  Canvas.currentKey st <> Some key.

(** A line that is the header of [key], for the flow sections and for
    the sections of a screen. *)
Definition flowHeaderOf (key line : jstring) : Prop :=
  Canvas.findHeader Flow.FLOW_SECTION_HEADERS (JS.trim line) = Some key.
Definition headerOf (key line : jstring) : Prop :=
  Canvas.findHeader Canvas.SECTION_HEADERS (JS.trim line) = Some key.

#[global] Instance flowHeaderOf_dec (key line : jstring) : Decision (flowHeaderOf key line).
Proof. unfold flowHeaderOf. apply _. Defined.
#[global] Instance headerOf_dec (key line : jstring) : Decision (headerOf key line).
Proof. unfold headerOf. apply _. Defined.
(** * The endpoints and the relay

    The endpoint tables of both revisions of [main.ts], the envelope of
    [callViaVercelProxy], and the handler of the relay
    ([api/proxy.js]). *)

Definition providerId (p : AIProvider) : jstring :=
  match p with
  | anthropic => u "anthropic"
  | openai => u "openai"
  | google => u "google"
  end.

(** A template slot filled with an optional argument. *)
Definition slot (arg : option jstring) : jstring := default (u "undefined") arg.

Definition ANTHROPIC_URL : jstring := u "https://api.anthropic.com/v1/messages".
Definition OPENAI_URL : jstring := u "https://api.openai.com/v1/chat/completions".
Definition GOOGLE_MODELS : jstring :=
  u "https://generativelanguage.googleapis.com/v1beta/models/".

(** [getEndpoint] of the earlier revision; [PROXY_BASE] is fixed when
    the plugin is built. *)
Module Net1.
Definition getEndpoint (PROXY_BASE : jstring) (prov : AIProvider)
    (model apiKey : option jstring) : jstring :=
  match prov, PROXY_BASE with
  | anthropic, [] => ANTHROPIC_URL
  | anthropic, _ :: _ => PROXY_BASE ++ u "/api/anthropic"
  | openai, [] => OPENAI_URL
  | openai, _ :: _ => PROXY_BASE ++ u "/api/openai"
  | google, [] =>
      GOOGLE_MODELS ++ slot model ++ u ":generateContent?key=" ++ slot apiKey
  | google, _ :: _ => PROXY_BASE ++ u "/api/gemini"
  end.
End Net1.

(** [getEndpoint] and [callViaVercelProxy] of the later revision. *)
Module Net2.
Definition getEndpoint (PROXY_BASE : jstring) (prov : AIProvider)
    (model apiKey : option jstring) : jstring :=
  match PROXY_BASE, prov with
  | _ :: _, anthropic => PROXY_BASE ++ u "/anthropic/v1/messages"
  | _ :: _, openai => PROXY_BASE ++ u "/openai/v1/chat/completions"
  | _ :: _, google =>
      PROXY_BASE ++ u "/google/v1beta/models/" ++ slot model ++ u ":generateContent"
  | [], anthropic => ANTHROPIC_URL
  | [], openai => OPENAI_URL
  | [], google =>
      GOOGLE_MODELS ++ slot model ++ u ":generateContent?key=" ++ slot apiKey
  end.

Definition PRODUCTION_PROXY_BASE : jstring := u "https://flow-docs-plugin.vercel.app".

(** The value [callViaVercelProxy] serializes as the body of its
    request, and the address it posts it to. *)
Definition envelope (provider : AIProvider) (apiKey model : jstring) (body : JSON.json)
  : JSON.json :=
  JSON.JObject [ (u "provider", JSON.JString (providerId provider));
                 (u "apiKey", JSON.JString apiKey);
                 (u "model", JSON.JString model);
                 (u "body", body) ].
Definition relayUrl : jstring := PRODUCTION_PROXY_BASE ++ u "/api/proxy".
End Net2.

Module Relay.

(** A request: [req.body] is a text ([JString]), a value the platform
    has parsed already, or nothing ([None]). *)
Record Request : Type := { method : jstring; body : option JSON.json }.

(** The request the handler sends on; [payload] is the value that is
    serialized as its body. *)
Record Upstream : Type := {
  url : jstring;
  headers : list (jstring * jstring);
  payload : JSON.json
}.

(** What [fetch] and [response.text()] give: an answer with its status,
    its [Content-Type] and its text, or an error that is thrown. *)
Inductive UpstreamResult : Type :=
| Answer (status : nat) (contentType : option jstring) (data : jstring)
| NoAnswer (message : jstring).

(** How the handler ends: with an empty answer ([res.end()]), an error
    object ([res.json]), the relayed answer, or a [TypeError] that
    nothing catches. *)
Inductive Reply : Type :=
| Ended (status : nat)
| Refused (status : nat) (error : jstring) (message : option jstring)
| Relayed (status : nat) (contentType data : jstring)
| Uncaught.

Definition ANTHROPIC_VERSION : jstring := u "2023-06-01".
Definition ANTHROPIC_BETA : jstring := u "prompt-caching-2024-07-31".

Section Handler.

(** The text a value that is no string gives in a template or as a
    header. *)
Variable toText : JSON.json -> jstring.

Definition text (v : JSON.json) : jstring :=
  match v with
  | JSON.JString s => s
  | _ => toText v
  end.

(** A property of the payload: only an object built by [JSON.parse] has
    one of the four names. *)
Definition field (payload : JSON.json) (key : string) : option JSON.json :=
  match payload with
  | JSON.JObject l => JSON.lookup (u key) l
  | _ => None
  end.

(** [provider === 'name'] *)
Definition named (v : JSON.json) (name : string) : bool :=
  match v with
  | JSON.JString s => bool_decide (s = u name)
  | _ => false
  end.

(** The part of the handler after the payload is read. *)
Definition forward (payload : JSON.json) (fetch : Upstream -> UpstreamResult)
  : list Upstream * Reply :=
  let provider := field payload "provider" in
  let apiKey := field payload "apiKey" in
  let model := field payload "model" in
  let body := field payload "body" in
  match provider, apiKey, body with
  | Some provider, Some apiKey, Some body =>
      if negb (JSON.truthy provider) || negb (JSON.truthy apiKey)
         || negb (JSON.truthy body)
      then ([], Refused 400 (u "Missing provider, apiKey, or body") None)
      else
        let contentType := (u "Content-Type", u "application/json") in
        let target : Reply + Upstream :=
          if named provider "anthropic" then
            inr {| url := ANTHROPIC_URL;
                   headers := [ contentType;
                                (u "x-api-key", text apiKey);
                                (u "anthropic-version", ANTHROPIC_VERSION);
                                (u "anthropic-beta", ANTHROPIC_BETA);
                                (u "anthropic-dangerous-direct-browser-access", u "true") ];
                   payload := body |}
          else if named provider "openai" then
            inr {| url := OPENAI_URL;
                   headers := [ contentType;
                                (u "Authorization", u "Bearer " ++ text apiKey) ];
                   payload := body |}
          else if named provider "google" then
            match model with
            | Some model' =>
                if JSON.truthy model'
                then inr {| url := GOOGLE_MODELS ++ text model'
                                   ++ u ":generateContent?key=" ++ text apiKey;
                            headers := [contentType];
                            payload := body |}
                else inl (Refused 400 (u "Missing model for Google") None)
            | None => inl (Refused 400 (u "Missing model for Google") None)
            end
          else inl (Refused 400 (u "Unknown provider") None) in
        match target with
        | inl refusal => ([], refusal)
        | inr request =>
            ([request],
             match fetch request with
             | Answer status contentType' data =>
                 Relayed status
                   (match contentType' with
                    | Some (c :: t) => c :: t
                    | _ => u "application/json"
                    end)
                   data
             | NoAnswer message =>
                 Refused 502 (u "Proxy request failed") (Some message)
             end)
        end
  | _, _, _ => ([], Refused 400 (u "Missing provider, apiKey, or body") None)
  end.

(** [handler]: the requests sent on, and the answer. *)
Definition handler (req : Request) (fetch : Upstream -> UpstreamResult)
  : list Upstream * Reply :=
  if bool_decide (method req = u "OPTIONS") then ([], Ended 204)
  else if negb (bool_decide (method req = u "POST"))
  then ([], Refused 405 (u "Method not allowed") None)
  else
    match body req with
    | Some (JSON.JString s) =>
        match JSON.parse s with
        | None => ([], Refused 400 (u "Invalid JSON body") None)
        | Some JSON.JNull => ([], Uncaught)
        | Some payload => forward payload fetch
        end
    | Some JSON.JNull | None => ([], Uncaught)
    | Some payload => forward payload fetch
    end.

End Handler.

End Relay.

(** The body of an Anthropic request with no text, as [callAnthropic]
    lays it out. *)
Definition sampleBody : JSON.json :=
  JSON.JObject [ (u "model", JSON.JString (u "claude-sonnet-4-20250514"));
                 (u "max_tokens", JSON.JNumber (JSON.Num false 4000 0));
                 (u "messages", JSON.JArray []) ].

(** An upstream that answers every request with an empty object. *)
Definition sampleFetch (request : Relay.Upstream) : Relay.UpstreamResult :=
  Relay.Answer 200 (Some (u "application/json")) (u "{}").
(** * The development proxy ([proxy.mjs])

    The request handler of the server: what it answers itself, and with
    which arguments it calls [forwardRequest]. *)

Module DevProxy.

Definition PORT_BASE : jstring := u "http://localhost:3001".
Definition ANTHROPIC_ORIGIN : jstring := u "https://api.anthropic.com".
Definition OPENAI_ORIGIN : jstring := u "https://api.openai.com".
Definition GOOGLE_ORIGIN : jstring := u "https://generativelanguage.googleapis.com".

(** What the handler reads of a request: [req.method], [req.url] and
    [req.headers['x-google-api-key']]. *)
Record Request : Type := {
  method : jstring;
  url : option jstring;
  googleKey : option jstring
}.

Inductive Action : Type :=
| Preflight
| Rejected (status : nat) (text : jstring)
| Forwarded (targetOrigin pathWithQuery : jstring)
            (addHeaders : list (jstring * jstring)) (stripHeaders : list jstring).

(** [path.replace(/^\/name/, '')] *)
Definition stripPrefix (name : string) (path : jstring) : jstring :=
  Regex.replace1 false (Regex.Seq Regex.Bol (Regex.lit name)) [] path.

Definition server (req : Request) : Action :=
  if bool_decide (method req = u "OPTIONS") then Preflight
  else
    let path :=
      match url req with
      | Some s => hd [] (JS.split s (u "?"))
      | None => []
      end in
    if negb (bool_decide (method req = u "POST"))
    then Rejected 405 (u "Method Not Allowed")
    else if JS.startsWith (u "/anthropic/") path then
      Forwarded ANTHROPIC_ORIGIN (stripPrefix "/anthropic" path)
        [(u "anthropic-dangerous-direct-browser-access", u "true")] []
    else if JS.startsWith (u "/openai/") path then
      Forwarded OPENAI_ORIGIN (stripPrefix "/openai" path) [] []
    else if JS.startsWith (u "/google/") path then
      let targetPath := stripPrefix "/google" path in
      match googleKey req with
      | None | Some [] => Rejected 400 (u "Missing X-Google-Api-Key header")
      | Some key =>
          let withQuery :=
            if JS.includes targetPath (u "?")
            then targetPath ++ u "&key=" ++ key
            else targetPath ++ u "?key=" ++ key in
          Forwarded GOOGLE_ORIGIN withQuery [] [u "x-google-api-key"]
      end
    else Rejected 404 (u "Not Found").

End DevProxy.

(** The code units an address keeps as they are in a path: letters,
    digits and [- . _ ~]. *)
Definition unreserved (c : N) : bool :=
  ((48 <=? c) && (c <=? 57)) || ((65 <=? c) && (c <=? 90)) || ((97 <=? c) && (c <=? 122))
  || (c =? 45) || (c =? 46) || (c =? 95) || (c =? 126).

(** The request of the plugin as the proxy sees it when the plugin is
    built for development, for a model name of such code units: the
    address without the base, and the key header [callGemini] adds. *)
Definition devRequest (prov : AIProvider) (key model : jstring) : DevProxy.Request :=
  {| DevProxy.method := u "POST";
     DevProxy.url :=
       Some (drop (length DevProxy.PORT_BASE)
               (Net2.getEndpoint DevProxy.PORT_BASE prov (Some model) (Some key)));
     DevProxy.googleKey :=
       match prov with
       | google => Some key
       | _ => None
       end |}.

(** * The development proxy of the earlier revision ([vite.config.ts]) *)

(** The headers the callers of the earlier revision set; [dev] says
    whether [PROXY_BASE] is set. *)
Module Callers1.

Definition ANTHROPIC_VERSION : jstring := u "2023-06-01".
Definition PROMPT_CACHING_BETA : jstring := u "prompt-caching-2024-07-31".

Definition headers (dev : bool) (prov : AIProvider) (key model : jstring)
  : list (jstring * jstring) :=
  match prov with
  | anthropic =>
      [ (u "x-api-key", key);
        (u "anthropic-version", ANTHROPIC_VERSION);
        (u "anthropic-beta", PROMPT_CACHING_BETA);
        (u "content-type", u "application/json") ]
  | openai =>
      [ (u "Authorization", u "Bearer " ++ key);
        (u "Content-Type", u "application/json") ]
  | google =>
      (u "Content-Type", u "application/json")
      :: (if dev then [(u "X-Gemini-Model", model); (u "X-Gemini-Key", key)] else [])
  end.

End Callers1.

Module DevProxy1.

Record Request : Type := {
  method : jstring;
  url : option jstring;
  headers : list (jstring * jstring);
  body : jstring
}.

(** [req.headers[name]] for a lower-case [name]: the names of the
    headers of a request are given in lower case. *)
Fixpoint header (name : string) (hs : list (jstring * jstring)) : option jstring :=
  match hs with
  | [] => None
  | (k, v) :: hs' =>
      if bool_decide (JS.toLowerCase k = u name) then Some v else header name hs'
  end.

Inductive Action : Type :=
| Preflight
| Rejected (status : nat) (text : jstring)
| Fetched (targetUrl : jstring) (forwardHeaders : list (jstring * jstring))
          (body : jstring).

(** [(req.headers[name] as string) || fallback] *)
Definition headerOr (name : string) (fallback : jstring) (req : Request) : jstring :=
  match header name (headers req) with
  | Some (c :: t) => c :: t
  | _ => fallback
  end.

Definition handler (req : Request) : Action :=
  let url := default [] (url req) in
  if bool_decide (method req = u "OPTIONS") then Preflight
  else if negb (bool_decide (method req = u "POST"))
  then Rejected 405 (u "Method not allowed")
  else if JS.startsWith (u "/api/anthropic") url then
    Fetched ANTHROPIC_URL
      ([ (u "content-type", headerOr "content-type" (u "application/json") req);
         (u "x-api-key", headerOr "x-api-key" [] req);
         (u "anthropic-version", headerOr "anthropic-version" [] req) ]
       ++ match header "anthropic-beta" (headers req) with
          | Some (c :: t) => [(u "anthropic-beta", c :: t)]
          | _ => []
          end)
      (body req)
  else if JS.startsWith (u "/api/openai") url then
    Fetched OPENAI_URL
      [ (u "Content-Type", headerOr "content-type" (u "application/json") req);
        (u "Authorization", headerOr "authorization" [] req) ]
      (body req)
  else if JS.startsWith (u "/api/gemini") url then
    let model := headerOr "x-gemini-model" (u "gemini-2.0-flash") req in
    let geminiKey := headerOr "x-gemini-key" [] req in
    Fetched (GOOGLE_MODELS ++ model ++ u ":generateContent?key=" ++ geminiKey)
      [(u "Content-Type", u "application/json")]
      (body req)
  else Rejected 404 (u "Not found").

End DevProxy1.

(** The request of the earlier revision as its proxy sees it when the
    plugin is built for development. *)
Definition devRequest1 (prov : AIProvider) (key model body : jstring)
  : DevProxy1.Request :=
  {| DevProxy1.method := u "POST";
     DevProxy1.url :=
       Some (drop (length DevProxy.PORT_BASE)
               (Net1.getEndpoint DevProxy.PORT_BASE prov (Some model) (Some key)));
     DevProxy1.headers := Callers1.headers true prov key model;
     DevProxy1.body := body |}.
(** * What the requests of an action carry *)

(** A request with the key, the provider and the model given, none of
    them empty. *)
Definition carries (key : jstring) (prov : AIProvider) (model : jstring)
    (rq : AIRequest) : Prop :=
  rq_key rq = key /\ key <> [] /\ rq_provider rq = prov /\
  rq_model rq = model /\ model <> [].

(** A step that, run with the session [s], leaves the session as it is
    and sends only requests that are [ok]. *)
Definition steady {A} (ok : AIRequest -> Prop) (s : Session) (m : M A) : Prop :=
  forall (w : World) (st : State),
    session st = s ->
    exists tail,
      trace (m w st).2 = trace st ++ tail /\
      Forall ok (requestsOf tail) /\
      session (m w st).2 = s.

(** A run all of whose requests are [ok]. *)
Definition sendsOnly (ok : AIRequest -> Prop) (run : Result unit * State) (st : State)
  : Prop :=
  exists tail, trace run.2 = trace st ++ tail /\ Forall ok (requestsOf tail).

(** * Properties of the actions *)

Section Actions.

Lemma finally_restores {A} (body : M A) (handler : JsError -> M A)
    (prev : Session) (w : World) (st : State) :
  session (tryCatchFinally body handler (setSession prev) w st).2 = prev.
Proof.
  unfold tryCatchFinally.
  destruct (body w st) as [[a | e] st1].
  - reflexivity.
  - destruct (handler e w st1) as [r2 st2]. reflexivity.
Qed.

Lemma sendToUI_session (m : MainMessage) (w : World) (st : State) :
  session (sendToUI m w st).2 = session st.
Proof. reflexivity. Qed.

(** The guarded part of an action: the session is overridden, the body
    runs, and whatever the outcome the [finally] block puts the previous
    session back. *)
Lemma scoped_session {A} (s : Session) (body : M A) (handler : JsError -> M A)
    (w : World) (st : State) :
  session ((setSession s;; tryCatchFinally body handler (setSession (session st))) w st).2
  = session st.
Proof.
  unfold mbind, M_bind, bind, setSession at 1. cbn beta iota.
  apply finally_restores.
Qed.

End Actions.

(** C7.  Every documentation, flow-analysis or regeneration action, in
    either revision, leaves the session fields [apiKey], [projectContext]
    and [currentProvider] as it found them, whether it ended well, ended
    in an error, or returned at a precondition: the override is undone by
    the [finally] block. *)
Theorem session_restored_after_every_action :
  forall (w : World) (st : State) (msgApiKey : jstring) (msgProvider : AIProvider)
         (msgProjectContext msgModel : option jstring),
    (forall msgOptions,
        session (Rev2.handleScanScreens msgApiKey msgProvider msgProjectContext
                   msgModel msgOptions w st).2 = session st) /\
    session (Rev2.handleScanFlow msgApiKey msgProvider msgProjectContext
               msgModel w st).2 = session st /\
    session (Rev1.handleScanScreens msgApiKey msgProvider msgProjectContext
               msgModel w st).2 = session st /\
    session (Rev1.handleScanFlow msgApiKey msgProvider msgProjectContext
               msgModel w st).2 = session st /\
    (forall missingScreens documentation,
        session (Rev1.handleGenerateMissingScreens missingScreens documentation
                   msgApiKey msgProvider msgProjectContext msgModel w st).2
        = session st).
Proof.
  intros w st msgApiKey msgProvider msgProjectContext msgModel.
  repeat split; [intros msgOptions | | | | intros items documentation].
  - unfold Rev2.handleScanScreens.
    unfold mbind at 1 2, M_bind at 1 2, bind at 1 2, getSession,
      getSelectedFramesAndComponents. cbn beta iota.
    destruct (filter _ (selection w)); [reflexivity |].
    destruct (chooseKey msgApiKey (session st)); [reflexivity |].
    apply (scoped_session _ _ _ w st).
  - unfold Rev2.handleScanFlow.
    unfold mbind at 1 2, M_bind at 1 2, bind at 1 2, getSession,
      getSelectedFramesAndComponents. cbn beta iota.
    destruct (filter _ (selection w)); [reflexivity |].
    destruct (chooseKey msgApiKey (session st)); [reflexivity |].
    apply (scoped_session _ _ _ w st).
  - unfold Rev1.handleScanScreens.
    unfold mbind at 1 2, M_bind at 1 2, bind at 1 2, getSession,
      getSelectedFramesAndComponents. cbn beta iota.
    destruct (filter _ (selection w)); [reflexivity |].
    destruct (chooseKey msgApiKey (session st)); [reflexivity |].
    apply (scoped_session _ _ _ w st).
  - unfold Rev1.handleScanFlow.
    unfold mbind at 1 2, M_bind at 1 2, bind at 1 2, getSession,
      getSelectedFramesAndComponents. cbn beta iota.
    destruct (filter _ (selection w)); [reflexivity |].
    destruct (chooseKey msgApiKey (session st)); [reflexivity |].
    apply (scoped_session _ _ _ w st).
  - unfold Rev1.handleGenerateMissingScreens.
    unfold mbind at 1, M_bind at 1, bind at 1, getSession. cbn beta iota.
    destruct (chooseKey msgApiKey (session st)); [reflexivity |].
    destruct items; [reflexivity |].
    apply (scoped_session _ _ _ w st).
Qed.

(** ** Seven screens in batches of five *)

Lemma filter_frames_idem (l : list SceneNode) :
  filter (fun n => isFrameOrComponent n = true)
         (filter (fun n => isFrameOrComponent n = true) l)
  = filter (fun n => isFrameOrComponent n = true) l.
Proof.
  induction l as [| x l IH]; [reflexivity |].
  rewrite filter_cons. destruct (decide (isFrameOrComponent x = true)) as [Hx | Hx].
  - rewrite filter_cons. destruct (decide (isFrameOrComponent x = true)); [| done].
    by rewrite IH.
  - exact IH.
Qed.

Lemma extractFrameData_selected (w : World) (nodes : list SceneNode) :
  filter (fun n => isFrameOrComponent n = true) (selection w) = nodes ->
  extractFrameData nodes = map frameDataOf nodes.
Proof.
  intros <-. unfold extractFrameData. by rewrite filter_frames_idem.
Qed.

(** Calls that are all answered: the wait gives the answers in the
    order of the calls. *)
Lemma firstRejected_answered (w : World) (ns : list nat) (texts : list jstring) :
  Forall2 (fun n t => vendor w n = HttpOk t) ns texts ->
  firstRejected w ns = None /\ answersOf w ns = texts.
Proof.
  induction 1 as [| n t ns texts Hn _ [IH1 IH2]]; [done |].
  cbn [firstRejected answersOf]. rewrite Hn, IH1, IH2. done.
Qed.

Lemma awaitAll_answered (w : World) (ns : list nat) (texts : list jstring) (st : State) :
  Forall2 (fun n t => vendor w n = HttpOk t) ns texts ->
  awaitAll ns w st = (Ok texts, recordAll (map EvReply ns) st).
Proof.
  intros H. destruct (firstRejected_answered w ns texts H) as [H1 H2].
  unfold awaitAll. by rewrite H1, H2.
Qed.

(** The loop over the batches, on seven frames whose requests are all
    answered. *)
Lemma scanBatches_seven (w : World) (st : State)
    (f0 f1 f2 f3 f4 f5 f6 : FrameData) (ds : DesignSystemData)
    (model : jstring) (options : bool * bool)
    (t0 t1 t2 t3 t4 t5 t6 : jstring) :
  (forall (k : nat) (t : jstring),
      [t0; t1; t2; t3; t4; t5; t6] !! k = Some t ->
      vendor w (fetches st + k) = HttpOk t) ->
  let n := fetches st in
  let rq k f := Rev2.screenRequest (session st) f ds k model options in
  exists st',
    Rev2.scanBatches 7 [f0; f1; f2; f3; f4; f5; f6] ds model options 0 [] w st
    = (Ok [(fd_name f0, t0); (fd_name f1, t1); (fd_name f2, t2); (fd_name f3, t3);
           (fd_name f4, t4); (fd_name f5, t5); (fd_name f6, t6)], st') /\
    trace st' = trace st ++
      [ EvFetch n (rq 0%nat f0); EvFetch (n + 1) (rq 1%nat f1);
        EvFetch (n + 2) (rq 2%nat f2); EvFetch (n + 3) (rq 3%nat f3);
        EvFetch (n + 4) (rq 4%nat f4);
        EvReply n; EvReply (n + 1); EvReply (n + 2); EvReply (n + 3); EvReply (n + 4);
        progressOf 5 7;
        EvSleep 2000;
        EvFetch (n + 5) (rq 5%nat f5); EvFetch (n + 6) (rq 6%nat f6);
        EvReply (n + 5); EvReply (n + 6);
        progressOf 7 7 ] /\
    session st' = session st /\ canvasOps st' = canvasOps st.
Proof.
  intros Hv n rq.
  pose proof (Hv 0%nat t0 eq_refl) as H0.
  pose proof (Hv 1%nat t1 eq_refl) as H1.
  pose proof (Hv 2%nat t2 eq_refl) as H2.
  pose proof (Hv 3%nat t3 eq_refl) as H3.
  pose proof (Hv 4%nat t4 eq_refl) as H4.
  pose proof (Hv 5%nat t5 eq_refl) as H5.
  pose proof (Hv 6%nat t6 eq_refl) as H6.
  clear Hv.
  rewrite Nat.add_0_r in H0.
  rewrite Nat.add_comm in H1, H2, H3, H4, H5, H6. cbn [Nat.add] in *.
  assert (forall st1,
             awaitAll [fetches st; S (fetches st); S (S (fetches st));
                       S (S (S (fetches st))); S (S (S (S (fetches st))))] w st1
             = (Ok [t0; t1; t2; t3; t4],
                recordAll (map EvReply [fetches st; S (fetches st); S (S (fetches st));
                                         S (S (S (fetches st)));
                                         S (S (S (S (fetches st))))]) st1)) as A1.
  { intros st1. apply awaitAll_answered. by repeat constructor. }
  assert (forall st1,
             awaitAll [S (S (S (S (S (fetches st)))));
                       S (S (S (S (S (S (fetches st))))))] w st1
             = (Ok [t5; t6],
                recordAll (map EvReply [S (S (S (S (S (fetches st)))));
                                         S (S (S (S (S (S (fetches st))))))]) st1)) as A2.
  { intros st1. apply awaitAll_answered. by repeat constructor. }
  unfold Rev2.scanBatches.
  cbn -[u showNat JS.natToString awaitAll].
  unfold mbind, M_bind, bind, getSession, fetch, mret, M_ret, ret,
    Rev2.sendProgress, sendToUI, emit, sleep, record;
    cbn -[u showNat JS.natToString awaitAll].
  rewrite A1. cbn -[u showNat JS.natToString awaitAll].
  rewrite A2. cbn -[u showNat JS.natToString awaitAll].
  eexists. split; [reflexivity |]. cbn -[u showNat JS.natToString].
  split; [| split; reflexivity].
  rewrite <- !app_assoc. cbn -[u showNat JS.natToString].
  subst n rq. unfold progressOf. rewrite !Nat.add_succ_r, Nat.add_0_r.
  reflexivity.
Qed.

Lemma docCardsOf_app (a b : list Event) :
  docCardsOf (a ++ b) = docCardsOf a ++ docCardsOf b.
Proof.
  induction a as [| ev a IH]; [reflexivity |].
  cbn [app]. destruct ev as [| | | | []]; cbn [docCardsOf]; try done.
  cbn [app]. by rewrite IH.
Qed.

Lemma onCanvas_ok (w : World) (st : State) (op : CanvasOp) (made : list NodeId) :
  canvas w (canvasOps st) = Ok made ->
  exists st',
    onCanvas op w st = (Ok made, st') /\
    trace st' = trace st ++ [EvCanvas op] /\
    session st' = session st /\ fetches st' = fetches st.
Proof.
  intros H. unfold onCanvas. rewrite H. eexists. split; [reflexivity |]. done.
Qed.

(** The card loop when the document collaborator never fails: it only
    talks to the document, and hands over the results in order. *)
Lemma createCards_runs (w : World) :
  (forall k, exists made, canvas w k = Ok made) ->
  forall (docs : list (jstring * jstring)) (nodes : list SceneNode) (i : nat)
         (created : list NodeId) (st : State),
  exists created' st' tail,
    Rev2.createCards docs nodes i created w st = (Ok created', st') /\
    trace st' = trace st ++ tail /\
    Forall (fun ev => offline ev = true) tail /\
    docCardsOf tail = docs /\
    session st' = session st.
Proof.
  intros Hc docs. induction docs as [| [name content] docs IH]; intros nodes i created st.
  - exists created, st, []. cbn. rewrite app_nil_r. done.
  - cbn [Rev2.createCards].
    destruct (Hc (canvasOps st)) as [cards Hcards].
    destruct (onCanvas_ok w st (OpCreateDocCards (nodes !! i) content name) cards Hcards)
      as (st1 & E1 & T1 & S1 & _).
    unfold mbind at 1, M_bind at 1, bind at 1. rewrite E1.
    assert (exists r2 st2 tail2,
               (match nodes !! i, cards with
                | Some node, _ :: _ => onCanvas (OpGroup node cards)
                | _, _ => ret []
                end) w st1 = (Ok r2, st2)
               /\ trace st2 = trace st1 ++ tail2
               /\ Forall (fun ev => offline ev = true) tail2
               /\ docCardsOf tail2 = []
               /\ session st2 = session st1) as Hgroup.
    { destruct (nodes !! i) as [node |]; [destruct cards as [| c cards'] |].
      - exists [], st1, []. rewrite app_nil_r. done.
      - destruct (Hc (canvasOps st1)) as [made Hmade].
        destruct (onCanvas_ok w st1 (OpGroup node (c :: cards')) made Hmade)
          as (st2 & E2 & T2 & S2 & _).
        exists made, st2, [EvCanvas (OpGroup node (c :: cards'))].
        rewrite E2. repeat split; try done.
        by repeat constructor.
      - exists [], st1, []. rewrite app_nil_r. done. }
    destruct Hgroup as (r2 & st2 & tail2 & E2 & T2 & Q2 & D2 & S2).
    unfold mbind at 1, M_bind at 1, bind at 1. rewrite E2.
    destruct (IH nodes (S i) (created ++ cards) st2)
      as (created' & st' & tail & E & T & Q & D & S).
    exists created', st',
      ([EvCanvas (OpCreateDocCards (nodes !! i) content name)] ++ tail2 ++ tail).
    rewrite E. repeat split.
    + rewrite T, T2, T1. by rewrite <- !app_assoc.
    + apply Forall_app. split; [by repeat constructor |].
      apply Forall_app. done.
    + cbn [app docCardsOf]. f_equal.
      by rewrite docCardsOf_app, D2, D.
    + congruence.
Qed.

Lemma fd_name_frameDataOf (node : SceneNode) :
  fd_name (frameDataOf node) = node_name node.
Proof. by destruct node. Qed.

(** C1.  The documentation action of the later revision on seven
    selected screens, when the vendor answers every request and the
    document collaborator does not fail: five requests leave, their five
    answers are awaited, progress 5/7 is reported, the action pauses
    2000 ms, two requests leave, their two answers are awaited, progress
    7/7 is reported with no pause after it; what follows only talks to the
    panel and the document, and hands the seven results to the card maker
    in the order of the selection. *)
Theorem seven_screens_two_batches_one_pause :
  forall (w : World) (st : State) (msgApiKey : jstring) (msgProvider : AIProvider)
         (msgProjectContext msgModel : option jstring)
         (msgOptions : option (option bool * option bool))
         (n0 n1 n2 n3 n4 n5 n6 : SceneNode) (ds : DesignSystemData)
         (t0 t1 t2 t3 t4 t5 t6 : jstring),
    filter (fun n => isFrameOrComponent n = true) (selection w)
      = [n0; n1; n2; n3; n4; n5; n6] ->
    chooseKey msgApiKey (session st) <> [] ->
    designSystem w [n0; n1; n2; n3; n4; n5; n6] = Ok ds ->
    (forall (k : nat) (t : jstring),
        [t0; t1; t2; t3; t4; t5; t6] !! k = Some t ->
        vendor w (fetches st + k) = HttpOk t) ->
    (forall k, exists made, canvas w k = Ok made) ->
    let s := {| apiKey := chooseKey msgApiKey (session st);
                projectContext := chooseContext msgProjectContext (session st);
                currentProvider := msgProvider |} in
    let rq k node :=
      Rev2.screenRequest s (frameDataOf node) ds k
        (chooseModel msgModel msgProvider) (Rev2.optionsOf msgOptions) in
    let n := fetches st in
    exists tail,
      trace (Rev2.handleScanScreens msgApiKey msgProvider msgProjectContext
               msgModel msgOptions w st).2
      = trace st ++ sevenScreenEvents n rq n0 n1 n2 n3 n4 n5 n6 ++ tail /\
      Forall (fun ev => offline ev = true) tail /\
      docCardsOf tail
      = [ (node_name n0, t0); (node_name n1, t1); (node_name n2, t2);
          (node_name n3, t3); (node_name n4, t4); (node_name n5, t5);
          (node_name n6, t6) ].
Proof.
  intros w st msgApiKey msgProvider msgProjectContext msgModel msgOptions
    n0 n1 n2 n3 n4 n5 n6 ds t0 t1 t2 t3 t4 t5 t6 Hsel Hkey Hds Hv Hc s rq n.
  unfold Rev2.handleScanScreens.
  unfold mbind at 1 2, M_bind at 1 2, bind at 1 2, getSession,
    getSelectedFramesAndComponents. cbn beta iota.
  rewrite Hsel.
  destruct (chooseKey msgApiKey (session st)) as [| c key] eqn:Ekey; [done |].
  rewrite (extractFrameData_selected w _ Hsel). cbn [map length].
  unfold mbind at 1, M_bind at 1, bind at 1, setSession at 1. cbn beta iota.
  unfold tryCatchFinally.
  unfold mbind at 1, M_bind at 1, bind at 1, extractDesignSystem at 1.
  rewrite Hds. cbn beta iota.
  unfold mbind at 1, M_bind at 1, bind at 1, setCache at 1. cbn beta iota.
  cbn [session cachedDesignSystem cachedFrameData cachedScreenshots cachedNodes
       trace fetches canvasOps].
  match goal with
  | |- context [mbind _ _ w ?st0'] => set (st0 := st0')
  end.
  destruct (scanBatches_seven w st0 (frameDataOf n0) (frameDataOf n1)
              (frameDataOf n2) (frameDataOf n3) (frameDataOf n4)
              (frameDataOf n5) (frameDataOf n6) ds
              (chooseModel msgModel msgProvider) (Rev2.optionsOf msgOptions)
              t0 t1 t2 t3 t4 t5 t6 Hv) as (st1 & E1 & T1 & S1 & C1).
  unfold mbind at 1, M_bind at 1, bind at 1. rewrite E1.
  unfold mbind at 1, M_bind at 1, bind at 1, Rev2.sendProgress at 1, sendToUI at 1,
    emit at 1. cbn beta iota.
  match goal with
  | |- context [mbind _ _ w ?st2'] => set (st2 := st2')
  end.
  destruct (createCards_runs w Hc
              [(fd_name (frameDataOf n0), t0); (fd_name (frameDataOf n1), t1);
               (fd_name (frameDataOf n2), t2); (fd_name (frameDataOf n3), t3);
               (fd_name (frameDataOf n4), t4); (fd_name (frameDataOf n5), t5);
               (fd_name (frameDataOf n6), t6)]
              [n0; n1; n2; n3; n4; n5; n6] 0%nat [] st2)
    as (created & st3 & tail3 & E3 & T3 & Q3 & D3 & S3).
  unfold mbind at 1, M_bind at 1, bind at 1. rewrite E3.
  assert (exists made st4 tail4,
             (match created with
              | [] => ret []
              | _ :: _ => onCanvas (OpScrollIntoView created)
              end) w st3 = (Ok made, st4)
             /\ trace st4 = trace st3 ++ tail4
             /\ Forall (fun ev => offline ev = true) tail4
             /\ docCardsOf tail4 = []) as (made & st4 & tail4 & E4 & T4 & Q4 & D4).
  { destruct created as [| c0 created'].
    - exists [], st3, []. rewrite app_nil_r. done.
    - destruct (Hc (canvasOps st3)) as [made Hmade].
      destruct (onCanvas_ok w st3 (OpScrollIntoView (c0 :: created')) made Hmade)
        as (st4 & E4 & T4 & _).
      exists made, st4, [EvCanvas (OpScrollIntoView (c0 :: created'))].
      rewrite E4. repeat split; try done. by repeat constructor. }
  unfold mbind at 1, M_bind at 1, bind at 1. rewrite E4.
  unfold sendToUI, emit, setSession. cbn [snd trace record].
  exists ([EvUI (MsgProgress (u "Creating documentation cards...") None)]
          ++ tail3 ++ tail4
          ++ [EvUI (MsgScanComplete SecScreens []
                      (u "Created " ++ showNat 7 ++ u " documentation card"
                       ++ pluralS 7))]).
  split; [| split].
  - rewrite T4, T3. subst st2. cbn [trace record]. rewrite T1. subst st0.
    cbn [trace session fetches]. rewrite <- !app_assoc. reflexivity.
  - apply Forall_app. split; [by repeat constructor |].
    apply Forall_app. split; [done |].
    apply Forall_app. split; [done | by repeat constructor].
  - cbn [app docCardsOf].
    rewrite !docCardsOf_app, D3, D4. cbn [docCardsOf app].
    by rewrite !fd_name_frameDataOf.
Qed.

Lemma seven_screens_sample :
  exists tail,
    trace (Rev2.handleScanScreens [] anthropic None None None sampleWorld sampleState).2
    = sevenScreenEvents 0
        (fun k node =>
           Rev2.screenRequest (session sampleState) (frameDataOf node)
             EmptyDesignSystem k (DEFAULT_MODELS anthropic) (false, false))
        (sampleNode 1) (sampleNode 2) (sampleNode 3) (sampleNode 4)
        (sampleNode 5) (sampleNode 6) (sampleNode 7) ++ tail /\
    Forall (fun ev => offline ev = true) tail /\
    length (docCardsOf tail) = 7%nat.
Proof.
  destruct (seven_screens_two_batches_one_pause sampleWorld sampleState
              [] anthropic None None None
              (sampleNode 1) (sampleNode 2) (sampleNode 3) (sampleNode 4)
              (sampleNode 5) (sampleNode 6) (sampleNode 7) EmptyDesignSystem
              (u "## Purpose" ++ [10] ++ u "Screen " ++ showNat 0)
              (u "## Purpose" ++ [10] ++ u "Screen " ++ showNat 1)
              (u "## Purpose" ++ [10] ++ u "Screen " ++ showNat 2)
              (u "## Purpose" ++ [10] ++ u "Screen " ++ showNat 3)
              (u "## Purpose" ++ [10] ++ u "Screen " ++ showNat 4)
              (u "## Purpose" ++ [10] ++ u "Screen " ++ showNat 5)
              (u "## Purpose" ++ [10] ++ u "Screen " ++ showNat 6))
    as (tail & T & Q & D).
  - reflexivity.
  - vm_compute. discriminate.
  - reflexivity.
  - intros k t H.
    do 7 (destruct k as [| k]; [injection H as <-; reflexivity |]).
    discriminate H.
  - intros k. eexists. reflexivity.
  - exists tail. split; [exact T | split; [exact Q |]].
    rewrite D. reflexivity.
Defined.

(** ** Preconditions *)

(** C6 as stated fails for the regeneration action: started without an
    API key it posts no error notice at all, and started with a key but
    with nothing selected (and nothing cached) it sends requests. *)
Lemma regeneration_ignores_the_preconditions :
  (chooseKey [] (session keylessState) = [] /\
   trace (Rev1.handleGenerateMissingScreens [sampleItem] [] [] anthropic None None
            sampleWorld keylessState).2 = []) /\
  (filter (fun n => isFrameOrComponent n = true) (selection emptyWorld) = [] /\
   length (filter isFetch
             (trace (Rev1.handleGenerateMissingScreens [sampleItem] [] [] anthropic
                       None None emptyWorld sampleState).2)) = 2%nat).
Proof. vm_compute. done. Qed.

(** ** Steps of an action *)

Lemma bind_eval {A B} (m : M A) (f : A -> M B) (w : World) (st : State) :
  (m ≫= f) w st
  = match m w st with
    | (Ok a, st') => f a w st'
    | (Throw e, st') => (Throw e, st')
    end.
Proof. reflexivity. Qed.

Lemma callAI_ok (w : World) (st : State) (rq : AIRequest) (text : jstring) :
  vendor w (fetches st) = HttpOk text ->
  exists st',
    callAI rq w st = (Ok text, st') /\
    trace st' = trace st ++ [EvFetch (fetches st) rq; EvReply (fetches st)] /\
    fetches st' = S (fetches st) /\
    session st' = session st /\
    cachedDesignSystem st' = cachedDesignSystem st /\
    canvasOps st' = canvasOps st.
Proof.
  intros H. unfold callAI, mbind, M_bind, bind, fetch, await.
  cbn [fetches]. rewrite H. eexists. split; [reflexivity |].
  cbn. rewrite <- app_assoc. done.
Qed.

(** ** The batch loop never runs out of rounds *)

(** Any number of rounds that covers the frames still to scan gives the
    same run: the action, which allows one round per frame, is never
    stopped by the bound. *)
Lemma scanBatches_enough_rounds (frameDataList : list FrameData)
    (ds : DesignSystemData) (model : jstring) (options : bool * bool) :
  forall (fuel fuel' i : nat) (docs : list (jstring * jstring)) (w : World) (st : State),
    (length frameDataList - i <= fuel)%nat ->
    (length frameDataList - i <= fuel')%nat ->
    Rev2.scanBatches fuel frameDataList ds model options i docs w st
    = Rev2.scanBatches fuel' frameDataList ds model options i docs w st.
Proof.
  induction fuel as [| fuel IH]; intros fuel' i docs w st H H'.
  - assert ((i <? length frameDataList)%nat = false) as E
      by (apply Nat.ltb_ge; lia).
    destruct fuel' as [| fuel']; [reflexivity |].
    cbn [Rev2.scanBatches]. by rewrite E.
  - destruct (i <? length frameDataList)%nat eqn:E.
    + apply Nat.ltb_lt in E.
      destruct fuel' as [| fuel']; [lia |].
      cbn [Rev2.scanBatches]. apply Nat.ltb_lt in E. rewrite E.
      apply Nat.ltb_lt in E.
      rewrite !bind_eval. cbn [getSession].
      rewrite !bind_eval. destruct (startAll _ w st) as [[started | e] st1]; [| done].
      rewrite !bind_eval. destruct (awaitAll started w st1) as [[results | e] st2]; [| done].
      rewrite !bind_eval. destruct (Rev2.sendProgress _ _ w st2) as [[[] | e] st3]; [| done].
      rewrite !bind_eval.
      destruct ((if (i + Rev2.BATCH_SIZE <? length frameDataList)%nat
                 then sleep Rev2.BATCH_DELAY_MS else ret ()) w st3)
        as [[[] | e] st4]; [| done].
      apply IH; unfold Rev2.BATCH_SIZE; lia.
    + destruct fuel' as [| fuel']; cbn [Rev2.scanBatches]; by rewrite E.
Qed.

(** * Properties of the string primitives *)

Lemma startsWith_app (d post : jstring) : JS.startsWith d (d ++ post) = true.
Proof.
  induction d as [| a d' IH]; [reflexivity |].
  cbn. rewrite N.eqb_refl. exact IH.
Qed.

(** Passing over the rest of a separator. *)
Lemma split_go_skip (d x post cur : jstring) :
  JS.split_go d (x ++ post) (length x) cur = JS.split_go d post 0 cur.
Proof.
  induction x as [| a x IH]; [reflexivity |].
  cbn. exact IH.
Qed.

(** The text up to the first separator is the first piece. *)
Lemma split_go_first (d pre post cur : jstring) :
  d <> [] ->
  (forall k, (k < length pre)%nat ->
             JS.startsWith d (drop k (pre ++ d ++ post)) = false) ->
  JS.split_go d (pre ++ d ++ post) 0 cur
  = (rev cur ++ pre) :: JS.split_go d post 0 [].
Proof.
  intros Hd. revert cur.
  induction pre as [| a pre IH]; intros cur Hfirst.
  - destruct d as [| c d']; [done |].
    pose proof (startsWith_app (c :: d') post) as Hs.
    cbn [app] in *. cbn [JS.split_go]. rewrite Hs, app_nil_r.
    f_equal. cbn [length]. replace (S (length d') - 1)%nat with (length d') by lia.
    apply split_go_skip.
  - cbn [app JS.split_go].
    pose proof (Hfirst 0%nat ltac:(cbn; lia)) as H0. cbn [drop app] in H0.
    rewrite H0.
    rewrite IH.
    + cbn [rev]. by rewrite <- app_assoc.
    + intros k Hk. apply (Hfirst (S k)). cbn. lia.
Qed.

(** Without a separator the text is the only piece. *)
Lemma split_go_absent (d s cur : jstring) :
  JS.includes s d = false ->
  JS.split_go d s 0 cur = [rev cur ++ s].
Proof.
  revert cur. induction s as [| a s IH]; intros cur H.
  - cbn. by rewrite app_nil_r.
  - cbn [JS.includes] in H. apply orb_false_iff in H as [H1 H2].
    cbn [JS.split_go]. rewrite H1, IH by exact H2.
    cbn [rev]. by rewrite <- app_assoc.
Qed.

Lemma split_go_nonempty (d s : jstring) (skip : nat) (cur : jstring) :
  JS.split_go d s skip cur <> [].
Proof.
  revert skip cur. induction s as [| a s IH]; intros skip cur; [done |].
  cbn [JS.split_go]. destruct skip; [| apply IH].
  destruct (JS.startsWith d (a :: s)); [done | apply IH].
Qed.

(** * Properties of the answer parsers *)

Section EdgeCases.
Import Parser.

(** The block that reads the missing screens never throws. *)
Lemma missingScreensOf_total (edgePart : jstring) :
  exists ms, missingScreensOf edgePart = Ok ms.
Proof.
  unfold missingScreensOf. destruct edgePart as [| c s]; [by exists [] |].
  destruct (Regex.exec false reBraces (c :: s)) as [m |]; [| by exists []].
  unfold tryCatch. destruct (readMissingScreens (Regex.matched m)) as [l | e].
  - by exists l.
  - by exists [].
Qed.

Lemma missingScreensOf_no_braces (edgePart : jstring) :
  Regex.exec false reBraces edgePart = None -> missingScreensOf edgePart = Ok [].
Proof.
  intros H. unfold missingScreensOf. destruct edgePart; [done |]. by rewrite H.
Qed.

Lemma missingScreensOf_malformed (edgePart : jstring) (m : Regex.found) :
  Regex.exec false reBraces edgePart = Some m ->
  JSON.parse (Regex.matched m) = None ->
  missingScreensOf edgePart = Ok [].
Proof.
  intros H P. unfold missingScreensOf. destruct edgePart; [done |]. rewrite H.
  unfold readMissingScreens, JSON_parse. by rewrite P.
Qed.


(** What [parseEdgeCases] returns, by the pieces of the split. *)
Lemma parseEdgeCases_pieces (text part0 : jstring) (more : list jstring) :
  JS.split text EDGE_DELIMITER = part0 :: more ->
  exists ms,
    missingScreensOf (JS.trim (hd [] more)) = Ok ms /\
    parseEdgeCases text = Ok (JS.trim part0, ms).
Proof.
  intros H. unfold parseEdgeCases. rewrite H. cbn [first bindR nth].
  replace (nth 0 more []) with (hd [] more) by (by destruct more).
  destruct (missingScreensOf_total (JS.trim (hd [] more))) as [ms Hms].
  exists ms. by rewrite Hms.
Qed.

Lemma split_absent (text : jstring) :
  JS.includes text EDGE_DELIMITER = false ->
  JS.split text EDGE_DELIMITER = [text].
Proof. intros H. unfold JS.split. by rewrite split_go_absent. Qed.

Lemma split_first (pre post : jstring) :
  (forall k, (k < length pre)%nat ->
             JS.startsWith EDGE_DELIMITER (drop k (pre ++ EDGE_DELIMITER ++ post)) = false) ->
  JS.split (pre ++ EDGE_DELIMITER ++ post) EDGE_DELIMITER
  = pre :: JS.split post EDGE_DELIMITER.
Proof.
  intros H. unfold JS.split. rewrite split_go_first; [done | done | exact H].
Qed.

End EdgeCases.

(** C3.  For every answer text the extraction returns, and never throws.
    Without the delimiter the flow text is the whole text trimmed and no
    missing screen is reported.  With it, the flow text is what stands
    before its first occurrence, trimmed; when the trimmed text that
    follows (up to a further delimiter) holds no brace-matched part, or
    when that part is not well-formed JSON, no missing screen is
    reported.  With no missing screen the rest of
    [runScanFlowWithEdgeCases] returns as well. *)
Theorem edge_case_extraction_never_throws :
  forall text : jstring,
    exists (flow : jstring) (ms : list JSON.json),
      Parser.parseEdgeCases text = Ok (flow, ms) /\
      (JS.includes text Parser.EDGE_DELIMITER = false ->
       flow = JS.trim text /\ ms = []) /\
      (forall pre post : jstring,
          text = pre ++ Parser.EDGE_DELIMITER ++ post ->
          (forall k, (k < length pre)%nat ->
                     JS.startsWith Parser.EDGE_DELIMITER (drop k text) = false) ->
          let edgePart := JS.trim (hd [] (JS.split post Parser.EDGE_DELIMITER)) in
          flow = JS.trim pre /\
          (Regex.exec false Parser.reBraces edgePart = None -> ms = []) /\
          (forall m,
              Regex.exec false Parser.reBraces edgePart = Some m ->
              JSON.parse (Regex.matched m) = None -> ms = [])) /\
      (ms = [] ->
       forall (w : World) (st : State),
         readFlowAnswer text w st
         = (Ok {| flowText := flow; missingScreens := [];
                  edgeDocumentation := flow |}, st)).
Proof.
  intros text.
  destruct (JS.split text Parser.EDGE_DELIMITER) as [| part0 more] eqn:Hsplit.
  { exfalso. revert Hsplit. apply split_go_nonempty. }
  destruct (parseEdgeCases_pieces text part0 more Hsplit) as (ms & Hms & Hparse).
  exists (JS.trim part0), ms. split; [exact Hparse |]. split; [| split].
  - intros Habsent. rewrite (split_absent text Habsent) in Hsplit.
    injection Hsplit as <- <-. split; [reflexivity |].
    cbn [hd] in Hms. by injection Hms as <-.
  - intros pre post -> Hfirst edgePart.
    rewrite (split_first pre post Hfirst) in Hsplit.
    injection Hsplit as <- <-. fold edgePart in Hms.
    split; [reflexivity |]. split.
    + intros Hnone. rewrite (missingScreensOf_no_braces _ Hnone) in Hms.
      by injection Hms as <-.
    + intros m Hm Hbad. rewrite (missingScreensOf_malformed _ m Hm Hbad) in Hms.
      by injection Hms as <-.
  - intros -> w st. unfold readFlowAnswer.
    unfold mbind, M_bind, bind, liftR. by rewrite Hparse.
Qed.

Lemma edge_case_extraction_sample :
  Parser.parseEdgeCases noDelimiterAnswer
    = Ok (u "## Flow Overview" ++ [10] ++ u "Sign in, then pay.", []) /\
  Parser.parseEdgeCases truncatedAnswer
    = Ok (u "## Flow Overview" ++ [10] ++ u "Sign in.", []).
Proof.
  split.
  - destruct (edge_case_extraction_never_throws noDelimiterAnswer)
      as (flow & ms & E & Habsent & _).
    destruct (Habsent ltac:(vm_compute; reflexivity)) as [-> ->].
    rewrite E. vm_compute. reflexivity.
  - destruct (edge_case_extraction_never_throws truncatedAnswer)
      as (flow & ms & E & _ & Hfirst & _).
    destruct (Hfirst (u "## Flow Overview" ++ [10] ++ u "Sign in." ++ [10])
                ([10] ++ uq "{'missing_screens':[{'name':'Payment failed'}")
                ltac:(vm_compute; reflexivity))
      as (Hflow & _ & Hbad).
    + intros k Hk. vm_compute in Hk.
      do 26 (destruct k as [| k]; [vm_compute; reflexivity |]). lia.
    + rewrite E, Hflow.
      rewrite (Hbad _ ltac:(vm_compute; reflexivity) ltac:(vm_compute; reflexivity)).
      vm_compute. reflexivity.
Defined.

(** ** Severities are not checked *)




(** ** The visual-spec parser *)

Section VisualSpec.
Import Parser.

(** The test on the parsed value never throws on an object, and says
    what it says. *)
Lemma acceptSpec_object (fields : list (jstring * JSON.json)) :
  acceptSpec (JSON.JObject fields)
  = Ok (match JSON.lookup (u "name") fields with
        | Some v => JSON.truthy v
        | None => false
        end
        && JSON.isNumber (JSON.lookup (u "width") fields)
        && JSON.isNumber (JSON.lookup (u "height") fields)).
Proof. reflexivity. Qed.

Lemma parseVisualScreenSpec_total (raw : jstring) :
  exists r, parseVisualScreenSpec raw = Ok r.
Proof.
  unfold parseVisualScreenSpec.
  destruct (Regex.exec false reBraces (stripFences raw)) as [m |]; [| by exists None].
  unfold tryCatch.
  destruct (bindR (JSON_parse (Regex.matched m)) _) as [r | e]; [by exists r | by exists None].
Qed.

End VisualSpec.

(** C9, as the code has it.  For every input the parser returns and
    never throws.  It returns a value exactly when the text, trimmed and
    without its code fences, holds a brace-matched part that parses as a
    JSON object whose [width] and [height] are numbers and whose [name] is
    truthy: a non-empty string, or any other value that is not [null],
    [false], [0] or the empty string; the type of [name] is not checked.
    In every other case it returns [null]. *)
Theorem visual_spec_accepted_iff :
  forall raw : jstring,
    (exists r, Parser.parseVisualScreenSpec raw = Ok r) /\
    (forall v : JSON.json,
        Parser.parseVisualScreenSpec raw = Ok (Some v) <->
        exists (m : Regex.found) (fields : list (jstring * JSON.json))
               (name : JSON.json) (width height : JSON.number),
          Regex.exec false Parser.reBraces (Parser.stripFences raw) = Some m /\
          JSON.parse (Regex.matched m) = Some v /\
          v = JSON.JObject fields /\
          JSON.lookup (u "name") fields = Some name /\
          JSON.truthy name = true /\
          JSON.lookup (u "width") fields = Some (JSON.JNumber width) /\
          JSON.lookup (u "height") fields = Some (JSON.JNumber height)).
Proof.
  intros raw. split; [apply parseVisualScreenSpec_total |].
  intros v. unfold Parser.parseVisualScreenSpec.
  destruct (Regex.exec false Parser.reBraces (Parser.stripFences raw)) as [m |].
  2: { split; [done | intros (? & ? & ? & ? & ? & E & _); discriminate E]. }
  unfold Parser.JSON_parse.
  destruct (JSON.parse (Regex.matched m)) as [parsed |] eqn:P.
  2: { cbn. split; [done | intros (? & ? & ? & ? & ? & E & D & _)].
       simplify_eq. }
  cbn [bindR].
  destruct parsed as [| b | x | s | l | fields].
  1-5: cbn; split;
       [done | intros (? & ? & ? & ? & ? & E & D & F & _); simplify_eq].
  rewrite acceptSpec_object. cbn [bindR tryCatch].
  split.
  - intros E.
    destruct (JSON.lookup (u "name") fields) as [name |] eqn:Ln; [| done].
    destruct (JSON.truthy name) eqn:Tn; [| done].
    destruct (JSON.lookup (u "width") fields) as [[| | width | | |] |] eqn:Lw;
      try done.
    destruct (JSON.lookup (u "height") fields) as [[| | height | | |] |] eqn:Lh;
      try done.
    cbn in E. injection E as <-.
    exists m, fields, name, width, height. done.
  - intros (m' & fields' & name & width & height & E & D & F & Ln & Tn & Lw & Lh).
    simplify_eq. rewrite Ln, Tn, Lw, Lh. reflexivity.
Qed.

Lemma visual_spec_accepted_sample :
  exists v, Parser.parseVisualScreenSpec goodSpec = Ok (Some v).
Proof.
  eexists.
  apply (proj2 (visual_spec_accepted_iff goodSpec)).
  eexists. eexists. eexists. eexists. eexists.
  split; [vm_compute; reflexivity |].
  split; [vm_compute; reflexivity |].
  split; [reflexivity |].
  split; [vm_compute; reflexivity |].
  split; [vm_compute; reflexivity |].
  split; vm_compute; reflexivity.
Defined.

(** C9 as stated fails: a spec whose [name] is the boolean [true] has a
    wrongly-typed field, and is returned all the same. *)
Lemma untyped_name_is_accepted :
  Parser.parseVisualScreenSpec untypedNameSpec
  = Ok (Some (JSON.JObject
                [ (u "name", JSON.JBool true);
                  (u "width", JSON.JNumber (JSON.Num false 375 0));
                  (u "height", JSON.JNumber (JSON.Num false 812 0)) ])).
Proof. vm_compute. reflexivity. Qed.
(** ** Regeneration: one retry, then the item is skipped *)

Section Regeneration.

Variable w : World.
Hypothesis answered : forall n, exists text, vendor w n = HttpOk text.
Hypothesis made : forall c, exists nodes, canvas w c = Ok nodes.

Lemma onCanvas_made (st : State) (op : CanvasOp) :
  exists st',
    onCanvas op w st = (Ok (madeBy w (canvasOps st)), st') /\
    trace st' = trace st ++ [EvCanvas op] /\
    fetches st' = fetches st /\
    canvasOps st' = S (canvasOps st) /\
    session st' = session st /\
    cachedDesignSystem st' = cachedDesignSystem st.
Proof.
  unfold onCanvas, madeBy. destruct (made (canvasOps st)) as [nodes ->].
  eexists. split; [reflexivity | done].
Qed.

(** What the answer to request [n] parses to. *)
Lemma parsedAnswer_read (n : nat) :
  exists text,
    vendor w n = HttpOk text /\
    Parser.parseVisualScreenSpec text = Ok (parsedAnswer w n).
Proof.
  destruct (answered n) as [text H]. exists text. split; [exact H |].
  unfold parsedAnswer. rewrite H.
  destruct (parseVisualScreenSpec_total text) as [[spec |] ->]; reflexivity.
Qed.

Lemma visualRequest_cached (s : Session) (st st0 : State) (model : jstring)
    (item : Parser.MissingScreenItem) (shots : list FrameScreenshot) (i : nat)
    (designSummary : bool) :
  cachedDesignSystem st = cachedDesignSystem st0 ->
  Rev1.visualRequest s st model item shots i designSummary
  = Rev1.visualRequest s st0 model item shots i designSummary.
Proof. intros H. unfold Rev1.visualRequest. by rewrite H. Qed.

(** The loop does what the specification words. *)
Lemma generateAll_answered (s : Session) (st0 : State) (model : jstring)
    (shots : list FrameScreenshot) (total : nat) :
  forall (items : list Parser.MissingScreenItem) (i : nat) (created : list NodeId)
         (st : State),
    session st = s ->
    cachedDesignSystem st = cachedDesignSystem st0 ->
    let loop :=
      regenerationLoop w s st0 model shots total i (fetches st) (canvasOps st) items in
    exists st',
      Rev1.generateAll model shots total i items created w st
      = (Ok (created ++ loop.2), st') /\
      trace st' = trace st ++ loop.1 /\
      session st' = s.
Proof.
  induction items as [| item items IH]; intros i created st Hs Hd; cbn zeta.
  { exists st. cbn. by rewrite !app_nil_r. }
  cbn [Rev1.generateAll regenerationLoop]. unfold Rev1.generateOne.
  rewrite !bind_eval. unfold Rev1.sendProgress at 1, sendToUI at 1, emit at 1.
  rewrite bind_eval. cbn [getSession]. rewrite bind_eval. cbn [getState].
  set (st1 := record _ st).
  assert (session st1 = s) as Hs1 by exact Hs.
  assert (cachedDesignSystem st1 = cachedDesignSystem st0) as Hd1 by exact Hd.
  rewrite Hs1.
  rewrite (visualRequest_cached s st1 st0) by exact Hd1.
  destruct (parsedAnswer_read (fetches st)) as (t1 & H1 & P1).
  destruct (callAI_ok w st1 (Rev1.visualRequest s st0 model item shots i true) t1 H1)
    as (st2 & E2 & T2 & F2 & S2 & D2 & C2).
  rewrite bind_eval, E2. rewrite bind_eval. unfold liftR at 1. rewrite P1.
  destruct (parsedAnswer w (fetches st)) as [spec |].
  - (* the first answer holds a layout *)
    destruct (onCanvas_made st2
                (OpBuildVisualScreen spec (Parser.reference_screen item)))
      as (st3 & E3 & T3 & F3 & C3 & S3 & D3).
    assert (canvasOps st2 = canvasOps st) as C2' by (by rewrite C2).
    assert (fetches st3 = S (fetches st)) as F by (by rewrite F3, F2).
    assert (canvasOps st3 = S (canvasOps st)) as C by (by rewrite C3, C2').
    rewrite C2' in E3. rewrite E3.
    pose proof (IH (S i) (created ++ madeBy w (canvasOps st)) st3) as H.
    cbn zeta in H. rewrite F, C in H.
    destruct H as (st' & E & T & S); [congruence | congruence |].
    exists st'. rewrite E. split; [by rewrite <- app_assoc |]. split; [| exact S].
    rewrite T, T3, T2. subst st1. cbn [record trace fst fetches].
    unfold generatingNotice. by rewrite <- !app_assoc.
  - (* it holds none: the request is sent once more *)
    rewrite bind_eval. cbn [getState].
    rewrite (visualRequest_cached s st2 st0) by congruence.
    destruct (parsedAnswer_read (S (fetches st))) as (t2 & H2 & P2).
    assert (vendor w (fetches st2) = HttpOk t2) as H2' by (by rewrite F2).
    destruct (callAI_ok w st2 (Rev1.visualRequest s st0 model item shots i false) t2 H2')
      as (st3 & E3 & T3 & F3 & S3 & D3 & C3).
    assert (fetches st2 = S (fetches st)) as F2' by (by rewrite F2).
    assert (fetches st3 = S (S (fetches st))) as F3' by (by rewrite F3, F2').
    assert (canvasOps st3 = canvasOps st) as C3' by (by rewrite C3, C2).
    rewrite bind_eval, E3. rewrite bind_eval. unfold liftR at 1. rewrite P2.
    destruct (parsedAnswer w (S (fetches st))) as [spec |].
    + destruct (onCanvas_made st3
                  (OpBuildVisualScreen spec (Parser.reference_screen item)))
        as (st4 & E4 & T4 & F4 & C4 & S4 & D4).
      assert (fetches st4 = S (S (fetches st))) as F by (by rewrite F4).
      assert (canvasOps st4 = S (canvasOps st)) as C by (by rewrite C4, C3').
      rewrite C3' in E4. rewrite E4.
      pose proof (IH (S i) (created ++ madeBy w (canvasOps st)) st4) as H.
      cbn zeta in H. rewrite F, C in H.
      destruct H as (st' & E & T & S); [congruence | congruence |].
      exists st'. rewrite E. split; [by rewrite <- app_assoc |]. split; [| exact S].
      rewrite T, T4, T3, T2, F2'. subst st1. cbn [record trace fst fetches].
      unfold generatingNotice. by rewrite <- !app_assoc.
    + rewrite bind_eval. unfold sendToUI at 1, emit at 1.
      set (st4 := record _ st3).
      assert (fetches st4 = S (S (fetches st))) as F by exact F3'.
      assert (canvasOps st4 = canvasOps st) as C by exact C3'.
      assert (session st4 = s) as S4 by (change (session st3 = s); congruence).
      assert (cachedDesignSystem st4 = cachedDesignSystem st0) as D4
        by (change (cachedDesignSystem st3 = cachedDesignSystem st0); congruence).
      cbn beta iota. cbn [ret mret M_ret].
      pose proof (IH (S i) (created ++ []) st4 S4 D4) as H.
      cbn zeta in H. rewrite F, C in H.
      destruct H as (st' & E & T & S).
      exists st'. rewrite E. split; [by rewrite app_nil_r |]. split; [| exact S].
      rewrite T. subst st4. cbn [record trace]. rewrite T3, T2, F2'.
      subst st1. cbn [record trace fst fetches].
      unfold generatingNotice, skipNotice. by rewrite <- !app_assoc.
Qed.

Lemma referenceScreenshots_run (st : State) :
  exists shots st',
    Rev1.referenceScreenshots w st = (Ok shots, st') /\
    trace st' = trace st /\ fetches st' = fetches st /\
    canvasOps st' = canvasOps st /\ session st' = session st /\
    cachedDesignSystem st' = cachedDesignSystem st.
Proof.
  unfold Rev1.referenceScreenshots. rewrite bind_eval. cbn [getState].
  destruct (cachedScreenshots st) as [| shot shots]; [| by eexists; eexists].
  rewrite bind_eval. cbn [getSelectedFramesAndComponents].
  destruct (match cachedNodes st with [] => _ | _ :: _ => _ end);
    eexists; eexists; (split; [reflexivity | done]).
Qed.

End Regeneration.

(** C8.  The regeneration action, given a key and missing screens, when
    every request is answered and the document collaborator does not
    fail: it returns, and its events are the ones the specification
    words.  For each item one request is sent; when the answer does not
    parse into a visual screen spec the request is sent once more, and
    never a third time; when that answer does not parse either, one
    error notice is posted for the item, no frame is made for it, and
    the loop goes on with the items that remain; the count reported at
    the end is that of the frames made. *)
Theorem unparsable_layout_retried_once_then_skipped :
  forall (w : World) (st : State) (items : list Parser.MissingScreenItem)
         (documentation msgApiKey : jstring) (msgProvider : AIProvider)
         (msgProjectContext msgModel : option jstring),
    chooseKey msgApiKey (session st) <> [] ->
    items <> [] ->
    (forall n, exists text, vendor w n = HttpOk text) ->
    (forall c, exists nodes, canvas w c = Ok nodes) ->
    let s := {| apiKey := chooseKey msgApiKey (session st);
                projectContext := chooseContext msgProjectContext (session st);
                currentProvider := msgProvider |} in
    let run := Rev1.handleGenerateMissingScreens items documentation msgApiKey
                 msgProvider msgProjectContext msgModel w st in
    exists shots,
      run.1 = Ok tt /\
      trace run.2
      = trace st
        ++ regenerationEvents w s st (chooseModel msgModel msgProvider) shots items.
Proof.
  intros w st items documentation msgApiKey msgProvider msgProjectContext msgModel
    Hkey Hitems Hv Hc. cbn zeta.
  enough (exists shots st',
             Rev1.handleGenerateMissingScreens items documentation msgApiKey
               msgProvider msgProjectContext msgModel w st = (Ok tt, st') /\
             trace st'
             = trace st
               ++ regenerationEvents w
                    {| apiKey := chooseKey msgApiKey (session st);
                       projectContext := chooseContext msgProjectContext (session st);
                       currentProvider := msgProvider |}
                    st (chooseModel msgModel msgProvider) shots items)
    as (shots & st' & -> & T) by (by exists shots).
  unfold Rev1.handleGenerateMissingScreens.
  rewrite bind_eval. cbn [getSession].
  destruct (chooseKey msgApiKey (session st)) as [| k key]; [done |].
  destruct items as [| item items]; [done |].
  set (s := {| apiKey := k :: key |}).
  rewrite bind_eval. cbn [setSession].
  set (st0 := {| session := s |}).
  unfold tryCatchFinally. cbn zeta.
  rewrite bind_eval. unfold Rev1.sendProgress at 1, sendToUI at 1, emit at 1.
  set (st1 := record _ st0).
  destruct (referenceScreenshots_run w st1) as (shots & st2 & E2 & T2 & F2 & C2 & S2 & D2).
  rewrite bind_eval, E2.
  destruct (onCanvas_made w Hc st2 OpLoadFonts) as (st3 & E3 & T3 & F3 & C3 & S3 & D3).
  rewrite bind_eval, E3.
  assert (fetches st3 = fetches st) as F by (by rewrite F3, F2).
  assert (canvasOps st3 = S (canvasOps st)) as C by (by rewrite C3, C2).
  pose proof (generateAll_answered w Hv Hc s st (chooseModel msgModel msgProvider) shots
                (length (item :: items)) (item :: items) 0 [] st3) as H.
  cbn zeta in H. rewrite F, C in H.
  destruct H as (st4 & E4 & T4 & S4).
  { by rewrite S3, S2. }
  { by rewrite D3, D2. }
  set (loop := regenerationLoop _ _ _ _ _ _ _ _ _ _) in *.
  rewrite bind_eval, E4. cbn [app].
  exists shots. unfold regenerationEvents. fold loop. cbn zeta.
  assert (exists r st5,
             (match loop.2 with
              | [] => ret []
              | _ :: _ =>
                  onCanvas (OpSelect loop.2);; onCanvas (OpScrollIntoView loop.2)
              end) w st4 = (Ok r, st5) /\
             trace st5
             = trace st4 ++ match loop.2 with
                            | [] => []
                            | _ :: _ => [EvCanvas (OpSelect loop.2);
                                         EvCanvas (OpScrollIntoView loop.2)]
                            end) as (r & st5 & E5 & T5).
  { destruct loop.2 as [| frame frames].
    - exists [], st4. by rewrite app_nil_r.
    - destruct (onCanvas_made w Hc st4 (OpSelect (frame :: frames)))
        as (sta & Ea & Ta & _).
      destruct (onCanvas_made w Hc sta (OpScrollIntoView (frame :: frames)))
        as (stb & Eb & Tb & _).
      rewrite bind_eval, Ea, Eb. eexists. exists stb. split; [reflexivity |].
      by rewrite Tb, Ta, <- app_assoc. }
  rewrite bind_eval, E5.
  rewrite bind_eval. unfold Rev1.sendProgress at 1, sendToUI at 1, emit at 1.
  set (st6 := record _ st5).
  rewrite bind_eval. cbn [getWorld].
  destruct (onCanvas_made w Hc st6
              (OpCreateDocFrame SecEdgeCases
                 (Parser.formatEdgeCaseMarkdown (engine w) (item :: items))))
    as (st7 & E7 & T7 & _).
  rewrite bind_eval, E7.
  unfold sendToUI, emit. cbn [setSession].
  eexists. split; [reflexivity |]. cbn [record trace].
  rewrite T7. subst st6. cbn [record trace]. rewrite T5, T4, T3, T2.
  subst st1 st0. cbn [record trace]. rewrite <- !app_assoc. reflexivity.
Qed.

(** Two missing screens; the two answers for the first hold no layout,
    the answer for the second holds one. *)
Lemma unparsable_layout_sample :
  let run := Rev1.handleGenerateMissingScreens [sampleItem; laterItem] [] [] anthropic
               None None retryWorld sampleState in
  run.1 = Ok tt /\
  length (filter isFetch (trace run.2)) = 3%nat /\
  filter isErrorNotice (trace run.2) = [skipNotice sampleItem] /\
  last (trace run.2)
  = Some (EvUI (MsgScreensCreated 1 (u "Done! Created 1 screen and documentation"))).
Proof.
  destruct (unparsable_layout_retried_once_then_skipped retryWorld sampleState
              [sampleItem; laterItem] [] [] anthropic None None)
    as (shots & R & T).
  - vm_compute. discriminate.
  - discriminate.
  - intros n. unfold retryWorld, vendor. destruct (n <? 2)%nat; eexists; reflexivity.
  - intros c. eexists. reflexivity.
  - cbn zeta. split; [exact R |]. rewrite T. vm_compute. repeat split.
Defined.

(** * Properties of the error classifier *)

Lemma includes_nonempty (message pattern : jstring) :
  pattern <> [] -> JS.includes message pattern = true -> message <> [].
Proof. intros Hp H ->. destruct pattern; [done | discriminate H]. Qed.

(** The text the later classifier works on is the message of an [Error]
    that has one, unless that message is the text of an untyped object. *)
Lemma errorMessage_instance (kind : ErrorKind) (message : jstring) :
  message <> [] -> message <> u "[object Object]" ->
  Rev2.errorMessage (ErrInstance kind message) = message.
Proof.
  intros H1 H2. unfold Rev2.errorMessage.
  destruct message as [| c s]; [done |]. cbn [orElse].
  by rewrite bool_decide_eq_false_2.
Qed.

Lemma errorMessage_with_pattern (kind : ErrorKind) (message : jstring) (pattern : string) :
  u pattern <> [] ->
  has (u "[object Object]") pattern = false ->
  has message pattern = true ->
  Rev2.errorMessage (ErrInstance kind message) = message.
Proof.
  intros Hp Hobj H. apply errorMessage_instance.
  - by apply (includes_nonempty _ (u pattern)).
  - intros ->. unfold has in *. congruence.
Qed.

(** With no test answering, the answer is the generic one. *)
Lemma classify_unrecognized (label : jstring) (typeErr : bool) (message : jstring) :
  Rev2.recognized typeErr message = false ->
  Rev2.classify label typeErr message = genericError message.
Proof.
  unfold Rev2.recognized, Rev2.classify. intros H.
  destruct (Rev2.keyPattern message); [discriminate H |].
  destruct (Rev2.ratePattern message); [discriminate H |].
  destruct (Rev2.creditPattern message); [discriminate H |].
  destruct (Rev2.requestPattern message); [discriminate H |].
  destruct (Rev2.serverPattern message); [discriminate H |].
  cbn [orb] in H.
  assert (Rev2.answerByCode label message = None) as ->.
  { unfold Rev2.answerByCode in *. destruct (has message "API error"); [| done].
    destruct (apiErrorCode message) as [code |]; [| done].
    repeat (match goal with
            | |- context [if ?c then _ else _] => destruct c; [discriminate H |]
            end).
    reflexivity. }
  destruct (Rev2.answerByCode [] message); [discriminate H |].
  destruct (Rev2.timeoutPattern message); [discriminate H |].
  destruct (Rev2.fetchPattern typeErr message); [discriminate H |].
  destruct (Rev2.connectionPattern message); [discriminate H |].
  destruct (Rev2.selectionPattern message); [discriminate H |].
  destruct (Rev2.parsePattern message); [discriminate H |].
  reflexivity.
Qed.

(** The order of the tests in the later revision: the tests are made in
    a fixed order and the first that answers decides.  A message holding
    [401] gets the invalid-key answer.  One holding [429] gets the
    rate-limit answer unless it answers the invalid-key test.  One holding [500], [502],
    [503] or [529] gets the try-later answer unless it answers the
    invalid-key, rate-limit, credit or bad-request test.  A text that no
    test answers to is returned behind [Error: ], whole when it has at
    most 300 code units, cut to 297 followed by [...] when it has more. *)
Theorem classification_follows_order :
  forall (kind : ErrorKind) (message : jstring) (provider : option AIProvider),
    let answer := Rev2.getUserFriendlyError (ErrInstance kind message) provider in
    let label := Rev2.labelOf provider in
    (has message "401" = true -> answer = Rev2.MSG_INVALID_KEY label) /\
    (has message "429" = true ->
     Rev2.keyPattern message = false ->
     answer = Rev2.MSG_RATE_LIMIT) /\
    (has message "500" || has message "502" || has message "503"
       || has message "529" = true ->
     Rev2.keyPattern message = false ->
     Rev2.ratePattern message = false ->
     Rev2.creditPattern message = false ->
     Rev2.requestPattern message = false ->
     answer = Rev2.MSG_ISSUES label) /\
    (let text := Rev2.errorMessage (ErrInstance kind message) in
     Rev2.recognized (isTypeError (ErrInstance kind message)) text = false ->
     ((length text <= 300)%nat -> answer = u "Error: " ++ text) /\
     ((300 < length text)%nat -> answer = u "Error: " ++ take 297 text ++ u "...")).
Proof.
  intros kind message provider answer label. subst answer label.
  unfold Rev2.getUserFriendlyError. repeat split.
  - intros H.
    rewrite (errorMessage_with_pattern kind message "401") by (done || exact H).
    unfold Rev2.classify, Rev2.keyPattern. by rewrite H.
  - intros H K.
    rewrite (errorMessage_with_pattern kind message "429") by (done || exact H).
    unfold Rev2.classify. rewrite K. unfold Rev2.ratePattern. by rewrite H.
  - intros H K R C Q.
    assert (Rev2.errorMessage (ErrInstance kind message) = message) as ->.
    { apply orb_true_iff in H as [H | H]; [apply orb_true_iff in H as [H | H];
        [apply orb_true_iff in H as [H | H] |] |].
      - by apply (errorMessage_with_pattern kind message "500").
      - by apply (errorMessage_with_pattern kind message "502").
      - by apply (errorMessage_with_pattern kind message "503").
      - by apply (errorMessage_with_pattern kind message "529"). }
    unfold Rev2.classify. rewrite K, R, C, Q.
    unfold Rev2.serverPattern. by rewrite H.
  - intros Hlen. rewrite (classify_unrecognized _ _ _ H).
    unfold genericError.
    destruct (300 <? length _)%nat eqn:E; [apply Nat.ltb_lt in E; lia | done].
  - intros Hlen. rewrite (classify_unrecognized _ _ _ H).
    unfold genericError, JS.slice0.
    destruct (300 <? length _)%nat eqn:E; [done | apply Nat.ltb_ge in E; lia].
Qed.

Lemma classification_sample :
  Rev2.getUserFriendlyError (newError (u "API error 401: unauthorized")) (Some anthropic)
    = u "Anthropic: Invalid API key. Please check your key and try again." /\
  Rev2.getUserFriendlyError (newError (u "API error 429: slow down")) (Some openai)
    = u "Rate limit reached. Please wait a moment and try again." /\
  Rev2.getUserFriendlyError (newError (u "API error 529: busy")) (Some google)
    = u "Google is experiencing issues. Please try again in a few minutes." /\
  Rev2.getUserFriendlyError (newError (u "the model went away")) None
    = u "Error: the model went away" /\
  Rev2.getUserFriendlyError (newError (repeat 122 301)) None
    = u "Error: " ++ repeat 122 297%nat ++ u "...".
Proof.
  split; [| split; [| split; [| split]]].
  - apply (classification_follows_order PlainError
             (u "API error 401: unauthorized") (Some anthropic)).
    vm_compute. reflexivity.
  - apply (classification_follows_order PlainError
             (u "API error 429: slow down") (Some openai));
      vm_compute; reflexivity.
  - apply (classification_follows_order PlainError
             (u "API error 529: busy") (Some google));
      vm_compute; reflexivity.
  - apply (classification_follows_order PlainError
             (u "the model went away") None); [vm_compute; reflexivity |].
    vm_compute. lia.
  - destruct (classification_follows_order PlainError (repeat 122 301) None)
      as (_ & _ & _ & Hcut).
    destruct (Hcut ltac:(vm_compute; reflexivity)) as [_ Hlong].
    unfold newError. rewrite Hlong; [vm_compute; reflexivity | vm_compute; lia].
Defined.

(** C5.  The classifier is to map the status of the answer: 401 to the
    invalid-key text, 429 to the rate-limit text, 500, 502, 503 and 529
    to the try-later text.  It does not: the error the provider caller
    throws for status 429 is answered with the invalid-key text when its
    body happens to hold [401], because the whole message is searched
    for [401] before the status is looked at; and the earlier revision
    has no answer for status 500. *)
Lemma status_429_taken_for_invalid_key :
  Rev2.getUserFriendlyError
    (newError (u "API error 429: rate limit exceeded (request 14017)")) (Some openai)
    = Rev2.MSG_INVALID_KEY (u "OpenAI") /\
  Rev2.MSG_INVALID_KEY (u "OpenAI") <> Rev2.MSG_RATE_LIMIT /\
  Rev1.getUserFriendlyError (newError (u "API error 500: internal error"))
    = u "Error: API error 500: internal error".
Proof. vm_compute. repeat split; discriminate. Qed.

(** * Properties of the matcher *)

Section Matcher.
Import Regex.

Context {R : Type}.

(** A successful match has reached its continuation, on a suffix of the
    input. *)
Lemma star_loop_reaches (body : option N -> jstring -> option jstring -> cont R -> option R) :
  (forall prev s cap k x,
      body prev s cap k = Some x ->
      exists prev' s' cap', k prev' s' cap' = Some x /\ suffix s' s) ->
  forall n prev s cap (k : cont R) x,
    star_loop body n prev s cap k = Some x ->
    exists prev' s' cap', k prev' s' cap' = Some x /\ suffix s' s.
Proof.
  intros Hbody n. induction n as [| n IH]; intros prev s cap k x H.
  - cbn in H. exists prev, s, cap. done.
  - cbn [star_loop] in H.
    destruct (body prev s cap _) as [y |] eqn:E.
    + injection H as ->.
      apply Hbody in E as (prev' & s' & cap' & E & Hs).
      destruct (length s' <? length s)%nat; [| discriminate E].
      apply IH in E as (prev2 & s2 & cap2 & E & Hs2).
      exists prev2, s2, cap2. split; [exact E |]. by etrans.
    + exists prev, s, cap. done.
Qed.

Lemma go_reaches (m : bool) (r : regex) :
  forall prev s cap (k : cont R) x,
    go m r prev s cap k = Some x ->
    exists prev' s' cap', k prev' s' cap' = Some x /\ suffix s' s.
Proof.
  induction r as [| p | r1 IH1 r2 IH2 | r1 IH1 r2 IH2 | r1 IH1 | | | r1 IH1];
    intros prev s cap k x H; cbn [go] in H.
  - exists prev, s, cap. done.
  - destruct s as [| c s]; [discriminate H |].
    destruct (p c); [| discriminate H].
    exists (Some c), s, cap. split; [exact H |]. by apply suffix_cons_r.
  - apply IH1 in H as (prev1 & s1 & cap1 & H & Hs1).
    apply IH2 in H as (prev2 & s2 & cap2 & H & Hs2).
    exists prev2, s2, cap2. split; [exact H |]. by etrans.
  - destruct (go m r1 prev s cap k) as [y |] eqn:E.
    + injection H as ->. by apply IH1 in E.
    + by apply IH2 in H.
  - by apply (star_loop_reaches (go m r1) IH1) in H.
  - destruct (at_bol m prev); [| discriminate H]. exists prev, s, cap. done.
  - destruct (at_eol m s); [| discriminate H]. exists prev, s, cap. done.
  - apply IH1 in H as (prev1 & s1 & cap1 & H & Hs1).
    eexists prev1, s1, _. split; [exact H | exact Hs1].
Qed.

Lemma go_needs (m : bool) (p : N -> bool) (r : regex) :
  Needs p r ->
  forall prev s cap (k : cont R),
    Forall (fun c => p c = false) s ->
    go m r prev s cap k = None.
Proof.
  induction 1 as [q Hq | r1 r2 _ IH | r1 r2 _ IH | r1 r2 _ IH1 _ IH2 | r1 _ IH];
    intros prev s cap k Hs; cbn [go].
  - destruct s as [| c s]; [done |].
    apply Forall_cons in Hs as [Hc _].
    destruct (q c) eqn:E; [| done]. apply Hq in E. congruence.
  - by apply IH.
  - destruct (go m r1 prev s cap _) as [x |] eqn:E; [| done].
    apply go_reaches in E as (prev1 & s1 & cap1 & E & [pre ->]).
    rewrite IH in E; [discriminate E |].
    apply Forall_app in Hs. tauto.
  - by rewrite IH1, IH2.
  - by apply IH.
Qed.

End Matcher.

Section Replace.
Import Regex.

Variable p : N -> bool.
Variable r : regex.
Hypothesis Hr : Needs p r.

(** A text without the needed code unit holds no match and is left as it
    is by a replacement. *)
Lemma search_needs (m : bool) (prev : option N) (s : jstring) :
  Forall (fun c => p c = false) s -> search m r prev s = None.
Proof.
  revert prev. induction s as [| c s IH]; intros prev Hs.
  - cbn. unfold match_here. by rewrite (go_needs m p r Hr).
  - cbn [search]. unfold match_here. rewrite (go_needs m p r Hr) by exact Hs.
    apply Forall_cons in Hs as [_ Hs]. by rewrite IH.
Qed.

Lemma replaceAll_needs (m : bool) (rep s : jstring) :
  Forall (fun c => p c = false) s -> replaceAll m r rep s = s.
Proof.
  intros Hs. unfold replaceAll. cbn [replace_go]. by rewrite search_needs.
Qed.

Lemma replace_go_needs (m : bool) (rep : jstring) (n : nat) (prev : option N)
    (s : jstring) :
  Forall (fun c => p c = false) s -> replace_go m r rep n prev s = s.
Proof.
  intros Hs. destruct n; [done |]. cbn [replace_go]. by rewrite search_needs.
Qed.

End Replace.

Lemma search_here (m : bool) (r : Regex.regex) (prev : option N) (s : jstring)
    (f : Regex.found) :
  Regex.match_here m r prev s = Some f -> Regex.search m r prev s = Some f.
Proof. intros H. destruct s; cbn [Regex.search]; by rewrite H. Qed.

Section Greedy.
Import Regex.

Context {R : Type}.

Lemma go_chr_cons (m : bool) (q : N -> bool) (prev : option N) (c : N)
    (s : jstring) (cap : option jstring) (k : cont R) :
  go m (Chr q) prev (c :: s) cap k = if q c then k (Some c) s cap else None.
Proof. reflexivity. Qed.

Lemma go_chr_nil (m : bool) (q : N -> bool) (prev : option N)
    (cap : option jstring) (k : cont R) :
  go m (Chr q) prev [] cap k = None.
Proof. reflexivity. Qed.

(** A star over one class reads a whole run of that class when what
    follows the run is accepted. *)
Lemma star_class_greedy (m : bool) (q : N -> bool) (run rest : jstring) :
  Forall (fun c => q c = true) run ->
  match rest with
  | [] => True
  | c :: _ => q c = false
  end ->
  forall (n : nat) (prev : option N) (cap : option jstring) (k : cont R) (x : R),
    (length run <= n)%nat ->
    k (lastOf prev run) rest cap = Some x ->
    star_loop (go m (Chr q)) n prev (run ++ rest) cap k = Some x.
Proof.
  intros Hrun Hrest. induction Hrun as [| a run Ha Hrun IH]; intros n prev cap k x Hn Hk.
  - cbn [app] in *. destruct n as [| n]; [exact Hk |].
    cbn [star_loop]. destruct rest as [| c rest].
    + by rewrite go_chr_nil.
    + by rewrite go_chr_cons, Hrest.
  - destruct n as [| n]; [cbn in Hn; lia |].
    cbn [app star_loop]. rewrite go_chr_cons, Ha.
    assert ((length (run ++ rest) <? length (a :: run ++ rest))%nat = true) as ->
      by (apply Nat.ltb_lt; cbn; lia).
    rewrite (IH n (Some a) cap k x); [done | cbn in Hn; lia |].
    replace (lastOf (Some a) run) with (lastOf prev (a :: run)); [exact Hk |].
    unfold lastOf. rewrite last_cons. by destruct (last run).
Qed.

End Greedy.

(** * Properties of the documentation section parser *)

Section Stripping.
Import Regex Canvas.

Lemma lineHashes_needs_hash : Needs isHash reLineHashes.
Proof.
  unfold reLineHashes, hashes, Plus, lit1. cbn [seqs].
  apply Needs_seq_r, Needs_seq_l, Needs_seq_l, Needs_chr.
  intros c H. unfold isHash. by rewrite N.eqb_sym.
Qed.

Lemma trailingHashes_needs_hash : Needs isHash reTrailingHashes.
Proof.
  unfold reTrailingHashes, hashes, Plus, lit1. cbn [seqs].
  apply Needs_seq_r, Needs_seq_l, Needs_seq_l, Needs_chr.
  intros c H. unfold isHash. by rewrite N.eqb_sym.
Qed.

Lemma newlineHashes_needs_hash : Needs isHash reNewlineHashes.
Proof.
  unfold reNewlineHashes, hashes, Plus, lit1. cbn [seqs].
  apply Needs_seq_r, Needs_seq_l, Needs_seq_l, Needs_chr.
  intros c H. unfold isHash. by rewrite N.eqb_sym.
Qed.

(** A text without [#] goes through the last pass trimmed and otherwise
    untouched. *)
Lemma stripResidual_plain (v : jstring) :
  Forall (fun c => isHash c = false) v -> stripResidual v = JS.trim v.
Proof.
  intros H. unfold stripResidual.
  rewrite (replaceAll_needs isHash _ lineHashes_needs_hash) by exact H.
  by rewrite (replaceAll_needs isHash _ newlineHashes_needs_hash).
Qed.

(** The heading marker at the start of a text, with the white space
    behind it, is what [/^#+\s*/gm] matches first. *)
Lemma lineHashes_match (k : nat) (w t : jstring) :
  Forall (fun c => JS.isSpace c = true) w ->
  match t with
  | [] => True
  | c :: _ => JS.isSpace c = false /\ isHash c = false
  end ->
  match_here true reLineHashes None (repeat 35 (S k) ++ w ++ t)
  = Some (Found [] (repeat 35 (S k) ++ w) t
                (lastOf (lastOf (Some 35) (repeat 35 k)) w) None).
Proof.
  intros Hw Ht. unfold match_here, reLineHashes, hashes, Plus, lit1.
  cbn [seqs repeat app].
  change (go true (Seq Bol ?r) None ?s ?c ?k) with (go true r None s c k).
  change (go true (Seq (Seq (Chr ?q) ?r1) ?r2) None (35 :: ?s) ?c ?k)
    with (go true r1 (Some 35) s c
            (fun prev' s' cap' => go true r2 prev' s' cap' k)).
  change (go true (Star ?r) ?pv ?s ?c ?k)
    with (star_loop (go true r) (S (length s)) pv s c k).
  apply star_class_greedy.
  - apply Forall_forall. intros c Hc%list_elem_of_In%repeat_spec. by subst.
  - destruct w as [| c w]; [destruct t as [| c t]; [done |] |].
    + cbn [app]. destruct Ht as [_ Ht]. unfold isHash in Ht. by rewrite N.eqb_sym.
    + cbn [app]. apply Forall_cons in Hw as [Hc _].
      destruct (N.eqb_spec 35 c) as [<- |]; [by vm_compute in Hc | done].
  - rewrite length_app, repeat_length. lia.
  - change (go true (Star ?r) ?pv ?s ?c ?k)
      with (star_loop (go true r) (S (length s)) pv s c k).
    apply star_class_greedy.
    + exact Hw.
    + destruct t as [| c t]; [done | tauto].
    + rewrite length_app. lia.
    + f_equal. f_equal.
      replace (35 :: repeat 35 k ++ w ++ t) with ((35 :: repeat 35 k ++ w) ++ t)
        by (cbn [app]; by rewrite <- app_assoc).
      set (x := 35 :: repeat 35 k ++ w).
      rewrite length_app, Nat.add_sub.
      apply take_app_length.
Qed.

(** One heading marker in front of a text without [#]: the first pass
    removes it. *)
Lemma lineHashes_removed (k : nat) (w t : jstring) :
  Forall (fun c => JS.isSpace c = true) w ->
  match t with
  | [] => True
  | c :: _ => JS.isSpace c = false /\ isHash c = false
  end ->
  Forall (fun c => isHash c = false) t ->
  replaceAll true reLineHashes [] (repeat 35 (S k) ++ w ++ t) = t.
Proof.
  intros Hw Ht Hplain. unfold replaceAll. cbn [replace_go].
  rewrite (search_here _ _ _ _ _ (lineHashes_match k w t Hw Ht)).
  cbn [matched rest before rest_prev repeat app].
  by rewrite (replace_go_needs isHash _ lineHashes_needs_hash).
Qed.

End Stripping.

Section Trimming.

Lemma trimStart_app (a b : jstring) :
  JS.trimStart a <> [] -> JS.trimStart (a ++ b) = JS.trimStart a ++ b.
Proof.
  induction a as [| c a IH]; [done |]. cbn [app JS.trimStart].
  destruct (JS.isSpace c); [exact IH | done].
Qed.

Lemma trimEnd_app (x t : jstring) :
  JS.trimEnd t <> [] -> JS.trimEnd (x ++ t) = x ++ JS.trimEnd t.
Proof.
  unfold JS.trimEnd. intros H. rewrite rev_app_distr, trimStart_app.
  - by rewrite rev_app_distr, rev_involutive.
  - intros E. rewrite E in H. done.
Qed.

(** A text that begins with a code unit other than white space and is
    its own trimming is kept at the end of a longer text. *)
Lemma trim_behind (x t : jstring) (c : N) (t' : jstring) :
  t = c :: t' -> JS.isSpace c = false -> JS.trim t = t ->
  JS.trimEnd (x ++ t) = x ++ t.
Proof.
  intros -> Hc Ht. unfold JS.trim in Ht. cbn [JS.trimStart] in Ht.
  rewrite Hc in Ht. rewrite trimEnd_app; rewrite Ht; done.
Qed.

End Trimming.

Section Scan.
Import Canvas.

Lemma findHeader_key (hs : list (jstring * Regex.regex)) (s key : jstring) :
  findHeader hs s = Some key -> key ∈ map fst hs.
Proof.
  induction hs as [| [k pattern] hs IH]; [done |]. cbn [findHeader map fst].
  destruct (Regex.test false pattern s).
  - intros [= ->]. apply list_elem_of_here.
  - intros H. apply list_elem_of_further. by apply IH.
Qed.

Lemma default_keys (key : jstring) :
  key ∈ dom defaultSections <-> key ∈ SECTION_KEYS.
Proof.
  unfold defaultSections, SECTION_KEYS, SECTION_HEADERS. cbn [map fst].
  rewrite !dom_insert_L, dom_empty_L. set_solver.
Qed.

Lemma flush_dom (st : scan) : keysKept st -> dom (flush st) = dom defaultSections.
Proof.
  intros [Hd Hk]. unfold flush. destruct (currentKey st) as [key |]; [| exact Hd].
  destruct (sectionContent (currentLines st)); [exact Hd |].
  rewrite dom_insert_L, Hd.
  specialize (Hk key eq_refl). apply default_keys in Hk.
  apply subseteq_union_1_L. by apply singleton_subseteq_l.
Qed.

Lemma scanLine_keysKept (st : scan) (line : jstring) :
  keysKept st -> keysKept (scanLine st line).
Proof.
  intros H. unfold scanLine.
  destruct (findHeader SECTION_HEADERS (JS.trim line)) as [key |] eqn:E.
  - split; cbn [sections currentKey].
    + by apply flush_dom.
    + intros key' [= <-]. by apply findHeader_key in E.
  - destruct (currentKey st) eqn:Ek; [| exact H].
    destruct H as [Hd Hk]. split; cbn [sections currentKey]; [exact Hd |].
    by rewrite Ek in Hk.
Qed.

Lemma scan_keysKept (lines : list jstring) (st : scan) :
  keysKept st -> keysKept (fold_left scanLine lines st).
Proof.
  revert st. induction lines as [| line lines IH]; intros st H; [exact H |].
  cbn [fold_left]. by apply IH, scanLine_keysKept.
Qed.

Lemma parseLines_dom (lines : list jstring) :
  dom (parseLines lines) = dom defaultSections.
Proof.
  unfold parseLines. rewrite dom_fmap_L. apply flush_dom, scan_keysKept.
  split; [reflexivity | done].
Qed.

Lemma flush_untouched (key : jstring) (st : scan) :
  untouched key st -> flush st !! key = defaultSections !! key.
Proof.
  intros [Hs Hk]. unfold flush. destruct (currentKey st) as [k |]; [| exact Hs].
  destruct (sectionContent (currentLines st)); [exact Hs |].
  rewrite lookup_insert_ne; [exact Hs | congruence].
Qed.

Lemma scan_untouched (key : jstring) (lines : list jstring) (st : scan) :
  Forall (fun line => findHeader SECTION_HEADERS (JS.trim line) <> Some key) lines ->
  untouched key st -> untouched key (fold_left scanLine lines st).
Proof.
  intros Hlines. revert st.
  induction Hlines as [| line lines Hline _ IH]; intros st H; [exact H |].
  cbn [fold_left]. apply IH. unfold scanLine.
  destruct (findHeader SECTION_HEADERS (JS.trim line)) as [k |] eqn:E.
  - split; cbn [sections currentKey]; [by apply flush_untouched | congruence].
  - destruct (currentKey st) eqn:Ek; [| exact H].
    destruct H as [Hs Hk]. split; cbn [sections currentKey]; [exact Hs |].
    by rewrite Ek in Hk.
Qed.

(** The last pass leaves the first values as they are. *)
Lemma stripResidual_defaults : stripResidual <$> defaultSections = defaultSections.
Proof.
  apply map_eq. intros key. rewrite lookup_fmap.
  destruct (defaultSections !! key) as [v |] eqn:E; [| done].
  cbn [fmap option_fmap option_map]. f_equal.
  unfold defaultSections in E.
  repeat (rewrite lookup_insert in E; case_decide;
          [injection E as <-; vm_compute; reflexivity |]).
  by rewrite lookup_empty in E.
Qed.

Lemma parseLines_absent (key : jstring) (lines : list jstring) :
  Forall (fun line => findHeader SECTION_HEADERS (JS.trim line) <> Some key) lines ->
  parseLines lines !! key = defaultSections !! key.
Proof.
  intros H. unfold parseLines. rewrite lookup_fmap.
  rewrite (flush_untouched key); [| apply scan_untouched; [exact H | done]].
  by rewrite <- lookup_fmap, stripResidual_defaults.
Qed.




(** A section whose body is one line with a heading marker. *)
Lemma marked_line_content (k : nat) (w t : jstring) (c : N) (t' : jstring) :
  Forall (fun x => JS.isSpace x = true) w ->
  t = c :: t' -> JS.isSpace c = false ->
  Forall (fun x => isHash x = false) t ->
  JS.trim t = t ->
  sectionContent [repeat 35 (S k) ++ w ++ t] = t.
Proof.
  intros Hw Et Hc Hplain Htrim. unfold sectionContent. cbn [JS.join].
  assert (JS.trim (repeat 35 (S k) ++ w ++ t) = repeat 35 (S k) ++ w ++ t) as ->.
  { unfold JS.trim. cbn [repeat app JS.trimStart].
    change (JS.isSpace 35) with false. cbn iota.
    change (35 :: repeat 35 k ++ w ++ t) with ((35 :: repeat 35 k) ++ w ++ t).
    rewrite app_assoc. by apply (trim_behind _ t c t'). }
  rewrite lineHashes_removed; [| exact Hw | | exact Hplain].
  - by rewrite (replaceAll_needs isHash _ trailingHashes_needs_hash).
  - subst t. split; [exact Hc |]. by apply Forall_cons in Hplain as [? _].
Qed.

End Scan.

Section Sections.
Import Canvas.

Lemma parseLines_keys (lines : list jstring) (key : jstring) :
  is_Some (parseLines lines !! key) <-> key ∈ SECTION_KEYS.
Proof.
  rewrite <- elem_of_dom, parseLines_dom. apply default_keys.
Qed.

Lemma parseLines_marked (header key : jstring) (k : nat) (w t : jstring) (c : N)
    (t' : jstring) :
  findHeader SECTION_HEADERS (JS.trim header) = Some key ->
  plainLine (repeat 35 (S k) ++ w ++ t) ->
  Forall (fun x => JS.isSpace x = true) w ->
  t = c :: t' -> JS.isSpace c = false ->
  Forall (fun x => isHash x = false) t ->
  JS.trim t = t ->
  parseLines [header; repeat 35 (S k) ++ w ++ t] !! key = Some t.
Proof.
  intros Hh Hline Hw Et Hc Hplain Htrim. unfold parseLines. cbn [fold_left].
  unfold scanLine at 2. rewrite Hh.
  unfold scanLine. rewrite Hline. cbn [currentKey sections currentLines app].
  unfold flush. cbn [currentKey sections currentLines].
  rewrite (marked_line_content k w t c t' Hw Et Hc Hplain Htrim).
  rewrite Et at 1. rewrite lookup_fmap, lookup_insert_eq.
  cbn [fmap option_fmap option_map]. f_equal.
  rewrite stripResidual_plain by exact Hplain. exact Htrim.
Qed.

End Sections.

(** For every document the record has a value under every section key.
    A key whose header no line of the document shows has its first
    value: the fill-in placeholder for
    [Link to Component Library] and for [Attachments], the empty text for
    the six others.  And a heading marker that stands at the very start
    of a section's text is taken away: a section whose body is one line
    [#...# text] holds [text]. *)
Theorem missing_sections_keep_their_defaults :
  forall doc : jstring,
    (forall key, key ∈ Canvas.SECTION_KEYS ->
                 exists v, Canvas.parseDocSections doc !! key = Some v) /\
    (forall key,
        Forall (notHeaderOf key) (Canvas.docLines doc) ->
        Canvas.parseDocSections doc !! key = Canvas.defaultSections !! key) /\
    (forall key, key ∈ Canvas.SECTION_KEYS ->
        Canvas.defaultSections !! key
        = Some (if bool_decide (key = u "Link to Component Library")
                then u "_____________________ (add link here)"
                else if bool_decide (key = u "Attachments")
                then Canvas.attachmentsDefault
                else [])) /\
    (forall (header key : jstring) (k : nat) (w t : jstring) (c : N) (t' : jstring),
        Canvas.docLines doc = [header; repeat 35 (S k) ++ w ++ t] ->
        Canvas.findHeader Canvas.SECTION_HEADERS (JS.trim header) = Some key ->
        plainLine (repeat 35 (S k) ++ w ++ t) ->
        Forall (fun x => JS.isSpace x = true) w ->
        t = c :: t' -> JS.isSpace c = false ->
        Forall (fun x => isHash x = false) t ->
        JS.trim t = t ->
        Canvas.parseDocSections doc !! key = Some t).
Proof.
  intros doc. unfold Canvas.parseDocSections. repeat split.
  - intros key Hkey.
    destruct (proj2 (parseLines_keys (Canvas.docLines doc) key) Hkey) as [v Hv].
    by exists v.
  - intros key H. by apply parseLines_absent.
  - intros key Hkey. unfold Canvas.SECTION_KEYS, Canvas.SECTION_HEADERS in Hkey.
    cbn [map fst] in Hkey.
    repeat (apply elem_of_cons in Hkey as [-> | Hkey]; [vm_compute; reflexivity |]).
    by apply elem_of_nil in Hkey.
  - intros header key k w t c t' -> Hh Hline Hw Et Hc Hplain Htrim.
    by apply (parseLines_marked header key k w t c t').
Qed.

Lemma missing_sections_sample :
  Canvas.parseDocSections twoSectionDoc !! u "Use Cases" = Some [] /\
  Canvas.parseDocSections twoSectionDoc !! u "Link to Component Library"
    = Some (u "_____________________ (add link here)") /\
  Canvas.parseDocSections markedDoc !! u "Use Cases" = Some (u "Primary: sign in").
Proof.
  destruct (missing_sections_keep_their_defaults twoSectionDoc) as (_ & Habsent & _).
  destruct (missing_sections_keep_their_defaults markedDoc) as (_ & _ & _ & Hmarked).
  split; [| split].
  - rewrite Habsent; [vm_compute; reflexivity |].
    apply (bool_decide_unpack _). vm_compute. exact I.
  - rewrite Habsent; [vm_compute; reflexivity |].
    apply (bool_decide_unpack _). vm_compute. exact I.
  - apply (Hmarked (u "## Use Cases") (u "Use Cases") 2%nat (u "  ")
             (u "Primary: sign in") 80 (u "rimary: sign in")).
    + vm_compute. reflexivity.
    + vm_compute. reflexivity.
    + vm_compute. reflexivity.
    + vm_compute. repeat constructor.
    + reflexivity.
    + reflexivity.
    + vm_compute. repeat constructor.
    + vm_compute. reflexivity.
Defined.

(** C4.  The section parser is to strip the heading markers that are
    left in a section's final content; its own description says that it
    strips them all.  It does not: a heading marker that stands behind
    another marker, or behind white space at the start of a line, is
    still there in the final content. *)
Lemma heading_marker_can_remain :
  Canvas.parseDocSections (u "## Purpose" ++ [10] ++ u "# # # Goal") !! u "Purpose"
    = Some (u "# Goal") /\
  Canvas.parseDocSections
    (u "## Use Cases" ++ [10] ++ u "Primary: sign in" ++ [10] ++ u "  ## Details")
    !! u "Use Cases"
    = Some (u "Primary: sign in" ++ [10] ++ u "  ## Details").
Proof. vm_compute. done. Qed.



(** * The greedy brace match

    [/\{[\s\S]*\}/] finds the text from the first opening brace to the
    last closing brace, and nothing when no closing brace follows an
    opening one. *)

Section Braces.
Import Regex.

Lemma star_any_none {R} (k : cont R) (post : jstring) :
  Forall (fun c => c <> 125) post ->
  forall (n : nat) (prev : option N) (cap : option jstring),
    star_loop (go false any) n prev post cap (thenClose k) = None.
Proof.
  induction 1 as [| c post Hc _ IH]; intros n prev cap.
  - destruct n; reflexivity.
  - assert (thenClose k prev (c :: post) cap = None) as Hk.
    { unfold thenClose, lit1. rewrite go_chr_cons.
      destruct (N.eqb_spec 125 c); [congruence | done]. }
    destruct n as [| n]; [exact Hk |].
    cbn [star_loop]. unfold any at 1. rewrite go_chr_cons.
    destruct (Nat.ltb (length post) (length (c :: post))); [| exact Hk].
    fold any. by rewrite IH.
Qed.

Lemma star_any_to_last {R} (k : cont R) (mid post : jstring) (x : R) :
  Forall (fun c => c <> 125) post ->
  k (Some 125) post None = Some x ->
  forall (n : nat) (prev : option N),
    (length mid < n)%nat ->
    star_loop (go false any) n prev (mid ++ 125 :: post) None (thenClose k) = Some x.
Proof.
  intros Hpost Hk. induction mid as [| c mid IH]; intros n prev Hn.
  - destruct n as [| n]; [cbn in Hn; lia |].
    cbn [app star_loop]. unfold any at 1. rewrite go_chr_cons.
    assert (Nat.ltb (length post) (length (125 :: post)) = true) as ->
      by (apply Nat.ltb_lt; cbn; lia).
    fold any. rewrite star_any_none by exact Hpost.
    unfold thenClose, lit1. rewrite go_chr_cons. cbn. exact Hk.
  - destruct n as [| n]; [cbn in Hn; lia |].
    cbn [app star_loop]. unfold any at 1. rewrite go_chr_cons.
    assert (Nat.ltb (length (mid ++ 125 :: post)) (length (c :: mid ++ 125 :: post)) = true)
      as -> by (apply Nat.ltb_lt; cbn; lia).
    fold any. rewrite IH; [done | cbn in Hn; lia].
Qed.

Lemma braces_here (mid post : jstring) (prev : option N) :
  Forall (fun c => c <> 125) post ->
  match_here false Parser.reBraces prev (123 :: mid ++ 125 :: post)
  = Some (Found [] (123 :: mid ++ [125]) post (Some 125) None).
Proof.
  intros Hpost. unfold match_here, Parser.reBraces. cbn [seqs].
  change (go false (Seq (lit1 123) ?r) prev (123 :: ?s) ?c ?k)
    with (go false r (Some 123) s c k).
  change (go false (Seq (Star any) (lit1 125)) ?pv ?s ?c ?k)
    with (star_loop (go false any) (S (length s)) pv s c (thenClose k)).
  apply star_any_to_last; [exact Hpost | | rewrite length_app; lia].
  f_equal. f_equal.
  change (123 :: mid ++ 125 :: post) with ((123 :: mid) ++ [125] ++ post).
  rewrite app_assoc, length_app, Nat.add_sub.
  change ((123 :: mid) ++ [125]) with (123 :: mid ++ [125]).
  apply take_app_length.
Qed.

(** From the first opening brace to the last closing brace. *)
Lemma brace_match_first_to_last (pre mid post : jstring) :
  Forall (fun c => c <> 123) pre ->
  Forall (fun c => c <> 125) post ->
  exec false Parser.reBraces (pre ++ 123 :: mid ++ 125 :: post)
  = Some (Found pre (123 :: mid ++ [125]) post (Some 125) None).
Proof.
  intros Hpre Hpost. unfold exec. generalize (@None N).
  induction Hpre as [| c pre Hc _ IH]; intros prev.
  - cbn [app]. apply search_here, braces_here, Hpost.
  - cbn [app search].
    assert (match_here false Parser.reBraces prev (c :: pre ++ 123 :: mid ++ 125 :: post)
            = None) as ->.
    { unfold match_here, Parser.reBraces, lit1. cbn [seqs go].
      destruct (N.eqb_spec 123 c); [congruence | done]. }
    by rewrite IH.
Qed.

(** No match when no closing brace follows an opening one. *)
Lemma brace_match_absent (s : jstring) :
  (forall pre rest, s = pre ++ 123 :: rest -> Forall (fun c => c <> 125) rest) ->
  exec false Parser.reBraces s = None.
Proof.
  unfold exec. generalize (@None N).
  induction s as [| c s IH]; intros prev H.
  - reflexivity.
  - cbn [search].
    assert (match_here false Parser.reBraces prev (c :: s) = None) as ->.
    { unfold match_here, Parser.reBraces, lit1. cbn [seqs].
      change (go false (Seq (Chr ?q) ?r) prev (c :: ?t) ?cp ?k)
        with (if q c then go false r (Some c) t cp k else None).
      destruct (N.eqb_spec 123 c) as [<- |]; [| done].
      change (go false (Seq (Star any) (Chr (N.eqb 125))) ?pv ?t ?cp ?k)
        with (star_loop (go false any) (S (length t)) pv t cp (thenClose k)).
      apply star_any_none. by apply (H []). }
    rewrite IH; [done |].
    intros pre rest ->. by apply (H (c :: pre)).
Qed.

End Braces.

(** * The primitives and the parsers on small inputs *)

Example split_overlapping : JS.split (u "aaa") (u "aa") = [[]; u "a"].
Proof. reflexivity. Qed.

Example trim_all_white_space :
  JS.trim ([0xFEFF; 160; 9] ++ u "a b" ++ [0x2028; 10; 32]) = u "a b".
Proof. reflexivity. Qed.

Example lower_case_of_kelvin : JS.toLowerCase (u "NetWor" ++ [0x212A]) = u "network".
Proof. reflexivity. Qed.

Example replace_with_empty_matches :
  Regex.replaceAll false (Regex.Star (Regex.lit1 97)) (u "-") (u "baac") = u "-b--c-".
Proof. vm_compute. reflexivity. Qed.

Example line_marker_eats_the_line_break :
  Regex.replaceAll true Canvas.reLineHashes [] (u "#" ++ [10] ++ u "# a") = u "a".
Proof. vm_compute. reflexivity. Qed.

Example json_parse_nested :
  JSON.parse (uq " {'a': [1, -2.50e+3, true, null, 'xA'], 'a': {}} ")
  = Some (JSON.JObject
            [ (u "a", JSON.JArray [ JSON.JNumber (JSON.Num false 1 0);
                                    JSON.JNumber (JSON.Num true 250 1);
                                    JSON.JBool true; JSON.JNull;
                                    JSON.JString (u "xA") ]);
              (u "a", JSON.JObject []) ]).
Proof. vm_compute. reflexivity. Qed.

Example json_parse_rejects :
  map JSON.parse [ uq "[1,]"; uq "{'a':1,}"; u "01"; u "1 2"; u "tru"; u "-";
                   u "1."; uq "{'a' 1}"; uq "'a"; [] ]
  = repeat None 10.
Proof. vm_compute. reflexivity. Qed.

Example json_later_member_wins :
  JSON.lookup (u "a") [(u "a", JSON.JNull); (u "a", JSON.JBool true)]
  = Some (JSON.JBool true).
Proof. vm_compute. reflexivity. Qed.

Example tiny_number_is_falsy :
  JSON.truthy (JSON.JNumber (JSON.Num false 1 (-400))) = false /\
  JSON.truthy (JSON.JNumber (JSON.Num false 1 (-300))) = true.
Proof. vm_compute. done. Qed.

(** A document that holds only the [Purpose] section. *)
Example purpose_only_document :
  Canvas.parseDocSections (u "## Purpose" ++ [10] ++ u "Does X")
  = <[u "Purpose" := u "Does X"]> Canvas.defaultSections.
Proof. vm_compute. reflexivity. Qed.

Example header_with_suffix_is_recognized :
  Canvas.findHeader Canvas.SECTION_HEADERS (u "### platform  constraints (ios)")
  = Some (u "Platform Constraints").
Proof. vm_compute. reflexivity. Qed.

Example empty_missing_screens_answer :
  Parser.parseEdgeCases
    (u " flow " ++ [10] ++ u "---EDGE-CASES---" ++ [10] ++ uq "{'missing_screens':[]}")
  = Ok (u "flow", []).
Proof. vm_compute. reflexivity. Qed.

Example fenced_spec_is_unwrapped :
  Parser.stripFences goodSpec
  = uq "{'name':'Payment failed','width':375,'height':812,'children':[]}".
Proof. vm_compute. reflexivity. Qed.

Example format_two_missing_screens :
  nth 1 (Parser.itemLines sampleEngine 0 sampleItem) [] = u "### 1. Payment failed" /\
  nth 2 (Parser.itemLines sampleEngine 0 sampleItem) []
    = u "**Severity:** " ++ Parser.iconHigh ++ u " High".
Proof. vm_compute. done. Qed.

(** The earlier revision scans one screen at a time, with no pause. *)
Example earlier_revision_scans_one_by_one :
  map offline (trace (Rev1.handleScanScreens [] anthropic None None
                        {| selection := [sampleNode 1; sampleNode 2];
                           vendor := vendor sampleWorld;
                           arrival := arrival sampleWorld;
                           designSystem := designSystem sampleWorld;
                           screenshots := screenshots sampleWorld;
                           canvas := canvas sampleWorld;
                           untyped := untyped sampleWorld;
                           engine := engine sampleWorld |} sampleState).2)
  = [true; false; false; true; false; false; true; true; true; true; true].
Proof. vm_compute. reflexivity. Qed.
(** * The batch loop on any number of frames *)

Section Views.

Lemma requestsOf_app (a b : list Event) :
  requestsOf (a ++ b) = requestsOf a ++ requestsOf b.
Proof.
  induction a as [| ev a IH]; [reflexivity |].
  destruct ev; cbn [app requestsOf]; by rewrite ?IH.
Qed.

Lemma pausesOf_app (a b : list Event) :
  pausesOf (a ++ b) = pausesOf a ++ pausesOf b.
Proof.
  induction a as [| ev a IH]; [reflexivity |].
  destruct ev; cbn [app pausesOf]; by rewrite ?IH.
Qed.

Lemma noticesOf_app (a b : list Event) :
  noticesOf (a ++ b) = noticesOf a ++ noticesOf b.
Proof.
  induction a as [| ev a IH]; [reflexivity |].
  destruct ev; cbn [app noticesOf]; by rewrite ?IH.
Qed.

Lemma canvasOpsOf_app (a b : list Event) :
  canvasOpsOf (a ++ b) = canvasOpsOf a ++ canvasOpsOf b.
Proof.
  induction a as [| ev a IH]; [reflexivity |].
  destruct ev; cbn [app canvasOpsOf]; by rewrite ?IH.
Qed.

Lemma pausePoints_app (a b : list Event) :
  forall c : nat,
    pausePoints c (a ++ b)
    = pausePoints c a ++ pausePoints (c + length (requestsOf a)) b.
Proof.
  induction a as [| ev a IH]; intros c.
  - cbn. by rewrite Nat.add_0_r.
  - destruct ev; cbn [app pausePoints requestsOf length]; rewrite IH; try done.
    by rewrite Nat.add_succ_r.
Qed.

Lemma pausePoints_none (evs : list Event) :
  pausesOf evs = [] -> forall c, pausePoints c evs = [].
Proof.
  induction evs as [| ev evs IH]; intros H c; [done |].
  destruct ev; cbn [pausesOf pausePoints] in *; try by apply IH.
  discriminate H.
Qed.

Lemma fetches_read (rqs : list AIRequest) :
  forall b : nat,
    let evs := imap (fun j rq => EvFetch (b + j) rq) rqs in
    requestsOf evs = rqs /\ pausesOf evs = [] /\ canvasOpsOf evs = [] /\ noticesOf evs = [].
Proof.
  induction rqs as [| rq rqs IH]; intros b; [done |].
  cbn [imap requestsOf pausesOf canvasOpsOf noticesOf].
  destruct (IH (S b)) as (R & P & C & N).
  rewrite (imap_ext _ (fun j rq => EvFetch (S b + j) rq)) by (intros; cbn; f_equal; lia).
  cbn zeta in *. by rewrite R, P, C, N.
Qed.

Lemma replies_read (ns : list nat) :
  let evs := map EvReply ns in
  requestsOf evs = [] /\ pausesOf evs = [] /\ canvasOpsOf evs = [] /\ noticesOf evs = [].
Proof. induction ns as [| n ns IH]; [done |]. exact IH. Qed.

End Views.

Section Calls.

Variable w : World.

(** Starting calls: the requests leave in order, numbered from the count
    of requests so far; nothing else moves. *)
Lemma startAll_run (rqs : list AIRequest) :
  forall st : State,
  exists st',
    startAll rqs w st = (Ok (seq (fetches st) (length rqs)), st') /\
    trace st' = trace st ++ imap (fun j rq => EvFetch (fetches st + j) rq) rqs /\
    fetches st' = (fetches st + length rqs)%nat /\
    session st' = session st /\ canvasOps st' = canvasOps st.
Proof.
  induction rqs as [| rq rqs IH]; intros st.
  - exists st. cbn. rewrite app_nil_r, Nat.add_0_r. done.
  - cbn [startAll]. rewrite bind_eval. cbn [fetch].
    set (st1 := {| session := session st; trace := trace st ++ [EvFetch (fetches st) rq];
                   fetches := S (fetches st) |}).
    destruct (IH st1) as (st' & E & T & F & S & C).
    rewrite bind_eval, E. exists st'. split; [reflexivity |].
    rewrite T, F, S, C. subst st1. cbn [trace fetches session canvasOps length].
    rewrite <- app_assoc. cbn [app imap]. rewrite Nat.add_0_r.
    repeat split; try lia.
    do 2 f_equal. apply imap_ext. intros j x _. cbn. f_equal. lia.
Qed.

Lemma awaitAll_ok (ns : list nat) (texts : list jstring) :
  Forall2 (fun n t => vendor w n = HttpOk t) ns texts ->
  forall st : State,
  exists st',
    awaitAll ns w st = (Ok texts, st') /\
    trace st' = trace st ++ map EvReply ns /\
    fetches st' = fetches st /\
    session st' = session st /\ canvasOps st' = canvasOps st.
Proof.
  intros H st. rewrite (awaitAll_answered w ns texts st H).
  eexists. split; [reflexivity | done].
Qed.

(** The failure the wait reports is the failure of one of the calls. *)
Lemma firstRejected_in (ns : list nat) (m : nat) (e : JsError) :
  firstRejected w ns = Some (m, e) ->
  m ∈ ns /\ failureOf (vendor w m) = Some e.
Proof.
  revert m e. induction ns as [| n ns IH]; intros m e H; [discriminate H |].
  cbn [firstRejected] in H.
  destruct (failureOf (vendor w n)) as [en |] eqn:En.
  - destruct (firstRejected w ns) as [[m' e'] |].
    + destruct (arrival w m' <? arrival w n)%nat; simplify_eq.
      * destruct (IH m e eq_refl) as [Hin He]. split; [by apply list_elem_of_further | done].
      * split; [apply list_elem_of_here | done].
    + simplify_eq. split; [apply list_elem_of_here | done].
  - destruct (IH m e H) as [Hin He]. split; [by apply list_elem_of_further | done].
Qed.

(** A failure that comes before every other failure of the calls is the
    one reported. *)
Lemma firstRejected_first (ns : list nat) (m : nat) (e : JsError) :
  m ∈ ns ->
  failureOf (vendor w m) = Some e ->
  (forall n, n ∈ ns -> n <> m -> failureOf (vendor w n) <> None ->
             (arrival w m < arrival w n)%nat) ->
  firstRejected w ns = Some (m, e).
Proof.
  intros Hin He. induction ns as [| n ns IH]; intros Hfirst; [by apply elem_of_nil in Hin |].
  cbn [firstRejected].
  destruct (decide (n = m)) as [-> | Hn].
  - rewrite He. destruct (firstRejected w ns) as [[m' e'] |] eqn:E; [| done].
    destruct (firstRejected_in ns m' e' E) as [Hin' He'].
    destruct (decide (m' = m)) as [-> | Hm'].
    + by rewrite Nat.ltb_irrefl.
    + assert (arrival w m < arrival w m')%nat as Hlt.
      { apply Hfirst; [by apply list_elem_of_further | done | by rewrite He']. }
      assert ((arrival w m' <? arrival w m)%nat = false) as -> by (apply Nat.ltb_ge; lia).
      done.
  - apply elem_of_cons in Hin as [-> | Hin]; [done |].
    rewrite IH; [| done |].
    + destruct (failureOf (vendor w n)) as [en |] eqn:En; [| done].
      assert (arrival w m < arrival w n)%nat as Hlt.
      { apply Hfirst; [apply list_elem_of_here | done | by rewrite En]. }
      assert ((arrival w m <? arrival w n)%nat = true) as -> by (by apply Nat.ltb_lt).
      done.
    + intros k Hk. apply Hfirst. by apply list_elem_of_further.
Qed.

(** When a call fails, the wait ends with the failure that comes first;
    it only reads answers. *)
Lemma awaitAll_fails (ns : list nat) (m : nat) (e : JsError) :
  firstRejected w ns = Some (m, e) ->
  forall st : State,
  exists st' read,
    awaitAll ns w st = (Throw e, st') /\
    trace st' = trace st ++ map EvReply read /\
    fetches st' = fetches st /\
    session st' = session st /\ canvasOps st' = canvasOps st.
Proof.
  intros H st. unfold awaitAll. rewrite H.
  eexists. eexists. split; [reflexivity | done].
Qed.

(** Whatever the answers, the wait only reads answers. *)
Lemma awaitAll_reads (ns : list nat) (st : State) :
  exists read,
    (awaitAll ns w st).2 = recordAll (map EvReply read) st.
Proof.
  unfold awaitAll. destruct (firstRejected w ns) as [[m e] |]; eexists; reflexivity.
Qed.

End Calls.

Section Loop.

Variable w : World.
Variable frames : list FrameData.
Variable ds : DesignSystemData.
Variable model : jstring.
Variable options : bool * bool.

Lemma emit_eval (ev : Event) (st : State) : emit ev w st = (Ok tt, record ev st).
Proof. reflexivity. Qed.

Lemma pauses_step (n i : nat) :
  (i + 5 < n)%nat -> ((n - i - 1) / 5 = S ((n - (i + 5) - 1) / 5))%nat.
Proof.
  intros H. replace (n - i - 1)%nat with (1 * 5 + (n - (i + 5) - 1))%nat by lia.
  rewrite Nat.div_add_l by lia. lia.
Qed.

Lemma pauses_last (n i : nat) :
  (n <= i + 5)%nat -> ((n - i - 1) / 5 = 0)%nat.
Proof. intros H. apply Nat.div_small. lia. Qed.

(** The loop from index [i] on, when every request it sends is answered:
    [texts] holds the answers of all frames. *)
Lemma scanBatches_answered (texts : list jstring) :
  length texts = length frames ->
  forall (fuel i : nat) (docs : list (jstring * jstring)) (st : State),
    (length frames - i <= fuel)%nat ->
    (forall k t, texts !! (i + k)%nat = Some t -> vendor w (fetches st + k) = HttpOk t) ->
    exists st' tail,
      Rev2.scanBatches fuel frames ds model options i docs w st
      = (Ok (docs ++ zip (map fd_name (drop i frames)) (drop i texts)), st') /\
      trace st' = trace st ++ tail /\
      requestsOf tail
      = imap (fun j f => Rev2.screenRequest (session st) f ds (i + j) model options)
             (drop i frames) /\
      pausesOf tail = replicate ((length frames - i - 1) / 5) Rev2.BATCH_DELAY_MS /\
      (forall c, pausePoints c tail
                 = map (fun j => (c + 5 * S j)%nat) (seq 0 ((length frames - i - 1) / 5))) /\
      canvasOpsOf tail = [] /\
      Forall (fun m => isFinalNotice m = false) (noticesOf tail) /\
      fetches st' = (fetches st + (length frames - i))%nat /\
      session st' = session st /\ canvasOps st' = canvasOps st.
Proof.
  intros Hlen. induction fuel as [| fuel IH]; intros i docs st Hfuel Hv.
  - exists st, []. cbn [Rev2.scanBatches ret].
    rewrite (drop_ge frames), (drop_ge texts) by lia.
    replace (length frames - i)%nat with 0%nat by lia.
    cbn. rewrite !app_nil_r, Nat.add_0_r. done.
  - cbn [Rev2.scanBatches].
    destruct (i <? length frames)%nat eqn:Ei.
    2:{ apply Nat.ltb_ge in Ei. exists st, []. cbn [ret].
        rewrite (drop_ge frames), (drop_ge texts) by lia.
        replace (length frames - i)%nat with 0%nat by lia.
        cbn. rewrite !app_nil_r, Nat.add_0_r. done. }
    apply Nat.ltb_lt in Ei.
    set (batch := take Rev2.BATCH_SIZE (drop i frames)).
    set (answers := take Rev2.BATCH_SIZE (drop i texts)).
    assert (length batch = Nat.min 5 (length frames - i)) as Lb
      by (subst batch; rewrite length_take, length_drop; reflexivity).
    assert (length answers = length batch) as La
      by (subst answers; rewrite length_take, length_drop, Lb, Hlen; reflexivity).
    rewrite bind_eval. cbn [getSession].
    destruct (startAll_run w
                (imap (fun j frameData =>
                         Rev2.screenRequest (session st) frameData ds (i + j) model options)
                      batch) st)
      as (st1 & E1 & T1 & F1 & S1 & C1).
    rewrite length_imap in E1, F1.
    rewrite bind_eval, E1.
    assert (Forall2 (fun n t => vendor w n = HttpOk t)
                    (seq (fetches st) (length batch)) answers) as Hans.
    { apply Forall2_same_length_lookup_2.
      - by rewrite length_seq.
      - intros k n t Hn Ht. apply lookup_seq in Hn as [-> Hk].
        apply Hv. subst answers.
        rewrite lookup_take_Some in Ht. destruct Ht as [Ht _].
        by rewrite lookup_drop in Ht. }
    destruct (awaitAll_ok w _ _ Hans st1) as (st2 & E2 & T2 & F2 & S2 & C2).
    rewrite bind_eval, E2.
    rewrite bind_eval. unfold Rev2.sendProgress at 1, sendToUI at 1. rewrite emit_eval.
    set (notice := EvUI (MsgProgress _ _)).
    rewrite bind_eval.
    set (st3 := record notice st2).
    set (pause := if (i + Rev2.BATCH_SIZE <? length frames)%nat
                  then [EvSleep Rev2.BATCH_DELAY_MS] else []).
    assert (exists st4,
               (if (i + Rev2.BATCH_SIZE <? length frames)%nat
                then sleep Rev2.BATCH_DELAY_MS else ret ()) w st3 = (Ok (), st4) /\
               trace st4 = trace st3 ++ pause /\
               fetches st4 = fetches st3 /\ session st4 = session st3 /\
               canvasOps st4 = canvasOps st3) as (st4 & E4 & T4 & F4 & S4 & C4).
    { subst pause. destruct (i + Rev2.BATCH_SIZE <? length frames)%nat.
      - exists (record (EvSleep Rev2.BATCH_DELAY_MS) st3). done.
      - exists st3. cbn. rewrite app_nil_r. done. }
    assert (requestsOf pause = [] /\ canvasOpsOf pause = [] /\ noticesOf pause = [])
      as (R4 & O4 & N4)
      by (subst pause; destruct (i + Rev2.BATCH_SIZE <? length frames)%nat; done).
    rewrite E4.
    destruct (IH (i + Rev2.BATCH_SIZE)%nat
                 (docs ++ zip (map fd_name batch) answers) st4)
      as (st' & tail & E & T & R & P & PP & O & N & F & S & C).
    { unfold Rev2.BATCH_SIZE. lia. }
    { intros k t Ht. rewrite F4. subst st3. cbn [record fetches].
      rewrite F2, F1.
      replace (fetches st + length batch + k)%nat
        with (fetches st + (length batch + k))%nat by lia.
      apply Hv. rewrite <- Ht. f_equal.
      assert (k < length texts - (i + Rev2.BATCH_SIZE))%nat.
      { apply lookup_lt_Some in Ht. lia. }
      unfold Rev2.BATCH_SIZE in *. lia. }
    exists st',
      (imap (fun j rq => EvFetch (fetches st + j) rq)
            (imap (fun j frameData =>
                     Rev2.screenRequest (session st) frameData ds (i + j) model options)
                  batch)
       ++ map EvReply (seq (fetches st) (length batch)) ++ [notice] ++ pause ++ tail).
    rewrite E.
    assert (drop i frames = batch ++ drop (i + Rev2.BATCH_SIZE) frames) as Df.
    { subst batch. rewrite <- drop_drop. by rewrite take_drop. }
    assert (drop i texts = answers ++ drop (i + Rev2.BATCH_SIZE) texts) as Dt.
    { subst answers. rewrite <- drop_drop. by rewrite take_drop. }
    split; [| split; [| split; [| split; [| split; [| split; [| split; [| split; [| split]]]]]]]].
    + f_equal. rewrite <- app_assoc. f_equal.
      rewrite Df, Dt. rewrite map_app.
      rewrite zip_with_app by (by rewrite length_map). done.
    + rewrite T, T4. subst st3. cbn [record trace]. rewrite T2, T1.
      by rewrite <- !app_assoc.
    + rewrite !requestsOf_app, R, R4.
      destruct (fetches_read
                  (imap (fun j frameData =>
                           Rev2.screenRequest (session st) frameData ds (i + j) model options)
                        batch) (fetches st)) as (-> & _).
      destruct (replies_read (seq (fetches st) (length batch))) as (-> & _).
      cbn [app requestsOf]. subst notice. cbn [requestsOf app].
      rewrite S4. subst st3. cbn [record session]. rewrite S2, S1.
      rewrite Df, imap_app. f_equal.
      destruct (decide (i + Rev2.BATCH_SIZE <= length frames)%nat) as [Hin | Hout].
      * assert (length batch = 5%nat) as L5
          by (rewrite Lb; unfold Rev2.BATCH_SIZE in *; lia).
        apply imap_ext. intros j x _. cbn.
        change (take 5 (drop i frames)) with batch. rewrite L5. f_equal.
        unfold Rev2.BATCH_SIZE. lia.
      * rewrite drop_ge by lia. done.
    + rewrite !pausesOf_app, P.
      destruct (fetches_read
                  (imap (fun j frameData =>
                           Rev2.screenRequest (session st) frameData ds (i + j) model options)
                        batch) (fetches st)) as (_ & -> & _).
      destruct (replies_read (seq (fetches st) (length batch))) as (_ & -> & _).
      subst notice pause. cbn [app pausesOf].
      destruct (i + Rev2.BATCH_SIZE <? length frames)%nat eqn:Em; cbn [app pausesOf].
      * apply Nat.ltb_lt in Em. unfold Rev2.BATCH_SIZE in *.
        by rewrite (pauses_step (length frames) i Em).
      * apply Nat.ltb_ge in Em. unfold Rev2.BATCH_SIZE in *.
        rewrite (pauses_last (length frames) i Em).
        rewrite (pauses_last (length frames) (i + 5)) by lia. done.
    + intros c. rewrite !pausePoints_app, PP.
      destruct (fetches_read
                  (imap (fun j frameData =>
                           Rev2.screenRequest (session st) frameData ds (i + j) model options)
                        batch) (fetches st)) as (Rq & Pq & _).
      destruct (replies_read (seq (fetches st) (length batch))) as (Rr & Pr & _).
      rewrite (pausePoints_none _ Pq), (pausePoints_none _ Pr).
      cbn zeta in Rq, Rr. rewrite Rq, Rr, R4, length_imap.
      subst notice. cbn [app pausePoints requestsOf length]. rewrite !Nat.add_0_r.
      subst pause.
      destruct (i + Rev2.BATCH_SIZE <? length frames)%nat eqn:Em.
      * apply Nat.ltb_lt in Em. unfold Rev2.BATCH_SIZE in *.
        rewrite (pauses_step (length frames) i Em).
        assert (length batch = 5%nat) as L5 by (rewrite Lb; lia).
        cbn [pausePoints app]. rewrite L5.
        rewrite <- cons_seq, fmap_cons. f_equal.
        rewrite <- fmap_S_seq, <- list_fmap_compose.
        apply list_fmap_ext. intros _ j _. cbn. lia.
      * apply Nat.ltb_ge in Em. unfold Rev2.BATCH_SIZE in *.
        rewrite (pauses_last (length frames) i Em).
        rewrite (pauses_last (length frames) (i + 5)) by lia. done.
    + rewrite !canvasOpsOf_app, O, O4.
      destruct (fetches_read
                  (imap (fun j frameData =>
                           Rev2.screenRequest (session st) frameData ds (i + j) model options)
                        batch) (fetches st)) as (_ & _ & -> & _).
      destruct (replies_read (seq (fetches st) (length batch))) as (_ & _ & -> & _).
      subst notice. done.
    + rewrite !noticesOf_app, N4.
      destruct (fetches_read
                  (imap (fun j frameData =>
                           Rev2.screenRequest (session st) frameData ds (i + j) model options)
                        batch) (fetches st)) as (_ & _ & _ & ->).
      destruct (replies_read (seq (fetches st) (length batch))) as (_ & _ & _ & ->).
      subst notice. cbn [app noticesOf]. by constructor.
    + rewrite F, F4. subst st3. cbn [record fetches]. rewrite F2, F1, Lb.
      unfold Rev2.BATCH_SIZE. lia.
    + rewrite S, S4. subst st3. cbn [record session]. by rewrite S2, S1.
    + rewrite C, C4. subst st3. cbn [record canvasOps]. by rewrite C2, C1.
Qed.

(** The loop when the answers to the first [q] batches from index [i]
    on are all there ([texts]) and a call of the next batch fails: the
    loop ends with the failure of that batch that comes first. *)
Lemma scanBatches_fails (m : nat) (e : JsError) :
  forall (q fuel i : nat) (texts : list jstring) (docs : list (jstring * jstring))
         (st : State),
    length texts = (5 * q)%nat ->
    (i + 5 * q < length frames)%nat ->
    (length frames - i <= fuel)%nat ->
    (forall k t, texts !! k = Some t -> vendor w (fetches st + k) = HttpOk t) ->
    firstRejected w (seq (fetches st + 5 * q)
                         (Nat.min 5 (length frames - (i + 5 * q)))) = Some (m, e) ->
    exists st' tail,
      Rev2.scanBatches fuel frames ds model options i docs w st = (Throw e, st') /\
      trace st' = trace st ++ tail /\
      requestsOf tail
      = imap (fun j f => Rev2.screenRequest (session st) f ds (i + j) model options)
             (take (5 * S q) (drop i frames)) /\
      pausesOf tail = replicate q Rev2.BATCH_DELAY_MS /\
      canvasOpsOf tail = [] /\
      Forall (fun m => isFinalNotice m = false) (noticesOf tail) /\
      session st' = session st /\ canvasOps st' = canvasOps st.
Proof.
  induction q as [| q IH]; intros fuel i texts docs st Hlen Hi Hfuel Hv He;
    (destruct fuel as [| fuel]; [lia |]); cbn [Rev2.scanBatches];
    (assert ((i <? length frames)%nat = true) as -> by (apply Nat.ltb_lt; lia));
    set (batch := take Rev2.BATCH_SIZE (drop i frames));
    (assert (length batch = Nat.min 5 (length frames - i)) as Lb
      by (subst batch; rewrite length_take, length_drop; reflexivity));
    rewrite bind_eval; cbn [getSession];
    set (rqs := imap (fun j frameData =>
                        Rev2.screenRequest (session st) frameData ds (i + j) model options)
                     batch);
    destruct (startAll_run w rqs st) as (st1 & E1 & T1 & F1 & S1 & C1);
    subst rqs; rewrite length_imap in E1, F1;
    set (rqs := imap _ batch) in *;
    rewrite bind_eval, E1;
    destruct (fetches_read rqs (fetches st)) as (Rq & Pq & Oq & Nq);
    cbn zeta in Rq, Pq, Oq, Nq.
  - (* the failing call is in this batch *)
    replace (fetches st + 5 * 0)%nat with (fetches st) in He by lia.
    replace (i + 5 * 0)%nat with i in He by lia.
    rewrite <- Lb in He.
    destruct (awaitAll_fails w _ m e He st1) as (st2 & read & E2 & T2 & F2 & S2 & C2).
    rewrite bind_eval, E2.
    exists st2, (imap (fun j rq => EvFetch (fetches st + j) rq) rqs ++ map EvReply read).
    destruct (replies_read read) as (Rr & Pr & Or & Nr). cbn zeta in Rr, Pr, Or, Nr.
    split; [reflexivity |].
    split; [by rewrite T2, T1, <- app_assoc |].
    split; [by rewrite requestsOf_app, Rq, Rr, app_nil_r |].
    split; [by rewrite pausesOf_app, Pq, Pr |].
    split; [by rewrite canvasOpsOf_app, Oq, Or |].
    split; [by rewrite noticesOf_app, Nq, Nr |].
    split; congruence.
  - (* the whole batch is answered *)
    set (answers := take Rev2.BATCH_SIZE texts).
    assert (length batch = 5%nat) as L5 by lia.
    assert (length answers = 5%nat) as La
      by (subst answers; rewrite length_take; unfold Rev2.BATCH_SIZE; lia).
    assert (Forall2 (fun n t => vendor w n = HttpOk t)
                    (seq (fetches st) (length batch)) answers) as Hans.
    { apply Forall2_same_length_lookup_2.
      - rewrite length_seq. congruence.
      - intros k n t Hn Ht. apply lookup_seq in Hn as [-> Hk].
        apply Hv. subst answers.
        rewrite lookup_take_Some in Ht. by destruct Ht as [Ht _]. }
    destruct (awaitAll_ok w _ _ Hans st1) as (st2 & E2 & T2 & F2 & S2 & C2).
    rewrite bind_eval, E2.
    rewrite bind_eval. unfold Rev2.sendProgress at 1, sendToUI at 1. rewrite emit_eval.
    set (notice := EvUI (MsgProgress _ _)).
    rewrite bind_eval.
    assert ((i + Rev2.BATCH_SIZE <? length frames)%nat = true) as ->
      by (apply Nat.ltb_lt; unfold Rev2.BATCH_SIZE; lia).
    unfold sleep at 1. rewrite emit_eval.
    set (st4 := record (EvSleep Rev2.BATCH_DELAY_MS) (record notice st2)).
    destruct (IH fuel (i + Rev2.BATCH_SIZE)%nat (drop 5 texts)
                 (docs ++ zip (map fd_name batch) answers) st4)
      as (st' & tail & E & T & R & P & O & N & HS & HC).
    { rewrite length_drop. lia. }
    { unfold Rev2.BATCH_SIZE. lia. }
    { unfold Rev2.BATCH_SIZE. lia. }
    { intros k t Ht. subst st4. cbn [record fetches]. rewrite F2, F1, L5.
      replace (fetches st + 5 + k)%nat with (fetches st + (5 + k))%nat by lia.
      apply Hv. by rewrite lookup_drop in Ht. }
    { subst st4. cbn [record fetches]. rewrite F2, F1, L5.
      replace (fetches st + 5 + 5 * q)%nat with (fetches st + 5 * S q)%nat by lia.
      replace (i + Rev2.BATCH_SIZE + 5 * q)%nat with (i + 5 * S q)%nat
        by (unfold Rev2.BATCH_SIZE; lia).
      exact He. }
    exists st',
      (imap (fun j rq => EvFetch (fetches st + j) rq) rqs
       ++ map EvReply (seq (fetches st) (length batch))
       ++ [notice; EvSleep Rev2.BATCH_DELAY_MS] ++ tail).
    destruct (replies_read (seq (fetches st) (length batch)))
      as (Rr & Pr & Or & Nr). cbn zeta in Rr, Pr, Or, Nr.
    rewrite E.
    split; [reflexivity |].
    split.
    { rewrite T. subst st4. cbn [record trace]. rewrite T2, T1.
      rewrite <- !app_assoc. done. }
    split.
    { rewrite !requestsOf_app, Rq, Rr, R. subst notice. cbn [requestsOf app].
      subst st4. cbn [record session]. rewrite S2, S1.
      replace (5 * S (S q))%nat with (5 + 5 * S q)%nat by lia.
      rewrite <- take_take_drop, drop_drop, imap_app.
      change (take 5 (drop i frames)) with batch. f_equal.
      apply imap_ext. intros j x _. cbn.
      change (take 5 (drop i frames)) with batch. rewrite L5. f_equal.
      unfold Rev2.BATCH_SIZE. lia. }
    split.
    { rewrite !pausesOf_app, Pq, Pr, P. done. }
    split.
    { rewrite !canvasOpsOf_app, Oq, Or, O. done. }
    split.
    { rewrite !noticesOf_app, Nq, Nr. subst notice. cbn [app noticesOf].
      by constructor. }
    split.
    { rewrite HS. subst st4. cbn [record session]. congruence. }
    rewrite HC. subst st4. cbn [record canvasOps]. congruence.
Qed.

End Loop.
(** * What every run of an action posts *)

Section Quiet.

Lemma quiet_ret {A} (a : A) : quiet (ret a).
Proof. intros w st. exists []. cbn. by rewrite app_nil_r. Qed.

Lemma quiet_mret {A} (a : A) : quiet (mret a : M A).
Proof. apply quiet_ret. Qed.

Lemma quiet_throw {A} (e : JsError) : quiet (throw e : M A).
Proof. intros w st. exists []. cbn. by rewrite app_nil_r. Qed.

Lemma quiet_liftR {A} (r : Result A) : quiet (liftR r).
Proof. intros w st. exists []. cbn. by rewrite app_nil_r. Qed.

Lemma quiet_bind {A B} (m : M A) (f : A -> M B) :
  quiet m -> (forall a, quiet (f a)) -> quiet (m ≫= f).
Proof.
  intros Hm Hf w st. rewrite bind_eval.
  destruct (Hm w st) as (t1 & T1 & N1).
  destruct (m w st) as [[a | e] st1]; cbn [snd] in T1.
  - destruct (Hf a w st1) as (t2 & T2 & N2).
    exists (t1 ++ t2). rewrite T2, T1, <- app_assoc, noticesOf_app.
    split; [done |]. by apply Forall_app.
  - exists t1. done.
Qed.

Lemma quiet_emit (ev : Event) :
  match ev with EvUI m => isFinalNotice m = false | _ => True end ->
  quiet (emit ev).
Proof.
  intros H w st. exists [ev]. split; [reflexivity |].
  destruct ev; cbn; try done. by constructor.
Qed.

Lemma quiet_getWorld : quiet getWorld.
Proof. intros w st. exists []. cbn. by rewrite app_nil_r. Qed.

Lemma quiet_getState : quiet getState.
Proof. intros w st. exists []. cbn. by rewrite app_nil_r. Qed.

Lemma quiet_getSession : quiet getSession.
Proof. intros w st. exists []. cbn. by rewrite app_nil_r. Qed.

Lemma quiet_setSession (s : Session) : quiet (setSession s).
Proof. intros w st. exists []. cbn. by rewrite app_nil_r. Qed.

Lemma quiet_setCache (ds : DesignSystemData) (frames : list FrameData)
    (nodes : list SceneNode) : quiet (setCache ds frames nodes).
Proof. intros w st. exists []. cbn. by rewrite app_nil_r. Qed.

Lemma quiet_setCachedScreenshots (shots : list FrameScreenshot) :
  quiet (setCachedScreenshots shots).
Proof. intros w st. exists []. cbn. by rewrite app_nil_r. Qed.

Lemma quiet_selected : quiet getSelectedFramesAndComponents.
Proof. intros w st. exists []. cbn. by rewrite app_nil_r. Qed.

Lemma quiet_extractDesignSystem (nodes : list SceneNode) :
  quiet (extractDesignSystem nodes).
Proof. intros w st. exists []. cbn. by rewrite app_nil_r. Qed.

Lemma quiet_fetch (rq : AIRequest) : quiet (fetch rq).
Proof. intros w st. eexists [_]. split; [reflexivity |]. done. Qed.

Lemma quiet_await (n : nat) : quiet (await n).
Proof. intros w st. exists [EvReply n]. split; [reflexivity |]. done. Qed.

Lemma quiet_onCanvas (op : CanvasOp) : quiet (onCanvas op).
Proof. intros w st. exists [EvCanvas op]. split; [reflexivity |]. done. Qed.

Lemma quiet_sleep (ms : N) : quiet (sleep ms).
Proof. by apply quiet_emit. Qed.

Lemma quiet_callAI (rq : AIRequest) : quiet (callAI rq).
Proof. apply quiet_bind; [apply quiet_fetch | intros; apply quiet_await]. Qed.

Lemma quiet_startAll (rqs : list AIRequest) : quiet (startAll rqs).
Proof.
  induction rqs as [| rq rqs IH]; [apply quiet_ret |].
  cbn [startAll]. apply quiet_bind; [apply quiet_fetch | intros n].
  apply quiet_bind; [exact IH | intros; apply quiet_ret].
Qed.

Lemma quiet_awaitAll (ns : list nat) : quiet (awaitAll ns).
Proof.
  intros w st. destruct (awaitAll_reads w ns st) as [read ->].
  exists (map EvReply read). split; [reflexivity |].
  destruct (replies_read read) as (_ & _ & _ & ->). constructor.
Qed.

End Quiet.

Section Closing.

Lemma closing_bind {A B} (m : M A) (f : A -> M B) :
  quiet m -> (forall a, closing (f a)) -> closing (m ≫= f).
Proof.
  intros Hm Hf w st. rewrite bind_eval.
  destruct (Hm w st) as (t1 & T1 & N1).
  destruct (m w st) as [[a | e] st1]; cbn [snd] in T1.
  - destruct (Hf a w st1) as (t2 & T2 & H2).
    exists (t1 ++ t2). rewrite T2, T1, <- app_assoc. split; [done |].
    rewrite noticesOf_app.
    destruct (f a w st1).1 as [b | e].
    + destruct H2 as (ms & x & -> & Hms & Hx).
      exists (noticesOf t1 ++ ms), x. rewrite <- app_assoc.
      split; [done |]. split; [by apply Forall_app | done].
    + by apply Forall_app.
  - exists t1. done.
Qed.

Lemma closing_final (x : MainMessage) :
  isFinalNotice x = true -> closing (sendToUI x).
Proof.
  intros Hx w st. exists [EvUI x]. split; [reflexivity |].
  exists [], x. done.
Qed.

(** [try { body } catch (e) { handler(e) } finally { final }] around a
    body that closes, with a handler that posts one closing notice and a
    last step that posts nothing. *)
Lemma settles_try (body : M unit) (handler : JsError -> M unit) (final : M unit) :
  closing body ->
  (forall e w st, exists x,
      handler e w st = (Ok tt, record (EvUI x) st) /\ isFinalNotice x = true) ->
  (forall w st, exists st', final w st = (Ok tt, st') /\ trace st' = trace st) ->
  settles (tryCatchFinally body handler final).
Proof.
  intros Hb Hh Hf w st. unfold tryCatchFinally.
  destruct (Hb w st) as (t1 & T1 & H1).
  destruct (body w st) as [[[] | e] st1]; cbn [fst snd] in *.
  - destruct (Hf w st1) as (st3 & -> & T3). cbn [fst snd].
    destruct H1 as (ms & x & N & Hms & Hx).
    split; [done |]. exists t1, ms, x. by rewrite T3.
  - destruct (Hh e w st1) as (x & -> & Hx).
    destruct (Hf w (record (EvUI x) st1)) as (st3 & -> & T3). cbn [fst snd].
    split; [done |]. exists (t1 ++ [EvUI x]), (noticesOf t1), x.
    rewrite T3. cbn [record trace]. rewrite T1, <- app_assoc, noticesOf_app.
    done.
Qed.

Lemma settles_bind {A} (m : M A) (f : A -> M unit) :
  (forall w st, exists a, m w st = (Ok a, st)) ->
  (forall a, settles (f a)) -> settles (m ≫= f).
Proof.
  intros Hm Hf w st. rewrite bind_eval.
  destruct (Hm w st) as (a & ->). apply Hf.
Qed.

Lemma settles_final (x : MainMessage) :
  isFinalNotice x = true -> settles (sendToUI x).
Proof.
  intros Hx w st. split; [reflexivity |].
  exists [EvUI x], [], x. done.
Qed.

Lemma settles_after {A} (m : M A) (f : A -> M unit) :
  (forall w st, exists a st', m w st = (Ok a, st') /\ trace st' = trace st) ->
  (forall a, settles (f a)) -> settles (m ≫= f).
Proof.
  intros Hm Hf w st. rewrite bind_eval.
  destruct (Hm w st) as (a & st' & -> & T).
  destruct (Hf a w st') as (R & tail & ms & x & E & H).
  split; [exact R |]. exists tail, ms, x. by rewrite E, T.
Qed.

End Closing.

Section Steps.

Lemma quiet_sendProgress2 (message : jstring) (progress : option (nat * nat)) :
  quiet (Rev2.sendProgress message progress).
Proof. by apply quiet_emit. Qed.

Lemma quiet_sendProgress1 (message : jstring) : quiet (Rev1.sendProgress message).
Proof. by apply quiet_emit. Qed.

Lemma quiet_scanBatches (frames : list FrameData) (ds : DesignSystemData)
    (model : jstring) (options : bool * bool) :
  forall (fuel i : nat) (docs : list (jstring * jstring)),
    quiet (Rev2.scanBatches fuel frames ds model options i docs).
Proof.
  induction fuel as [| fuel IH]; intros i docs; cbn [Rev2.scanBatches];
    [apply quiet_ret |].
  destruct (i <? length frames)%nat; [| apply quiet_ret].
  apply quiet_bind; [apply quiet_getSession | intros s].
  apply quiet_bind; [apply quiet_startAll | intros started].
  apply quiet_bind; [apply quiet_awaitAll | intros results].
  apply quiet_bind; [apply quiet_sendProgress2 | intros _].
  apply quiet_bind; [| intros _; apply IH].
  destruct (_ <? _)%nat; [apply quiet_sleep | apply quiet_ret].
Qed.

Lemma quiet_createCards2 (nodes : list SceneNode) :
  forall (docs : list (jstring * jstring)) (i : nat) (created : list NodeId),
    quiet (Rev2.createCards docs nodes i created).
Proof.
  induction docs as [| [name content] docs IH]; intros i created;
    cbn [Rev2.createCards]; [apply quiet_ret |].
  apply quiet_bind; [apply quiet_onCanvas | intros cards].
  apply quiet_bind; [| intros _; apply IH].
  destruct (nodes !! i); [destruct cards |]; (apply quiet_ret || apply quiet_onCanvas).
Qed.

Lemma quiet_createCards1 (nodes : list SceneNode) :
  forall (docs : list (jstring * jstring)) (i : nat) (created : list NodeId),
    quiet (Rev1.createCards docs nodes i created).
Proof.
  induction docs as [| [name content] docs IH]; intros i created;
    cbn [Rev1.createCards]; [apply quiet_ret |].
  apply quiet_bind; [apply quiet_onCanvas | intros cards]. apply IH.
Qed.

Lemma quiet_scanEach (ds : DesignSystemData) (model : jstring) (total : nat) :
  forall (rest : list FrameData) (i : nat) (docs : list (jstring * jstring)),
    quiet (Rev1.scanEach rest ds model total i docs).
Proof.
  induction rest as [| frameData rest IH]; intros i docs; cbn [Rev1.scanEach];
    [apply quiet_ret |].
  apply quiet_bind; [apply quiet_sendProgress1 | intros _].
  apply quiet_bind; [| intros doc; apply IH].
  apply quiet_bind; [apply quiet_getSession | intros s; apply quiet_callAI].
Qed.

Lemma quiet_readFlowAnswer (text : jstring) : quiet (readFlowAnswer text).
Proof.
  unfold readFlowAnswer.
  apply quiet_bind; [apply quiet_liftR | intros [flow ms]].
  destruct ms; [apply quiet_ret |].
  apply quiet_bind; [apply quiet_getWorld | intros w].
  apply quiet_bind; [apply quiet_liftR | intros doc; apply quiet_ret].
Qed.

End Steps.

Section Settled.

Lemma sendError2_posts (e : JsError) (w : World) (st : State) :
  exists x,
    Rev2.sendError e w st = (Ok tt, record (EvUI x) st) /\ isFinalNotice x = true.
Proof. eexists. split; [reflexivity | done]. Qed.

Lemma sendError1_posts (e : JsError) (w : World) (st : State) :
  exists x,
    Rev1.sendError e w st = (Ok tt, record (EvUI x) st) /\ isFinalNotice x = true.
Proof. eexists. split; [reflexivity | done]. Qed.

Lemma setSession_silent (s : Session) (w : World) (st : State) :
  exists st', setSession s w st = (Ok tt, st') /\ trace st' = trace st.
Proof. eexists. split; reflexivity. Qed.

Lemma closing_scanScreens2 (nodes : list SceneNode) (msgProvider : AIProvider)
    (msgModel : option jstring) (options : bool * bool) :
  closing
    (let frameDataList := extractFrameData nodes in
     ds ← extractDesignSystem nodes;
     let model := chooseModel msgModel msgProvider in
     setCache ds frameDataList nodes;;
     let total := length frameDataList in
     docs ← Rev2.scanBatches total frameDataList ds model options 0 [];
     Rev2.sendProgress (u "Creating documentation cards...") None;;
     createdCards ← Rev2.createCards docs nodes 0 [];
     match createdCards with
     | [] => ret []
     | _ :: _ => onCanvas (OpScrollIntoView createdCards)
     end;;
     sendToUI (MsgScanComplete SecScreens []
                 (u "Created " ++ showNat total ++ u " documentation card"
                  ++ pluralS total))).
Proof.
  cbn zeta.
  apply closing_bind; [apply quiet_extractDesignSystem | intros ds].
  apply closing_bind; [apply quiet_setCache | intros _].
  apply closing_bind; [apply quiet_scanBatches | intros docs].
  apply closing_bind; [apply quiet_sendProgress2 | intros _].
  apply closing_bind; [apply quiet_createCards2 | intros created].
  apply closing_bind; [| intros _; by apply closing_final].
  destruct created; [apply quiet_ret | apply quiet_onCanvas].
Qed.

Lemma closing_scanFlow2 (nodes : list SceneNode) (msgProvider : AIProvider)
    (msgModel : option jstring) :
  closing
    (Rev2.sendProgress (u "Analyzing flow...") None;;
     let frameDataList := extractFrameData nodes in
     ds ← extractDesignSystem nodes;
     let model := chooseModel msgModel msgProvider in
     setCache ds frameDataList nodes;;
     flow ← Rev2.runScanFlowWithEdgeCases frameDataList ds model;
     Rev2.sendProgress (u "Creating flow documentation on canvas...") None;;
     flowCards ← onCanvas (OpCreateFlowDocCards (flowText flow));
     missingCards ←
       match missingScreens flow with
       | [] => ret []
       | ms =>
           Rev2.sendProgress (u "Creating missing screen cards on canvas...") None;;
           onCanvas (OpCreateMissingScreenCards ms)
       end;
     let allCards := flowCards ++ missingCards in
     match allCards with
     | [] => ret []
     | _ :: _ => onCanvas (OpScrollIntoView allCards)
     end;;
     let n := length (missingScreens flow) in
     let flowMsg :=
       match missingScreens flow with
       | [] => u "Flow documentation created"
       | _ :: _ => u "Flow documented " ++ [0x2014] ++ u " found " ++ showNat n
                   ++ u " missing screen" ++ pluralS n
       end in
     sendToUI (MsgScanComplete SecFlow (flowText flow) flowMsg)).
Proof.
  cbn zeta.
  apply closing_bind; [apply quiet_sendProgress2 | intros _].
  apply closing_bind; [apply quiet_extractDesignSystem | intros ds].
  apply closing_bind; [apply quiet_setCache | intros _].
  apply closing_bind.
  { unfold Rev2.runScanFlowWithEdgeCases.
    apply quiet_bind; [apply quiet_getSession | intros s].
    apply quiet_bind; [apply quiet_callAI | intros text; apply quiet_readFlowAnswer]. }
  intros flow.
  apply closing_bind; [apply quiet_sendProgress2 | intros _].
  apply closing_bind; [apply quiet_onCanvas | intros flowCards].
  apply closing_bind.
  { destruct (missingScreens flow); [apply quiet_ret |].
    apply quiet_bind; [apply quiet_sendProgress2 | intros _; apply quiet_onCanvas]. }
  intros missingCards.
  apply closing_bind; [| intros _; by apply closing_final].
  destruct (flowCards ++ missingCards); [apply quiet_ret | apply quiet_onCanvas].
Qed.

End Settled.

Section SettledActions.

Lemma settles_handleScanScreens2 (msgApiKey : jstring) (msgProvider : AIProvider)
    (msgProjectContext msgModel : option jstring)
    (msgOptions : option (option bool * option bool)) :
  settles (Rev2.handleScanScreens msgApiKey msgProvider msgProjectContext
             msgModel msgOptions).
Proof.
  unfold Rev2.handleScanScreens.
  apply settles_bind; [intros w st; by eexists | intros prev].
  apply settles_bind; [intros w st; by eexists | intros nodes].
  destruct nodes as [| node nodes]; [by apply settles_final |].
  destruct (chooseKey msgApiKey prev) as [| c key]; [by apply settles_final |].
  apply settles_after; [intros w st; by eexists _, _ | intros _].
  apply settles_try.
  - apply closing_scanScreens2.
  - apply sendError2_posts.
  - apply setSession_silent.
Qed.

Lemma settles_handleScanFlow2 (msgApiKey : jstring) (msgProvider : AIProvider)
    (msgProjectContext msgModel : option jstring) :
  settles (Rev2.handleScanFlow msgApiKey msgProvider msgProjectContext msgModel).
Proof.
  unfold Rev2.handleScanFlow.
  apply settles_bind; [intros w st; by eexists | intros prev].
  apply settles_bind; [intros w st; by eexists | intros nodes].
  destruct nodes as [| node nodes]; [by apply settles_final |].
  destruct (chooseKey msgApiKey prev) as [| c key]; [by apply settles_final |].
  apply settles_after; [intros w st; by eexists _, _ | intros _].
  apply settles_try.
  - apply closing_scanFlow2.
  - apply sendError2_posts.
  - apply setSession_silent.
Qed.

End SettledActions.

(** X1.  Every run of the documentation action and of the flow action of
    the later revision returns (it never rejects), and posts exactly one
    notice that ends the busy state of the panel ([error] or
    [scan-complete]); that notice is the last one it posts.  This holds
    whatever is selected, whatever key is given, and whatever the vendor
    and the document collaborator answer. *)
Theorem later_actions_post_one_closing_notice :
  forall (msgApiKey : jstring) (msgProvider : AIProvider)
         (msgProjectContext msgModel : option jstring)
         (msgOptions : option (option bool * option bool)),
    settles (Rev2.handleScanScreens msgApiKey msgProvider msgProjectContext
               msgModel msgOptions) /\
    settles (Rev2.handleScanFlow msgApiKey msgProvider msgProjectContext msgModel).
Proof.
  intros msgApiKey msgProvider msgProjectContext msgModel msgOptions.
  split; [apply settles_handleScanScreens2 | apply settles_handleScanFlow2].
Qed.

Section Earlier.

Lemma closingOnce_bind {A B} (m : M A) (f : A -> M B) :
  quiet m -> (forall a, closingOnce (f a)) -> closingOnce (m ≫= f).
Proof.
  intros Hm Hf w st. rewrite bind_eval.
  destruct (Hm w st) as (t1 & T1 & N1).
  destruct (m w st) as [[a | e] st1]; cbn [snd] in T1.
  - destruct (Hf a w st1) as (t2 & T2 & H2).
    exists (t1 ++ t2). rewrite T2, T1, <- app_assoc. split; [done |].
    rewrite noticesOf_app.
    destruct (f a w st1).1 as [b | e].
    + destruct H2 as (ms & x & rest & -> & Hms & Hx & Hrest).
      exists (noticesOf t1 ++ ms), x, rest. rewrite <- app_assoc.
      split; [done |]. split; [by apply Forall_app | done].
    + by apply Forall_app.
  - exists t1. done.
Qed.

(** A closing notice followed by a step that posts no closing notice
    and never throws. *)
Lemma closingOnce_then {A} (x : MainMessage) (m : M A) :
  isFinalNotice x = true -> quiet m ->
  (forall w st, exists a, (m w st).1 = Ok a) ->
  closingOnce (sendToUI x;; m).
Proof.
  intros Hx Hm Hok w st.
  destruct (Hm w (record (EvUI x) st)) as (t & T & N).
  destruct (Hok w (record (EvUI x) st)) as (a & Ha).
  assert ((sendToUI x;; m) w st = m w (record (EvUI x) st)) as -> by reflexivity.
  exists ([EvUI x] ++ t). rewrite T. cbn [record trace]. rewrite <- app_assoc.
  split; [done |]. rewrite Ha. exists [], x, (noticesOf t). done.
Qed.

Lemma settlesOnce_try (body : M unit) (handler : JsError -> M unit) (final : M unit) :
  closingOnce body ->
  (forall e w st, exists x,
      handler e w st = (Ok tt, record (EvUI x) st) /\ isFinalNotice x = true) ->
  (forall w st, exists st', final w st = (Ok tt, st') /\ trace st' = trace st) ->
  settlesOnce (tryCatchFinally body handler final).
Proof.
  intros Hb Hh Hf w st. unfold tryCatchFinally.
  destruct (Hb w st) as (t1 & T1 & H1).
  destruct (body w st) as [[[] | e] st1]; cbn [fst snd] in *.
  - destruct (Hf w st1) as (st3 & -> & T3). cbn [fst snd].
    destruct H1 as (ms & x & rest & N & Hms & Hx & Hrest).
    split; [done |]. exists t1, ms, x, rest. by rewrite T3.
  - destruct (Hh e w st1) as (x & -> & Hx).
    destruct (Hf w (record (EvUI x) st1)) as (st3 & -> & T3). cbn [fst snd].
    split; [done |]. exists (t1 ++ [EvUI x]), (noticesOf t1), x, [].
    rewrite T3. cbn [record trace]. rewrite T1, <- app_assoc, noticesOf_app.
    done.
Qed.

Lemma settlesOnce_bind {A} (m : M A) (f : A -> M unit) :
  (forall w st, exists a st', m w st = (Ok a, st') /\ trace st' = trace st) ->
  (forall a, settlesOnce (f a)) -> settlesOnce (m ≫= f).
Proof.
  intros Hm Hf w st. rewrite bind_eval.
  destruct (Hm w st) as (a & st' & -> & T).
  destruct (Hf a w st') as (R & tail & ms & x & rest & E & H).
  split; [exact R |]. exists tail, ms, x, rest. by rewrite E, T.
Qed.

Lemma settlesOnce_final (x : MainMessage) :
  isFinalNotice x = true -> settlesOnce (sendToUI x).
Proof.
  intros Hx w st. split; [reflexivity |].
  exists [EvUI x], [], x, []. done.
Qed.

End Earlier.

Section EarlierActions.

Lemma settlesOnce_handleScanScreens1 (msgApiKey : jstring) (msgProvider : AIProvider)
    (msgProjectContext msgModel : option jstring) :
  settlesOnce (Rev1.handleScanScreens msgApiKey msgProvider msgProjectContext msgModel).
Proof.
  unfold Rev1.handleScanScreens.
  apply settlesOnce_bind; [intros w st; by eexists _, _ | intros prev].
  apply settlesOnce_bind; [intros w st; by eexists _, _ | intros nodes].
  destruct nodes as [| node nodes]; [by apply settlesOnce_final |].
  destruct (chooseKey msgApiKey prev) as [| c key]; [by apply settlesOnce_final |].
  apply settlesOnce_bind; [intros w st; by eexists _, _ | intros _].
  apply settlesOnce_try; [| apply sendError1_posts | apply setSession_silent].
  cbn zeta.
  apply closingOnce_bind; [apply quiet_extractDesignSystem | intros ds].
  apply closingOnce_bind; [apply quiet_setCache | intros _].
  apply closingOnce_bind; [apply quiet_scanEach | intros docs].
  apply closingOnce_bind; [apply quiet_sendProgress1 | intros _].
  apply closingOnce_bind; [apply quiet_createCards1 | intros created].
  apply closingOnce_bind.
  { destruct created; [apply quiet_ret | apply quiet_onCanvas]. }
  intros _. intros w st. exists [EvUI (MsgScanComplete SecScreens []
    (u "Created " ++ showNat (length (extractFrameData (node :: nodes)))
     ++ u " documentation card" ++ pluralS (length (extractFrameData (node :: nodes)))))].
  split; [reflexivity |]. cbn [fst sendToUI emit]. eexists [], _, []. done.
Qed.

Lemma settlesOnce_handleScanFlow1 (msgApiKey : jstring) (msgProvider : AIProvider)
    (msgProjectContext msgModel : option jstring) :
  settlesOnce (Rev1.handleScanFlow msgApiKey msgProvider msgProjectContext msgModel).
Proof.
  unfold Rev1.handleScanFlow.
  apply settlesOnce_bind; [intros w st; by eexists _, _ | intros prev].
  apply settlesOnce_bind; [intros w st; by eexists _, _ | intros nodes].
  destruct nodes as [| node nodes]; [by apply settlesOnce_final |].
  destruct (chooseKey msgApiKey prev) as [| c key]; [by apply settlesOnce_final |].
  apply settlesOnce_bind; [intros w st; by eexists _, _ | intros _].
  apply settlesOnce_try; [| apply sendError1_posts | apply setSession_silent].
  cbn zeta.
  apply closingOnce_bind; [apply quiet_sendProgress1 | intros _].
  apply closingOnce_bind; [apply quiet_extractDesignSystem | intros ds].
  apply closingOnce_bind; [apply quiet_setCache | intros _].
  apply closingOnce_bind.
  { unfold Rev1.runScanFlowWithEdgeCases.
    apply quiet_bind; [apply quiet_getSession | intros s].
    apply quiet_bind; [apply quiet_callAI | intros text; apply quiet_readFlowAnswer]. }
  intros flow.
  apply closingOnce_bind; [apply quiet_sendProgress1 | intros _].
  apply closingOnce_bind; [apply quiet_onCanvas | intros _].
  apply closingOnce_then; [done | |].
  - destruct (missingScreens flow); [apply quiet_ret | by apply quiet_emit].
  - intros w st. destruct (missingScreens flow); by eexists.
Qed.

End EarlierActions.

(** X2.  Every run of the documentation action and of the flow action of
    the earlier revision returns, and posts exactly one notice that ends
    the busy state of the panel; the notices after it, if any (the
    [edge-case-result] of the flow action), leave the panel idle. *)
Theorem earlier_actions_post_one_closing_notice :
  forall (msgApiKey : jstring) (msgProvider : AIProvider)
         (msgProjectContext msgModel : option jstring),
    settlesOnce (Rev1.handleScanScreens msgApiKey msgProvider msgProjectContext msgModel) /\
    settlesOnce (Rev1.handleScanFlow msgApiKey msgProvider msgProjectContext msgModel).
Proof.
  intros msgApiKey msgProvider msgProjectContext msgModel.
  split; [apply settlesOnce_handleScanScreens1 | apply settlesOnce_handleScanFlow1].
Qed.

(** * Regeneration: how many requests, and how a run ends *)

Section Bounds.

Lemma sends_bind {A B} (a b : nat) (m : M A) (f : A -> M B) :
  sendsAtMost a m -> (forall x, sendsAtMost b (f x)) -> sendsAtMost (a + b) (m ≫= f).
Proof.
  intros Hm Hf w st. rewrite bind_eval.
  destruct (Hm w st) as (t1 & T1 & N1).
  destruct (m w st) as [[x | e] st1]; cbn [snd] in T1.
  - destruct (Hf x w st1) as (t2 & T2 & N2).
    exists (t1 ++ t2). rewrite T2, T1, <- app_assoc, requestsOf_app, length_app.
    split; [done | lia].
  - exists t1. split; [done | lia].
Qed.

Lemma sends_more {A} (a b : nat) (m : M A) :
  (a <= b)%nat -> sendsAtMost a m -> sendsAtMost b m.
Proof.
  intros Hab Hm w st. destruct (Hm w st) as (t & T & N). exists t. split; [done | lia].
Qed.

Lemma sends_none_still {A} (m : M A) :
  (forall w st, trace (m w st).2 = trace st) -> sendsAtMost 0 m.
Proof. intros H w st. exists []. rewrite H, app_nil_r. done. Qed.

Lemma sends_emit (ev : Event) :
  match ev with EvFetch _ _ => False | _ => True end -> sendsAtMost 0 (emit ev).
Proof. intros H w st. exists [ev]. split; [reflexivity |]. by destruct ev. Qed.

Lemma sends_onCanvas (op : CanvasOp) : sendsAtMost 0 (onCanvas op).
Proof. intros w st. exists [EvCanvas op]. split; [reflexivity | done]. Qed.

Lemma sends_callAI (rq : AIRequest) : sendsAtMost 1 (callAI rq).
Proof.
  intros w st. exists [EvFetch (fetches st) rq; EvReply (fetches st)].
  split; [| done]. unfold callAI. rewrite bind_eval. cbn. by rewrite <- app_assoc.
Qed.

Lemma sends_generateOne (model : jstring) (shots : list FrameScreenshot)
    (total i : nat) (item : Parser.MissingScreenItem) :
  sendsAtMost 2 (Rev1.generateOne model shots total i item).
Proof.
  unfold Rev1.generateOne.
  apply (sends_bind 0 2); [by apply sends_emit | intros _].
  apply (sends_bind 0 2); [by apply sends_none_still | intros s].
  apply (sends_bind 0 2); [by apply sends_none_still | intros st0].
  apply (sends_bind 1 1); [apply sends_callAI | intros text].
  apply (sends_bind 0 1); [by apply sends_none_still | intros spec].
  destruct spec as [spec |]; [apply (sends_more 0); [lia | apply sends_onCanvas] |].
  apply (sends_bind 0 1); [by apply sends_none_still | intros st1].
  apply (sends_bind 1 0); [apply sends_callAI | intros retryText].
  apply (sends_bind 0 0); [by apply sends_none_still | intros retrySpec].
  destruct retrySpec as [spec |]; [apply sends_onCanvas |].
  apply (sends_bind 0 0); [by apply sends_emit | intros _].
  by apply sends_none_still.
Qed.

Lemma sends_generateAll (model : jstring) (shots : list FrameScreenshot) (total : nat) :
  forall (items : list Parser.MissingScreenItem) (i : nat) (created : list NodeId),
    sendsAtMost (2 * length items) (Rev1.generateAll model shots total i items created).
Proof.
  induction items as [| item items IH]; intros i created; cbn [Rev1.generateAll].
  - by apply sends_none_still.
  - replace (2 * length (item :: items))%nat with (2 + 2 * length items)%nat
      by (cbn [length]; lia).
    apply sends_bind; [apply sends_generateOne | intros frames; apply IH].
Qed.

Lemma sends_referenceScreenshots : sendsAtMost 0 Rev1.referenceScreenshots.
Proof.
  apply sends_none_still. intros w st. unfold Rev1.referenceScreenshots.
  rewrite bind_eval. cbn [getState].
  destruct (cachedScreenshots st); [| reflexivity].
  rewrite bind_eval. cbn [getSelectedFramesAndComponents].
  destruct (match cachedNodes st with [] => _ | _ :: _ => _ end); reflexivity.
Qed.

Lemma sends_try {A} (k : nat) (body : M A) (handler : JsError -> M A) (final : M unit) :
  sendsAtMost k body ->
  (forall e, sendsAtMost 0 (handler e)) ->
  sendsAtMost 0 final ->
  sendsAtMost k (tryCatchFinally body handler final).
Proof.
  intros Hb Hh Hf w st. unfold tryCatchFinally.
  destruct (Hb w st) as (t1 & T1 & N1).
  destruct (body w st) as [[a | e] st1]; cbn [snd] in T1.
  - destruct (Hf w st1) as (t3 & T3 & N3).
    exists (t1 ++ t3).
    assert (trace (final w st1).2 = trace st ++ t1 ++ t3) as T
      by (by rewrite T3, T1, <- app_assoc).
    destruct (final w st1) as [[[] | e] st3]; cbn [snd] in *;
      (split; [exact T | rewrite requestsOf_app, length_app; lia]).
  - destruct (Hh e w st1) as (t2 & T2 & N2).
    destruct (handler e w st1) as [r2 st2]; cbn [snd] in T2.
    destruct (Hf w st2) as (t3 & T3 & N3).
    exists (t1 ++ t2 ++ t3).
    assert (trace (final w st2).2 = trace st ++ t1 ++ t2 ++ t3) as T
      by (by rewrite T3, T2, T1, <- !app_assoc).
    destruct (final w st2) as [[[] | e'] st3]; cbn [snd] in *;
      (split; [exact T | rewrite !requestsOf_app, !length_app; lia]).
Qed.

End Bounds.

(** X3.  The regeneration action sends at most two requests for each
    missing screen it is given, whatever the vendor answers and whatever
    the document collaborator does. *)
Theorem regeneration_sends_at_most_two_requests_per_screen :
  forall (missingScreens : list Parser.MissingScreenItem) (documentation msgApiKey : jstring)
         (msgProvider : AIProvider) (msgProjectContext msgModel : option jstring)
         (w : World) (st : State),
  exists tail,
    trace (Rev1.handleGenerateMissingScreens missingScreens documentation msgApiKey
             msgProvider msgProjectContext msgModel w st).2
    = trace st ++ tail /\
    (length (requestsOf tail) <= 2 * length missingScreens)%nat.
Proof.
  intros items documentation msgApiKey msgProvider msgProjectContext msgModel.
  change (sendsAtMost (2 * length items)
            (Rev1.handleGenerateMissingScreens items documentation msgApiKey
               msgProvider msgProjectContext msgModel)).
  unfold Rev1.handleGenerateMissingScreens.
  apply (sends_bind 0); [by apply sends_none_still | intros prev].
  destruct (chooseKey msgApiKey prev) as [| c key];
    [apply (sends_more 0); [lia | by apply sends_none_still] |].
  destruct items as [| item items]; [by apply sends_none_still |].
  apply (sends_bind 0); [by apply sends_none_still | intros _].
  apply sends_try; [| intros e; by apply sends_emit | by apply sends_none_still].
  lazy zeta. set (k := (2 * length (item :: items))%nat).
  apply (sends_bind 0 k); [by apply sends_emit | intros _].
  apply (sends_bind 0 k); [apply sends_referenceScreenshots | intros shots].
  apply (sends_bind 0 k); [apply sends_onCanvas | intros _].
  apply (sends_more (k + 0)); [lia |].
  apply sends_bind; [apply sends_generateAll | intros created].
  apply (sends_bind 0 0).
  { destruct created; [by apply sends_none_still |].
    apply (sends_bind 0 0); [apply sends_onCanvas | intros _; apply sends_onCanvas]. }
  intros _.
  apply (sends_bind 0 0); [by apply sends_emit | intros _].
  apply (sends_bind 0 0); [by apply sends_none_still | intros w].
  apply (sends_bind 0 0); [apply sends_onCanvas | intros _].
  by apply sends_emit.
Qed.
(** * Preconditions *)

Section Beginning.

Lemma grows_sends {A} (k : nat) (m : M A) : sendsAtMost k m -> grows m.
Proof. intros H w st. destruct (H w st) as (tail & T & _). by exists tail. Qed.

Lemma grows_bind {A B} (m : M A) (f : A -> M B) :
  grows m -> (forall a, grows (f a)) -> grows (m ≫= f).
Proof.
  intros Hm Hf w st. rewrite bind_eval. destruct (Hm w st) as (t1 & T1).
  destruct (m w st) as [[a | e] st1]; cbn [snd] in T1.
  - destruct (Hf a w st1) as (t2 & T2). exists (t1 ++ t2).
    by rewrite T2, T1, <- app_assoc.
  - by exists t1.
Qed.

Variable w : World.

Lemma beginsWith_nil {A} (m : M A) (st : State) : grows m -> beginsWith [] m w st.
Proof. intros H. destruct (H w st) as (tail & T). by exists tail. Qed.

(** A first step that returns, then the rest. *)
Lemma beginsWith_then {A B} (m : M A) (f : A -> M B) (pre1 pre2 : list Event)
    (a : A) (st st' : State) :
  m w st = (Ok a, st') ->
  trace st' = trace st ++ pre1 ->
  beginsWith pre2 (f a) w st' ->
  beginsWith (pre1 ++ pre2) (m ≫= f) w st.
Proof.
  intros E T [rest H]. exists rest. rewrite bind_eval, E, H, T.
  by rewrite <- !app_assoc.
Qed.

(** Whatever follows a step only adds to what the step began with. *)
Lemma beginsWith_first {A B} (m : M A) (f : A -> M B) (pre : list Event) (st : State) :
  beginsWith pre m w st -> (forall a, grows (f a)) -> beginsWith pre (m ≫= f) w st.
Proof.
  intros [rest H] Hf. unfold beginsWith. rewrite bind_eval.
  destruct (m w st) as [[a | e] st1]; cbn [snd] in H.
  - destruct (Hf a w st1) as (t2 & T2). exists (rest ++ t2).
    by rewrite T2, H, <- !app_assoc.
  - by exists rest.
Qed.

Lemma beginsWith_try {A} (body : M A) (handler : JsError -> M A) (final : M unit)
    (pre : list Event) (st : State) :
  beginsWith pre body w st ->
  (forall e, grows (handler e)) ->
  grows final ->
  beginsWith pre (tryCatchFinally body handler final) w st.
Proof.
  intros [rest H] Hh Hf. unfold beginsWith, tryCatchFinally.
  destruct (body w st) as [[a | e] st1]; cbn [snd] in H.
  - destruct (Hf w st1) as (t3 & T3). exists (rest ++ t3).
    assert (trace (final w st1).2 = trace st ++ pre ++ rest ++ t3) as T
      by (by rewrite T3, H, <- !app_assoc).
    by destruct (final w st1) as [[[] | e] st3].
  - destruct (Hh e w st1) as (t2 & T2).
    destruct (handler e w st1) as [r2 st2]; cbn [snd] in T2.
    destruct (Hf w st2) as (t3 & T3). exists (rest ++ t2 ++ t3).
    assert (trace (final w st2).2 = trace st ++ pre ++ rest ++ t2 ++ t3) as T
      by (by rewrite T3, T2, H, <- !app_assoc).
    by destruct (final w st2) as [[[] | e'] st3].
Qed.

(** The regeneration, given a key and a missing screen, goes ahead
    whatever is selected: once the fonts are loaded its first request
    leaves. *)
Lemma regeneration_starts (st : State) (item : Parser.MissingScreenItem)
    (items : list Parser.MissingScreenItem) (documentation msgApiKey : jstring)
    (msgProvider : AIProvider) (msgProjectContext msgModel : option jstring) :
  chooseKey msgApiKey (session st) <> [] ->
  (exists made, canvas w (canvasOps st) = Ok made) ->
  let s := {| apiKey := chooseKey msgApiKey (session st);
              projectContext := chooseContext msgProjectContext (session st);
              currentProvider := msgProvider |} in
  exists shots rest,
    trace (Rev1.handleGenerateMissingScreens (item :: items) documentation
             msgApiKey msgProvider msgProjectContext msgModel w st).2
    = trace st
      ++ [ EvUI (MsgProgress
                   (u "Extracting screenshots from reference screens...") None);
           EvCanvas OpLoadFonts;
           generatingNotice (S (length items)) 0 item;
           EvFetch (fetches st)
             (Rev1.visualRequest s st (chooseModel msgModel msgProvider) item shots
                0 true) ]
      ++ rest.
Proof.
  intros Hkey [made Hfonts]. cbn zeta.
  unfold Rev1.handleGenerateMissingScreens. rewrite bind_eval. cbn [getSession].
  destruct (chooseKey msgApiKey (session st)) as [| c key]; [done |].
  set (s := {| apiKey := c :: key |}).
  set (st0 := (setSession s w st).2).
  set (st1 := record (EvUI (MsgProgress
                              (u "Extracting screenshots from reference screens...")
                              None)) st0).
  destruct (referenceScreenshots_run w st1) as (shots & st2 & E2 & T2 & F2 & C2 & S2 & D2).
  exists shots.
  match goal with
  | |- exists rest, trace (?m w st).2 = _ ++ ?pre ++ rest =>
      change (beginsWith pre m w st)
  end.
  eapply (beginsWith_then _ _ []); [reflexivity | cbn [trace]; by rewrite app_nil_r |].
  change (setSession s w st).2 with st0.
  apply beginsWith_try;
    [| intros e; apply (grows_sends 0); by apply sends_emit
     | apply (grows_sends 0); by apply sends_none_still].
  cbn zeta.
  eapply (beginsWith_then _ _ [_]); [reflexivity | reflexivity |].
  change (record _ st0) with st1.
  eapply (beginsWith_then _ _ []); [exact E2 | by rewrite T2, app_nil_r |].
  assert (canvas w (canvasOps st2) = Ok made) as Hfonts2 by (by rewrite C2).
  eapply (beginsWith_then _ _ [_]);
    [unfold onCanvas; rewrite Hfonts2; reflexivity | reflexivity |].
  set (st3 := {| session := session st2 |}).
  apply beginsWith_first.
  2:{ intros created.
      apply grows_bind.
      { destruct created; [apply (grows_sends 0); by apply sends_none_still |].
        apply (grows_sends (0 + 0)).
        apply sends_bind; [apply sends_onCanvas | intros _; apply sends_onCanvas]. }
      intros _. apply grows_bind; [apply (grows_sends 0); by apply sends_emit | intros _].
      apply grows_bind; [apply (grows_sends 0); by apply sends_none_still | intros w0].
      apply grows_bind; [apply (grows_sends 0); apply sends_onCanvas | intros _].
      apply (grows_sends 0). by apply sends_emit. }
  cbn [Rev1.generateAll length].
  apply beginsWith_first; [| intros frames; eapply grows_sends, sends_generateAll].
  unfold Rev1.generateOne.
  eapply (beginsWith_then _ _ [_]); [reflexivity | reflexivity |].
  set (st4 := record _ st3).
  eapply (beginsWith_then _ _ []); [reflexivity | by rewrite app_nil_r |].
  eapply (beginsWith_then _ _ []); [reflexivity | by rewrite app_nil_r |].
  assert (session st4 = s) as S4 by (change (session st2 = s); by rewrite S2).
  assert (cachedDesignSystem st4 = cachedDesignSystem st) as D4
    by (change (cachedDesignSystem st2 = cachedDesignSystem st); by rewrite D2).
  assert (fetches st4 = fetches st) as F4
    by (change (fetches st2 = fetches st); by rewrite F2).
  rewrite S4, (visualRequest_cached s st4 st) by exact D4.
  apply beginsWith_first.
  - unfold callAI.
    eapply (beginsWith_then _ _ [_] []);
      [reflexivity | cbn [fetch snd trace]; rewrite F4; reflexivity |].
    apply beginsWith_nil. apply (grows_sends 0). intros w0 st5.
    exists [EvReply (fetches st4)]. done.
  - intros text.
    apply grows_bind; [apply (grows_sends 0); by apply sends_none_still | intros spec].
    destruct spec as [spec |]; [apply (grows_sends 0), sends_onCanvas |].
    apply grows_bind; [apply (grows_sends 0); by apply sends_none_still | intros st5].
    apply grows_bind; [apply (grows_sends 1), sends_callAI | intros retryText].
    apply grows_bind; [apply (grows_sends 0); by apply sends_none_still | intros retry].
    destruct retry as [spec |]; [apply (grows_sends 0), sends_onCanvas |].
    apply grows_bind; [apply (grows_sends 0); by apply sends_emit | intros _].
    apply (grows_sends 0). by apply sends_none_still.
Qed.

End Beginning.

(** C6, as the code has it.  In both revisions the documentation and the
    flow-analysis action, started with no frame or component selected or
    with no API key (none in the message and none in the session, after
    trimming), post one error notice and do nothing else: no request
    leaves.  The regeneration action started with no API key sends no
    request.  It does not ask for a selection: started with a key and a
    missing screen while nothing is selected, it goes ahead, and once
    the fonts are loaded its first request leaves. *)
Theorem failed_precondition_sends_no_request :
  forall (w : World) (st : State) (msgApiKey : jstring) (msgProvider : AIProvider)
         (msgProjectContext msgModel : option jstring),
    let nodes := filter (fun n => isFrameOrComponent n = true) (selection w) in
    let key := chooseKey msgApiKey (session st) in
    nodes = [] \/ key = [] ->
    let notice :=
      EvUI (MsgError (match nodes with
                      | [] => MSG_SELECT_FRAME
                      | _ :: _ => MSG_SET_KEY
                      end)) in
    (forall msgOptions,
        Rev2.handleScanScreens msgApiKey msgProvider msgProjectContext msgModel
          msgOptions w st = (Ok tt, record notice st)) /\
    Rev2.handleScanFlow msgApiKey msgProvider msgProjectContext msgModel w st
      = (Ok tt, record notice st) /\
    Rev1.handleScanScreens msgApiKey msgProvider msgProjectContext msgModel w st
      = (Ok tt, record notice st) /\
    Rev1.handleScanFlow msgApiKey msgProvider msgProjectContext msgModel w st
      = (Ok tt, record notice st) /\
    (key = [] ->
     forall items documentation,
       requestsOf (trace (Rev1.handleGenerateMissingScreens items documentation
                            msgApiKey msgProvider msgProjectContext msgModel w st).2)
       = requestsOf (trace st)) /\
    (key <> [] ->
     forall item items documentation,
       (exists made, canvas w (canvasOps st) = Ok made) ->
       exists shots rest,
         trace (Rev1.handleGenerateMissingScreens (item :: items) documentation
                  msgApiKey msgProvider msgProjectContext msgModel w st).2
         = trace st
           ++ [ EvUI (MsgProgress
                        (u "Extracting screenshots from reference screens...") None);
                EvCanvas OpLoadFonts;
                generatingNotice (S (length items)) 0 item;
                EvFetch (fetches st)
                  (Rev1.visualRequest
                     {| apiKey := key;
                        projectContext := chooseContext msgProjectContext (session st);
                        currentProvider := msgProvider |}
                     st (chooseModel msgModel msgProvider) item shots 0 true) ]
           ++ rest).
Proof.
  intros w st msgApiKey msgProvider msgProjectContext msgModel nodes key H notice.
  subst notice.
  repeat split.
  - intros msgOptions. unfold Rev2.handleScanScreens.
    unfold mbind at 1 2, M_bind at 1 2, bind at 1 2, getSession,
      getSelectedFramesAndComponents. cbn beta iota.
    fold nodes key. destruct H as [-> | ->]; [reflexivity |].
    destruct nodes; reflexivity.
  - unfold Rev2.handleScanFlow.
    unfold mbind at 1 2, M_bind at 1 2, bind at 1 2, getSession,
      getSelectedFramesAndComponents. cbn beta iota.
    fold nodes key. destruct H as [-> | ->]; [reflexivity |].
    destruct nodes; reflexivity.
  - unfold Rev1.handleScanScreens.
    unfold mbind at 1 2, M_bind at 1 2, bind at 1 2, getSession,
      getSelectedFramesAndComponents. cbn beta iota.
    fold nodes key. destruct H as [-> | ->]; [reflexivity |].
    destruct nodes; reflexivity.
  - unfold Rev1.handleScanFlow.
    unfold mbind at 1 2, M_bind at 1 2, bind at 1 2, getSession,
      getSelectedFramesAndComponents. cbn beta iota.
    fold nodes key. destruct H as [-> | ->]; [reflexivity |].
    destruct nodes; reflexivity.
  - intros Hk items documentation. unfold Rev1.handleGenerateMissingScreens.
    unfold mbind at 1, M_bind at 1, bind at 1, getSession. cbn beta iota.
    fold key. rewrite Hk. reflexivity.
  - intros Hk item items documentation Hfonts.
    by apply regeneration_starts.
Qed.

Lemma failed_precondition_sample :
  Rev2.handleScanFlow [] openai None None emptyWorld sampleState
    = (Ok tt, record (EvUI (MsgError MSG_SELECT_FRAME)) sampleState) /\
  Rev1.handleScanScreens [] openai None None sampleWorld keylessState
    = (Ok tt, record (EvUI (MsgError MSG_SET_KEY)) keylessState).
Proof.
  split.
  - apply (failed_precondition_sends_no_request emptyWorld sampleState [] openai
             None None).
    left. reflexivity.
  - apply (failed_precondition_sends_no_request sampleWorld keylessState [] openai
             None None).
    right. reflexivity.
Defined.

(** * The documentation action on any selection *)

Section AnySelection.

Lemma docCardsOf_canvasOps (evs : list Event) :
  canvasOpsOf evs = [] -> docCardsOf evs = [].
Proof.
  induction evs as [| ev evs IH]; [done |].
  destruct ev as [| | | | op]; cbn [canvasOpsOf docCardsOf]; try exact IH.
  discriminate.
Qed.

Lemma imap_map {A B C} (f : nat -> B -> C) (g : A -> B) (l : list A) :
  imap f (map g l) = imap (fun k x => f k (g x)) l.
Proof.
  revert f. induction l as [| x l IH]; intros f; [done |].
  cbn [map imap]. f_equal. apply IH.
Qed.

Lemma offline_read (evs : list Event) :
  Forall (fun ev => offline ev = true) evs ->
  requestsOf evs = [] /\ pausesOf evs = [] /\ forall c, pausePoints c evs = [].
Proof.
  induction 1 as [| ev evs Hev _ (R & P & PP)]; [done |].
  destruct ev; cbn in Hev; try discriminate Hev; cbn; done.
Qed.

End AnySelection.

(** X4.  The documentation action of the later revision on any non-empty
    selection, when the vendor answers every request and the document
    collaborator does not fail: one request is sent for each selected
    frame, in the order of the selection and numbered from 0; a pause of
    2000 ms is taken after every fifth request that is not the last one,
    and nowhere else; the results reach the card maker in the order of the
    selection; and the last notice is [scan-complete] with the number of
    frames. *)
Theorem every_frame_documented_in_batches_of_five :
  forall (w : World) (st : State) (msgApiKey : jstring) (msgProvider : AIProvider)
         (msgProjectContext msgModel : option jstring)
         (msgOptions : option (option bool * option bool))
         (nodes : list SceneNode) (ds : DesignSystemData) (texts : list jstring),
    filter (fun n => isFrameOrComponent n = true) (selection w) = nodes ->
    nodes <> [] ->
    chooseKey msgApiKey (session st) <> [] ->
    designSystem w nodes = Ok ds ->
    length texts = length nodes ->
    (forall (k : nat) (t : jstring),
        texts !! k = Some t -> vendor w (fetches st + k) = HttpOk t) ->
    (forall k, exists made, canvas w k = Ok made) ->
    let s := {| apiKey := chooseKey msgApiKey (session st);
                projectContext := chooseContext msgProjectContext (session st);
                currentProvider := msgProvider |} in
    let total := length nodes in
    exists tail,
      trace (Rev2.handleScanScreens msgApiKey msgProvider msgProjectContext
               msgModel msgOptions w st).2
      = trace st ++ tail /\
      requestsOf tail
      = imap (fun k node =>
                Rev2.screenRequest s (frameDataOf node) ds k
                  (chooseModel msgModel msgProvider) (Rev2.optionsOf msgOptions))
             nodes /\
      pausesOf tail = replicate ((total - 1) / 5) 2000 /\
      pausePoints 0 tail = map (fun j => (5 * S j)%nat) (seq 0 ((total - 1) / 5)) /\
      docCardsOf tail = zip (map node_name nodes) texts /\
      last (noticesOf tail)
      = Some (MsgScanComplete SecScreens []
                (u "Created " ++ showNat total ++ u " documentation card"
                 ++ pluralS total)).
Proof.
  intros w st msgApiKey msgProvider msgProjectContext msgModel msgOptions
    nodes ds texts Hsel Hne Hkey Hds Hlen Hv Hc. lazy zeta.
  unfold Rev2.handleScanScreens.
  rewrite bind_eval. cbn [getSession]. rewrite bind_eval.
  cbn [getSelectedFramesAndComponents]. rewrite Hsel.
  destruct nodes as [| node0 nodes0] eqn:En; [done |]. rewrite <- En in *.
  destruct (chooseKey msgApiKey (session st)) as [| c key] eqn:Ekey; [done |].
  rewrite (extractFrameData_selected w _ Hsel).
  rewrite bind_eval. cbn [setSession].
  set (st0 := {| session := {| apiKey := c :: key |} |}).
  unfold tryCatchFinally.
  rewrite bind_eval. unfold extractDesignSystem at 1. rewrite Hds.
  rewrite bind_eval. cbn [setCache].
  set (st1 := {| cachedDesignSystem := Some ds |}).
  rewrite length_map.
  destruct (scanBatches_answered w (map frameDataOf nodes) ds
              (chooseModel msgModel msgProvider) (Rev2.optionsOf msgOptions) texts
              ltac:(by rewrite length_map) (length nodes) 0%nat [] st1)
    as (st2 & t2 & E2 & T2 & R2 & P2 & PP2 & O2 & N2 & F2 & S2 & C2).
  { rewrite length_map. lia. }
  { intros k t Ht. apply Hv. exact Ht. }
  rewrite bind_eval, E2.
  rewrite bind_eval. unfold Rev2.sendProgress at 1, sendToUI at 1. rewrite emit_eval.
  set (notice := EvUI (MsgProgress _ None)).
  destruct (createCards_runs w Hc
              ([] ++ zip (map fd_name (drop 0 (map frameDataOf nodes))) (drop 0 texts))
              nodes 0%nat [] (record notice st2))
    as (created & st3 & t3 & E3 & T3 & Q3 & D3 & S3).
  rewrite bind_eval, E3.
  assert (exists made st4 t4,
             (match created with
              | [] => ret []
              | _ :: _ => onCanvas (OpScrollIntoView created)
              end) w st3 = (Ok made, st4)
             /\ trace st4 = trace st3 ++ t4
             /\ Forall (fun ev => offline ev = true) t4
             /\ docCardsOf t4 = [] /\ noticesOf t4 = [])
    as (made & st4 & t4 & E4 & T4 & Q4 & D4 & N4).
  { destruct created as [| c0 created'].
    - exists [], st3, []. rewrite app_nil_r. done.
    - destruct (Hc (canvasOps st3)) as [made Hmade].
      destruct (onCanvas_ok w st3 (OpScrollIntoView (c0 :: created')) made Hmade)
        as (st4 & E4 & T4 & _).
      exists made, st4, [EvCanvas (OpScrollIntoView (c0 :: created'))].
      rewrite E4. repeat split; try done. by repeat constructor. }
  rewrite bind_eval, E4.
  cbn [skipn app] in *.
  set (done := EvUI (MsgScanComplete SecScreens []
                      (u "Created " ++ showNat (length nodes) ++ u " documentation card"
                       ++ pluralS (length nodes)))).
  exists (t2 ++ [notice] ++ t3 ++ t4 ++ [done]).
  destruct (offline_read _ Q3) as (R3 & P3 & PP3).
  destruct (offline_read _ Q4) as (R4 & P4 & PP4).
  split; [| split; [| split; [| split; [| split]]]].
  - cbn [sendToUI emit setSession snd trace record].
    rewrite T4, T3. cbn [record trace]. rewrite T2.
    subst st1 st0. cbn [trace]. rewrite <- !app_assoc. reflexivity.
  - rewrite !requestsOf_app, R2, R3, R4. subst notice done. cbn [requestsOf app].
    rewrite app_nil_r. subst st1 st0. cbn [session].
    rewrite drop_0, imap_map. apply imap_ext. intros k x _. reflexivity.
  - rewrite !pausesOf_app, P2, P3, P4. subst notice done. cbn [pausesOf app].
    rewrite app_nil_r, length_map, Nat.sub_0_r. done.
  - rewrite !pausePoints_app, PP2, PP3, PP4. subst notice done.
    cbn [pausePoints app]. rewrite app_nil_r, length_map, Nat.sub_0_r.
    apply list_fmap_ext. intros _ j _. lia.
  - rewrite !docCardsOf_app, (docCardsOf_canvasOps _ O2), D3, D4.
    subst notice done. cbn [docCardsOf app]. rewrite app_nil_r.
    rewrite ?drop_0, map_map.
    f_equal. apply map_ext. intros x. apply fd_name_frameDataOf.
  - rewrite !noticesOf_app. subst done. cbn [noticesOf].
    rewrite !app_assoc. rewrite last_snoc. done.
Qed.

Lemma twelve_frames_sample :
  let w := {| selection := map sampleNode [1; 2; 3; 4; 5; 6; 7; 8; 9; 10; 11; 12];
              vendor := vendor sampleWorld;
              arrival := arrival sampleWorld;
              designSystem := designSystem sampleWorld;
              screenshots := screenshots sampleWorld;
              canvas := canvas sampleWorld;
              untyped := untyped sampleWorld;
              engine := engine sampleWorld |} in
  exists tail,
    trace (Rev2.handleScanScreens [] openai None None None w sampleState).2 = tail /\
    length (requestsOf tail) = 12%nat /\
    pausesOf tail = [2000; 2000] /\
    pausePoints 0 tail = [5; 10]%nat /\
    map fst (docCardsOf tail)
    = map (fun k => u "Screen " ++ JS.natToString k) [1; 2; 3; 4; 5; 6; 7; 8; 9; 10; 11; 12] /\
    last (noticesOf tail)
    = Some (MsgScanComplete SecScreens [] (u "Created 12 documentation cards")).
Proof.
  intros w.
  destruct (every_frame_documented_in_batches_of_five w sampleState
              [] openai None None None
              (map sampleNode [1; 2; 3; 4; 5; 6; 7; 8; 9; 10; 11; 12])
              EmptyDesignSystem
              (map (fun k => u "## Purpose" ++ [10] ++ u "Screen " ++ showNat k)
                   (seq 0 12)))
    as (tail & T & R & P & PP & D & N).
  - reflexivity.
  - discriminate.
  - vm_compute. discriminate.
  - reflexivity.
  - reflexivity.
  - intros k t H.
    do 12 (destruct k as [| k]; [injection H as <-; reflexivity |]).
    discriminate H.
  - intros k. eexists. reflexivity.
  - exists tail. split; [exact T |].
    rewrite R, P, PP, D, N. repeat split; reflexivity.
Defined.

(** Answers that are all there, as a list. *)
Lemma answered_texts (w : World) (a n : nat) :
  (forall k, (k < n)%nat -> exists t, vendor w (a + k) = HttpOk t) ->
  exists texts : list jstring,
    length texts = n /\
    forall k t, texts !! k = Some t -> vendor w (a + k) = HttpOk t.
Proof.
  induction n as [| n IH]; intros H.
  - exists []. split; [reflexivity |]. intros k t Hk. discriminate Hk.
  - destruct IH as (texts & L & Ht); [intros k Hk; apply H; lia |].
    destruct (H n ltac:(lia)) as [t Hn].
    exists (texts ++ [t]). split; [rewrite length_app; cbn; lia |].
    intros k t' Hk. apply lookup_app_Some in Hk as [Hk | [Hge Hk]]; [by apply Ht |].
    rewrite L in Hge, Hk. destruct (k - n)%nat as [| d] eqn:Ed; [| discriminate Hk].
    cbn in Hk. injection Hk as <-. replace k with n by lia. exact Hn.
Qed.

(** X5.  The documentation action of the later revision when the
    requests of the batches before the one of frame number [j] are all
    answered and the request for frame [j] fails (an answer outside 2xx,
    or a failed call) before any other request of its batch does: the
    requests of the batches up to that one have been sent and no other,
    a pause was taken only between those batches, the document is not
    touched, and the last notice is the error notice made from that
    failure for the provider of the message. *)
Theorem failed_request_stops_the_documentation_action :
  forall (w : World) (st : State) (msgApiKey : jstring) (msgProvider : AIProvider)
         (msgProjectContext msgModel : option jstring)
         (msgOptions : option (option bool * option bool))
         (nodes : list SceneNode) (ds : DesignSystemData) (j : nat) (e : JsError),
    filter (fun n => isFrameOrComponent n = true) (selection w) = nodes ->
    chooseKey msgApiKey (session st) <> [] ->
    designSystem w nodes = Ok ds ->
    (j < length nodes)%nat ->
    (forall k, (k < 5 * (j / 5))%nat ->
               exists t, vendor w (fetches st + k) = HttpOk t) ->
    failureOf (vendor w (fetches st + j)) = Some e ->
    (forall k, (5 * (j / 5) <= k < 5 * (j / 5) + 5)%nat -> (k < length nodes)%nat ->
               k <> j -> failureOf (vendor w (fetches st + k)) <> None ->
               (arrival w (fetches st + j) < arrival w (fetches st + k))%nat) ->
    let s := {| apiKey := chooseKey msgApiKey (session st);
                projectContext := chooseContext msgProjectContext (session st);
                currentProvider := msgProvider |} in
    exists tail,
      trace (Rev2.handleScanScreens msgApiKey msgProvider msgProjectContext
               msgModel msgOptions w st).2
      = trace st ++ tail /\
      requestsOf tail
      = imap (fun k node =>
                Rev2.screenRequest s (frameDataOf node) ds k
                  (chooseModel msgModel msgProvider) (Rev2.optionsOf msgOptions))
             (take (5 * S (j / 5)) nodes) /\
      pausesOf tail = replicate (j / 5) 2000 /\
      canvasOpsOf tail = [] /\
      last (noticesOf tail)
      = Some (MsgError (Rev2.getUserFriendlyError e (Some msgProvider))).
Proof.
  intros w st msgApiKey msgProvider msgProjectContext msgModel msgOptions
    nodes ds j e Hsel Hkey Hds Hj Hv He Hfirst. lazy zeta.
  set (q := (j / 5)%nat) in *.
  assert (5 * q <= j < 5 * q + 5)%nat as Hq.
  { subst q. pose proof (Nat.div_mod_eq j 5). pose proof (Nat.mod_upper_bound j 5). lia. }
  destruct (answered_texts w (fetches st) (5 * q) Hv) as (texts & Hlen & Htexts).
  unfold Rev2.handleScanScreens.
  rewrite bind_eval. cbn [getSession]. rewrite bind_eval.
  cbn [getSelectedFramesAndComponents]. rewrite Hsel.
  destruct nodes as [| node0 nodes0] eqn:En; [cbn in Hj; lia |]. rewrite <- En in *.
  destruct (chooseKey msgApiKey (session st)) as [| c key] eqn:Ekey; [done |].
  rewrite (extractFrameData_selected w _ Hsel).
  rewrite bind_eval. cbn [setSession].
  set (st0 := {| session := {| apiKey := c :: key |} |}).
  unfold tryCatchFinally.
  rewrite bind_eval. unfold extractDesignSystem at 1. rewrite Hds.
  rewrite bind_eval. cbn [setCache].
  set (st1 := {| cachedDesignSystem := Some ds |}).
  rewrite length_map.
  destruct (scanBatches_fails w (map frameDataOf nodes) ds
              (chooseModel msgModel msgProvider) (Rev2.optionsOf msgOptions)
              (fetches st + j) e q (length nodes) 0%nat texts [] st1)
    as (st2 & t2 & E2 & T2 & R2 & P2 & O2 & N2 & S2 & C2).
  { exact Hlen. }
  { rewrite length_map. lia. }
  { rewrite length_map. lia. }
  { intros k t Ht. apply Htexts. exact Ht. }
  { rewrite length_map. cbn [Nat.add].
    change (fetches st1) with (fetches st).
    apply firstRejected_first.
    - apply elem_of_seq. lia.
    - exact He.
    - intros n Hn Hne Hfail. apply elem_of_seq in Hn.
      replace n with (fetches st + (n - fetches st))%nat in * by lia.
      apply Hfirst; [lia | lia | lia | exact Hfail]. }
  rewrite bind_eval, E2.
  set (notice := EvUI (MsgError (Rev2.getUserFriendlyError e (Some msgProvider)))).
  exists (t2 ++ [notice]).
  split; [| split; [| split; [| split]]].
  - unfold Rev2.sendError. rewrite bind_eval. cbn [getSession].
    cbn [sendToUI emit setSession snd trace record]. rewrite S2, T2.
    subst st1 st0. cbn [trace session currentProvider]. rewrite <- app_assoc. reflexivity.
  - rewrite requestsOf_app, R2. subst notice. cbn [requestsOf]. rewrite app_nil_r.
    rewrite drop_0, firstn_map, imap_map. apply imap_ext. intros k x _. reflexivity.
  - rewrite pausesOf_app, P2. subst notice. cbn [pausesOf]. by rewrite app_nil_r.
  - rewrite canvasOpsOf_app, O2. done.
  - rewrite noticesOf_app. subst notice. cbn [noticesOf]. by rewrite last_snoc.
Qed.

(** Twelve frames; the requests for the seventh and the ninth frame both
    fail, and the failure of the ninth comes first. *)
Lemma failed_request_sample :
  let w := {| selection := map sampleNode [1; 2; 3; 4; 5; 6; 7; 8; 9; 10; 11; 12];
              vendor := fun k => if (k =? 6)%nat
                                 then HttpFail 401 (u "bad key")
                                 else if (k =? 8)%nat
                                 then HttpFail 429 (u "slow down")
                                 else HttpOk (u "## Purpose");
              arrival := fun k => if (k =? 8)%nat then 0%nat else S k;
              designSystem := designSystem sampleWorld;
              screenshots := screenshots sampleWorld;
              canvas := canvas sampleWorld;
              untyped := untyped sampleWorld;
              engine := engine sampleWorld |} in
  exists tail,
    trace (Rev2.handleScanScreens [] openai None None None w sampleState).2 = tail /\
    length (requestsOf tail) = 10%nat /\
    pausesOf tail = [2000] /\
    canvasOpsOf tail = [] /\
    last (noticesOf tail)
    = Some (MsgError (u "Rate limit reached. Please wait a moment and try again.")).
Proof.
  intros w.
  destruct (failed_request_stops_the_documentation_action w sampleState
              [] openai None None None
              (map sampleNode [1; 2; 3; 4; 5; 6; 7; 8; 9; 10; 11; 12])
              EmptyDesignSystem 8
              (newError (u "API error 429: slow down")))
    as (tail & T & R & P & O & N).
  - reflexivity.
  - vm_compute. discriminate.
  - reflexivity.
  - cbn. lia.
  - intros k Hk. change (5 * (8 / 5))%nat with 5%nat in Hk.
    do 5 (destruct k as [| k]; [eexists; reflexivity |]). lia.
  - reflexivity.
  - intros k Hk _ Hne _. change (5 * (8 / 5))%nat with 5%nat in Hk.
    do 5 (destruct k as [| k]; [lia |]).
    do 3 (destruct k as [| k]; [cbn; lia |]).
    destruct k as [| k]; [done |]. destruct k as [| k]; [cbn; lia |]. lia.
  - exists tail. split; [exact T |].
    rewrite R, P, O, N. repeat split; reflexivity.
Defined.
(** * How many requests an action can send *)

Section RequestBounds.

Lemma sends_startAll (rqs : list AIRequest) : sendsAtMost (length rqs) (startAll rqs).
Proof.
  intros w st. destruct (startAll_run w rqs st) as (st' & E & T & _).
  rewrite E. eexists. split; [exact T |].
  destruct (fetches_read rqs (fetches st)) as (R & _). cbn zeta in R. by rewrite R.
Qed.

Lemma sends_awaitAll (ns : list nat) : sendsAtMost 0 (awaitAll ns).
Proof.
  intros w st. destruct (awaitAll_reads w ns st) as [read ->].
  exists (map EvReply read). split; [reflexivity |].
  by destruct (replies_read read) as (-> & _).
Qed.

Lemma sends_scanBatches (frames : list FrameData) (ds : DesignSystemData)
    (model : jstring) (options : bool * bool) :
  forall (fuel i : nat) (docs : list (jstring * jstring)),
    sendsAtMost (length frames - i)
      (Rev2.scanBatches fuel frames ds model options i docs).
Proof.
  induction fuel as [| fuel IH]; intros i docs; cbn [Rev2.scanBatches].
  - apply (sends_more 0); [lia | by apply sends_none_still].
  - destruct (i <? length frames)%nat eqn:Ei;
      [| apply (sends_more 0); [lia | by apply sends_none_still]].
    apply Nat.ltb_lt in Ei.
    set (b := Nat.min 5 (length frames - i)).
    apply (sends_more (0 + (b + (0 + (0 + (0 + (length frames - (i + 5)))))))).
    { subst b. lia. }
    apply sends_bind; [by apply sends_none_still | intros s].
    apply sends_bind.
    { apply (sends_more (length (imap (fun j frameData =>
               Rev2.screenRequest s frameData ds (i + j) model options)
               (take Rev2.BATCH_SIZE (drop i frames))))); [| apply sends_startAll].
      rewrite length_imap, length_take, length_drop. subst b.
      unfold Rev2.BATCH_SIZE. lia. }
    intros started.
    apply sends_bind; [apply sends_awaitAll | intros results].
    apply sends_bind; [by apply sends_emit | intros _].
    apply sends_bind; [| intros _; apply IH].
    destruct (_ <? _)%nat; [by apply sends_emit | by apply sends_none_still].
Qed.

Lemma sends_createCards2 (nodes : list SceneNode) :
  forall (docs : list (jstring * jstring)) (i : nat) (created : list NodeId),
    sendsAtMost 0 (Rev2.createCards docs nodes i created).
Proof.
  induction docs as [| [name content] docs IH]; intros i created;
    cbn [Rev2.createCards]; [by apply sends_none_still |].
  apply (sends_bind 0 0); [apply sends_onCanvas | intros cards].
  apply (sends_bind 0 0); [| intros _; apply IH].
  destruct (nodes !! i); [destruct cards |];
    (by apply sends_none_still) || apply sends_onCanvas.
Qed.

Lemma sends_readFlowAnswer (text : jstring) : sendsAtMost 0 (readFlowAnswer text).
Proof.
  apply sends_none_still. intros w st. unfold readFlowAnswer.
  rewrite bind_eval. cbn [liftR].
  destruct (Parser.parseEdgeCases text) as [[flow ms] | e]; [| reflexivity].
  destruct ms; [reflexivity |].
  rewrite bind_eval. cbn [getWorld]. rewrite bind_eval. cbn [liftR].
  destruct (match mapM Parser.asItem _ with Some _ => _ | None => _ end); reflexivity.
Qed.

Lemma length_extractFrameData (nodes : list SceneNode) :
  (length (extractFrameData nodes) <= length nodes)%nat.
Proof.
  unfold extractFrameData. rewrite length_map. apply length_filter.
Qed.

End RequestBounds.

(** X6.  In the later revision the documentation action never sends more
    requests than there are selected nodes, and the flow action never
    sends more than one request, whatever the vendor answers and
    whatever the document collaborator does. *)
Theorem later_actions_request_bounds :
  forall (msgApiKey : jstring) (msgProvider : AIProvider)
         (msgProjectContext msgModel : option jstring)
         (msgOptions : option (option bool * option bool))
         (w : World) (st : State),
    (exists tail,
        trace (Rev2.handleScanScreens msgApiKey msgProvider msgProjectContext
                 msgModel msgOptions w st).2 = trace st ++ tail /\
        (length (requestsOf tail) <= length (selection w))%nat) /\
    (exists tail,
        trace (Rev2.handleScanFlow msgApiKey msgProvider msgProjectContext
                 msgModel w st).2 = trace st ++ tail /\
        (length (requestsOf tail) <= 1)%nat).
Proof.
  intros msgApiKey msgProvider msgProjectContext msgModel msgOptions w st. split.
  - unfold Rev2.handleScanScreens.
    rewrite bind_eval. cbn [getSession]. rewrite bind_eval.
    cbn [getSelectedFramesAndComponents].
    set (nodes := filter _ (selection w)).
    assert (length nodes <= length (selection w))%nat as Hn by apply length_filter.
    assert (sendsAtMost (length nodes)
              (match nodes, chooseKey msgApiKey (session st) with
               | [], _ => sendToUI (MsgError MSG_SELECT_FRAME)
               | _ :: _, [] => sendToUI (MsgError MSG_SET_KEY)
               | _ :: _, _ :: _ =>
                   setSession {| apiKey := chooseKey msgApiKey (session st);
                                 projectContext :=
                                   chooseContext msgProjectContext (session st);
                                 currentProvider := msgProvider |};;
                   tryCatchFinally
                     (let frameDataList := extractFrameData nodes in
                      ds ← extractDesignSystem nodes;
                      let model := chooseModel msgModel msgProvider in
                      setCache ds frameDataList nodes;;
                      let total := length frameDataList in
                      docs ← Rev2.scanBatches total frameDataList ds model
                               (Rev2.optionsOf msgOptions) 0 [];
                      Rev2.sendProgress (u "Creating documentation cards...") None;;
                      createdCards ← Rev2.createCards docs nodes 0 [];
                      match createdCards with
                      | [] => ret []
                      | _ :: _ => onCanvas (OpScrollIntoView createdCards)
                      end;;
                      sendToUI (MsgScanComplete SecScreens []
                                  (u "Created " ++ showNat total ++ u " documentation card"
                                   ++ pluralS total)))
                     Rev2.sendError
                     (setSession (session st))
               end)) as H.
    { clearbody nodes. remember (length nodes) as k eqn:Ek.
      destruct nodes as [| node nodes'];
        [apply (sends_more 0); [lia | by apply sends_emit] |].
      set (ns := node :: nodes') in *. clearbody ns.
      destruct (chooseKey msgApiKey (session st)) as [| c key];
        [apply (sends_more 0); [lia | by apply sends_emit] |].
      apply (sends_bind 0); [by apply sends_none_still | intros _].
      apply sends_try; [| intros e | by apply sends_none_still].
      2:{ unfold Rev2.sendError. apply (sends_bind 0 0);
            [by apply sends_none_still | intros; by apply sends_emit]. }
      lazy zeta.
      apply (sends_bind 0); [by apply sends_none_still | intros ds].
      apply (sends_bind 0); [by apply sends_none_still | intros _].
      apply (sends_more (length (extractFrameData ns) - 0 + 0));
        [pose proof (length_extractFrameData ns) as L; lia |].
      apply sends_bind; [apply sends_scanBatches | intros docs].
      apply (sends_bind 0 0); [by apply sends_emit | intros _].
      apply (sends_bind 0 0); [apply sends_createCards2 | intros created].
      apply (sends_bind 0 0); [| intros _; by apply sends_emit].
      destruct created; [by apply sends_none_still | apply sends_onCanvas]. }
    destruct (H w st) as (tail & T & N). exists tail. split; [| lia].
    rewrite <- T. clear. destruct nodes; reflexivity.
  - unfold Rev2.handleScanFlow.
    rewrite bind_eval. cbn [getSession]. rewrite bind_eval.
    cbn [getSelectedFramesAndComponents].
    set (nodes := filter _ (selection w)).
    destruct nodes as [| node nodes'] eqn:En.
    { eexists [_]. split; [reflexivity |]. cbn. lia. }
    rewrite <- En.
    destruct (chooseKey msgApiKey (session st)) as [| c key].
    { eexists [_]. split; [reflexivity |]. cbn. lia. }
    rewrite bind_eval. cbn [setSession].
    match goal with
    | |- context [tryCatchFinally ?b ?h ?f w ?st0] =>
        assert (sendsAtMost 1 (tryCatchFinally b h f)) as H; [| destruct (H w st0) as (tail & T & N)]
    end.
    2:{ exists tail. split; [exact T | exact N]. }
    apply sends_try; [| intros e | by apply sends_none_still].
    2:{ unfold Rev2.sendError. apply (sends_bind 0 0);
          [by apply sends_none_still | intros; by apply sends_emit]. }
    lazy zeta.
    apply (sends_bind 0 1); [by apply sends_emit | intros _].
    apply (sends_bind 0 1); [by apply sends_none_still | intros ds].
    apply (sends_bind 0 1); [by apply sends_none_still | intros _].
    apply (sends_bind 1 0).
    { unfold Rev2.runScanFlowWithEdgeCases.
      apply (sends_bind 0 1); [by apply sends_none_still | intros s].
      apply (sends_bind 1 0); [apply sends_callAI | intros; apply sends_readFlowAnswer]. }
    intros flow.
    apply (sends_bind 0 0); [by apply sends_emit | intros _].
    apply (sends_bind 0 0); [apply sends_onCanvas | intros flowCards].
    apply (sends_bind 0 0).
    { destruct (missingScreens flow); [by apply sends_none_still |].
      apply (sends_bind 0 0); [by apply sends_emit | intros _; apply sends_onCanvas]. }
    intros missingCards.
    apply (sends_bind 0 0); [| intros _; by apply sends_emit].
    destruct (flowCards ++ missingCards); [by apply sends_none_still | apply sends_onCanvas].
Qed.

(** * How a regeneration ends *)

Section Regeneration.

Lemma returnsClosed_bind {A B} (k : nat) (m : M A) (f : A -> M B) :
  sendsAtMost k m -> (forall a, returnsClosed (f a)) -> returnsClosed (m ≫= f).
Proof.
  intros Hm Hf w st. rewrite bind_eval.
  destruct (Hm w st) as (t1 & T1 & _).
  destruct (m w st) as [[a | e] st1]; cbn [snd] in T1.
  - destruct (Hf a w st1) as (t2 & T2 & H2).
    exists (t1 ++ t2). rewrite T2, T1, <- app_assoc. split; [done |].
    destruct (f a w st1).1 as [b | e]; [| done].
    destruct H2 as (ms & x & N & Hx).
    exists (noticesOf t1 ++ ms), x. by rewrite noticesOf_app, N, <- app_assoc.
  - exists t1. done.
Qed.

Lemma returnsClosed_final (x : MainMessage) :
  isFinalNotice x = true -> returnsClosed (sendToUI x).
Proof.
  intros Hx w st. exists [EvUI x]. split; [reflexivity |]. exists [], x. done.
Qed.

Lemma endsClosed_try (body : M unit) (handler : JsError -> M unit) (final : M unit) :
  returnsClosed body ->
  (forall e w st, exists x,
      handler e w st = (Ok tt, record (EvUI x) st) /\ isFinalNotice x = true) ->
  (forall w st, exists st', final w st = (Ok tt, st') /\ trace st' = trace st) ->
  endsClosed (tryCatchFinally body handler final).
Proof.
  intros Hb Hh Hf w st. unfold tryCatchFinally.
  destruct (Hb w st) as (t1 & T1 & H1).
  destruct (body w st) as [[[] | e] st1]; cbn [fst snd] in *.
  - destruct (Hf w st1) as (st3 & -> & T3). cbn [fst snd].
    destruct H1 as (ms & x & N & Hx).
    split; [done |]. exists t1, ms, x. by rewrite T3.
  - destruct (Hh e w st1) as (x & -> & Hx).
    destruct (Hf w (record (EvUI x) st1)) as (st3 & -> & T3). cbn [fst snd].
    split; [done |]. exists (t1 ++ [EvUI x]), (noticesOf t1), x.
    rewrite T3. cbn [record trace]. rewrite T1, <- app_assoc, noticesOf_app.
    done.
Qed.

Lemma endsClosed_regeneration
    (items : list Parser.MissingScreenItem) (documentation msgApiKey : jstring)
    (msgProvider : AIProvider) (msgProjectContext msgModel : option jstring)
    (w : World) (st : State) :
  chooseKey msgApiKey (session st) <> [] ->
  items <> [] ->
  let run := Rev1.handleGenerateMissingScreens items documentation msgApiKey
               msgProvider msgProjectContext msgModel w st in
  run.1 = Ok tt /\
  exists tail ms x,
    trace run.2 = trace st ++ tail /\
    noticesOf tail = ms ++ [x] /\
    isFinalNotice x = true.
Proof.
  intros Hkey Hitems. lazy zeta.
  unfold Rev1.handleGenerateMissingScreens.
  rewrite bind_eval. cbn [getSession].
  destruct (chooseKey msgApiKey (session st)) as [| c key]; [done |].
  destruct items as [| item items]; [done |].
  rewrite bind_eval. cbn [setSession].
  match goal with
  | |- context [tryCatchFinally ?b ?h ?f w ?st0] =>
      assert (endsClosed (tryCatchFinally b h f)) as H;
      [| destruct (H w st0) as (R & tail & ms & x & T & N & Hx)]
  end.
  2:{ split; [exact R |]. exists tail, ms, x. done. }
  apply endsClosed_try; [| apply sendError1_posts | apply setSession_silent].
  lazy zeta.
  apply (returnsClosed_bind 0); [by apply sends_emit | intros _].
  apply (returnsClosed_bind 0); [apply sends_referenceScreenshots | intros shots].
  apply (returnsClosed_bind 0); [apply sends_onCanvas | intros _].
  eapply returnsClosed_bind; [apply sends_generateAll | intros created].
  apply (returnsClosed_bind 0).
  { destruct created; [by apply sends_none_still |].
    apply (sends_bind 0 0); [apply sends_onCanvas | intros _; apply sends_onCanvas]. }
  intros _.
  apply (returnsClosed_bind 0); [by apply sends_emit | intros _].
  apply (returnsClosed_bind 0); [by apply sends_none_still | intros w0].
  apply (returnsClosed_bind 0); [apply sends_onCanvas | intros _].
  by apply returnsClosed_final.
Qed.



Section Outside.

Variable w : World.










End Outside.


End Regeneration.


(** * Literal texts in strings and patterns *)

Section Literals.

Lemma startsWith_iff (d s : jstring) :
  JS.startsWith d s = true <-> exists post, s = d ++ post.
Proof.
  revert s. induction d as [| a d IH]; intros s; cbn [JS.startsWith].
  - split; [intros _; by exists s | done].
  - destruct s as [| b s]; [split; [done | intros [post H]; discriminate H] |].
    rewrite andb_true_iff, N.eqb_eq, IH. split.
    + intros [-> [post ->]]. by exists post.
    + intros [post H]. injection H as -> ->. split; [done | by exists post].
Qed.

Lemma includes_iff (s d : jstring) :
  JS.includes s d = true <-> exists pre post, s = pre ++ d ++ post.
Proof.
  induction s as [| c s IH]; cbn [JS.includes].
  - rewrite orb_false_r, startsWith_iff. split.
    + intros [post H]. by exists [], post.
    + intros (pre & post & H). destruct pre as [| x pre]; [| discriminate H].
      by exists post.
  - rewrite orb_true_iff, startsWith_iff, IH. split.
    + intros [[post H] | (pre & post & ->)].
      * by exists [], post.
      * by exists (c :: pre), post.
    + intros (pre & post & H). destruct pre as [| x pre].
      * left. by exists post.
      * right. injection H as -> ->. by exists pre, post.
Qed.

Lemma includes_app (pre d post : jstring) : JS.includes (pre ++ d ++ post) d = true.
Proof. apply includes_iff. by exists pre, post. Qed.

Lemma includes_wider (s d pre post : jstring) :
  JS.includes s (pre ++ d ++ post) = true -> JS.includes s d = true.
Proof.
  rewrite !includes_iff. intros (a & b & ->). exists (a ++ pre), (post ++ b).
  by rewrite <- !app_assoc.
Qed.

End Literals.

Section LiteralPatterns.
Import Regex.

Context {R : Type}.

(** A literal pattern reads exactly its text. *)
Lemma go_literal (m : bool) (l : jstring) :
  l <> [] ->
  forall (prev : option N) (s : jstring) (cap : option jstring) (k : cont R),
    go m (seqs (map lit1 l)) prev s cap k
    = if JS.startsWith l s then k (lastOf prev l) (drop (length l) s) cap else None.
Proof.
  induction l as [| a l IH]; [done |]. intros _ prev s cap k.
  destruct l as [| b l].
  - cbn [map seqs JS.startsWith length]. unfold lit1. cbn [go].
    destruct s as [| c s]; [done |]. cbn [drop].
    rewrite andb_true_r. destruct (a =? c) eqn:E; [| done].
    apply N.eqb_eq in E as ->. reflexivity.
  - change (seqs (map lit1 (a :: b :: l)))
      with (Seq (lit1 a) (seqs (map lit1 (b :: l)))).
    cbn [go]. unfold lit1 at 1. cbn [go].
    destruct s as [| c s]; [done |].
    cbn [JS.startsWith]. destruct (a =? c); [| done]. cbn [andb].
    rewrite IH by done.
    replace (lastOf (Some c) (b :: l)) with (lastOf prev (a :: b :: l)); [done |].
    unfold lastOf. rewrite !last_cons. by destruct (last l).
Qed.

(** A star in front of a continuation that accepts everything always
    matches. *)
Lemma star_loop_accepts (body : option N -> jstring -> option jstring -> cont R -> option R)
    (n : nat) (prev : option N) (s : jstring) (cap : option jstring) (k : cont R) :
  (forall prev s cap, k prev s cap <> None) ->
  star_loop body n prev s cap k <> None.
Proof.
  intros Hk. destruct n as [| n]; cbn [star_loop]; [apply Hk |].
  destruct (body prev s cap _); [done | apply Hk].
Qed.

(** A pattern that starts with [^] and has no [m] flag only matches at
    the start of the text. *)
Lemma search_anchored (r : regex) (c : N) (s : jstring) :
  search false (Seq Bol r) (Some c) s = None.
Proof.
  revert c. induction s as [| x s IH]; intros c; cbn [search]; unfold match_here;
    cbn [go at_bol andb]; [done |]. by rewrite IH.
Qed.

End LiteralPatterns.

Section KeyFormat.
Import Regex.

(** The two prefix tests. *)
Lemma test_prefix_class (prefix : string) (s : jstring) :
  u prefix <> [] ->
  test false (seqs [Bol; lit prefix; Plus (Chr keyChar)]) s = true
  <-> exists c post, s = u prefix ++ c :: post /\ keyChar c = true.
Proof.
  intros Hp. unfold test.
  change (seqs [Bol; lit prefix; Plus (Chr keyChar)])
    with (Seq Bol (Seq (seqs (map lit1 (u prefix))) (Seq (Chr keyChar) (Star (Chr keyChar))))).
  assert (search false
            (Seq Bol (Seq (seqs (map lit1 (u prefix)))
                          (Seq (Chr keyChar) (Star (Chr keyChar))))) None s
          = match_here false
              (Seq Bol (Seq (seqs (map lit1 (u prefix)))
                            (Seq (Chr keyChar) (Star (Chr keyChar))))) None s) as ->.
  { destruct s as [| x s]; cbn [search].
    - by destruct (match_here _ _ _ _).
    - rewrite search_anchored. by destruct (match_here _ _ _ _). }
  unfold match_here. cbn [go at_bol]. rewrite go_literal by exact Hp.
  destruct (JS.startsWith (u prefix) s) eqn:Es.
  - apply startsWith_iff in Es as [post ->].
    rewrite drop_app_length.
    destruct post as [| c post]; cbn [go].
    + split; [done |]. intros (c & post & H & _).
      apply app_inv_head in H. discriminate H.
    + destruct (keyChar c) eqn:Ec.
      * split; [intros _; by exists c, post |]. intros _.
        destruct (star_loop _ _ _ _ _ _) eqn:E; [done |].
        by apply star_loop_accepts in E.
      * split; [done |]. intros (c' & post' & H & Hc).
        apply app_inv_head in H. injection H as -> ->. congruence.
  - split; [done |]. intros (c & post & -> & _).
    assert (JS.startsWith (u prefix) (u prefix ++ c :: post) = true) as E
      by (apply startsWith_iff; by eexists).
    congruence.
Qed.

Lemma isValid_anthropic (key : jstring) :
  isValidApiKeyFormat key anthropic = true
  <-> (10 <= length (JS.trim key))%nat /\
      exists c post, JS.trim key = u "sk-ant-" ++ c :: post /\ keyChar c = true.
Proof.
  unfold isValidApiKeyFormat.
  destruct (length (JS.trim key) <? 10)%nat eqn:E.
  - apply Nat.ltb_lt in E. split; [done | lia].
  - apply Nat.ltb_ge in E. unfold reAnthropicKey.
    rewrite (test_prefix_class "sk-ant-") by done. tauto.
Qed.

Lemma isValid_openai (key : jstring) :
  isValidApiKeyFormat key openai = true
  <-> (10 <= length (JS.trim key))%nat /\
      exists c post, JS.trim key = u "sk-" ++ c :: post /\ keyChar c = true.
Proof.
  unfold isValidApiKeyFormat.
  destruct (length (JS.trim key) <? 10)%nat eqn:E.
  - apply Nat.ltb_lt in E. split; [done | lia].
  - apply Nat.ltb_ge in E. unfold reOpenAIKey.
    rewrite (test_prefix_class "sk-") by done. tauto.
Qed.

Lemma isValid_google (key : jstring) :
  isValidApiKeyFormat key google = true <-> (20 <= length (JS.trim key))%nat.
Proof.
  unfold isValidApiKeyFormat.
  destruct (length (JS.trim key) <? 10)%nat eqn:E.
  - apply Nat.ltb_lt in E. split; [done | lia].
  - apply Nat.leb_le.
Qed.

End KeyFormat.

(** X8.  What the key format check accepts.  The key is trimmed first.
    An Anthropic key must have at least 10 code units and start with
    [sk-ant-] followed by a letter, a digit, [_] or [-]; an OpenAI key
    the same with [sk-]; a Google key only needs 20 code units.  Nothing
    is asked of what follows the first character behind the prefix. *)
Theorem key_format_check_is_a_prefix_test :
  forall key : jstring,
    let trimmed := JS.trim key in
    (isValidApiKeyFormat key anthropic = true
     <-> (10 <= length trimmed)%nat /\
         exists c post, trimmed = u "sk-ant-" ++ c :: post /\ keyChar c = true) /\
    (isValidApiKeyFormat key openai = true
     <-> (10 <= length trimmed)%nat /\
         exists c post, trimmed = u "sk-" ++ c :: post /\ keyChar c = true) /\
    (isValidApiKeyFormat key google = true <-> (20 <= length trimmed)%nat).
Proof.
  intros key. split; [apply isValid_anthropic |].
  split; [apply isValid_openai | apply isValid_google].
Qed.

(** X9.  Every key that passes the check for Anthropic also passes the
    check for OpenAI. *)
Theorem anthropic_key_passes_as_openai_key :
  forall key : jstring,
    isValidApiKeyFormat key anthropic = true ->
    isValidApiKeyFormat key openai = true.
Proof.
  intros key. rewrite isValid_anthropic, isValid_openai.
  intros (Hlen & c & post & E & Hc). split; [exact Hlen |].
  exists 97, (u "nt-" ++ c :: post). split; [exact E | reflexivity].
Qed.

Lemma anthropic_key_sample :
  isValidApiKeyFormat (u "  sk-ant-api03-abcdef  ") openai = true.
Proof.
  apply (anthropic_key_passes_as_openai_key (u "  sk-ant-api03-abcdef  ")).
  reflexivity.
Defined.
(** * Saving and loading a setting *)

Section Quoting.
Import JSON Storage.

Lemma hexValue_hexDigit (v : N) : v < 16 -> hexValue (hexDigit v) = Some v.
Proof.
  intros H. unfold hexDigit, hexValue, isDigit.
  destruct (v <? 10) eqn:E.
  - apply N.ltb_lt in E.
    assert ((48 <=? 48 + v) && (48 + v <=? 57) = true) as ->
      by (apply andb_true_iff; split; apply N.leb_le; lia).
    f_equal. lia.
  - apply N.ltb_ge in E.
    assert ((48 <=? 87 + v) && (87 + v <=? 57) = false) as ->
      by (apply andb_false_iff; right; apply N.leb_gt; lia).
    assert ((97 <=? 87 + v) && (87 + v <=? 102) = true) as ->
      by (apply andb_true_iff; split; apply N.leb_le; lia).
    f_equal. lia.
Qed.

Lemma four_digits (c : N) :
  c < 65536 ->
  (((0 * 16 + (c / 4096) mod 16) * 16 + (c / 256) mod 16) * 16 + (c / 16) mod 16) * 16
  + c mod 16 = c.
Proof.
  intros H.
  assert (c / 4096 < 16) as H3 by (apply N.Div0.div_lt_upper_bound; lia).
  rewrite (N.mod_small (c / 4096)) by exact H3.
  pose proof (N.div_mod c 16 ltac:(lia)) as D0.
  pose proof (N.div_mod (c / 16) 16 ltac:(lia)) as D1.
  pose proof (N.div_mod (c / 256) 16 ltac:(lia)) as D2.
  replace (c / 16 / 16) with (c / 256) in D1 by (rewrite N.Div0.div_div; reflexivity).
  replace (c / 256 / 16) with (c / 4096) in D2 by (rewrite N.Div0.div_div; reflexivity).
  lia.
Qed.

Lemma lex_unicodeEscape (c : N) (acc : jstring) (out : list token) (rest : jstring) :
  c < 65536 ->
  lexGo (LString acc) out (unicodeEscape c ++ rest) = lexGo (LString (c :: acc)) out rest.
Proof.
  intros H. unfold unicodeEscape. cbn [app lexGo].
  change (lexStep (LString acc) 92 out) with (Some (LEscape acc, out)).
  cbn [lexGo]. change (lexStep (LEscape acc) 117 out) with (Some (LUnicode 0 0 acc, out)).
  cbn [lexGo lexStep].
  rewrite hexValue_hexDigit by (apply N.mod_lt; lia). cbn [Nat.eqb lexGo lexStep].
  rewrite hexValue_hexDigit by (apply N.mod_lt; lia). cbn [Nat.eqb lexGo lexStep].
  rewrite hexValue_hexDigit by (apply N.mod_lt; lia). cbn [Nat.eqb lexGo lexStep].
  rewrite hexValue_hexDigit by (apply N.mod_lt; lia). cbn [Nat.eqb].
  by rewrite four_digits.
Qed.

Lemma lex_literal (c : N) (acc : jstring) (out : list token) (rest : jstring) :
  32 <= c -> c <> 34 -> c <> 92 ->
  lexGo (LString acc) out (c :: rest) = lexGo (LString (c :: acc)) out rest.
Proof.
  intros H1 H2 H3. cbn [lexGo lexStep].
  apply N.eqb_neq in H2, H3. apply N.ltb_ge in H1. by rewrite H2, H3, H1.
Qed.

Lemma lex_escapeUnit (c : N) (acc : jstring) (out : list token) (rest : jstring) :
  c < 65536 ->
  lexGo (LString acc) out (escapeUnit c ++ rest) = lexGo (LString (c :: acc)) out rest.
Proof.
  intros H. unfold escapeUnit.
  destruct (c =? 8) eqn:E8; [apply N.eqb_eq in E8 as ->; reflexivity |].
  destruct (c =? 9) eqn:E9; [apply N.eqb_eq in E9 as ->; reflexivity |].
  destruct (c =? 10) eqn:E10; [apply N.eqb_eq in E10 as ->; reflexivity |].
  destruct (c =? 12) eqn:E12; [apply N.eqb_eq in E12 as ->; reflexivity |].
  destruct (c =? 13) eqn:E13; [apply N.eqb_eq in E13 as ->; reflexivity |].
  destruct (c =? 34) eqn:E34; [apply N.eqb_eq in E34 as ->; reflexivity |].
  destruct (c =? 92) eqn:E92; [apply N.eqb_eq in E92 as ->; reflexivity |].
  destruct (c <? 32) eqn:E32; [by apply lex_unicodeEscape |].
  apply N.ltb_ge in E32. apply N.eqb_neq in E34, E92.
  cbn [app]. by apply lex_literal.
Qed.

(** Reading back the quoted text gives the text. *)
Lemma lex_quoteUnits (rest : jstring) (out : list token) :
  forall (n : nat) (s acc : jstring),
    (length s <= n)%nat ->
    Forall (fun c => c < 65536) s ->
    lexGo (LString acc) out (quoteUnits s ++ 34 :: rest)
    = lexGo LStart (TStr (rev acc ++ s) :: out) rest.
Proof.
  induction n as [| n IH]; intros s acc Hn Hs.
  - destruct s; [| cbn in Hn; lia]. rewrite app_nil_r. reflexivity.
  - destruct s as [| c s]; [rewrite app_nil_r; reflexivity |].
    apply Forall_cons in Hs as [Hc Hs]. cbn [length] in Hn.
    assert (forall s', rev (c :: acc) ++ s' = rev acc ++ c :: s') as Hrev
      by (intros s'; cbn [rev]; by rewrite <- app_assoc).
    cbn [quoteUnits].
    destruct (isLeadingSurrogate c) eqn:Elead.
    + destruct s as [| d s].
      * rewrite lex_unicodeEscape by exact Hc. reflexivity.
      * destruct (isTrailingSurrogate d) eqn:Etrail.
        -- apply Forall_cons in Hs as [Hd Hs]. cbn [length] in Hn.
           unfold isLeadingSurrogate in Elead. unfold isTrailingSurrogate in Etrail.
           apply andb_true_iff in Elead as [L1 L2], Etrail as [T1 T2].
           apply N.leb_le in L1, L2, T1, T2.
           cbn [app]. rewrite lex_literal by lia. rewrite lex_literal by lia.
           rewrite IH by (done || lia).
           do 2 f_equal. cbn [rev]. by rewrite <- !app_assoc.
        -- rewrite <- app_assoc, lex_unicodeEscape by exact Hc.
           rewrite IH by (done || lia). by rewrite Hrev.
    + destruct (isTrailingSurrogate c);
        rewrite <- app_assoc; [rewrite lex_unicodeEscape by exact Hc
                              | rewrite lex_escapeUnit by exact Hc];
        (rewrite IH by (done || lia)); by rewrite Hrev.
Qed.

Lemma parse_stringify (s : jstring) :
  Forall (fun c => c < 65536) s -> parse (stringify s) = Some (JString s).
Proof.
  intros Hs. unfold parse, lex, stringify. cbn [app lexGo].
  change (lexStep LStart 34 []) with (Some (LString [], @nil token)).
  cbn beta iota.
  replace (quoteUnits s ++ [34]) with (quoteUnits s ++ 34 :: []) by done.
  rewrite (lex_quoteUnits [] [] (length s)) by done. reflexivity.
Qed.

End Quoting.

(** X12.  A setting saved by the panel is read back unchanged: for every
    string (of UTF-16 code units), when the browser takes the entry,
    [loadFromStorage] of the same key gives back that very string,
    whatever quotes, backslashes, control characters or lone surrogates
    it holds, and a setting under another key is not touched. *)
Theorem saved_setting_is_loaded_back :
  forall (fits : jstring -> jstring -> bool) (key value : jstring)
         (fallback : JSON.json) (items : gmap jstring jstring),
    Forall (fun c => c < 65536) value ->
    fits key (Storage.stringify value) = true ->
    let store := Storage.saveToStorage fits key value (Storage.Available items) in
    Storage.loadFromStorage key fallback store = JSON.JString value /\
    forall other,
      other <> key ->
      Storage.loadFromStorage other fallback store
      = Storage.loadFromStorage other fallback (Storage.Available items).
Proof.
  intros fits key value fallback items Hv Hfits. cbn zeta.
  unfold Storage.saveToStorage. rewrite Hfits. split.
  - unfold Storage.loadFromStorage. rewrite lookup_insert_eq.
    by rewrite parse_stringify.
  - intros other Hother. unfold Storage.loadFromStorage.
    by rewrite lookup_insert_ne.
Qed.

Lemma saved_setting_sample :
  Storage.loadFromStorage Storage.STORAGE_KEYS_projectContext (JSON.JString [])
    (Storage.saveToStorage (fun _ _ => true) Storage.STORAGE_KEYS_projectContext
       (u "say " ++ [34] ++ u "hi" ++ [34; 10; 92; 0xD83D; 0xDE00; 0xDC00; 7])
       (Storage.Available ∅))
  = JSON.JString (u "say " ++ [34] ++ u "hi" ++ [34; 10; 92; 0xD83D; 0xDE00; 0xDC00; 7]).
Proof.
  apply (saved_setting_is_loaded_back (fun _ _ => true)
           Storage.STORAGE_KEYS_projectContext
           (u "say " ++ [34] ++ u "hi" ++ [34; 10; 92; 0xD83D; 0xDE00; 0xDC00; 7])
           (JSON.JString []) ∅).
  - apply (bool_decide_unpack _). vm_compute. exact I.
  - reflexivity.
Defined.
(** * The panel and the host together *)

Section PanelNotices.

(** With no action pending, a notice makes the panel post nothing, and
    the busy state ends exactly on the closing notices. *)
Lemma onmessage_idle (m : MainMessage) (s : Panel.State) :
  Panel.pendingAction s = None ->
  (Panel.onmessage m s).2 = [] /\
  Panel.pendingAction (Panel.onmessage m s).1 = None /\
  Panel.isScanning (Panel.onmessage m s).1
  = (if isFinalNotice m then false else Panel.isScanning s).
Proof.
  intros P. destruct m; cbn; rewrite ?P; done.
Qed.

Lemma receive_app (a b : list MainMessage) (s : Panel.State) :
  Panel.receive (a ++ b) s
  = let '(s1, p1) := Panel.receive a s in
    let '(s2, p2) := Panel.receive b s1 in
    (s2, p1 ++ p2).
Proof.
  revert s. induction a as [| m a IH]; intros s; cbn [app Panel.receive].
  - by destruct (Panel.receive b s).
  - destruct (Panel.onmessage m s) as [s1 p1]. rewrite IH.
    destruct (Panel.receive a s1) as [s2 p2].
    destruct (Panel.receive b s2) as [s3 p3]. by rewrite app_assoc.
Qed.

Lemma receive_idle (ns : list MainMessage) (s : Panel.State) :
  Panel.pendingAction s = None ->
  (Panel.receive ns s).2 = [] /\
  Panel.pendingAction (Panel.receive ns s).1 = None /\
  (Forall (fun x => isFinalNotice x = false) ns ->
   Panel.isScanning (Panel.receive ns s).1 = Panel.isScanning s).
Proof.
  revert s. induction ns as [| m ns IH]; intros s P; cbn [Panel.receive].
  - done.
  - destruct (onmessage_idle m s P) as (E1 & E2 & E3).
    destruct (Panel.onmessage m s) as [s1 p1]. cbn [fst snd] in *.
    destruct (IH s1 E2) as (F1 & F2 & F3).
    destruct (Panel.receive ns s1) as [s2 p2]. cbn [fst snd] in *.
    subst. repeat split; [done |].
    intros H. inversion H as [| ? ? Hm Hns]; subst.
    rewrite Hm in E3. rewrite F3 by done. done.
Qed.

(** A run of notices with a closing one that no closing one follows
    leaves the panel idle. *)
Lemma receive_closed (ms rest : list MainMessage) (x : MainMessage) (s : Panel.State) :
  Panel.pendingAction s = None ->
  isFinalNotice x = true ->
  Forall (fun x => isFinalNotice x = false) rest ->
  Panel.receive (ms ++ x :: rest) s
  = ((Panel.receive (ms ++ x :: rest) s).1, []) /\
  Panel.pendingAction (Panel.receive (ms ++ x :: rest) s).1 = None /\
  Panel.isScanning (Panel.receive (ms ++ x :: rest) s).1 = false.
Proof.
  intros P Hx Hrest.
  destruct (receive_idle (ms ++ x :: rest) s P) as (E1 & E2 & _).
  split; [| split; [done |]].
  { destruct (Panel.receive (ms ++ x :: rest) s); cbn in *; by subst. }
  rewrite receive_app.
  destruct (receive_idle ms s P) as (_ & F2 & _).
  destruct (Panel.receive ms s) as [s1 p1]. cbn [fst snd] in *.
  cbn [Panel.receive].
  destruct (onmessage_idle x s1 F2) as (_ & G2 & G3). rewrite Hx in G3.
  destruct (Panel.onmessage x s1) as [s2 p2]. cbn [fst snd] in *.
  destruct (receive_idle rest s2 G2) as (_ & _ & K3).
  destruct (Panel.receive rest s2) as [s3 p3]. cbn [fst snd] in *.
  rewrite K3 by done. done.
Qed.

End PanelNotices.

Section HostNotices.

Lemma try_returns {A} (body : M A) (handler : JsError -> M A) (a : A)
    (w : World) (st : State) :
  (body w st).1 = Ok a ->
  tryCatchFinally body handler (ret tt) w st = body w st.
Proof.
  unfold tryCatchFinally. destruct (body w st) as [[a' | e] st1]; cbn; [| done].
  by intros [= ->].
Qed.

Lemma tail_of_trace (before tail : list Event) :
  drop (length before) (before ++ tail) = tail.
Proof. by rewrite drop_app_length. Qed.

(** What the host posts for a scan message, in either revision. *)
Lemma scan_notices (onmessage : Payload -> M unit) (msg : UIMessage)
    (w : World) (host : State) :
  onmessage = Main1.onmessage \/ onmessage = Main2.onmessage ->
  (exists k p c m, msg = ScanScreens k p (Some c) (Some m) None None) \/
  (exists k p c m, msg = ScanFlow k p (Some c) (Some m)) ->
  exists ms x rest,
    (hostNotices onmessage w host msg).2 = ms ++ x :: rest /\
    isFinalNotice x = true /\
    Forall (fun x => isFinalNotice x = false) rest.
Proof.
  intros Hon Hmsg. unfold hostNotices. cbn [snd].
  assert (exists (handler : M unit) (report : JsError -> M unit),
             settlesOnce handler /\
             onmessage (Plain msg)
             = tryCatchFinally (catchRejection handler report) report (ret tt))
    as (handler & report & Hs & ->).
  { destruct Hon as [-> | ->], Hmsg as [(k & p & c & m & ->) | (k & p & c & m & ->)];
      cbn [Main1.onmessage Main2.onmessage unwrap Main1.dispatch Main2.dispatch];
      eexists _, _; (split; [| reflexivity]).
    - apply settlesOnce_handleScanScreens1.
    - apply settlesOnce_handleScanFlow1.
    - intros w' st'.
      destruct (settles_handleScanScreens2 k p (Some (default [] (Some c))) (Some m)
                  (Some (None, None)) w' st') as (R & tail & ms & x & T & N & F & Hx).
      split; [done |]. exists tail, ms, x, []. done.
    - intros w' st'.
      destruct (settles_handleScanFlow2 k p (Some (default [] (Some c))) (Some m) w' st')
        as (R & tail & ms & x & T & N & F & Hx).
      split; [done |]. exists tail, ms, x, []. done. }
  destruct (Hs w host) as (R & tail & ms & x & rest & T & N & F & Hx & Hrest).
  unfold catchRejection.
  rewrite (try_returns _ _ tt); rewrite (try_returns _ _ tt); try done.
  rewrite T, tail_of_trace. by exists ms, x, rest.
Qed.

(** What the host posts for [set-api-key]: one notice, and the key is
    accepted exactly when it is not blank and has the format of the
    provider. *)
Lemma key_notices (onmessage : Payload -> M unit) (key : jstring) (prov : AIProvider)
    (ctx : option jstring) (w : World) (host : State) :
  onmessage = Main1.onmessage \/ onmessage = Main2.onmessage ->
  (hostNotices onmessage w host (SetApiKey key (Some prov) ctx)).2 = [MsgApiKeyValid] \/
  exists message,
    (hostNotices onmessage w host (SetApiKey key (Some prov) ctx)).2
    = [MsgApiKeyError message].
Proof.
  intros Hon. unfold hostNotices. cbn [snd].
  assert (exists report : JsError -> M unit,
            onmessage (Plain (SetApiKey key (Some prov) ctx))
            = tryCatchFinally (setApiKey key (Some prov) ctx) report (ret tt))
    as (report & ->).
  { destruct Hon as [-> | ->]; by eexists. }
  unfold setApiKey. change (default anthropic (Some prov)) with prov.
  destruct (JS.trim key) as [| c t].
  - right. eexists. rewrite (try_returns _ _ tt) by done.
    cbn [sendToUI emit record trace snd].
    rewrite tail_of_trace. reflexivity.
  - destruct (isValidApiKeyFormat (c :: t) prov); cbn [negb].
    + left. rewrite (try_returns _ _ tt) by reflexivity.
      rewrite bind_eval. cbn [setSession sendToUI emit record trace snd].
      rewrite tail_of_trace. reflexivity.
    + right. eexists. rewrite (try_returns _ _ tt) by done.
      cbn [sendToUI emit record trace snd]. rewrite tail_of_trace. reflexivity.
Qed.

End HostNotices.

Section Clicks.

Lemma exchange_cons (onmessage : Payload -> M unit) (rounds : nat) (w : World)
    (p : Panel.Posted) (posted : list Panel.Posted) (host : State)
    (panel : Panel.State) (msg : UIMessage) :
  toHost p = Some msg ->
  exchange onmessage (S rounds) w (p :: posted) host panel
  = let '(host1, notices) := hostNotices onmessage w host msg in
    let '(panel1, more) := Panel.receive notices panel in
    exchange onmessage rounds w (posted ++ more) host1 panel1.
Proof. intros H. cbn [exchange]. by rewrite H. Qed.

(** A scan message of the panel, handled by the host and answered. *)
Lemma scan_round (onmessage : Payload -> M unit) (p : Panel.Posted)
    (w : World) (host : State) (panel : Panel.State) (rounds : nat) :
  onmessage = Main1.onmessage \/ onmessage = Main2.onmessage ->
  (exists k pr c m, p = Panel.PostScanScreens k pr c m) \/
  (exists k pr c m, p = Panel.PostScanFlow k pr c m) ->
  Panel.pendingAction panel = None ->
  exists host' panel',
    exchange onmessage (S rounds) w [p] host panel = (host', panel', []) /\
    Panel.isScanning panel' = false /\ Panel.pendingAction panel' = None.
Proof.
  intros Hon Hp P.
  assert (exists msg, toHost p = Some msg /\
            ((exists k p c m, msg = ScanScreens k p (Some c) (Some m) None None) \/
             (exists k p c m, msg = ScanFlow k p (Some c) (Some m))))
    as (msg & Hto & Hmsg).
  { destruct Hp as [(k & pr & c & m & ->) | (k & pr & c & m & ->)];
      eexists; (split; [reflexivity |]); [left | right]; by eexists _, _, _, _. }
  rewrite (exchange_cons _ _ _ _ _ _ _ msg Hto).
  destruct (scan_notices onmessage msg w host Hon Hmsg) as (ms & x & rest & N & Hx & Hrest).
  destruct (hostNotices onmessage w host msg) as [host1 notices]. cbn [snd] in N. subst.
  destruct (receive_closed ms rest x panel P Hx Hrest) as (E & Q & I).
  rewrite E. cbn [app].
  exists host1, (Panel.receive (ms ++ x :: rest) panel).1.
  by destruct rounds.
Qed.

End Clicks.

(** X13.  A click on either scan button, when the button is enabled and no
    action is pending, always comes to an end with the panel idle
    again: whether the panel was connected or has the key checked
    first, whichever revision of the host answers, and whatever is
    selected and whatever the vendor replies.  No message of the panel
    is left unhandled. *)
Theorem scan_click_leaves_the_panel_idle :
  forall (handler : Panel.State -> Panel.State * list Panel.Posted)
         (onmessage : Payload -> M unit)
         (w : World) (host : State) (panel : Panel.State),
    handler = Panel.handleScanScreens \/ handler = Panel.handleScanFlow ->
    onmessage = Main1.onmessage \/ onmessage = Main2.onmessage ->
    Panel.canAct panel = true ->
    Panel.pendingAction panel = None ->
    exists host' panel',
      click handler onmessage w host panel = (host', panel', []) /\
      Panel.isScanning panel' = false /\
      Panel.pendingAction panel' = None.
Proof.
  intros handler onmessage w host panel Hh Hon Hact P.
  unfold click.
  destruct (Panel.isConnected panel) eqn:Hc.
  - (* connected: the scan message is posted at once *)
    assert (exists s p, handler panel = (s, [p]) /\ Panel.pendingAction s = None /\
              ((exists k pr c m, p = Panel.PostScanScreens k pr c m) \/
               (exists k pr c m, p = Panel.PostScanFlow k pr c m)))
      as (s & p & -> & Ps & Hp).
    { destruct Hh as [-> | ->];
        unfold Panel.handleScanScreens, Panel.handleScanFlow;
        rewrite Hact, Hc; cbn [negb];
        eexists _, _; (split; [reflexivity |]); (split; [exact P |]);
        [left | right]; by eexists _, _, _, _. }
    by apply scan_round.
  - (* not connected: the key is checked first *)
    assert (exists pending,
              handler panel = (Panel.validating pending panel,
                               [Panel.validateApiKey panel]) /\
              exists s p,
                Panel.onmessage MsgApiKeyValid (Panel.validating pending panel) = (s, [p]) /\
                Panel.pendingAction s = None /\
                ((exists k pr c m, p = Panel.PostScanScreens k pr c m) \/
                 (exists k pr c m, p = Panel.PostScanFlow k pr c m)))
      as (pending & -> & s & p & Hvalid & Ps & Hp).
    { destruct Hh as [-> | ->];
        unfold Panel.handleScanScreens, Panel.handleScanFlow;
        rewrite Hact, Hc; cbn [negb];
        eexists; (split; [reflexivity |]); eexists _, _;
        (split; [reflexivity |]); (split; [reflexivity |]);
        [left | right]; by eexists _, _, _, _. }
    rewrite (exchange_cons _ _ _ (Panel.validateApiKey panel) _ _ _
               (SetApiKey (Panel.apiKey panel) (Some (Panel.selectedProvider panel))
                  match JS.trim (Panel.projectContext panel) with
                  | [] => None
                  | c :: t => Some (c :: t)
                  end) eq_refl).
    destruct (key_notices onmessage (Panel.apiKey panel) (Panel.selectedProvider panel)
                match JS.trim (Panel.projectContext panel) with
                | [] => None
                | c :: t => Some (c :: t)
                end w host Hon) as [N | (message & N)];
      destruct (hostNotices onmessage w host _) as [host1 notices];
      cbn [snd] in N; subst notices; cbn [Panel.receive].
    + rewrite Hvalid. cbn [app]. by apply scan_round.
    + cbn [Panel.onmessage app]. by eexists _, _.
Qed.

Lemma scan_click_sample :
  exists host' panel',
    click Panel.handleScanFlow Main1.onmessage emptyWorld sampleState samplePanel
    = (host', panel', []) /\
    Panel.isScanning panel' = false /\
    Panel.pendingAction panel' = None.
Proof.
  apply (scan_click_leaves_the_panel_idle Panel.handleScanFlow Main1.onmessage
           emptyWorld sampleState samplePanel).
  - by right.
  - by left.
  - vm_compute. reflexivity.
  - reflexivity.
Defined.

Section Regenerate.

Lemma silent_notices (w : World) (host : State)
    (items : list Parser.MissingScreenItem) (documentation key : jstring)
    (prov : AIProvider) (ctx model : option jstring) :
  chooseKey key (session host) = [] ->
  hostNotices Main1.onmessage w host
    (GenerateMissingScreens items documentation key prov ctx model)
  = (host, []).
Proof.
  intros Hkey. unfold hostNotices.
  cbn [Main1.onmessage unwrap Main1.dispatch]. unfold catchRejection.
  assert (Rev1.handleGenerateMissingScreens items documentation key prov
            (Some (default [] ctx)) model w host = (Ok tt, host)) as E.
  { unfold Rev1.handleGenerateMissingScreens. rewrite bind_eval. cbn [getSession].
    by rewrite Hkey. }
  rewrite (try_returns _ _ tt); rewrite (try_returns _ _ tt); rewrite ?E; try done.
  cbn [snd]. by rewrite drop_all.
Qed.

Lemma regeneration_notices (w : World) (host : State)
    (items : list Parser.MissingScreenItem) (documentation key : jstring)
    (prov : AIProvider) (ctx model : option jstring) :
  chooseKey key (session host) <> [] ->
  items <> [] ->
  exists ms x,
    (hostNotices Main1.onmessage w host
       (GenerateMissingScreens items documentation key prov ctx model)).2 = ms ++ [x] /\
    isFinalNotice x = true.
Proof.
  intros Hkey Hitems. unfold hostNotices.
  cbn [Main1.onmessage unwrap Main1.dispatch snd]. unfold catchRejection.
  destruct (endsClosed_regeneration items documentation key prov
              (Some (default [] ctx)) model w host Hkey Hitems)
    as (R & tail & ms & x & T & N & Hx).
  rewrite (try_returns _ _ tt); rewrite (try_returns _ _ tt); try done.
  rewrite T, tail_of_trace. by exists ms, x.
Qed.

End Regenerate.

(** X14.  A click on [Create Missing Screens] with the earlier revision of
    the host: when the key the host chooses (the key field of the panel,
    or the session key when the field is empty) is blank once trimmed,
    the host does nothing and answers nothing, and the panel stays busy;
    with any other key the panel is idle again when the host is done. *)
Theorem regeneration_click_needs_a_key :
  forall (w : World) (host : State) (panel : Panel.State)
         (missing : list JSON.json) (documentation : jstring)
         (items : list Parser.MissingScreenItem),
    Panel.edgeCaseResult panel = Some (missing, documentation) ->
    missing <> [] ->
    mapM Parser.asItem missing = Some items ->
    Panel.pendingAction panel = None ->
    exists host' panel',
      click Panel.handleCreateMissingScreens Main1.onmessage w host panel
      = (host', panel', []) /\
      if decide (chooseKey (Panel.apiKey panel) (session host) = [])
      then host' = host /\ Panel.isScanning panel' = true
      else Panel.isScanning panel' = false.
Proof.
  intros w host panel missing documentation items Hres Hne Hitems P.
  assert (items <> []) as Hne'.
  { apply length_mapM in Hitems. destruct missing, items; done. }
  unfold click, Panel.handleCreateMissingScreens. rewrite Hres.
  destruct missing as [| entry missing]; [done |].
  rewrite (exchange_cons _ _ _ _ _ _ _
             (GenerateMissingScreens items documentation (Panel.apiKey panel)
                (Panel.selectedProvider panel) (Some (Panel.projectContext panel))
                (Some (Panel.selectedModel panel))));
    [| cbn [toHost]; by rewrite Hitems].
  destruct (decide (chooseKey (Panel.apiKey panel) (session host) = [])) as [Hkey | Hkey].
  - rewrite silent_notices by done. cbn [Panel.receive app].
    eexists _, _. split; [reflexivity |]. done.
  - destruct (regeneration_notices w host items documentation (Panel.apiKey panel)
                (Panel.selectedProvider panel) (Some (Panel.projectContext panel))
                (Some (Panel.selectedModel panel)) Hkey Hne') as (ms & x & N & Hx).
    destruct (hostNotices Main1.onmessage w host _) as [host1 notices].
    cbn [snd] in N. subst notices.
    match goal with
    | |- context [Panel.receive _ ?s] =>
        destruct (receive_closed ms [] x s P Hx (Forall_nil_2 _)) as (E & _ & I)
    end.
    rewrite E. cbn [app]. eexists _, _. split; [reflexivity |]. exact I.
Qed.

Lemma blank_key_sample :
  exists host' panel',
    click Panel.handleCreateMissingScreens Main1.onmessage emptyWorld sampleState
      blankKeyPanel
    = (host', panel', []) /\
    if decide (chooseKey (Panel.apiKey blankKeyPanel) (session sampleState) = [])
    then host' = sampleState /\ Panel.isScanning panel' = true
    else Panel.isScanning panel' = false.
Proof.
  apply (regeneration_click_needs_a_key emptyWorld sampleState blankKeyPanel
           [criticalEntry] (u "Payment failed")
           [{| Parser.name := u "Payment failed"; Parser.reason := u "No error state";
               Parser.components_needed := [u "Banner"];
               Parser.severity := u "critical";
               Parser.reference_screen := u "Checkout" |}]).
  - reflexivity.
  - discriminate.
  - vm_compute. reflexivity.
  - reflexivity.
Defined.
(** * More on searching and replacing *)

Section Searching.
Import Regex.

(** A match found by a search is a match at some position of the text:
    what stands before that position is skipped. *)
Lemma search_position (m : bool) (r : regex) (s : jstring) :
  forall (prev : option N) (f : found),
    search m r prev s = Some f ->
    exists (s0 : jstring) (prev0 : option N) (f0 : found),
      s = before f ++ s0 /\ match_here m r prev0 s0 = Some f0 /\
      matched f0 = matched f /\ rest f0 = rest f /\ rest_prev f0 = rest_prev f /\
      group1 f0 = group1 f.
Proof.
  induction s as [| c s IH]; intros prev f H; cbn [search] in H.
  - destruct (match_here m r prev []) as [f0 |] eqn:E; [| done].
    injection H as <-. exists [], prev, f0.
    assert (before f0 = []) as ->; [| done].
    unfold match_here in E. apply go_reaches in E as (? & ? & ? & [= <-] & _). done.
  - destruct (match_here m r prev (c :: s)) as [f0 |] eqn:E.
    + injection H as <-. exists (c :: s), prev, f0.
      assert (before f0 = []) as ->; [| done].
      unfold match_here in E. apply go_reaches in E as (? & ? & ? & [= <-] & _). done.
    + destruct (search m r (Some c) s) as [f1 |] eqn:E1; [| done].
      injection H as <-. cbn [before matched rest rest_prev group1].
      destruct (IH _ _ E1) as (s0 & prev0 & f0 & -> & H0 & G).
      by exists s0, prev0, f0.
Qed.

(** A match at a position: the matched text and the rest make up the
    text. *)
Lemma match_here_parts (m : bool) (r : regex) (prev : option N) (s : jstring) (f : found) :
  match_here m r prev s = Some f -> s = matched f ++ rest f.
Proof.
  unfold match_here. intros H.
  apply go_reaches in H as (prev' & s' & cap' & [= <-] & [pre ->]).
  cbn [matched rest]. rewrite length_app.
  replace (length pre + length s' - length s')%nat with (length pre) by lia.
  by rewrite take_app_length.
Qed.

Lemma search_parts (m : bool) (r : regex) (prev : option N) (s : jstring) (f : found) :
  search m r prev s = Some f -> s = before f ++ matched f ++ rest f.
Proof.
  intros H. apply search_position in H as (s0 & prev0 & f0 & -> & H & <- & <- & _).
  by rewrite <- (match_here_parts _ _ _ _ _ H).
Qed.

(** A pattern that begins with a code unit matches no empty text. *)
Lemma match_here_chr (m : bool) (p : N -> bool) (r : regex) (prev : option N)
    (s : jstring) (f : found) :
  match_here m (Seq (Chr p) r) prev s = Some f ->
  exists c t, matched f = c :: t /\ p c = true.
Proof.
  intros H. unfold match_here in H. cbn [go] in H.
  destruct s as [| c s]; [done |]. destruct (p c) eqn:Hc; [| done].
  apply go_reaches in H as (prev' & s' & cap' & [= <-] & [pre ->]).
  cbn [matched length]. exists c, (take (length pre) (pre ++ s')).
  split; [| exact Hc].
  assert (S (length (pre ++ s')) - length s' = S (length pre))%nat as ->
    by (rewrite length_app; lia).
  reflexivity.
Qed.

End Searching.
(** * The classifiers: the status-code block and the length of the answer *)

Section StatusCode.
Import Regex.

(** The status code read out of a message stands in the message. *)
Lemma apiErrorCode_in (message code : jstring) :
  apiErrorCode message = Some code -> JS.includes message code = true.
Proof.
  unfold apiErrorCode, exec. intros H.
  destruct (search false reApiError None message) as [f |] eqn:E; [| done].
  apply search_position in E as (s0 & prev0 & f0 & -> & E & _ & _ & _ & G).
  rewrite <- G in H. clear G. set (pre := before f). clearbody pre. clear f.
  unfold match_here, reApiError, lit in E. cbn [go] in E.
  rewrite go_literal in E by done.
  destruct (JS.startsWith (u "API error ") s0) eqn:Es; [| done].
  apply startsWith_iff in Es as [post ->].
  rewrite drop_app_length in E.
  apply go_reaches in E as (prev' & s' & cap' & E & Hs).
  injection E as <-. cbn [group1] in H. injection H as <-.
  apply includes_iff.
  exists (pre ++ u "API error "), (drop (length post - length s') post).
  by rewrite take_drop, <- app_assoc.
Qed.

Lemma code_in (message code : jstring) (c : string) :
  apiErrorCode message = Some code -> codeIs code c = true -> has message c = true.
Proof.
  intros H Hc. unfold codeIs in Hc. unfold has. apply bool_decide_eq_true in Hc as <-.
  by apply apiErrorCode_in.
Qed.

End StatusCode.

(** X15.  In both revisions of the error classifier the block that reads
    the status code out of [API error NNN] never decides the answer:
    every code it knows stands in the message, so one of the tests
    before the block has answered already.  The classifier gives the
    same answer as the one without the block, for every error. *)
Theorem status_code_block_never_decides :
  forall (label : jstring) (typeErr : bool) (message : jstring),
    Rev1.classify typeErr message = classifyByPatterns1 typeErr message /\
    Rev2.classify label typeErr message = classifyByPatterns2 label typeErr message.
Proof.
  intros label typeErr message. split.
  - unfold Rev1.classify, classifyByPatterns1. cbn zeta.
    destruct (has message "401") eqn:H401; [done |].
    destruct (has message "402") eqn:H402; [by rewrite !orb_true_l |].
    destruct (has message "429") eqn:H429; [by rewrite !orb_true_l |].
    destruct (has message "529") eqn:H529; [by rewrite !orb_true_l |].
    destruct (has message "503") eqn:H503; [by rewrite !orb_true_l, ?orb_true_r |].
    destruct (has message "API error"); [| done].
    destruct (apiErrorCode message) as [code |] eqn:E; [| done].
    destruct (codeIs code "401") eqn:C1; [by rewrite (code_in _ _ _ E C1) in H401 |].
    destruct (codeIs code "402") eqn:C2; [by rewrite (code_in _ _ _ E C2) in H402 |].
    destruct (codeIs code "429") eqn:C3; [by rewrite (code_in _ _ _ E C3) in H429 |].
    destruct (codeIs code "503") eqn:C4; [by rewrite (code_in _ _ _ E C4) in H503 |].
    destruct (codeIs code "529") eqn:C5; [by rewrite (code_in _ _ _ E C5) in H529 |].
    done.
  - unfold Rev2.classify, classifyByPatterns2.
    destruct (Rev2.keyPattern message) eqn:K; [done |].
    destruct (Rev2.ratePattern message) eqn:Ra; [done |].
    destruct (Rev2.creditPattern message) eqn:Cr; [done |].
    destruct (Rev2.requestPattern message) eqn:Rq; [done |].
    destruct (Rev2.serverPattern message) eqn:Sv; [done |].
    unfold Rev2.answerByCode.
    destruct (has message "API error"); [| done].
    destruct (apiErrorCode message) as [code |] eqn:E; [| done].
    unfold Rev2.keyPattern, Rev2.ratePattern, Rev2.creditPattern,
      Rev2.requestPattern, Rev2.serverPattern in *.
    cbn zeta in *.
    repeat match goal with
           | H : _ || _ = false |- _ => apply orb_false_elim in H as [? ?]
           end.
    destruct (codeIs code "401") eqn:C1; [rewrite (code_in _ _ _ E C1) in *; done |].
    destruct (codeIs code "402") eqn:C2; [rewrite (code_in _ _ _ E C2) in *; done |].
    destruct (codeIs code "429") eqn:C3; [rewrite (code_in _ _ _ E C3) in *; done |].
    destruct (codeIs code "400") eqn:C4; [rewrite (code_in _ _ _ E C4) in *; done |].
    destruct (codeIs code "500") eqn:C5; [rewrite (code_in _ _ _ E C5) in *; done |].
    destruct (codeIs code "502") eqn:C6; [rewrite (code_in _ _ _ E C6) in *; done |].
    destruct (codeIs code "503") eqn:C7; [rewrite (code_in _ _ _ E C7) in *; done |].
    destruct (codeIs code "529") eqn:C8; [rewrite (code_in _ _ _ E C8) in *; done |].
    done.
Qed.

Section AnswerLength.

Lemma genericError_length (message : jstring) :
  (length (genericError message) <= 307)%nat.
Proof.
  unfold genericError, JS.slice0.
  destruct (300 <? length message)%nat eqn:E.
  - rewrite !length_app, length_take.
    replace (length (u "Error: ")) with 7%nat by reflexivity.
    replace (length (u "...")) with 3%nat by reflexivity. lia.
  - apply Nat.ltb_ge in E. rewrite length_app.
    replace (length (u "Error: ")) with 7%nat by reflexivity. lia.
Qed.

Lemma label_length (provider : option AIProvider) :
  (length (Rev2.labelOf provider) <= 9)%nat.
Proof. destruct provider as [[] |]; vm_compute; lia. Qed.

(** The answers of the later classifier: a fixed text around the label,
    or the message itself behind [Error: ]. *)
Lemma classify2_length (label : jstring) (typeErr : bool) (message : jstring) :
  (length label <= 9)%nat ->
  (length (Rev2.classify label typeErr message) <= 307)%nat.
Proof.
  intros Hl.
  assert (length (Rev2.MSG_INVALID_KEY label) <= 307)%nat as H1.
  { unfold Rev2.MSG_INVALID_KEY. rewrite length_app.
    replace (length (u ": Invalid API key. Please check your key and try again."))
      with 55%nat by reflexivity. lia. }
  assert (length (Rev2.MSG_CREDITS label) <= 307)%nat as H2.
  { unfold Rev2.MSG_CREDITS. rewrite !length_app.
    replace (length (u "Insufficient API credits. Please add credits to your "))
      with 53%nat by reflexivity.
    replace (length (u " account.")) with 9%nat by reflexivity. lia. }
  assert (length (Rev2.MSG_ISSUES label) <= 307)%nat as H3.
  { unfold Rev2.MSG_ISSUES. rewrite length_app.
    replace (length (u " is experiencing issues. Please try again in a few minutes."))
      with 59%nat by reflexivity. lia. }
  assert (length Rev2.MSG_RATE_LIMIT <= 307)%nat as H4 by (vm_compute; lia).
  assert (length Rev2.MSG_REQUEST <= 307)%nat as H5 by (vm_compute; lia).
  assert (length Rev2.MSG_TIMEOUT <= 307)%nat as H6 by (vm_compute; lia).
  assert (length Rev2.MSG_CONNECTION <= 307)%nat as H7 by (vm_compute; lia).
  assert (length Rev2.MSG_SELECTION <= 307)%nat as H8 by (vm_compute; lia).
  assert (length Rev2.MSG_PARSE <= 307)%nat as H9 by (vm_compute; lia).
  pose proof (genericError_length message) as H10.
  unfold Rev2.classify, Rev2.answerByCode.
  repeat match goal with
         | |- context [if ?b then _ else _] => destruct b
         | |- context [match apiErrorCode ?m with _ => _ end] => destruct (apiErrorCode m)
         end; assumption.
Qed.

Lemma classify1_length (typeErr : bool) (message : jstring) :
  (length (Rev1.classify typeErr message) <= 307)%nat.
Proof.
  assert (length Rev1.MSG_INVALID_KEY <= 307)%nat as H1 by (vm_compute; lia).
  assert (length Rev1.MSG_CREDITS <= 307)%nat as H2 by (vm_compute; lia).
  assert (length Rev1.MSG_RATE_LIMIT <= 307)%nat as H3 by (vm_compute; lia).
  assert (length Rev1.MSG_OVERLOADED <= 307)%nat as H4 by (vm_compute; lia).
  assert (length Rev1.MSG_SELECTION <= 307)%nat as H5 by (vm_compute; lia).
  assert (length Rev1.MSG_NETWORK <= 307)%nat as H6 by (vm_compute; lia).
  assert (length Rev1.MSG_PARSE <= 307)%nat as H7 by (vm_compute; lia).
  pose proof (genericError_length message) as H8.
  unfold Rev1.classify. cbn zeta.
  repeat match goal with
         | |- context [if ?b then _ else _] => destruct b
         | |- context [match apiErrorCode ?m with _ => _ end] => destruct (apiErrorCode m)
         end; assumption.
Qed.

End AnswerLength.

(** X16.  Whatever is thrown, the text either classifier answers with has
    at most 307 code units: the longest answer is a message of more
    than 300 code units cut to 297, between [Error: ] and three dots. *)
Theorem error_text_has_at_most_307_units :
  forall (error : JsError) (provider : option AIProvider),
    (length (Rev1.getUserFriendlyError error) <= 307)%nat /\
    (length (Rev2.getUserFriendlyError error provider) <= 307)%nat.
Proof.
  intros error provider. split; [apply classify1_length |].
  apply classify2_length, label_length.
Qed.
(** * What is read from the selected frames *)

Section Trees.

(** Induction on a tree, with the property known for all the
    children. *)
Lemma SceneNode_tree_ind (P : SceneNode -> Prop) :
  (forall type id name width height children,
      Forall P children -> P (Node type id name width height children)) ->
  forall node, P node.
Proof.
  intros H. fix IH 1. intros [type id name width height children].
  apply H. induction children as [| c children IHc]; constructor; [apply IH | exact IHc].
Qed.

Lemma setAdd_spec (x : jstring) (out : list jstring) :
  NoDup out ->
  NoDup (setAdd x out) /\ forall y, y ∈ setAdd x out <-> y ∈ out \/ y = x.
Proof.
  intros Hout. unfold setAdd. destruct (bool_decide (x ∈ out)) eqn:E.
  - apply bool_decide_eq_true in E. split; [done |].
    intros y. split; [by left | intros [H | ->]; done].
  - apply bool_decide_eq_false in E. split.
    + apply NoDup_app. repeat split; [done | | apply NoDup_singleton].
      intros y Hy Hy'. apply list_elem_of_singleton in Hy' as ->. done.
    + intros y. by rewrite elem_of_app, list_elem_of_singleton.
Qed.

(** The names in [out] after a visit: those before, and those of the
    components and instances of the tree; none twice. *)
Lemma collect_spec (node : SceneNode) :
  forall out,
    NoDup out ->
    NoDup (collectComponentNames node out) /\
    forall x, x ∈ collectComponentNames node out
              <-> x ∈ out \/
                  exists n, n ∈ nodesOf node /\ isComponentOrInstance n = true /\
                            componentName n = x.
Proof.
  induction node as [type id name width height children IH] using SceneNode_tree_ind.
  intros out Hout. cbn [collectComponentNames nodesOf].
  set (self := Node type id name width height children).
  set (out1 := if bool_decide (type = u "COMPONENT") || bool_decide (type = u "INSTANCE")
               then setAdd (orElse name (u "Unknown")) out else out).
  assert (NoDup out1 /\
          forall x, x ∈ out1 <-> x ∈ out \/
                    (isComponentOrInstance self = true /\ componentName self = x))
    as [Hout1 Hmem1].
  { subst out1. unfold isComponentOrInstance, componentName. cbn [self node_type node_name].
    destruct (bool_decide (type = u "COMPONENT") || bool_decide (type = u "INSTANCE")).
    - destruct (setAdd_spec (orElse name (u "Unknown")) out Hout) as [H1 H2].
      split; [done |]. intros x. rewrite H2. split.
      + intros [H | ->]; [by left | by right].
      + intros [H | [_ <-]]; [by left | by right].
    - split; [done |]. intros x. split; [by left |].
      intros [H | [H _]]; [done | discriminate H]. }
  clearbody out1.
  assert (forall acc,
             NoDup acc ->
             NoDup (fold_left (fun acc child => collectComponentNames child acc) children acc) /\
             forall x,
               x ∈ fold_left (fun acc child => collectComponentNames child acc) children acc
               <-> x ∈ acc \/
                   exists n, n ∈ flat_map nodesOf children /\
                             isComponentOrInstance n = true /\ componentName n = x)
    as Hfold.
  { clear Hout1 Hmem1 Hout out out1. subst self.
    induction children as [| c children IHc]; intros acc Hacc; cbn [fold_left flat_map].
    - split; [done |]. intros x. split; [by left |].
      intros [H | (n & H & _)]; [done | by apply elem_of_nil in H].
    - apply Forall_cons in IH as [IHhead IHtail].
      destruct (IHhead acc Hacc) as [H1 H2].
      destruct (IHc IHtail _ H1) as [H3 H4].
      split; [done |]. intros x. rewrite H4, H2. split.
      + intros [[H | (n & Hn & Hc)] | (n & Hn & Hc)]; [by left | right | right];
          exists n; (split; [| done]); apply elem_of_app; [by left | by right].
      + intros [H | (n & Hn & Hc)]; [by left; left |].
        apply elem_of_app in Hn as [Hn | Hn]; [left; right | right]; by exists n. }
  destruct (Hfold out1 Hout1) as [H1 H2]. split; [done |].
  intros x. rewrite H2, Hmem1. split.
  - intros [[H | [Hc Hx]] | (n & Hn & Hc)]; [by left | right | right].
    + exists self. split; [apply list_elem_of_here | done].
    + exists n. split; [by apply list_elem_of_further | done].
  - intros [H | (n & Hn & Hc & Hx)]; [by left; left |].
    apply elem_of_cons in Hn as [-> | Hn]; [left; right; done | right; by exists n].
Qed.

End Trees.

(** X17.  The component names recorded for a frame hold no name twice, and
    hold exactly the names of the nodes of type [COMPONENT] or
    [INSTANCE] in the tree of the frame, the frame itself included and
    at any depth, with [Unknown] for a node without a name. *)
Theorem component_names_are_collected_once :
  forall (node : SceneNode),
    NoDup (fd_componentNames (frameDataOf node)) /\
    forall x : jstring,
      x ∈ fd_componentNames (frameDataOf node)
      <-> exists n, n ∈ nodesOf node /\ isComponentOrInstance n = true /\
                    componentName n = x.
Proof.
  intros node.
  assert (fd_componentNames (frameDataOf node) = collectComponentNames node []) as ->
    by by destruct node.
  destruct (collect_spec node [] NoDup_nil_2) as [H1 H2]. split; [done |].
  intros x. rewrite H2. split; [| by right].
  intros [H | H]; [by apply elem_of_nil in H | done].
Qed.

Section Layers.

Lemma In_firstn {A} (x : A) (n : nat) (l : list A) : In x (firstn n l) -> In x l.
Proof.
  revert n. induction l as [| a l IH]; intros [| n]; cbn; try done.
  intros [H | H]; [by left | right; by apply (IH n)].
Qed.

Lemma firstChildren_map (describe : SceneNode -> jstring) (l : list SceneNode) (n : nat) :
  (fix firstChildren (l : list SceneNode) (limit : nat) : list jstring :=
     match l, limit with
     | c :: l', S limit' => describe c :: firstChildren l' limit'
     | _, _ => []
     end) l n
  = map describe (take n l).
Proof.
  revert n. induction l as [| c l IH]; intros n; [by destruct n |].
  destruct n as [| n]; [done |]. cbn [take map]. f_equal. apply IH.
Qed.

(** The description of a node with children: its own line, then the
    descriptions of the first fifty children. *)
Lemma describeNode_children (type id name : jstring) (width height : JSON.number)
    (c : SceneNode) (children : list SceneNode) (depth : nat) :
  describeNode (Node type id name width height (c :: children)) depth
  = (indentOf depth ++ u "- " ++ orElse name (u "(unnamed)") ++ u " (" ++ type ++ u ")")
    ++ [10] ++ JS.join [10] (map (fun c => describeNode c (S depth))
                               (take 50 (c :: children))).
Proof.
  rewrite <- (firstChildren_map (fun c => describeNode c (S depth)) (c :: children) 50).
  reflexivity.
Qed.

Lemma describeNode_firstFifty (node : SceneNode) :
  forall depth, describeNode (firstFifty node) depth = describeNode node depth.
Proof.
  induction node as [type id name width height children IH] using SceneNode_tree_ind.
  intros depth. cbn [firstFifty].
  destruct children as [| c children]; [done |].
  change (take 50 (map firstFifty (c :: children)))
    with (firstFifty c :: take 49 (map firstFifty children)).
  rewrite !describeNode_children. do 3 f_equal.
  change (firstFifty c :: take 49 (map firstFifty children))
    with (take 50 (map firstFifty (c :: children))).
  rewrite take_take. change (50 `min` 50)%nat with 50%nat.
  rewrite !firstn_map, map_map. apply map_ext_in.
  intros x Hx. apply In_firstn in Hx.
  rewrite List.Forall_forall in IH. by apply IH.
Qed.

End Layers.

(** X18.  The layer structure recorded for a frame describes at most the
    first fifty children of every node: it is the same text when the
    children after the fiftieth are cut off at every level of the
    tree. *)
Theorem layer_structure_stops_at_fifty_children :
  forall (node : SceneNode),
    fd_layerStructure (frameDataOf (firstFifty node))
    = fd_layerStructure (frameDataOf node).
Proof.
  intros node.
  assert (forall n, fd_layerStructure (frameDataOf n) = describeNode n 0) as E
    by by intros [].
  rewrite !E. apply describeNode_firstFifty.
Qed.
(** * The cards of the flow analysis *)

Section Bold.
Import Regex.

Lemma startsWith_bold (c : N) (s : jstring) :
  JS.startsWith (u "**") (c :: s)
  = (42 =? c) && match s with d :: _ => 42 =? d | [] => false end.
Proof.
  change (u "**") with [42; 42]. destruct s as [| d s]; cbn [JS.startsWith]; [done |].
  by rewrite andb_true_r.
Qed.

Lemma noBold_cons (c : N) (s : jstring) :
  noBold (c :: s)
  <-> (42 =? c) && match s with d :: _ => 42 =? d | [] => false end = false /\ noBold s.
Proof.
  unfold noBold. change (JS.includes (c :: s) (u "**"))
    with (JS.startsWith (u "**") (c :: s) || JS.includes s (u "**")).
  by rewrite orb_false_iff, startsWith_bold.
Qed.

Lemma noBold_nil : noBold [].
Proof. reflexivity. Qed.

(** A part of a text without [**] has none. *)
Lemma noBold_part (pre x post : jstring) : noBold (pre ++ x ++ post) -> noBold x.
Proof.
  unfold noBold. intros H. destruct (JS.includes x (u "**")) eqn:E; [| done].
  apply includes_iff in E as (a & b & ->).
  rewrite <- H. symmetry. apply includes_iff.
  exists (pre ++ a), (b ++ post). by rewrite <- !app_assoc.
Qed.

Lemma noBold_prefix (x post : jstring) : noBold (x ++ post) -> noBold x.
Proof. apply (noBold_part [] x post). Qed.

Lemma noBold_suffix (pre x : jstring) : noBold (pre ++ x) -> noBold x.
Proof. intros H. apply (noBold_part pre x []). by rewrite app_nil_r. Qed.

(** Two texts without [**] joined by a code unit that is no star. *)
Lemma noBold_between (a b : jstring) (c : N) :
  c <> 42 -> noBold a -> noBold b -> noBold (a ++ c :: b).
Proof.
  intros Hc Ha Hb.
  assert ((42 =? c) = false) as Ec by (apply N.eqb_neq; congruence).
  induction a as [| x a IH]; cbn [app].
  - apply noBold_cons. by rewrite Ec.
  - apply noBold_cons in Ha as [Hx Ha]. apply noBold_cons. split; [| by apply IH].
    destruct a as [| y a]; cbn [app]; [by rewrite Ec, andb_false_r | exact Hx].
Qed.

(** A text that stays without [**] when a star is put behind it, in
    front of a text without [**]. *)
Lemma noBold_join (a b : jstring) : noBold (a ++ [42]) -> noBold b -> noBold (a ++ b).
Proof.
  intros Ha Hb. induction a as [| x a IH]; cbn [app] in *; [done |].
  apply noBold_cons in Ha as [Hx Ha]. apply noBold_cons. split; [| by apply IH].
  destruct a as [| y a]; cbn [app] in *; [| exact Hx].
  change (42 =? 42) with true in Hx. rewrite andb_true_r in Hx. by rewrite Hx.
Qed.

(** The leftmost [**]: what is skipped holds none, also with a star
    behind it. *)
Lemma search_bold (s : jstring) :
  forall prev,
    match search false Flow.reBold prev s with
    | None => noBold s
    | Some f =>
        s = before f ++ u "**" ++ rest f /\ matched f = u "**" /\
        noBold (before f ++ [42])
    end.
Proof.
  assert (forall prev s,
             match_here false Flow.reBold prev s
             = if JS.startsWith (u "**") s
               then Some (Found [] (take (length s - length (drop 2 s)) s) (drop 2 s)
                            (lastOf prev (u "**")) None)
               else None) as Hhere.
  { intros prev s0. unfold match_here, Flow.reBold, lit. by rewrite go_literal. }
  induction s as [| c s IH]; intros prev; cbn [search]; rewrite Hhere.
  - done.
  - destruct (JS.startsWith (u "**") (c :: s)) eqn:Es.
    + apply startsWith_iff in Es as [post Es]. rewrite Es.
      change (u "**") with [42; 42]. cbn [before matched rest app drop length].
      rewrite !drop_0.
      replace (S (S (length post)) - length post)%nat with 2%nat by lia.
      done.
    + specialize (IH (Some c)).
      destruct (search false Flow.reBold (Some c) s) as [f |].
      * destruct IH as (-> & Hm & Hb). cbn [before matched rest].
        split; [done |]. split; [done |].
        change ((c :: before f) ++ [42]) with (c :: before f ++ [42]).
        apply noBold_cons. split; [| done].
        rewrite startsWith_bold in Es.
        destruct (before f) as [| x pre]; exact Es.
      * apply noBold_cons. by rewrite <- startsWith_bold.
Qed.

(** Taking out every [**] leaves none. *)
Lemma replace_bold (n : nat) :
  forall (prev : option N) (s : jstring),
    (length s < n)%nat -> noBold (replace_go false Flow.reBold [] n prev s).
Proof.
  induction n as [| n IH]; intros prev s Hn; [lia |]. cbn [replace_go].
  pose proof (search_bold s prev) as H.
  destruct (search false Flow.reBold prev s) as [f |]; [| exact H].
  destruct H as (Hs & -> & Hb). change (u "**") with [42; 42] in *.
  cbn [app]. apply noBold_join; [exact Hb |].
  apply IH. rewrite Hs, !length_app in Hn. cbn [length] in Hn. lia.
Qed.

Lemma replaceAll_bold (s : jstring) : noBold (replaceAll false Flow.reBold [] s).
Proof. apply replace_bold. lia. Qed.

(** Putting a line feed for every line feed followed by heading markers
    brings no [**] in. *)
Lemma replace_newlineHashes (n : nat) :
  forall (prev : option N) (s : jstring),
    noBold s -> noBold (replace_go false Canvas.reNewlineHashes Canvas.nl n prev s).
Proof.
  induction n as [| n IH]; intros prev s Hs; [done |]. cbn [replace_go].
  destruct (search false Canvas.reNewlineHashes prev s) as [f |] eqn:E; [| done].
  pose proof (search_parts _ _ _ _ _ E) as Hparts.
  apply search_position in E as (s0 & prev0 & f0 & _ & E & Hm & _).
  apply match_here_chr in E as (c & t & Hc & _). rewrite Hm in Hc.
  rewrite Hc. rewrite Hparts in Hs.
  apply noBold_between; [done | by apply noBold_prefix in Hs |].
  apply IH. rewrite app_assoc in Hs. by apply noBold_suffix in Hs.
Qed.

Lemma trim_part (s : jstring) : exists pre post, s = pre ++ JS.trim s ++ post.
Proof.
  assert (forall x, exists pre, x = pre ++ JS.trimStart x) as Hstart.
  { induction x as [| c x [pre IH]]; [by exists [] |]. cbn [JS.trimStart].
    destruct (JS.isSpace c); [| by exists []].
    exists (c :: pre). cbn [app]. by f_equal. }
  unfold JS.trim, JS.trimEnd.
  destruct (Hstart s) as [pre Hs].
  destruct (Hstart (rev (JS.trimStart s))) as [post Hr].
  exists pre, (rev post).
  rewrite <- rev_app_distr, <- Hr, rev_involutive. exact Hs.
Qed.

Lemma noBold_trim (s : jstring) : noBold s -> noBold (JS.trim s).
Proof.
  intros H. destruct (trim_part s) as (pre & post & E). rewrite E in H.
  by apply noBold_part in H.
Qed.

(** The last pass leaves no [**]. *)
Lemma stripResidual_bold (v : jstring) : noBold (Flow.stripResidual v).
Proof.
  unfold Flow.stripResidual. apply noBold_trim.
  unfold replaceAll at 1. apply replace_newlineHashes, replaceAll_bold.
Qed.

End Bold.

Section FlowScan.

Lemma flow_flush_untouched (key : jstring) (st : Canvas.scan) :
  untouchedFlow key st -> Flow.flush st !! key = Flow.defaultSections !! key.
Proof.
  intros [Hs Hk]. unfold Flow.flush.
  destruct (Canvas.currentKey st) as [k |]; [| exact Hs].
  destruct (Flow.sectionContent (Canvas.currentLines st)); [exact Hs |].
  rewrite lookup_insert_ne; [exact Hs | congruence].
Qed.

Lemma flow_scan_untouched (key : jstring) (lines : list jstring) (st : Canvas.scan) :
  Forall (fun line => ~ flowHeaderOf key line) lines ->
  untouchedFlow key st -> untouchedFlow key (fold_left Flow.scanLine lines st).
Proof.
  intros Hlines. revert st.
  induction Hlines as [| line lines Hline _ IH]; intros st H; [exact H |].
  cbn [fold_left]. apply IH. unfold Flow.scanLine. unfold flowHeaderOf in Hline.
  destruct (Canvas.findHeader Flow.FLOW_SECTION_HEADERS (JS.trim line)) as [k |] eqn:E.
  - split; cbn [Canvas.sections Canvas.currentKey];
      [by apply flow_flush_untouched | congruence].
  - destruct (Canvas.currentKey st) eqn:Ek; [| exact H].
    destruct H as [Hs Hk]. split; cbn [Canvas.sections Canvas.currentKey]; [exact Hs |].
    by rewrite Ek in Hk.
Qed.

Lemma flow_default_empty (key v : jstring) :
  Flow.defaultSections !! key = Some v -> v = [].
Proof.
  unfold Flow.defaultSections. intros E.
  repeat (rewrite lookup_insert in E; case_decide; [by injection E |]).
  by rewrite lookup_empty in E.
Qed.

(** A section whose header no line shows is empty. *)
Lemma flow_absent (key v : jstring) (lines : list jstring) :
  Forall (fun line => ~ flowHeaderOf key line) lines ->
  Flow.parseLines lines !! key = Some v -> v = [].
Proof.
  intros H. unfold Flow.parseLines. rewrite lookup_fmap.
  rewrite (flow_flush_untouched key); [| apply flow_scan_untouched; [exact H | done]].
  destruct (Flow.defaultSections !! key) as [d |] eqn:E; [| done].
  apply flow_default_empty in E as ->. by intros [= <-].
Qed.

(** The cards: one for each title with a text, in the order of the
    titles. *)
Lemma flowCards_spec (sections : gmap jstring jstring) (l : list jstring) :
  let cards :=
    omap (fun title =>
            match default [] (sections !! title) with
            | [] => None
            | c :: content => Some (title, c :: content)
            end) l in
  map fst cards `sublist_of` l /\
  Forall (fun card => card.2 <> [] /\ sections !! card.1 = Some card.2) cards.
Proof.
  cbn zeta. induction l as [| t l [IH1 IH2]]; [done |]. cbn [omap list_omap].
  destruct (sections !! t) as [v |] eqn:E; cbn [default from_option id].
  - destruct v as [| c v].
    + split; [by apply sublist_cons | exact IH2].
    + cbn [map fst]. split; [by apply sublist_skip |]. by constructor.
  - split; [by apply sublist_cons | exact IH2].
Qed.

End FlowScan.

(** X19.  The flow analysis puts a card on the canvas only for a section
    whose header stands on a line of the vendor's text: the cards follow
    the order of the six titles, each holds the text of its section,
    never an empty one.  A text without any of the six headers gives no
    card at all. *)
Theorem flow_cards_follow_the_headers_found :
  forall documentation : jstring,
    map fst (Flow.flowCards documentation) `sublist_of` Flow.titles /\
    Forall (fun card =>
              card.2 <> [] /\
              Flow.parseFlowSections documentation !! card.1 = Some card.2 /\
              Exists (flowHeaderOf card.1) (Canvas.docLines documentation))
           (Flow.flowCards documentation) /\
    (Forall (fun line => Canvas.findHeader Flow.FLOW_SECTION_HEADERS (JS.trim line) = None)
            (Canvas.docLines documentation) ->
     Flow.flowCards documentation = []).
Proof.
  intros documentation.
  destruct (flowCards_spec (Flow.parseFlowSections documentation) Flow.titles)
    as [H1 H2].
  assert (Forall (fun card =>
              card.2 <> [] /\
              Flow.parseFlowSections documentation !! card.1 = Some card.2 /\
              Exists (flowHeaderOf card.1) (Canvas.docLines documentation))
           (Flow.flowCards documentation)) as H3.
  { eapply Forall_impl; [exact H2 |]. intros [t c] [Hc Hs]. cbn [fst snd] in *.
    split; [exact Hc |]. split; [exact Hs |].
    destruct (decide (Exists (flowHeaderOf t) (Canvas.docLines documentation)))
      as [H | H]; [exact H |].
    apply not_Exists_Forall in H; [| apply _].
    by apply (flow_absent t c) in H. }
  split; [exact H1 |]. split; [exact H3 |].
  intros Hnone. destruct (Flow.flowCards documentation) as [| [t c] cards]; [done |].
  apply Forall_cons in H3 as [(_ & _ & H) _]. cbn [fst] in H.
  apply Exists_exists in H as (line & Hin & Hline).
  rewrite Forall_forall in Hnone. specialize (Hnone line Hin).
  unfold flowHeaderOf in Hline. congruence.
Qed.

(** X20.  No section of the flow analysis and no card made of one holds
    two stars in a row, whatever the vendor's text is. *)
Theorem flow_sections_hold_no_bold_markers :
  forall documentation : jstring,
    map_Forall (fun _ v => JS.includes v (u "**") = false)
      (Flow.parseFlowSections documentation) /\
    Forall (fun card => JS.includes card.2 (u "**") = false)
      (Flow.flowCards documentation).
Proof.
  intros documentation.
  assert (map_Forall (fun _ v => JS.includes v (u "**") = false)
            (Flow.parseFlowSections documentation)) as H.
  { unfold Flow.parseFlowSections, Flow.parseLines. apply map_Forall_fmap.
    intros key v _. apply stripResidual_bold. }
  split; [exact H |].
  destruct (flowCards_spec (Flow.parseFlowSections documentation) Flow.titles)
    as [_ H2].
  eapply Forall_impl; [exact H2 |]. intros [t c] [_ Hs]. cbn [fst snd] in *.
  by apply H in Hs.
Qed.

Section ScreenCards.

(** A title whose section starts empty gets an optional card only when
    its header stands on a line. *)
Lemma optional_title (key : jstring) (lines : list jstring) :
  Canvas.defaultSections !! key = Some [] ->
  match Canvas.parseLines lines !! key with
  | Some v => match JS.trim v with [] => True | _ :: _ => Exists (headerOf key) lines end
  | None => True
  end.
Proof.
  intros Hd.
  destruct (Canvas.parseLines lines !! key) as [v |] eqn:E; [| done].
  destruct (JS.trim v) as [| c t] eqn:Et; [done |].
  destruct (decide (Exists (headerOf key) lines)) as [H | H]; [exact H |].
  apply not_Exists_Forall in H; [| apply _].
  rewrite (parseLines_absent key lines) in E by exact H.
  rewrite Hd in E. injection E as <-. discriminate Et.
Qed.

Lemma section_value (documentation key : jstring) :
  key ∈ Canvas.SECTION_KEYS ->
  Canvas.parseDocSections documentation !! key
  = Some (default [] (Canvas.parseDocSections documentation !! key)).
Proof.
  intros Hk. apply (parseLines_keys (Canvas.docLines documentation)) in Hk as [v Hv].
  unfold Canvas.parseDocSections. by rewrite Hv.
Qed.

End ScreenCards.

(** X21.  Below a screen the six fixed cards are always made, in their
    order, also for an empty text; the cards [Platform Constraints] and
    [Data Logic & Edge Cases] come between the third and the fourth, and
    only when their header stands on a line of the text.  Every card
    holds the text of its section. *)
Theorem screen_gets_six_to_eight_cards :
  forall documentation : jstring,
    exists platform dataLogic : bool,
      map fst (screenCards documentation)
      = [u "Purpose"; u "Use Cases"; u "Edge Cases & Results"]
        ++ (if platform then [u "Platform Constraints"] else [])
        ++ (if dataLogic then [u "Data Logic & Edge Cases"] else [])
        ++ [u "Link to Component Library"; u "Animations & Interactions";
            u "Attachments"] /\
      (if platform
       then Exists (headerOf (u "Platform Constraints")) (Canvas.docLines documentation)
       else True) /\
      (if dataLogic
       then Exists (headerOf (u "Data Logic & Edge Cases")) (Canvas.docLines documentation)
       else True) /\
      Forall (fun card => Canvas.parseDocSections documentation !! card.1 = Some card.2)
        (screenCards documentation).
Proof.
  intros documentation. unfold screenCards. cbn zeta.
  pose proof (optional_title (u "Platform Constraints") (Canvas.docLines documentation)
                eq_refl) as Hp.
  pose proof (optional_title (u "Data Logic & Edge Cases") (Canvas.docLines documentation)
                eq_refl) as Hd.
  change (Canvas.parseLines (Canvas.docLines documentation))
    with (Canvas.parseDocSections documentation) in Hp, Hd.
  set (sections := Canvas.parseDocSections documentation) in *.
  set (optional := fun title : jstring =>
         match sections !! title with
         | Some v => match JS.trim v with [] => [] | _ :: _ => [title] end
         | None => []
         end).
  assert (forall title,
             match sections !! title with
             | Some v => match JS.trim v with
                         | [] => True
                         | _ :: _ => Exists (headerOf title) (Canvas.docLines documentation)
                         end
             | None => True
             end ->
             title ∈ Canvas.SECTION_KEYS ->
             exists b : bool,
               optional title = (if b then [title] else []) /\
               (if b then Exists (headerOf title) (Canvas.docLines documentation) else True) /\
               Forall (fun t => sections !! t = Some (default [] (sections !! t)))
                 (optional title)) as Hopt.
  { intros title H Hk. subst optional. cbn beta.
    destruct (sections !! title) as [v |] eqn:E; [| by exists false].
    destruct (JS.trim v); [by exists false |].
    exists true. split; [done |]. split; [exact H |].
    constructor; [| done]. by apply section_value. }
  destruct (Hopt _ Hp) as (platform & E1 & X1 & F1); [apply (bool_decide_unpack _); vm_compute; exact I |].
  destruct (Hopt _ Hd) as (dataLogic & E2 & X2 & F2); [apply (bool_decide_unpack _); vm_compute; exact I |].
  exists platform, dataLogic.
  rewrite map_map. cbn [fst]. rewrite map_id. rewrite <- E1, <- E2.
  split; [reflexivity |]. split; [exact X1 |]. split; [exact X2 |].
  apply Forall_map. cbn [fst snd].
  repeat (apply Forall_app; split); try assumption;
    repeat (constructor;
            [apply section_value, (bool_decide_unpack _); vm_compute; exact I |]);
    constructor.
Qed.
(** * The relay *)


Section RelayHandler.

Variable toText : JSON.json -> jstring.


End RelayHandler.


Section Envelope.

Lemma envelope_fields (prov : AIProvider) (key model : jstring) (body : JSON.json) :
  Relay.field (Net2.envelope prov key model body) "provider"
  = Some (JSON.JString (providerId prov)) /\
  Relay.field (Net2.envelope prov key model body) "apiKey" = Some (JSON.JString key) /\
  Relay.field (Net2.envelope prov key model body) "model" = Some (JSON.JString model) /\
  Relay.field (Net2.envelope prov key model body) "body" = Some body.
Proof. by repeat split. Qed.

End Envelope.

(** X23.  The relay sends the envelope the plugin builds for a provider,
    with a key that is not empty (and, for Google, a model that is not
    empty), on to the address the endpoint tables of both revisions of
    the plugin name for a direct call to that provider; the body is the
    one of the envelope, and the key goes where the vendor reads it. *)
Theorem relay_reaches_the_endpoint_of_the_provider :
  forall (toText : JSON.json -> jstring)
         (fetch : Relay.Upstream -> Relay.UpstreamResult)
         (prov : AIProvider) (key model : jstring)
         (members : list (jstring * JSON.json)),
    key <> [] ->
    (prov = google -> model <> []) ->
    exists up,
      (Relay.handler toText
         {| Relay.method := u "POST";
            Relay.body := Some (Net2.envelope prov key model (JSON.JObject members)) |}
         fetch).1 = [up] /\
      Relay.url up = Net1.getEndpoint [] prov (Some model) (Some key) /\
      Relay.url up = Net2.getEndpoint [] prov (Some model) (Some key) /\
      Relay.payload up = JSON.JObject members /\
      match prov with
      | anthropic => (u "x-api-key", key) ∈ Relay.headers up
      | openai => (u "Authorization", u "Bearer " ++ key) ∈ Relay.headers up
      | google => True
      end.
Proof.
  intros toText fetch prov key model members Hkey Hmodel.
  unfold Relay.handler. cbn [Relay.method Relay.body].
  change (bool_decide (u "POST" = u "OPTIONS")) with false.
  change (bool_decide (u "POST" = u "POST")) with true. cbn [negb].
  change (Net2.envelope prov key model (JSON.JObject members))
    with (JSON.JObject [ (u "provider", JSON.JString (providerId prov));
                         (u "apiKey", JSON.JString key);
                         (u "model", JSON.JString model);
                         (u "body", JSON.JObject members) ]) at 1.
  cbn iota. unfold Relay.forward.
  destruct (envelope_fields prov key model (JSON.JObject members)) as (-> & -> & -> & ->).
  cbn zeta.
  assert (JSON.truthy (JSON.JString key) = true) as ->.
  { cbn [JSON.truthy]. by rewrite bool_decide_eq_false_2. }
  assert (JSON.truthy (JSON.JString (providerId prov)) = true) as -> by by destruct prov.
  cbn [JSON.truthy negb orb].
  destruct prov.
  - eexists. split; [reflexivity |]. cbn [Relay.url Relay.payload Relay.headers Relay.text].
    repeat split. apply list_elem_of_further, list_elem_of_here.
  - eexists. split; [reflexivity |]. cbn [Relay.url Relay.payload Relay.headers Relay.text].
    repeat split. apply list_elem_of_further, list_elem_of_here.
  - change (Relay.named (JSON.JString (providerId google)) "anthropic") with false.
    change (Relay.named (JSON.JString (providerId google)) "openai") with false.
    change (Relay.named (JSON.JString (providerId google)) "google") with true.
    cbn iota.
    rewrite bool_decide_eq_false_2 by by apply Hmodel. cbn [negb].
    eexists. split; [reflexivity |]. by repeat split.
Qed.

Lemma relay_sample :
  exists up,
    (Relay.handler (fun _ => [])
       {| Relay.method := u "POST";
          Relay.body := Some (Net2.envelope google (u "AIzaSy-sample-key")
                                (u "gemini-1.5-pro") sampleBody) |}
       sampleFetch).1 = [up] /\
    Relay.url up
    = Net1.getEndpoint [] google (Some (u "gemini-1.5-pro")) (Some (u "AIzaSy-sample-key")) /\
    Relay.url up
    = Net2.getEndpoint [] google (Some (u "gemini-1.5-pro")) (Some (u "AIzaSy-sample-key")) /\
    Relay.payload up = sampleBody /\
    True.
Proof.
  apply (relay_reaches_the_endpoint_of_the_provider (fun _ => []) sampleFetch google
           (u "AIzaSy-sample-key") (u "gemini-1.5-pro")
           [ (u "model", JSON.JString (u "claude-sonnet-4-20250514"));
             (u "max_tokens", JSON.JNumber (JSON.Num false 4000 0));
             (u "messages", JSON.JArray []) ]).
  - discriminate.
  - intros _. discriminate.
Defined.
(** * The development proxy *)

Section Routing.
Import Regex.

(** Taking a prefix away with an anchored pattern. *)
Lemma replace1_prefix (l s : jstring) :
  l <> [] -> JS.startsWith l s = true ->
  replace1 false (Seq Bol (seqs (map lit1 l))) [] s = drop (length l) s.
Proof.
  intros Hl Hs. unfold replace1.
  assert (match_here false (Seq Bol (seqs (map lit1 l))) None s
          = Some (Found [] (take (length s - length (drop (length l) s)) s)
                    (drop (length l) s) (lastOf None l) None)) as H.
  { unfold match_here. cbn [go at_bol]. by rewrite go_literal, Hs. }
  by rewrite (search_here _ _ _ _ _ H).
Qed.

Lemma includes_unit (s : jstring) (c : N) :
  JS.includes s [c] = false <-> c ∉ s.
Proof.
  induction s as [| x s IH]; cbn [JS.includes JS.startsWith].
  - split; [intros _; apply not_elem_of_nil | done].
  - rewrite andb_true_r, orb_false_iff, IH, not_elem_of_cons, N.eqb_neq. tauto.
Qed.

End Routing.

(** X24.  Built for development, the plugin posts to the local proxy, and
    the proxy forwards the request to the address the endpoint table
    names for a direct call to the same provider, with the Google key
    moved from the header into the query.  The model name is one an
    address keeps as it is; it holds no question mark, at which the
    proxy cuts the address. *)
Theorem dev_proxy_reaches_the_endpoint_of_the_provider :
  forall (prov : AIProvider) (key model : jstring),
    Forall (fun c => unreserved c = true) model ->
    (prov = google -> key <> []) ->
    exists origin path addHeaders stripHeaders,
      DevProxy.server (devRequest prov key model)
      = DevProxy.Forwarded origin path addHeaders stripHeaders /\
      origin ++ path = Net2.getEndpoint [] prov (Some model) (Some key).
Proof.
  intros prov key model Hsafe Hkey.
  assert (63 ∉ model) as Hmodel.
  { intros H. rewrite Forall_forall in Hsafe. by apply Hsafe in H. }
  unfold DevProxy.server, devRequest.
  cbn [DevProxy.method DevProxy.url DevProxy.googleKey].
  change (bool_decide (u "POST" = u "OPTIONS")) with false.
  change (bool_decide (u "POST" = u "POST")) with true. cbn [negb]. cbn zeta.
  destruct prov.
  - eexists _, _, _, _. split; [vm_compute; reflexivity | reflexivity].
  - eexists _, _, _, _. split; [vm_compute; reflexivity | reflexivity].
  - specialize (Hkey eq_refl). destruct key as [| k key]; [done |].
    set (path := u "/google/v1beta/models/" ++ model ++ u ":generateContent").
    assert (drop (length DevProxy.PORT_BASE)
              (Net2.getEndpoint DevProxy.PORT_BASE google (Some model) (Some (k :: key)))
            = path) as -> by reflexivity.
    assert (JS.includes path (u "?") = false) as Hq.
    { apply includes_unit. subst path. rewrite !elem_of_app.
      intros [H | [H | H]]; [| done |]; vm_compute in H;
        repeat (apply elem_of_cons in H as [H | H]; [discriminate H |]);
        by apply elem_of_nil in H. }
    unfold JS.split. rewrite split_go_absent by exact Hq. cbn [rev app hd].
    assert (JS.startsWith (u "/anthropic/") path = false) as -> by reflexivity.
    assert (JS.startsWith (u "/openai/") path = false) as -> by reflexivity.
    assert (JS.startsWith (u "/google/") path = true) as -> by reflexivity.
    assert (DevProxy.stripPrefix "/google" path
            = u "/v1beta/models/" ++ model ++ u ":generateContent") as ->.
    { unfold DevProxy.stripPrefix, Regex.lit. by rewrite replace1_prefix. }
    assert (JS.includes (u "/v1beta/models/" ++ model ++ u ":generateContent") (u "?")
            = false) as ->.
    { apply includes_unit. rewrite !elem_of_app.
      intros [H | [H | H]]; [| done |]; vm_compute in H;
        repeat (apply elem_of_cons in H as [H | H]; [discriminate H |]);
        by apply elem_of_nil in H. }
    eexists _, _, _, _. split; [reflexivity |].
    cbn [Net2.getEndpoint slot default from_option id].
    unfold DevProxy.GOOGLE_ORIGIN, GOOGLE_MODELS.
    rewrite <- !app_assoc. reflexivity.
Qed.

Lemma dev_proxy_sample :
  exists origin path addHeaders stripHeaders,
    DevProxy.server (devRequest google (u "AIzaSy-sample-key") (u "gemini-1.5-pro"))
    = DevProxy.Forwarded origin path addHeaders stripHeaders /\
    origin ++ path
    = Net2.getEndpoint [] google (Some (u "gemini-1.5-pro")) (Some (u "AIzaSy-sample-key")).
Proof.
  apply (dev_proxy_reaches_the_endpoint_of_the_provider google
           (u "AIzaSy-sample-key") (u "gemini-1.5-pro")).
  - by apply (bool_decide_unpack _).
  - intros _. discriminate.
Defined.

(** X25.  Built for development, the earlier revision posts to the proxy
    of its build configuration, and the proxy sends the same body on to
    the address the endpoint table names for a direct call to the same
    provider, with the key where the vendor reads it.  For Google the
    model name must not be empty: the proxy puts [gemini-2.0-flash] for
    an empty one. *)
Theorem earlier_dev_proxy_reaches_the_endpoint_of_the_provider :
  forall (prov : AIProvider) (key model body : jstring),
    (prov = google -> model <> []) ->
    exists forwardHeaders,
      DevProxy1.handler (devRequest1 prov key model body)
      = DevProxy1.Fetched (Net1.getEndpoint [] prov (Some model) (Some key))
          forwardHeaders body /\
      match prov with
      | anthropic => (u "x-api-key", key) ∈ forwardHeaders
      | openai =>
          (u "Authorization", u "Bearer " ++ key) ∈ forwardHeaders
      | google => forwardHeaders = [(u "Content-Type", u "application/json")]
      end.
Proof.
  intros prov key model body Hmodel.
  assert (forall v : jstring, match v with c :: t => c :: t | [] => [] end = v) as Hor
    by by intros [].
  unfold DevProxy1.handler, devRequest1, DevProxy1.headerOr.
  cbn [DevProxy1.method DevProxy1.url DevProxy1.headers DevProxy1.body].
  change (bool_decide (u "POST" = u "OPTIONS")) with false.
  change (bool_decide (u "POST" = u "POST")) with true. cbn [negb]. cbn zeta.
  destruct prov.
  - change (JS.startsWith (u "/api/anthropic") _) with true. cbn iota.
    assert (DevProxy1.header "x-api-key" (Callers1.headers true anthropic key model)
            = Some key) as -> by reflexivity.
    eexists. split; [reflexivity |].
    apply list_elem_of_further. rewrite Hor. apply list_elem_of_here.
  - change (JS.startsWith (u "/api/anthropic") _) with false.
    change (JS.startsWith (u "/api/openai") _) with true. cbn iota.
    assert (DevProxy1.header "authorization" (Callers1.headers true openai key model)
            = Some (u "Bearer " ++ key)) as -> by reflexivity.
    eexists. split; [reflexivity |].
    apply list_elem_of_further. apply list_elem_of_here.
  - change (JS.startsWith (u "/api/anthropic") _) with false.
    change (JS.startsWith (u "/api/openai") _) with false.
    change (JS.startsWith (u "/api/gemini") _) with true. cbn iota.
    assert (DevProxy1.header "x-gemini-model" (Callers1.headers true google key model)
            = Some model) as -> by reflexivity.
    assert (DevProxy1.header "x-gemini-key" (Callers1.headers true google key model)
            = Some key) as -> by reflexivity.
    rewrite Hor. specialize (Hmodel eq_refl). destruct model as [| c model]; [done |].
    eexists. split; [reflexivity | reflexivity].
Qed.

Lemma earlier_dev_proxy_sample :
  exists forwardHeaders,
    DevProxy1.handler
      (devRequest1 google (u "AIzaSy-sample-key") (u "gemini-1.5-pro") (u "{}"))
    = DevProxy1.Fetched
        (Net1.getEndpoint [] google (Some (u "gemini-1.5-pro"))
           (Some (u "AIzaSy-sample-key")))
        forwardHeaders (u "{}") /\
    forwardHeaders = [(u "Content-Type", u "application/json")].
Proof.
  apply (earlier_dev_proxy_reaches_the_endpoint_of_the_provider google
           (u "AIzaSy-sample-key") (u "gemini-1.5-pro") (u "{}")).
  intros _. discriminate.
Defined.
(** * The summary of the edge case document *)

Section Counts.
Import Parser.

Lemma countSeverity_cons (sev : jstring) (item : MissingScreenItem)
    (items : list MissingScreenItem) :
  countSeverity sev (item :: items)
  = ((if bool_decide (severity item = sev) then 1 else 0) + countSeverity sev items)%nat.
Proof.
  unfold countSeverity. cbn [filter list_filter].
  destruct (decide (bool_decide (severity item = sev))) as [H | H].
  - apply Is_true_true in H. by rewrite H.
  - apply Is_true_false in H. by rewrite H.
Qed.

End Counts.

(** X26.  The three counts in the summary of the edge case document never
    add up to more than the total it shows, and they add up to the total
    exactly when every missing screen has one of the severities [high],
    [medium] and [low]: a screen with any other severity is in the total
    and in none of the counts. *)
Theorem summary_counts_add_up_iff_severities_known :
  forall items : list Parser.MissingScreenItem,
    let counted :=
      (Parser.countSeverity (u "high") items + Parser.countSeverity (u "medium") items
       + Parser.countSeverity (u "low") items)%nat in
    (counted <= length items)%nat /\
    (counted = length items
     <-> Forall (fun item => Parser.severity item ∈ [u "high"; u "medium"; u "low"]) items).
Proof.
  intros items. cbn zeta.
  induction items as [| item items [IH1 IH2]].
  - split; [done |]. split; [by constructor | done].
  - rewrite !countSeverity_cons. cbn [length].
    rewrite Forall_cons, <- IH2. clear IH2.
    destruct (decide (Parser.severity item = u "high")) as [E | N1].
    { rewrite E, bool_decide_eq_true_2 by done.
      rewrite !bool_decide_eq_false_2 by done.
      split; [lia |]. split; [intros H; split; [apply list_elem_of_here | lia] | intros [_ H]; lia]. }
    destruct (decide (Parser.severity item = u "medium")) as [E | N2].
    { rewrite E, (bool_decide_eq_true_2 (u "medium" = u "medium")) by done.
      rewrite !bool_decide_eq_false_2 by done.
      split; [lia |]. split; [intros H; split; [apply list_elem_of_further, list_elem_of_here | lia] | intros [_ H]; lia]. }
    destruct (decide (Parser.severity item = u "low")) as [E | N3].
    { rewrite E, (bool_decide_eq_true_2 (u "low" = u "low")) by done.
      rewrite !bool_decide_eq_false_2 by done.
      split; [lia |]. split; [intros H; split;
                       [do 2 apply list_elem_of_further; apply list_elem_of_here | lia] | intros [_ H]; lia]. }
    rewrite !bool_decide_eq_false_2 by done.
    split; [lia |]. split; [intros H; lia |].
    intros [H _]. exfalso.
    apply elem_of_cons in H as [H | H]; [done |].
    apply elem_of_cons in H as [H | H]; [done |].
    apply elem_of_cons in H as [H | H]; [done |].
    by apply elem_of_nil in H.
Qed.
(** * What the requests of an action carry *)

Section Steady.

Variable ok : AIRequest -> Prop.
Variable s : Session.

(** A step that sends nothing and leaves the session alone. *)
Lemma steady_still {A} (m : M A) :
  (forall w st, exists tail,
      trace (m w st).2 = trace st ++ tail /\ requestsOf tail = [] /\
      session (m w st).2 = session st) ->
  steady ok s m.
Proof.
  intros H w st Hs. destruct (H w st) as (tail & T & R & S'). exists tail.
  rewrite R, S'. done.
Qed.

Lemma steady_ret {A} (a : A) : steady ok s (ret a).
Proof. apply steady_still. intros w st. exists []. cbn. by rewrite app_nil_r. Qed.

Lemma steady_liftR {A} (r : Result A) : steady ok s (liftR r).
Proof. apply steady_still. intros w st. exists []. cbn. by rewrite app_nil_r. Qed.

Lemma steady_getSession : steady ok s getSession.
Proof. apply steady_still. intros w st. exists []. cbn. by rewrite app_nil_r. Qed.

Lemma steady_getState : steady ok s getState.
Proof. apply steady_still. intros w st. exists []. cbn. by rewrite app_nil_r. Qed.

Lemma steady_getWorld : steady ok s getWorld.
Proof. apply steady_still. intros w st. exists []. cbn. by rewrite app_nil_r. Qed.

Lemma steady_selected : steady ok s getSelectedFramesAndComponents.
Proof. apply steady_still. intros w st. exists []. cbn. by rewrite app_nil_r. Qed.

Lemma steady_extractDesignSystem (nodes : list SceneNode) :
  steady ok s (extractDesignSystem nodes).
Proof. apply steady_still. intros w st. exists []. cbn. by rewrite app_nil_r. Qed.

Lemma steady_setCache (ds : DesignSystemData) (frames : list FrameData)
    (nodes : list SceneNode) : steady ok s (setCache ds frames nodes).
Proof. apply steady_still. intros w st. exists []. cbn. by rewrite app_nil_r. Qed.

Lemma steady_setCachedScreenshots (shots : list FrameScreenshot) :
  steady ok s (setCachedScreenshots shots).
Proof. apply steady_still. intros w st. exists []. cbn. by rewrite app_nil_r. Qed.

Lemma steady_emit (ev : Event) :
  match ev with EvFetch _ _ => False | _ => True end -> steady ok s (emit ev).
Proof.
  intros H. apply steady_still. intros w st. exists [ev].
  split; [reflexivity |]. split; [by destruct ev | reflexivity].
Qed.

Lemma steady_onCanvas (op : CanvasOp) : steady ok s (onCanvas op).
Proof. apply steady_still. intros w st. by exists [EvCanvas op]. Qed.

Lemma steady_await (n : nat) : steady ok s (await n).
Proof. apply steady_still. intros w st. by exists [EvReply n]. Qed.

Lemma steady_fetch (rq : AIRequest) : ok rq -> steady ok s (fetch rq).
Proof.
  intros H w st Hs. exists [EvFetch (fetches st) rq].
  split; [reflexivity |]. split; [by constructor | exact Hs].
Qed.

Lemma steady_bind {A B} (m : M A) (f : A -> M B) :
  steady ok s m -> (forall a, steady ok s (f a)) -> steady ok s (m ≫= f).
Proof.
  intros Hm Hf w st Hs. rewrite bind_eval.
  destruct (Hm w st Hs) as (t1 & T1 & R1 & S1).
  destruct (m w st) as [[a | e] st1]; cbn [snd] in *.
  - destruct (Hf a w st1 S1) as (t2 & T2 & R2 & S2).
    exists (t1 ++ t2). rewrite T2, T1, <- app_assoc, requestsOf_app.
    split; [done |]. split; [by apply Forall_app | done].
  - by exists t1.
Qed.

Lemma steady_callAI (rq : AIRequest) : ok rq -> steady ok s (callAI rq).
Proof.
  intros H. apply steady_bind; [by apply steady_fetch | intros n; apply steady_await].
Qed.

Lemma steady_startAll (rqs : list AIRequest) :
  Forall ok rqs -> steady ok s (startAll rqs).
Proof.
  induction 1 as [| rq rqs Hrq _ IH]; [apply steady_ret |].
  cbn [startAll]. apply steady_bind; [by apply steady_fetch | intros n].
  apply steady_bind; [exact IH | intros; apply steady_ret].
Qed.

Lemma steady_awaitAll (ns : list nat) : steady ok s (awaitAll ns).
Proof.
  apply steady_still. intros w st. destruct (awaitAll_reads w ns st) as [read ->].
  exists (map EvReply read). split; [reflexivity |].
  by destruct (replies_read read) as (-> & _).
Qed.

Lemma steady_readFlowAnswer (text : jstring) : steady ok s (readFlowAnswer text).
Proof.
  unfold readFlowAnswer.
  apply steady_bind; [apply steady_liftR | intros [flow ms]].
  destruct ms; [apply steady_ret |].
  apply steady_bind; [apply steady_getWorld | intros w].
  apply steady_bind; [apply steady_liftR | intros doc; apply steady_ret].
Qed.

(** With the session [s], a step that reads the session reads [s]. *)
Lemma steady_withSession {A} (f : Session -> M A) :
  steady ok s (f s) -> steady ok s (getSession ≫= f).
Proof.
  intros H w st Hs. rewrite bind_eval. cbn [getSession]. rewrite Hs. by apply H.
Qed.

End Steady.

Section Chosen.

Variables (key ctx model : jstring) (prov : AIProvider).
Hypothesis key_set : key <> [].
Hypothesis model_set : model <> [].

Let s : Session := {| apiKey := key; projectContext := ctx; currentProvider := prov |}.
Let ok : AIRequest -> Prop := carries key prov model.

Lemma steady_sendToUI (x : MainMessage) : steady ok s (sendToUI x).
Proof. by apply steady_emit. Qed.

Lemma steady_sleep (ms : N) : steady ok s (sleep ms).
Proof. by apply steady_emit. Qed.

Lemma steady_scanBatches (frames : list FrameData) (ds : DesignSystemData)
    (options : bool * bool) :
  forall (fuel i : nat) (docs : list (jstring * jstring)),
    steady ok s (Rev2.scanBatches fuel frames ds model options i docs).
Proof.
  induction fuel as [| fuel IH]; intros i docs; cbn [Rev2.scanBatches];
    [apply steady_ret |].
  destruct (i <? length frames)%nat; [| apply steady_ret].
  apply steady_withSession.
  apply steady_bind.
  { apply steady_startAll. apply Forall_forall. intros rq Hin.
    apply elem_of_lookup_imap in Hin as (j & frameData & -> & _). done. }
  intros started.
  apply steady_bind; [apply steady_awaitAll | intros results].
  apply steady_bind; [apply steady_sendToUI | intros _].
  apply steady_bind; [| intros _; apply IH].
  destruct (_ <? _)%nat; [apply steady_sleep | apply steady_ret].
Qed.

Lemma steady_createCards2 (nodes : list SceneNode) :
  forall (docs : list (jstring * jstring)) (i : nat) (created : list NodeId),
    steady ok s (Rev2.createCards docs nodes i created).
Proof.
  induction docs as [| [name content] docs IH]; intros i created;
    cbn [Rev2.createCards]; [apply steady_ret |].
  apply steady_bind; [apply steady_onCanvas | intros cards].
  apply steady_bind; [| intros _; apply IH].
  destruct (nodes !! i); [destruct cards |];
    apply steady_ret || apply steady_onCanvas.
Qed.

Lemma steady_createCards1 (nodes : list SceneNode) :
  forall (docs : list (jstring * jstring)) (i : nat) (created : list NodeId),
    steady ok s (Rev1.createCards docs nodes i created).
Proof.
  induction docs as [| [name content] docs IH]; intros i created;
    cbn [Rev1.createCards]; [apply steady_ret |].
  apply steady_bind; [apply steady_onCanvas | intros cards; apply IH].
Qed.

Lemma steady_scanEach (ds : DesignSystemData) (total : nat) :
  forall (rest : list FrameData) (i : nat) (docs : list (jstring * jstring)),
    steady ok s (Rev1.scanEach rest ds model total i docs).
Proof.
  induction rest as [| frameData rest IH]; intros i docs; cbn [Rev1.scanEach];
    [apply steady_ret |].
  apply steady_bind; [apply steady_sendToUI | intros _].
  apply steady_bind; [| intros doc; apply IH].
  unfold Rev1.runScanOneScreen. apply steady_withSession. by apply steady_callAI.
Qed.

Lemma steady_flow2 (frames : list FrameData) (ds : DesignSystemData) :
  steady ok s (Rev2.runScanFlowWithEdgeCases frames ds model).
Proof.
  unfold Rev2.runScanFlowWithEdgeCases. apply steady_withSession.
  apply steady_bind; [by apply steady_callAI | intros text; apply steady_readFlowAnswer].
Qed.

Lemma steady_flow1 (frames : list FrameData) (ds : DesignSystemData) :
  steady ok s (Rev1.runScanFlowWithEdgeCases frames ds model).
Proof.
  unfold Rev1.runScanFlowWithEdgeCases. apply steady_withSession.
  apply steady_bind; [by apply steady_callAI | intros text; apply steady_readFlowAnswer].
Qed.

Lemma carries_visualRequest (st : State) (item : Parser.MissingScreenItem)
    (shots : list FrameScreenshot) (i : nat) (designSummary : bool) :
  ok (Rev1.visualRequest s st model item shots i designSummary).
Proof. by destruct shots. Qed.

Lemma steady_generateOne (shots : list FrameScreenshot) (total i : nat)
    (item : Parser.MissingScreenItem) :
  steady ok s (Rev1.generateOne model shots total i item).
Proof.
  unfold Rev1.generateOne.
  apply steady_bind; [apply steady_sendToUI | intros _].
  apply steady_withSession.
  apply steady_bind; [apply steady_getState | intros st0].
  apply steady_bind; [apply steady_callAI, carries_visualRequest | intros text].
  apply steady_bind; [apply steady_liftR | intros spec].
  destruct spec as [spec |]; [apply steady_onCanvas |].
  apply steady_bind; [apply steady_getState | intros st1].
  apply steady_bind; [apply steady_callAI, carries_visualRequest | intros retryText].
  apply steady_bind; [apply steady_liftR | intros retrySpec].
  destruct retrySpec as [spec |]; [apply steady_onCanvas |].
  apply steady_bind; [apply steady_sendToUI | intros _; apply steady_ret].
Qed.

Lemma steady_generateAll (shots : list FrameScreenshot) (total : nat) :
  forall (items : list Parser.MissingScreenItem) (i : nat) (created : list NodeId),
    steady ok s (Rev1.generateAll model shots total i items created).
Proof.
  induction items as [| item items IH]; intros i created; cbn [Rev1.generateAll];
    [apply steady_ret |].
  apply steady_bind; [apply steady_generateOne | intros frames; apply IH].
Qed.

Lemma steady_referenceScreenshots : steady ok s Rev1.referenceScreenshots.
Proof.
  unfold Rev1.referenceScreenshots.
  apply steady_bind; [apply steady_getState | intros st0].
  destruct (cachedScreenshots st0); [| apply steady_ret].
  apply steady_bind; [apply steady_selected | intros selected].
  destruct (match cachedNodes st0 with [] => _ | _ :: _ => _ end); [apply steady_ret |].
  apply steady_bind; [apply steady_getWorld | intros w].
  apply steady_bind; [apply steady_setCachedScreenshots | intros _; apply steady_ret].
Qed.

(** The frame every action shares: the session is set, the body runs
    under [try], the handler reports, the session is put back. *)
Lemma sendsOnly_guarded (body : M unit) (handler : JsError -> M unit)
    (prev : Session) (w : World) (st : State) :
  steady ok s body ->
  (forall e, sendsAtMost 0 (handler e)) ->
  sendsOnly ok ((setSession s;; tryCatchFinally body handler (setSession prev)) w st) st.
Proof.
  intros Hb Hh. unfold sendsOnly. rewrite bind_eval. cbn [setSession].
  set (st0 := {| session := s |}).
  change (trace st) with (trace st0).
  unfold tryCatchFinally.
  destruct (Hb w st0 eq_refl) as (t1 & T1 & R1 & _).
  destruct (body w st0) as [[[] | e] st1]; cbn [snd] in T1.
  - exists t1. done.
  - destruct (Hh e w st1) as (t2 & T2 & N2).
    destruct (handler e w st1) as [r2 st2]; cbn [snd] in T2.
    exists (t1 ++ t2). cbn. rewrite T2, T1, <- app_assoc, requestsOf_app.
    split; [done |]. apply Forall_app. split; [done |].
    destruct (requestsOf t2); [constructor | cbn in N2; lia].
Qed.

Lemma sendsOnly_notice (x : MainMessage) (w : World) (st : State) :
  sendsOnly ok (sendToUI x w st) st.
Proof. exists [EvUI x]. split; [reflexivity | constructor]. Qed.

Lemma sendError2_sends_nothing (e : JsError) : sendsAtMost 0 (Rev2.sendError e).
Proof.
  intros w st. destruct (sendError2_posts e w st) as (x & -> & _).
  exists [EvUI x]. done.
Qed.

Lemma sendError1_sends_nothing (e : JsError) : sendsAtMost 0 (Rev1.sendError e).
Proof.
  intros w st. destruct (sendError1_posts e w st) as (x & -> & _).
  exists [EvUI x]. done.
Qed.

End Chosen.

Lemma chooseModel_set (msgModel : option jstring) (p : AIProvider) :
  chooseModel msgModel p <> [].
Proof.
  unfold chooseModel. destruct msgModel as [[| c m] |]; cbn [orElse];
    [by destruct p | done | by destruct p].
Qed.

(** X27.  In the later revision every request the documentation or the
    flow action sends carries the key the action chose (the trimmed key
    of the message, or of the session when the message has none), the
    provider of the message and the model chosen for it, and neither
    the key nor the model is empty, whatever the vendor answers. *)
Theorem later_requests_carry_the_chosen_key_provider_and_model :
  forall (msgApiKey : jstring) (msgProvider : AIProvider)
         (msgProjectContext msgModel : option jstring)
         (msgOptions : option (option bool * option bool))
         (w : World) (st : State),
    let ok := carries (chooseKey msgApiKey (session st)) msgProvider
                (chooseModel msgModel msgProvider) in
    sendsOnly ok (Rev2.handleScanScreens msgApiKey msgProvider msgProjectContext
                    msgModel msgOptions w st) st /\
    sendsOnly ok (Rev2.handleScanFlow msgApiKey msgProvider msgProjectContext
                    msgModel w st) st.
Proof.
  intros msgApiKey msgProvider msgProjectContext msgModel msgOptions w st ok.
  subst ok.
  pose proof (chooseModel_set msgModel msgProvider) as Hmodel.
  set (model := chooseModel msgModel msgProvider) in *.
  set (ctx := chooseContext msgProjectContext (session st)).
  repeat split.
  - unfold Rev2.handleScanScreens.
    rewrite bind_eval. cbn [getSession]. rewrite bind_eval.
    cbn [getSelectedFramesAndComponents]. cbv zeta.
    destruct (filter _ (selection w)) as [| node nodes]; [apply sendsOnly_notice |].
    destruct (chooseKey msgApiKey (session st)) as [| c key] eqn:Ek;
      [apply sendsOnly_notice |].
    assert (c :: key <> []) as Hkey by done.
    apply sendsOnly_guarded; [| apply sendError2_sends_nothing].
    apply steady_bind; [apply steady_extractDesignSystem | intros ds].
    apply steady_bind; [apply steady_setCache | intros _].
    apply steady_bind; [by apply steady_scanBatches | intros docs].
    apply steady_bind; [apply steady_sendToUI | intros _].
    apply steady_bind; [apply steady_createCards2 | intros created].
    apply steady_bind; [| intros _; apply steady_sendToUI].
    destruct created; [apply steady_ret | apply steady_onCanvas].
  - unfold Rev2.handleScanFlow.
    rewrite bind_eval. cbn [getSession]. rewrite bind_eval.
    cbn [getSelectedFramesAndComponents]. cbv zeta.
    destruct (filter _ (selection w)) as [| node nodes]; [apply sendsOnly_notice |].
    destruct (chooseKey msgApiKey (session st)) as [| c key] eqn:Ek;
      [apply sendsOnly_notice |].
    assert (c :: key <> []) as Hkey by done.
    apply sendsOnly_guarded; [| apply sendError2_sends_nothing].
    apply steady_bind; [apply steady_sendToUI | intros _].
    apply steady_bind; [apply steady_extractDesignSystem | intros ds].
    apply steady_bind; [apply steady_setCache | intros _].
    apply steady_bind; [by apply steady_flow2 | intros flow].
    apply steady_bind; [apply steady_sendToUI | intros _].
    apply steady_bind; [apply steady_onCanvas | intros flowCards].
    apply steady_bind.
    { destruct (missingScreens flow); [apply steady_ret |].
      apply steady_bind; [apply steady_sendToUI | intros _; apply steady_onCanvas]. }
    intros missingCards.
    apply steady_bind; [| intros _; apply steady_sendToUI].
    destruct (flowCards ++ missingCards); [apply steady_ret | apply steady_onCanvas].
Qed.

(** X28.  In the earlier revision every request the documentation, the
    flow or the regeneration action sends carries the key the action
    chose (the trimmed key of the message, or of the session when the
    message has none), the provider of the message and the model chosen
    for it, and neither the key nor the model is empty, whatever the
    vendor answers. *)
Theorem earlier_requests_carry_the_chosen_key_provider_and_model :
  forall (msgApiKey : jstring) (msgProvider : AIProvider)
         (msgProjectContext msgModel : option jstring)
         (missingScreens : list Parser.MissingScreenItem) (documentation : jstring)
         (w : World) (st : State),
    let ok := carries (chooseKey msgApiKey (session st)) msgProvider
                (chooseModel msgModel msgProvider) in
    sendsOnly ok (Rev1.handleScanScreens msgApiKey msgProvider msgProjectContext
                    msgModel w st) st /\
    sendsOnly ok (Rev1.handleScanFlow msgApiKey msgProvider msgProjectContext
                    msgModel w st) st /\
    sendsOnly ok (Rev1.handleGenerateMissingScreens missingScreens documentation
                    msgApiKey msgProvider msgProjectContext msgModel w st) st.
Proof.
  intros msgApiKey msgProvider msgProjectContext msgModel items documentation w st ok.
  subst ok.
  pose proof (chooseModel_set msgModel msgProvider) as Hmodel.
  set (model := chooseModel msgModel msgProvider) in *.
  set (ctx := chooseContext msgProjectContext (session st)).
  repeat split.
  - unfold Rev1.handleScanScreens.
    rewrite bind_eval. cbn [getSession]. rewrite bind_eval.
    cbn [getSelectedFramesAndComponents]. cbv zeta.
    destruct (filter _ (selection w)) as [| node nodes]; [apply sendsOnly_notice |].
    destruct (chooseKey msgApiKey (session st)) as [| c key] eqn:Ek;
      [apply sendsOnly_notice |].
    assert (c :: key <> []) as Hkey by done.
    apply sendsOnly_guarded; [| apply sendError1_sends_nothing].
    apply steady_bind; [apply steady_extractDesignSystem | intros ds].
    apply steady_bind; [apply steady_setCache | intros _].
    apply steady_bind; [by apply steady_scanEach | intros docs].
    apply steady_bind; [apply steady_sendToUI | intros _].
    apply steady_bind; [apply steady_createCards1 | intros created].
    apply steady_bind; [| intros _; apply steady_sendToUI].
    destruct created; [apply steady_ret | apply steady_onCanvas].
  - unfold Rev1.handleScanFlow.
    rewrite bind_eval. cbn [getSession]. rewrite bind_eval.
    cbn [getSelectedFramesAndComponents]. cbv zeta.
    destruct (filter _ (selection w)) as [| node nodes]; [apply sendsOnly_notice |].
    destruct (chooseKey msgApiKey (session st)) as [| c key] eqn:Ek;
      [apply sendsOnly_notice |].
    assert (c :: key <> []) as Hkey by done.
    apply sendsOnly_guarded; [| apply sendError1_sends_nothing].
    apply steady_bind; [apply steady_sendToUI | intros _].
    apply steady_bind; [apply steady_extractDesignSystem | intros ds].
    apply steady_bind; [apply steady_setCache | intros _].
    apply steady_bind; [by apply steady_flow1 | intros flow].
    apply steady_bind; [apply steady_sendToUI | intros _].
    apply steady_bind; [apply steady_onCanvas | intros flowCards].
    apply steady_bind; [apply steady_sendToUI | intros _].
    destruct (missingScreens flow); [apply steady_ret | apply steady_sendToUI].
  - unfold Rev1.handleGenerateMissingScreens.
    rewrite bind_eval. cbn [getSession]. cbv zeta.
    destruct (chooseKey msgApiKey (session st)) as [| c key] eqn:Ek.
    { exists []. cbn. by rewrite app_nil_r. }
    destruct items as [| item items].
    { exists []. cbn. by rewrite app_nil_r. }
    assert (c :: key <> []) as Hkey by done.
    apply sendsOnly_guarded; [| apply sendError1_sends_nothing].
    apply steady_bind; [apply steady_sendToUI | intros _].
    apply steady_bind; [apply steady_referenceScreenshots | intros shots].
    apply steady_bind; [apply steady_onCanvas | intros _].
    apply steady_bind; [by apply steady_generateAll | intros created].
    apply steady_bind.
    { destruct created; [apply steady_ret |].
      apply steady_bind; [apply steady_onCanvas | intros _; apply steady_onCanvas]. }
    intros _.
    apply steady_bind; [apply steady_sendToUI | intros _].
    apply steady_bind; [apply steady_getWorld | intros w0].
    apply steady_bind; [apply steady_onCanvas | intros _; apply steady_sendToUI].
Qed.
